(** * RT73 codeplug codec: a shallow embedding of [rt73.py]

    The development follows the Python source top to bottom: the protocol
    constants and lookup tables, the [Parser] record codec ([fromBytes],
    [toBytes]), the field schemas, [decompileCodeplug] and [compileCodeplug].

    Modelling conventions.
    - A [bytes]/[bytearray] object is a [list Z] whose elements are in
      [0, 256).  Index reads and writes raise [IndexError] out of range;
      slices clamp as Python's do (all slice bounds the code computes are
      non-negative).
    - Python exceptions are the [Raise] case of [outcome]; nothing in the two
      functions catches them except the two [try] blocks modelled below, so a
      [Raise] is a fatal failure of the whole call.
    - A [str] is a [string]; [encode('ascii')] fails on a character above 127.
    - The JSON document is a [value]: strings, integers, floats, lists and
      insertion-ordered dictionaries (booleans and null occur nowhere in a
      codeplug document).  The floats of a document are the CTCSS table
      entries, all literals with one fractional digit; a float is therefore
      held as its number of tenths, and stands for the double nearest to
      that literal where [int()] or an encoding lambda computes on it.
    - [json.dumps]/[json.loads] are outside the model: [decompileCodeplug]
      returns the dictionary that the source hands to [json.dumps],
      [compileCodeplug] takes the dictionary [json.loads] returns.
    - What [print] and [debugMsg] write is not modelled, with two exceptions:
      the arguments of a [debugMsg] call are evaluated whatever the verbosity,
      so the lookups and concatenations in them can raise and are kept; and
      the quick-message loop records the message numbers it reports as
      skipped. *)

From Stdlib Require Import ZArith List String Ascii Bool Lia DecimalString.
Import ListNotations.
Open Scope string_scope.
Open Scope list_scope.
Open Scope Z_scope.

(** ** Python layer *)

Inductive pyexc : Set :=
| KeyError | IndexError | ValueError | TypeError | AttributeError
| OverflowError | UnicodeEncodeError | UnicodeDecodeError | UnboundLocalError.

Inductive outcome (A : Type) : Type :=
| Ok (a : A)
| Raise (e : pyexc).
Arguments Ok {A} a.
Arguments Raise {A} e.

Definition bind {A B} (m : outcome A) (k : A -> outcome B) : outcome B :=
  match m with
  | Ok a => k a
  | Raise e => Raise e
  end.

Notation "x <- m ;; k" := (bind m (fun x => k))
  (at level 61, m at next level, right associativity).

Definition succeeds {A} (m : outcome A) : bool :=
  match m with Ok _ => true | Raise _ => false end.

(** [for x in xs: acc = body(acc, x)], stopping at the first exception. *)
Fixpoint for_each {A S} (xs : list A) (body : S -> A -> outcome S) (s : S)
  : outcome S :=
  match xs with
  | [] => Ok s
  | x :: rest => s' <- body s x ;; for_each rest body s'
  end.

(** [range(n)] *)
Definition range (n : Z) : list Z := map Z.of_nat (seq 0 (Z.to_nat n)).

(** [for i, x in enumerate(xs)], used where the source keeps a [count]. *)
Fixpoint enumerate_from {A} (i : Z) (xs : list A) : list (Z * A) :=
  match xs with
  | [] => []
  | x :: rest => (i, x) :: enumerate_from (i + 1) rest
  end.

Definition len {A} (l : list A) : Z := Z.of_nat (List.length l).

#[warnings="-register-all"]
Inductive value : Type :=
| VStr (s : string)
| VInt (n : Z)
| VFloat (tenths : Z)
| VList (l : list value)
| VDict (d : list (string * value)).

Definition dict := list (string * value).

Fixpoint dict_lookup (k : string) (d : dict) : option value :=
  match d with
  | [] => None
  | (k', v) :: rest => if String.eqb k k' then Some v else dict_lookup k rest
  end.

(** [d[k]] *)
Definition dict_get (k : string) (d : dict) : outcome value :=
  match dict_lookup k d with
  | Some v => Ok v
  | None => Raise KeyError
  end.

(** [d[k] = v]: overwrite in place, or append a new key. *)
Fixpoint dict_set (k : string) (v : value) (d : dict) : dict :=
  match d with
  | [] => [(k, v)]
  | (k', v') :: rest =>
      if String.eqb k k' then (k, v) :: rest else (k', v') :: dict_set k v rest
  end.

Definition as_dict (v : value) : outcome dict :=
  match v with VDict d => Ok d | _ => Raise TypeError end.

Definition as_list (v : value) : outcome (list value) :=
  match v with VList l => Ok l | _ => Raise TypeError end.

(** A value concatenated to a [str], as in the arguments of [debugMsg],
    which are evaluated whatever the verbosity. *)
Definition as_str (v : value) : outcome string :=
  match v with VStr s => Ok s | _ => Raise TypeError end.

(** [v == "..."] against a string literal *)
Definition is_str (s : string) (v : value) : bool :=
  match v with VStr s' => String.eqb s' s | _ => false end.

(** Python [==] on the scalar values a document holds; an [int] equals the
    [float] of the same numeric value. *)
Definition py_eq (a b : value) : bool :=
  match a, b with
  | VStr s, VStr t => String.eqb s t
  | VInt m, VInt n => m =? n
  | VFloat s, VFloat t => s =? t
  | VInt m, VFloat t => 10 * m =? t
  | VFloat t, VInt m => 10 * m =? t
  | _, _ => false
  end.

(** *** Byte buffers *)

(** [data[a:b]] for [0 <= a] *)
Definition slice (data : list Z) (a b : Z) : list Z :=
  firstn (Z.to_nat (b - a)) (skipn (Z.to_nat a) data).

(** [data[i]] *)
Definition byte_at (data : list Z) (i : Z) : outcome Z :=
  match nth_error data (Z.to_nat i) with
  | Some b => Ok b
  | None => Raise IndexError
  end.

Fixpoint set_nth (n : nat) (v : Z) (data : list Z) : option (list Z) :=
  match data, n with
  | [], _ => None
  | _ :: rest, O => Some (v :: rest)
  | b :: rest, S n' => option_map (cons b) (set_nth n' v rest)
  end.

(** [data[i] = v] on a [bytearray] *)
Definition byte_store (data : list Z) (i v : Z) : outcome (list Z) :=
  if (0 <=? v) && (v <? 256) then
    match set_nth (Z.to_nat i) v data with
    | Some data' => Ok data'
    | None => Raise IndexError
    end
  else
    match nth_error data (Z.to_nat i) with
    | Some _ => Raise ValueError
    | None => Raise IndexError
    end.

(** [data[i] |= k] *)
Definition byte_or (data : list Z) (i k : Z) : outcome (list Z) :=
  b <- byte_at data i ;; byte_store data i (Z.lor b k).

(** [data[a:b] = src] for [0 <= a]; the buffer changes length when [src] is
    not as long as the (clamped) slice it replaces. *)
Definition slice_assign (data : list Z) (a b : Z) (src : list Z) : list Z :=
  firstn (Z.to_nat a) data ++ src ++ skipn (Z.to_nat (Z.max a b)) data.

(** [bytearray(n)] *)
Definition bytearray (n : Z) : list Z := repeat 0 (Z.to_nat n).

(** [int.from_bytes(l, byteorder='little')] *)
Fixpoint from_bytes (l : list Z) : Z :=
  match l with
  | [] => 0
  | b :: rest => b + 256 * from_bytes rest
  end.

Fixpoint le_bytes (width : nat) (n : Z) : list Z :=
  match width with
  | O => []
  | S k => n mod 256 :: le_bytes k (n / 256)
  end.

(** [n.to_bytes(length=width, byteorder='little')] *)
Definition to_bytes (n width : Z) : outcome (list Z) :=
  if (0 <=? n) && (n <? 256 ^ width)
  then Ok (le_bytes (Z.to_nat width) n)
  else Raise OverflowError.

Definition int_to_bytes (v : value) (width : Z) : outcome (list Z) :=
  match v with
  | VInt n => to_bytes n width
  | _ => Raise AttributeError
  end.

(** *** Strings *)

Definition ord (c : ascii) : Z := Z.of_N (N_of_ascii c).
Definition chr (b : Z) : ascii := ascii_of_N (Z.to_N b).

Fixpoint encode_ascii (s : string) : outcome (list Z) :=
  match s with
  | EmptyString => Ok []
  | String c rest =>
      if ord c <? 128
      then bs <- encode_ascii rest ;; Ok (ord c :: bs)
      else Raise UnicodeEncodeError
  end.

Definition str_encode (v : value) : outcome (list Z) :=
  match v with
  | VStr s => encode_ascii s
  | _ => Raise AttributeError
  end.

Fixpoint decode_ascii (l : list Z) : outcome string :=
  match l with
  | [] => Ok EmptyString
  | b :: rest =>
      if b <? 128
      then s <- decode_ascii rest ;; Ok (String (chr b) s)
      else Raise UnicodeDecodeError
  end.

(** [s.rstrip("\x00")] *)
Fixpoint rstrip_nul (s : string) : string :=
  match s with
  | EmptyString => EmptyString
  | String c rest =>
      match rstrip_nul rest with
      | EmptyString => if Ascii.eqb c zero then EmptyString else String c EmptyString
      | rest' => String c rest'
      end
  end.

(** [s[0:n]] *)
Fixpoint str_prefix (n : nat) (s : string) : string :=
  match n, s with
  | S k, String c rest => String c (str_prefix k rest)
  | _, _ => EmptyString
  end.

(** [str(n)] for an [int] *)
Definition str_int (n : Z) : string := NilZero.string_of_int (Z.to_int n).

(** [str(f)] for a float held as tenths: [62.5], [100.0] *)
Definition str_float (tenths : Z) : string :=
  let sign := if tenths <? 0 then "-" else "" in
  let whole := str_int (Z.abs tenths / 10) in
  let frac := str_int (Z.abs tenths mod 10) in
  (sign ++ whole ++ "." ++ frac)%string.

(** [s.zfill(width)] for an unsigned digit string *)
Fixpoint zfill_pad (n : nat) (s : string) : string :=
  match n with
  | O => s
  | S k => String "0" (zfill_pad k s)
  end.
Definition zfill (width : nat) (s : string) : string :=
  zfill_pad (width - String.length s) s.

(** [s.endswith(c)] for a one-character suffix *)
Fixpoint endswith (c : ascii) (s : string) : bool :=
  match s with
  | EmptyString => false
  | String d EmptyString => Ascii.eqb d c
  | String _ rest => endswith c rest
  end.

(** [s.replace(c, '')] *)
Fixpoint remove_char (c : ascii) (s : string) : string :=
  match s with
  | EmptyString => EmptyString
  | String d rest =>
      if Ascii.eqb d c then remove_char c rest else String d (remove_char c rest)
  end.

Definition digit_val (c : ascii) : option Z :=
  let n := ord c in
  if (48 <=? n) && (n <=? 57) then Some (n - 48) else None.

(** The characters [int()] drops around a number: tab to carriage return
    and the blank, and, of the code points a [string] here can hold, NEL and
    the no-break space. *)
Definition is_space (c : ascii) : bool :=
  let n := ord c in
  ((9 <=? n) && (n <=? 13)) || (n =? 32) || (n =? 133) || (n =? 160).

Fixpoint lstrip (s : string) : string :=
  match s with
  | EmptyString => EmptyString
  | String c rest => if is_space c then lstrip rest else s
  end.

Fixpoint rstrip (s : string) : string :=
  match s with
  | EmptyString => EmptyString
  | String c rest =>
      match rstrip rest with
      | EmptyString => if is_space c then EmptyString else String c EmptyString
      | rest' => String c rest'
      end
  end.

(** Decimal digits, a single underscore allowed between two of them: the
    number read and how many digits it has.  [need_digit] holds at the start
    and after an underscore. *)
Fixpoint parse_digits (need_digit : bool) (acc count : Z) (s : string)
  : outcome (Z * Z) :=
  match s with
  | EmptyString => if need_digit then Raise ValueError else Ok (acc, count)
  | String c rest =>
      match digit_val c with
      | Some d => parse_digits false (10 * acc + d) (count + 1) rest
      | None =>
          if Ascii.eqb c "_" && negb need_digit
          then parse_digits true acc count rest
          else Raise ValueError
      end
  end.

(** The interpreter's default limit on the digits of a number read from
    text. *)
Definition int_max_str_digits : Z := 4300.

(** [int(s)] for a string: blanks around, a sign, then the digits. *)
Definition int_of_str (s : string) : outcome Z :=
  let s := rstrip (lstrip s) in
  let '(negative, digits) :=
    match s with
    | String "-" rest => (true, rest)
    | String "+" rest => (false, rest)
    | _ => (false, s)
    end in
  parsed <- parse_digits true 0 0 digits ;;
  let '(n, count) := parsed in
  if count >? int_max_str_digits then Raise ValueError
  else Ok (if negative : bool then - n else n).

(** [l[i]] on a Python list: a negative index counts from the end. *)
Definition list_index {A} (l : list A) (i : Z) : outcome A :=
  let j := if i <? 0 then i + len l else i in
  if j <? 0 then Raise IndexError
  else match nth_error l (Z.to_nat j) with
       | Some x => Ok x
       | None => Raise IndexError
       end.

(** [l.index(x)] *)
Fixpoint index_of {A} (eqb : A -> A -> bool) (x : A) (l : list A) : outcome Z :=
  match l with
  | [] => Raise ValueError
  | y :: rest => if eqb y x then Ok 0 else i <- index_of eqb x rest ;; Ok (i + 1)
  end.

(** *** Floats

    A Python [float] is an IEEE 754 double.  A finite one is held as the
    integers [m] and [e] of the number [m * 2^e]; the sign of a zero is not
    kept, as nothing below tells [0.0] from [-0.0]. *)

Inductive pyfloat : Set :=
| Finite (m e : Z)
| Infinite (negative : bool).

(** [num / den], for [0 <= num] and [0 < den], to the nearest integer, a
    tie to the even one. *)
Definition round_half_even (num den : Z) : Z :=
  let q := num / den in
  let r := num mod den in
  if 2 * r <? den then q
  else if den <? 2 * r then q + 1
  else if Z.even q then q else q + 1.

(** The largest [k] with [2^k <= num / den], for [0 < num] and [0 < den]. *)
Definition floor_log2 (num den : Z) : Z :=
  let k := Z.log2 num - Z.log2 den in
  let reached :=
    if 0 <=? k then den * 2 ^ k <=? num else den <=? num * 2 ^ (- k) in
  if reached then k else k - 1.



(** The double nearest to [num / den], for [0 < den]: 53 significant bits,
    no exponent below -1074, a tie to the even significand, infinite from
    [2^1024] on. *)
Definition nearest_double (num den : Z) : pyfloat :=
  if num =? 0 then Finite 0 0
  else
    let a := Z.abs num in
    let e := Z.max (floor_log2 a den - 52) (-1074) in
    let m := if 0 <=? e then round_half_even a (den * 2 ^ e)
             else round_half_even (a * 2 ^ (- e)) den in
    if (0 <=? e) && (2 ^ 1024 <=? m * 2 ^ e) then Infinite (num <? 0)
    else Finite (Z.sgn num * m) e.

(** [f / d] for an [int] [d > 0] *)
Definition float_div (f : pyfloat) (d : Z) : pyfloat :=
  match f with
  | Finite m e =>
      if 0 <=? e then nearest_double (m * 2 ^ e) d
      else nearest_double m (d * 2 ^ (- e))
  | Infinite negative => Infinite negative
  end.

(** [f - c] for an [int] [c] *)
Definition float_sub (f : pyfloat) (c : Z) : pyfloat :=
  match f with
  | Finite m e =>
      if 0 <=? e then nearest_double (m * 2 ^ e - c) 1
      else nearest_double (m - c * 2 ^ (- e)) (2 ^ (- e))
  | Infinite negative => Infinite negative
  end.

(** [-1 * f] *)
Definition float_neg (f : pyfloat) : pyfloat :=
  match f with
  | Finite m e => Finite (- m) e
  | Infinite negative => Infinite (negb negative)
  end.

(** [int(f)] *)
Definition float_to_int (f : pyfloat) : outcome Z :=
  match f with
  | Finite m e => Ok (if 0 <=? e then m * 2 ^ e else Z.quot m (2 ^ (- e)))
  | Infinite _ => Raise OverflowError
  end.

(** The float of a literal with one decimal, given in tenths. *)
Definition float_of_tenths (tenths : Z) : pyfloat := nearest_double tenths 10.

(** *** Numbers

    What the encoding lambdas of the schemas compute on: an [int] or a
    [float].  An [int] meeting a [float] in an operation is converted to
    it; the constants of the lambdas convert exactly. *)

Inductive pynum : Set :=
| PInt (n : Z)
| PFloat (f : pyfloat).

(** [x - c] *)
Definition num_sub (x : pynum) (c : Z) : pynum :=
  match x with
  | PInt n => PInt (n - c)
  | PFloat f => PFloat (float_sub f c)
  end.

(** [-1 * x] *)
Definition num_neg (x : pynum) : pynum :=
  match x with
  | PInt n => PInt (- n)
  | PFloat f => PFloat (float_neg f)
  end.

(** [x / d], true division: of two [int]s it is the nearest double of the
    quotient, and [OverflowError] when that is not finite. *)
Definition num_truediv (x : pynum) (d : Z) : outcome pynum :=
  match x with
  | PInt n =>
      match nearest_double n d with
      | Infinite _ => Raise OverflowError
      | f => Ok (PFloat f)
      end
  | PFloat f => Ok (PFloat (float_div f d))
  end.

(** [x << k] *)
Definition num_lshift (x : pynum) (k : Z) : outcome pynum :=
  match x with
  | PInt n => Ok (PInt (Z.shiftl n k))
  | PFloat _ => Raise TypeError
  end.

(** [int(x)] *)
Definition num_int (x : pynum) : outcome Z :=
  match x with
  | PInt n => Ok n
  | PFloat f => float_to_int f
  end.

(** ** Protocol constants *)

Definition channel_record_size : Z := 32.
Definition zone_record_size : Z := 32.
Definition contact_record_size : Z := 16.
Definition message_record_size : Z := 40.
Definition rx_group_record_size : Z := 210.
Definition scan_list_record_size : Z := 216.

Definition channel_count_address : Z := 0x1391.
Definition channel_count_len : Z := 2.
Definition contact_count_address : Z := 0x1393.
Definition contact_count_len : Z := 2.
Definition zone_count_address : Z := 0x138F.
Definition zone_count_len : Z := 2.

Definition contact_start_address : Z := 0x1B400.
Definition rx_group_start_address : Z := 0xE6BF.
Definition scan_list_start_address : Z := 0x13CF.

Definition message_block_1_start_addr : Z := 0xFAE.
Definition message_block_1_count : Z := 15.
Definition message_block_2_start_addr : Z := 0x12B.
Definition message_block_2_count : Z := 85.

Definition aprs_dmr_channel_start_address : Z := 0xE4B.

(** The CTCSS tones, in tenths of a hertz. *)
Definition CTCSS_Tones : list Z :=
  [ 625; 670; 693; 719; 744; 770; 797; 825; 854; 885; 915; 948; 974; 1000;
    1035; 1072; 1109; 1148; 1188; 1230; 1273; 1318; 1365; 1413; 1462; 1514;
    1567; 1598; 1622; 1655; 1679; 1713; 1738; 1773; 1799; 1835; 1862; 1899;
    1928; 1966; 1995; 2035; 2065; 2107; 2181; 2257; 2291; 2336; 2418; 2503;
    2541 ].

Definition DCS_Codes : list Z :=
  [ 17; 23; 25; 26; 31; 32; 36; 43; 47; 50; 51; 53; 54; 65; 71; 72; 73; 74; 114;
    115; 116; 122; 125; 131; 132; 134; 143; 145; 152; 155; 156; 162; 165; 172;
    174; 205; 212; 223; 225; 226; 243; 244; 245; 246; 251; 252; 255; 261; 263;
    265; 266; 271; 274; 306; 311; 315; 325; 331; 332; 343; 346; 351; 356; 364;
    365; 371; 411; 412; 413; 423; 431; 432; 445; 446; 452; 454; 455; 462; 464;
    465; 466; 503; 506; 516; 523; 526; 532; 546; 565; 606; 612; 624; 627; 631;
    632; 645; 646; 654; 662; 664; 703; 712; 723; 731; 732; 734; 743; 754 ].

(** ** Layout planner

    The same statements open [decompileCodeplug] (from the stored counter)
    and [compileCodeplug] (from [len(codeplug["Contacts"])]). *)

(** Pad the contact block to a multiple of 1K if needed. *)
Definition contact_block_padded (num_contacts : Z) : Z :=
  let contact_block_size := num_contacts * contact_record_size in
  if negb (contact_block_size mod 1024 =? 0)
  then contact_block_size + (1024 - contact_block_size mod 1024)
  else contact_block_size.

(** Pad the contact block to an odd number of blocks. *)
Definition contact_block_size (num_contacts : Z) : Z :=
  let contact_block_size := contact_block_padded num_contacts in
  if (contact_block_size / 1024) mod 2 =? 0
  then contact_block_size + 1024
  else contact_block_size.

(** [zone_start_address] as [compileCodeplug] computes it. *)
Definition zone_start_address (num_contacts : Z) : Z :=
  contact_start_address + contact_block_size num_contacts.

(** [zone_start_address] as [decompileCodeplug] computes it, with its extra
    1K-boundary check. *)
Definition zone_start_address_decompile (num_contacts : Z) : Z :=
  let zone_start_address := contact_start_address + contact_block_size num_contacts in
  if negb (zone_start_address mod 1024 =? 0)
  then zone_start_address + (1024 - zone_start_address mod 1024)
  else zone_start_address.

Definition channel_start_address (num_contacts num_zones : Z) : Z :=
  zone_start_address num_contacts + 32 * num_zones.

(** Size the codeplug: a whole number of 2048 blocks. *)
Definition codeplug_size (num_contacts num_zones num_channels : Z) : Z :=
  let codeplug_size :=
    channel_start_address num_contacts num_zones
    + num_channels * channel_record_size in
  if negb (codeplug_size mod 2048 =? 0)
  then codeplug_size + (2048 - codeplug_size mod 2048)
  else codeplug_size.

(** ** Quick-message addressing *)

(** [start_of_message] in the decoding loop. *)
Definition start_of_message (i : Z) : Z :=
  if i <? message_block_1_count
  then message_block_1_start_addr + i * message_record_size
  else message_block_2_start_addr + (i - message_block_1_count) * message_record_size.

(** [start_address] in the encoding loop. *)
Definition start_address (i : Z) : Z :=
  if i <? message_block_1_count
  then message_block_1_start_addr + (i * message_record_size)
  else message_block_2_start_addr + ((i - message_block_1_count) * message_record_size).

(** ** Field definitions

    A definition is the list the source writes as
    [[kind, byte offset, length or mask, enum values or lambdas]].  A
    decoding lambda is applied to a masked byte, an [int], and is a function
    on [Z]; an encoding lambda is applied to whatever the document holds and
    is a function on Python numbers that can raise. *)

Inductive definition : Type :=
| Bitmask (offset mask : Z) (enum : list (Z * string))
| Str (offset length : Z)
| Number (offset length : Z)
| MaskNum (offset mask : Z)
| MaskNumFn (offset mask : Z) (decode : Z -> Z) (encode : pynum -> outcome pynum).

Definition schema := list (string * definition).

(** ** class Parser *)

(** [enum[b]] *)
Fixpoint enum_lookup (b : Z) (enum : list (Z * string)) : option string :=
  match enum with
  | [] => None
  | (k, v) :: rest => if k =? b then Some v else enum_lookup b rest
  end.

Definition field_fromBytes (definition : definition) (bytes : list Z)
  : outcome value :=
  match definition with
  | Bitmask offset mask enum =>
      x <- byte_at bytes offset ;;
      let b := Z.land x mask in
      (* try: val = definition[3][b]  except: val = "" *)
      match enum_lookup b enum with
      | Some val => Ok (VStr val)
      | None => Ok (VStr "")
      end
  | Str offset length =>
      s <- decode_ascii (slice bytes offset (offset + length)) ;;
      Ok (VStr (rstrip_nul s))
  | Number offset length =>
      Ok (VInt (from_bytes (slice bytes offset (offset + length))))
  | MaskNum offset mask =>
      x <- byte_at bytes offset ;;
      Ok (VInt (Z.land x mask))
  | MaskNumFn offset mask decode _ =>
      x <- byte_at bytes offset ;;
      Ok (VInt (decode (Z.land x mask)))
  end.

Definition fromBytes (definitions : schema) (bytes : list Z) : outcome dict :=
  for_each definitions
    (fun data '(key, definition) =>
       val <- field_fromBytes definition bytes ;;
       Ok (dict_set key val data))
    [].

(** [int(v)] on a document value *)
Definition py_int (v : value) : outcome Z :=
  match v with
  | VInt n => Ok n
  | VFloat tenths => float_to_int (float_of_tenths tenths)
  | VStr s => int_of_str s
  | _ => Raise TypeError
  end.

(** The argument of an encoding lambda.  Every encoding lambda of the
    schemas subtracts from its argument, divides it or shifts it, before or
    just after multiplying it by -1, and so raises [TypeError] on a [str], a
    [list] or a [dict]. *)
Definition lambda_arg (v : value) : outcome pynum :=
  match v with
  | VInt n => Ok (PInt n)
  | VFloat tenths => Ok (PFloat (float_of_tenths tenths))
  | _ => Raise TypeError
  end.

(** [int(definition[4](item[key]))] *)
Definition lambda_int (encode : pynum -> outcome pynum) (v : value) : outcome Z :=
  x <- lambda_arg v ;;
  r <- encode x ;;
  num_int r.

Definition field_toBytes (data : list Z) (key : string) (definition : definition)
    (item : dict) : outcome (list Z) :=
  match definition with
  | Bitmask offset _ enum =>
      for_each enum
        (fun data '(k, v) =>
           x <- dict_get key item ;;
           if is_str v x then byte_or data offset k else Ok data)
        data
  | Str offset _ =>
      x <- dict_get key item ;;
      encoded_str <- str_encode x ;;
      for_each (enumerate_from 0 encoded_str)
        (fun data '(p, c) => byte_store data (offset + p) c)
        data
  | Number offset length =>
      x <- dict_get key item ;;
      bs <- int_to_bytes x length ;;
      Ok (slice_assign data offset (offset + length) bs)
  | MaskNum offset mask =>
      b <- byte_at data offset ;;
      x <- dict_get key item ;;
      n <- py_int x ;;
      byte_store data offset (Z.lor b (Z.land n mask))
  | MaskNumFn offset mask _ encode =>
      b <- byte_at data offset ;;
      x <- dict_get key item ;;
      n <- lambda_int encode x ;;
      byte_store data offset (Z.lor b (Z.land n mask))
  end.

Definition toBytes (data : list Z) (definitions : schema) (item : dict)
  : outcome (list Z) :=
  for_each definitions
    (fun data '(key, definition) => field_toBytes data key definition item)
    data.

(** ** Schemas *)

(** [lambda x: int(x/d)] *)
Definition int_of_quotient (d : Z) (x : pynum) : outcome pynum :=
  q <- num_truediv x d ;;
  n <- num_int q ;;
  Ok (PInt n).

Definition Button_IDs : list (Z * string) :=
  [ (0x00, "UNDEFINED");
    (0x01, "HI_LO_POWER");
    (0x02, "BACKLIGHT_TOGGLE");
    (0x03, "KEYLOCK_TOGGLE");
    (0x04, "VOX");
    (0x05, "ZONE_SWITCH");
    (0x06, "SCAN");
    (0x07, "SCAN_MODE_TOGGLE");
    (0x08, "RPTR_TALKAROUND");
    (0x09, "EMERGENCY_ALARM");
    (0x0A, "ENCRYPTION_TOGGLE");
    (0x0B, "CONTACTS");
    (0x0C, "SMS");
    (0x0D, "RADIO_REVIVE");
    (0x0E, "RADIO_DETECTION");
    (0x0F, "RADIO_KILL");
    (0x10, "REMOTE_MONITOR");
    (0x11, "MONITOR");
    (0x12, "PERMANENT_MONITOR");
    (0x13, "TONEBURST_1750HZ");
    (0x31, "DTMF_TOGGLE");
    (0x34, "ROAM_TOGGLE");
    (0x1B, "GPS_TOGGLE");
    (0x28, "MENU");
    (0x37, "UP");
    (0x38, "DOWN");
    (0x39, "BACK");
    (0x3A, "DQT_QT");
    (0x3B, "A_B_TOGGLE");
    (0x3C, "VOL");
    (0x3D, "VFO");
    (0x3E, "MANDATORY_MONITOR");
    (0x3F, "DUAL_WATCH_TOGGLE") ].

Definition dev_info : schema :=
  [ ("Factory Number", Str 0x00 16);
    ("Serial Number", Str 0x10 16);
    ("Model Number", Str 0x20 16);
    ("FW Version", Str 0x30 31);
    ("Frequency range", Str 0x50 16);
    ("Update date", Str 0x60 16);
    ("Firmware ID", Str 0x70 16) ].

Definition basic_parameters : schema :=
  [ ("Radio name", Str 0x80 10);
    ("DMR ID", Number 0x90 3);
    ("Language", Bitmask 0x95 0x10 [(0x00, "Chinese"); (0x10, "English")]);
    ("TimeoutTimer", Number 0x134F 1);
    ("Busy channel lockout", Bitmask 0xA6 0x80 [(0x00, "Off"); (0x80, "On")]);
    ("VOX", Bitmask 0xA6 0x40 [(0x00, "Off"); (0x40, "On")]);
    ("VOX sensitivity", MaskNumFn 0xA6 0x0F (fun x => x + 1) (fun x => Ok (num_sub x 1)));
    ("Scan mode", Bitmask 0x137D 0x03 [(0x00, "CO"); (0x01, "TO"); (0x02, "SE")]);
    ("End tone types", Bitmask 0x1381 0x03 [(0x00, "55Hz"); (0x01, "120'"); (0x02, "180"); (0x03, "240")]);
    ("Squelch A level", MaskNum 0x93 0x0F);
    ("Squelch B level", MaskNumFn 0x93 0xF0 (fun x => Z.shiftr x 4) (fun x => num_lshift x 4));
    ("Backlight", Bitmask 0x95 0x28 [(0x00, "Off"); (0x08, "On"); (0x20, "Auto")]);
    ("Keylock", Bitmask 0x95 0x44 [(0x00, "Off"); (0x04, "Auto"); (0x40, "Manual"); (0x44, "Manual & Auto")]);
    ("Roaming", Bitmask 0x137B 0x01 [(0x00, "Off"); (0x01, "On")]);
    ("Roaming mode", Bitmask 0x1375 0x03 [(0x00, "Auto"); (0x01, "Manual"); (0x02, "Strong RSSI Priority")]);
    ("RSSI set", MaskNumFn 0x1376 0xFF (fun x => -90 - x) (fun x => Ok (num_sub (num_neg x) 90)));
    ("Connect check timer", MaskNum 0x1377 0xFF);
    ("Repeater check timer", MaskNum 0x1378 0xFF);
    ("Connect timer", MaskNumFn 0x1379 0x09 (fun x => x + 1) (fun x => Ok (num_sub x 1)));
    ("Record set", Bitmask 0x1380 0x03 [(0x00, "None"); (0x01, "TX"); (0x02, "RX"); (0x03, "TX/RX")]) ].

Definition common_menu_parameters : schema :=
  [ ("Contact list", Bitmask 0xAE 0x01 [(0x00, "Off"); (0x01, "On")]);
    ("New contact", Bitmask 0xAE 0x02 [(0x00, "Off"); (0x02, "On")]);
    ("Manual dial", Bitmask 0xAE 0x04 [(0x00, "Off"); (0x04, "On")]);
    ("Ham contacts", Bitmask 0xAE 0x08 [(0x00, "Off"); (0x08, "On")]);
    ("Ham groups", Bitmask 0xAE 0x10 [(0x00, "Off"); (0x10, "On")]);
    ("Radio check", Bitmask 0xBA 0x01 [(0x00, "Off"); (0x01, "On")]);
    ("Call alert", Bitmask 0xBA 0x02 [(0x00, "Off"); (0x02, "On")]);
    ("Radio monitor", Bitmask 0xBA 0x04 [(0x00, "Off"); (0x04, "On")]);
    ("Radio disable", Bitmask 0xBA 0x08 [(0x00, "Off"); (0x08, "On")]);
    ("Radio enable", Bitmask 0xBA 0x10 [(0x00, "Off"); (0x10, "On")]);
    ("SMS write", Bitmask 0xAF 0x01 [(0x00, "Off"); (0x01, "On")]);
    ("SMS quick msg", Bitmask 0xAF 0x02 [(0x00, "Off"); (0x02, "On")]);
    ("SMS inbox", Bitmask 0xAF 0x04 [(0x00, "Off"); (0x04, "On")]);
    ("SMS outbox", Bitmask 0xAF 0x08 [(0x00, "Off"); (0x08, "On")]);
    ("SMS drafts", Bitmask 0xAF 0x10 [(0x00, "Off"); (0x10, "On")]);
    ("Call log outgoing", Bitmask 0xB0 0x01 [(0x00, "Off"); (0x01, "On")]);
    ("Call log received", Bitmask 0xB0 0x02 [(0x00, "Off"); (0x02, "On")]);
    ("Call log missed", Bitmask 0xB0 0x04 [(0x00, "Off"); (0x04, "On")]);
    ("Scan on/off", Bitmask 0xB1 0x01 [(0x00, "Off"); (0x01, "On")]);
    ("Scan list", Bitmask 0xB1 0x02 [(0x00, "Off"); (0x02, "On")]);
    ("Scan mode", Bitmask 0xB1 0x04 [(0x00, "Off"); (0x04, "On")]);
    ("Roam on/off", Bitmask 0xB1 0x08 [(0x00, "Off"); (0x08, "On")]);
    ("Scan running on/off", Bitmask 0x10 0x10 [(0x00, "Off"); (0x10, "On")]);
    ("Zone list on/off", Bitmask 0xB2 0x01 [(0x00, "Off"); (0x01, "On")]);
    ("Language", Bitmask 0xB3 0x01 [(0x00, "Off"); (0x01, "On")]);
    ("Keylock", Bitmask 0xB3 0x02 [(0x00, "Off"); (0x02, "On")]);
    ("Backlight", Bitmask 0xB3 0x04 [(0x00, "Off"); (0x04, "On")]);
    ("LEDs", Bitmask 0xB3 0x08 [(0x00, "Off"); (0x08, "On")]);
    ("Display mode", Bitmask 0xB3 0x10 [(0x00, "Off"); (0x10, "On")]);
    ("Vox", Bitmask 0xB3 0x20 [(0x00, "Off"); (0x20, "On")]);
    ("Channel sw", Bitmask 0xB3 0x40 [(0x00, "Off"); (0x40, "On")]);
    ("Factory reset", Bitmask 0xB3 0x80 [(0x00, "Off"); (0x80, "On")]);
    ("Local repeat", Bitmask 0xBC 0x01 [(0x00, "Off"); (0x01, "On")]);
    ("ToT", Bitmask 0xB5 0x01 [(0x00, "Off"); (0x01, "On")]);
    ("Power set", Bitmask 0xB5 0x02 [(0x00, "Off"); (0x02, "On")]);
    ("Repeat set", Bitmask 0xB5 0x04 [(0x00, "Off"); (0x04, "On")]);
    ("Sleep mode", Bitmask 0xB5 0x08 [(0x00, "Off"); (0x08, "On")]);
    ("Squelch level", Bitmask 0xB5 0x10 [(0x00, "Off"); (0x10, "On")]);
    ("Wide/Narrow band", Bitmask 0xB5 0x20 [(0x00, "Off"); (0x20, "On")]);
    ("Busy channel lockout", Bitmask 0xB5 0x40 [(0x00, "Off"); (0x40, "On")]);
    ("Signalling", Bitmask 0xB5 0x80 [(0x00, "Off"); (0x80, "On")]);
    ("End tone types", Bitmask 0xBD 0x01 [(0x00, "Off"); (0x01, "On")]);
    ("Enc level", Bitmask 0xB4 0x01 [(0x00, "Off"); (0x01, "On")]);
    ("Profiles", Bitmask 0xB6 0x01 [(0x00, "Off"); (0x01, "On")]);
    ("Keytone", Bitmask 0xB6 0x02 [(0x00, "Off"); (0x02, "On")]);
    ("Power tone", Bitmask 0xB6 0x04 [(0x00, "Off"); (0x04, "On")]);
    ("Msg tone", Bitmask 0xB6 0x08 [(0x00, "Off"); (0x08, "On")]);
    ("Private call tone", Bitmask 0xB6 0x10 [(0x00, "Off"); (0x10, "On")]);
    ("Group call tone", Bitmask 0xB6 0x20 [(0x00, "Off"); (0x20, "On")]);
    ("Call tone", Bitmask 0xB6 0x40 [(0x00, "Off"); (0x40, "On")]);
    ("Power on tone", Bitmask 0xB6 0x80 [(0x00, "Off"); (0x80, "On")]);
    ("GPS", Bitmask 0xB7 0x01 [(0x00, "Off"); (0x01, "On")]);
    ("Torch", Bitmask 0xB7 0x02 [(0x00, "Off"); (0x02, "On")]);
    ("FM radio", Bitmask 0xB7 0x04 [(0x00, "Off"); (0x04, "On")]);
    ("Time", Bitmask 0xB7 0x08 [(0x00, "Off"); (0x08, "On")]);
    ("DTMF", Bitmask 0xB7 0x10 [(0x00, "Off"); (0x10, "On")]);
    ("Speaker handmic", Bitmask 0xB7 0x20 [(0x00, "Off"); (0x20, "On")]);
    ("APRS", Bitmask 0xB7 0x40 [(0x00, "Off"); (0x40, "On")]);
    ("Record set", Bitmask 0xB8 0x01 [(0x00, "Off"); (0x01, "On")]);
    ("Record list", Bitmask 0xB8 0x02 [(0x00, "Off"); (0x02, "On")]);
    ("Record clear", Bitmask 0xB8 0x04 [(0x00, "Off"); (0x04, "On")]);
    ("Record space", Bitmask 0xB8 0x08 [(0x00, "Off"); (0x08, "On")]);
    ("Radio ID", Bitmask 0xB9 0x01 [(0x00, "Off"); (0x01, "On")]);
    ("RX group list", Bitmask 0xB9 0x02 [(0x00, "Off"); (0x02, "On")]);
    ("Channel contact", Bitmask 0xB9 0x04 [(0x00, "Off"); (0x04, "On")]);
    ("Version", Bitmask 0xB9 0x08 [(0x00, "Off"); (0x08, "On")]);
    ("VFO", Bitmask 0xBB 0x01 [(0x00, "Off"); (0x01, "On")]) ].

Definition prompt_tone_parameters : schema :=
  [ ("Profiles", Bitmask 0xA7 0x01 [(0x00, "Standard"); (0x01, "Silent")]);
    ("SMS Prompt", MaskNum 0xA8 0x0F);
    ("Private call Tone", MaskNum 0xA9 0x05);
    ("Group call Tone", MaskNum 0xAA 0x05);
    ("Key tone", Bitmask 0xAB 0x80 [(0x00, "Off"); (0x80, "On")]);
    ("Key tone vol", MaskNum 0xAB 0x0F);
    ("Low bat alert tone", Bitmask 0xAC 0x80 [(0x00, "Off"); (0x80, "On")]);
    ("Low bat alert vol", MaskNum 0xAC 0x0F);
    ("Call hang up", Bitmask 0x12d8 0x01 [(0x00, "Silent"); (0x01, "Prompt Tone")]);
    ("Boot ringtone", Bitmask 0x95 0x02 [(0x00, "Off"); (0x02, "On")]);
    ("Roaming restart prompt", MaskNum 0x1383 0x0F);
    ("Repeater selected prompt", MaskNum 0x1383 0x0F) ].

Definition indicator_parameters : schema :=
  [ ("All", Bitmask 0xAD 0x10 [(0x10, "On"); (0x00, "Off")]);
    ("Tx", Bitmask 0xAD 0x08 [(0x08, "On"); (0x00, "Off")]);
    ("Rx", Bitmask 0xAD 0x04 [(0x04, "On"); (0x00, "Off")]);
    ("Scanning", Bitmask 0xAD 0x02 [(0x02, "On"); (0x00, "Off")]);
    ("Low battery", Bitmask 0xAD 0x01 [(0x01, "On"); (0x00, "Off")]) ].

Definition button_preset_parameters : schema :=
  [ ("LongPressDuration", Bitmask 0xC1 0xFF [(0x00, "0.5"); (0x01, "1.0"); (0x02, "1.5"); (0x03, "2.0"); (0x04, "2.5"); (0x05, "3.0"); (0x06, "3.5"); (0x07, "4.0"); (0x08, "4.5"); (0x09, "5.0")]);
    ("P1 LongPress", Bitmask 0xC2 0xFF Button_IDs);
    ("P1 ShortPress", Bitmask 0xC3 0xFF Button_IDs);
    ("P2 LongPress", Bitmask 0xC4 0xFF Button_IDs);
    ("P2 ShortPress", Bitmask 0xC5 0xFF Button_IDs);
    ("P3 LongPress", Bitmask 0xC6 0xFF Button_IDs);
    ("P3 ShortPress", Bitmask 0xC7 0xFF Button_IDs);
    ("P4 LongPress", Bitmask 0xC8 0xFF Button_IDs);
    ("P4 ShortPress", Bitmask 0xC9 0xFF Button_IDs);
    ("P5 LongPress", Bitmask 0xCA 0xFF Button_IDs);
    ("P5 ShortPress", Bitmask 0xCB 0xFF Button_IDs);
    ("P6 LongPress", Bitmask 0xCC 0xFF Button_IDs);
    ("P6 ShortPress", Bitmask 0xCD 0xFF Button_IDs);
    ("P7 LongPress", Bitmask 0x1385 0xFF Button_IDs);
    ("P7 ShortPress", Bitmask 0x1386 0xFF Button_IDs) ].

Definition mic_gain_parameters : schema :=
  [ ("Mic gain 1", Bitmask 0xA4 0x80 [(0x80, "On"); (0x00, "Off")]);
    ("Mic gain 1 setting", MaskNumFn 0xA4 0x07 (fun x => x * 4) (int_of_quotient 4));
    ("Mic gain 2", Bitmask 0xA5 0x80 [(0x80, "On"); (0x00, "Off")]);
    ("Mic gain 2 setting", MaskNum 0xA5 0x1F) ].

Definition dmr_parameters : schema :=
  [ ("Remote monitor duration", MaskNumFn 0xFAC 0xFF (fun x => 10 + x * 10)
       (fun x => q <- num_truediv x 10 ;; Ok (num_sub q 1)));
    ("Remote monitor decode", Bitmask 0xFAD 0x80 [(0x00, "Off"); (0x80, "On")]);
    ("Remote kill decode", Bitmask 0xFAD 0x40 [(0x00, "Off"); (0x40, "On")]);
    ("Radio detection decode", Bitmask 0xFAD 0x20 [(0x00, "Off"); (0x20, "On")]);
    ("Radio revive decode", Bitmask 0xFAD 0x10 [(0x00, "Off"); (0x10, "On")]);
    ("Call alert", Bitmask 0xFAD 0x08 [(0x00, "Off"); (0x08, "On")]);
    ("Group call hang time", MaskNumFn 0x1350 0x0F (fun x => x * 500) (int_of_quotient 500));
    ("Private call hang time", MaskNumFn 0x1351 0x0F (fun x => x * 500) (int_of_quotient 500));
    ("Import delay", MaskNumFn 0x1370 0xFF (fun x => x * 10) (fun x => num_truediv x 10));
    ("DTMF duration (on-time)", MaskNumFn 0x1371 0xFF (fun x => x * 10) (int_of_quotient 10));
    ("DTMF duration (off-time)", MaskNumFn 0x1372 0xFF (fun x => x * 10) (int_of_quotient 10));
    ("DTMF volume (local)", MaskNum 0x1373 0x0F);
    ("DTMF On/off", Bitmask 0x1363 0x01 [(0x00, "Off"); (0x01, "On")]);
    ("GPS On/off", Bitmask 0x137A 0x01 [(0x00, "Off"); (0x01, "On")]);
    ("GPS Interval", MaskNum 0x1353 0xFF);
    ("GPS Channel group ID", Number 0x1354 2);
    ("GPS Channel channel ID", Number 0x1356 2) ].

Definition aprs_parameters : schema :=
  [ ("Manual TX interval", Number 0xE8B 1);
    ("Auto TX interval", MaskNumFn 0xE8C 0xFF (fun x => x * 30) (int_of_quotient 30));
    ("Beacon", Bitmask 0xE8E 0x01 [(0x00, "FIXED_LOCATION"); (0x01, "GPS_LOCATION")]);
    ("LatNS", Bitmask 0xE8F 0x01 [(0x00, "North"); (0x01, "South")]);
    ("Lat Degrees", Number 0xE91 4);
    ("LongEW", Bitmask 0xE90 0x01 [(0x00, "East"); (0x01, "West")]);
    ("Long Degrees", Number 0xE95 4);
    ("AX25 TX Freq", Number 0xE99 4);
    ("AX25 TX Power", Bitmask 0xEA1 0x01 [(0x00, "LOW"); (0x01, "HIGH")]);
    ("AX25 QT/DQT", Number 0xE9D 2);
    ("AX25 APRS Tone", Bitmask 0xEA2 0x01 [(0x00, "OFF"); (0x01, "ON")]);
    ("AX25 TX Delay", MaskNumFn 0xE9F 0xFF (fun x => x * 20) (int_of_quotient 20));
    ("AX25 Prewave time", MaskNumFn 0xEA0 0xFF (fun x => x * 10) (int_of_quotient 10));
    ("AX25 Your Callsign", Str 0xEAB 6);
    ("AX25 Your SSID", Number 0xEA4 1);
    ("AX25 Dest Callsign", Str 0xEA5 6);
    ("AX25 Dest SSID", Number 0xEA3 1);
    ("AX25 APRS Symbol Table", Number 0xEB1 1);
    ("AX25 APRS Map Icon", Number 0xEB2 1);
    ("AX25 APRS Signal Path", Str 0xEB3 20);
    ("AX25 Your Sending Text", Str 0xEC7 61) ].

Definition aprs_dmr_record_parameters : schema :=
  [ ("Zone ID", Number 0x00 2);
    ("Channel ID", Number 0x02 2);
    ("Call Type", Bitmask 0x07 0x04 [(0x00, "PRIVATE"); (0x04, "GROUP")]);
    ("PTT", Bitmask 0x07 0x08 [(0x00, "OFF"); (0x08, "ON")]);
    ("Report Slot", Bitmask 0x07 0x03 [(0x00, "CURRENT"); (0x01, "TS1"); (0x02, "TS2")]);
    ("APRS TG", Number 0x04 3) ].

Definition contact_parameters : schema :=
  [ ("ID", Number 0x00 2);
    ("Name", Str 0x03 10);
    ("DMR ID", Number 0x0D 3);
    ("Type", Bitmask 0x02 0xFF [(0x04, "Group"); (0x05, "Private"); (0x06, "All Call"); (0x07, "No-Address Call"); (0x08, "RawData"); (0x09, "Define Data"); (0x0A, "SPDATA")]) ].

Definition scan_list_info : schema :=
  [ ("Name", Str 0x00 10);
    ("Talkback", Bitmask 0x0B 0x20 [(0x00, "Off"); (0x20, "On")]);
    ("Scan TX Mode", Bitmask 0x0B 0x0F [(0x00, "Current Channel"); (0x04, "Last Operated Channel"); (0x08, "Appointed Channel")]);
    ("Appointed channel group ID", Number 0x0C 2);
    ("Appointed channel channel ID", Number 0x0E 2) ].

Definition rx_group_info : schema :=
  [ ("Name", Str 0x00 10) ].

Definition zone_info : schema :=
  [ ("ID", Number 0x00 2);
    ("Name", Str 0x03 10) ].

Definition channel_info : schema :=
  [ ("ID", Number 0x00 2);
    ("Type", Bitmask 0x14 0xC0 [(0x00, "ANALOG"); (0x40, "DIGITAL"); (0x80, "D_A_TX_A"); (0xC0, "D_A_TX_D")]);
    ("Name", Str 0x02 10);
    ("Rx Freq", Number 0x0C 4);
    ("Tx Freq", Number 0x10 4);
    ("Tx Power", Bitmask 0x14 0x20 [(0x00, "LOW"); (0x20, "HIGH")]);
    ("Rx only", Bitmask 0x19 0x10 [(0x00, "OFF"); (0x10, "ON")]);
    ("Alarm", Bitmask 0x14 0x08 [(0x00, "OFF"); (0x08, "ON")]);
    ("Prompt", Bitmask 0x14 0x08 [(0x00, "OFF"); (0x08, "ON")]);
    ("PCT", Bitmask 0x14 0x02 [(0x00, "PATCS"); (0x02, "OACSU")]);
    ("TS Rx", Bitmask 0x14 0x01 [(0x00, "TS1"); (0x01, "TS2")]);
    ("TS Tx", Bitmask 0x1D 0x02 [(0x00, "TS1"); (0x02, "TS2")]);
    ("RX CC", MaskNum 0x15 0x0F);
    ("TX CC", MaskNumFn 0x1D 0xF0 (fun x => Z.shiftr x 4) (fun x => num_lshift x 4));
    ("MSG Type", Bitmask 0x15 0x10 [(0x00, "UNCONFIRMED"); (0x10, "CONFIRMED")]);
    ("TX Policy", Bitmask 0x15 0xC0 [(0x00, "IMPOLITE"); (0x40, "POLITE_TO_CC"); (0x60, "POLITE_TO_ALL")]);
    ("Group call list", Number 0x17 1);
    ("Scan List ID", Number 0x18 1);
    ("Default Contact ID", Number 0x1E 1);
    ("EAS", Bitmask 0x19 0x0F [(0x00, "OFF"); (0x01, "A1"); (0x02, "A2"); (0x03, "A3"); (0x04, "A4")]);
    ("Bandwidth", Bitmask 0x14 0x10 [(0x10, "25KHz"); (0x00, "12.5KHz")]);
    ("Tone Type Tx", Bitmask 0x1A 0x0C [(0x00, "OFF"); (0x04, "CTCSS"); (0x08, "DCS"); (0x0C, "DCS Invert")]);
    ("Tone Tx", Number 0x1C 1);
    ("Tone Type Rx", Bitmask 0x1A 0x03 [(0x00, "OFF"); (0x01, "CTCSS"); (0x02, "DCS"); (0x03, "DCS Invert")]);
    ("Tone Rx", Number 0x1B 1);
    ("APRS Channel", MaskNumFn 0x1F 0xF0 (fun x => Z.shiftr x 4) (fun x => num_lshift x 4)) ].

Definition tson_info : schema :=
  [ ("TS Rx ON", Bitmask 0x1D 0x01 [(0x00, "ON"); (0x01, "OFF")]);
    ("TS Tx ON", Bitmask 0x1D 0x04 [(0x00, "ON"); (0x04, "OFF")]) ].

(** ** decompileCodeplug *)

Definition index_arg (v : value) : outcome Z :=
  match v with
  | VInt n => Ok n
  | _ => Raise TypeError
  end.

(** The [AX25 QT/DQT] rewrite that follows the parse of the APRS section. *)
Definition decode_aprs_qt_dqt (q : Z) : outcome value :=
  if (159 <=? q) && (q <=? 267) then (* DCS Invert *)
    code <- list_index DCS_Codes (q - 160) ;;
    Ok (VStr ("D" ++ zfill 3 (str_int code) ++ "I")%string)
  else if (52 <=? q) && (q <=? 158) then (* DCS Normal *)
    code <- list_index DCS_Codes (q - 53) ;;
    Ok (VStr ("D" ++ zfill 3 (str_int code) ++ "N")%string)
  else if (1 <=? q) && (q <=? 51) then (* CTCSS *)
    tone <- list_index CTCSS_Tones q ;;
    Ok (VStr (str_float tone))
  else
    Ok (VStr "Off").

Definition decompile_aprs (data : list Z) : outcome dict :=
  aprs <- fromBytes aprs_parameters data ;;
  q <- dict_get "AX25 QT/DQT" aprs ;;
  q <- index_arg q ;;
  tone <- decode_aprs_qt_dqt q ;;
  let aprs := dict_set "AX25 QT/DQT" tone aprs in
  channels <-
    for_each (range 8)
      (fun channels i =>
         record <- fromBytes aprs_dmr_record_parameters
                     (slice data (aprs_dmr_channel_start_address + i * 8)
                                 (aprs_dmr_channel_start_address + (i + 1) * 8)) ;;
         Ok (channels ++ [VDict record]))
      [] ;;
  Ok (dict_set "DMR channels" (VList channels) aprs).

(** State of the quick-message loop: the local [msg_str] (unbound until the
    first successful decode), the list built so far, and the message numbers
    passed to [debugMsg(1, "Skipped message number ...")]. *)
Record message_loop : Type := {
  msg_str : option string;
  quick_messages : list value;
  skipped : list Z
}.

Definition quick_message_step (data : list Z) (st : message_loop) (i : Z)
  : outcome message_loop :=
  let start_of_message := start_of_message i in
  (* try: msg_str = ...decode('ascii').rstrip("\x00")  except: debugMsg(...) *)
  let st :=
    match decode_ascii (slice data start_of_message
                              (start_of_message + message_record_size)) with
    | Ok s => {| msg_str := Some (rstrip_nul s);
                 quick_messages := quick_messages st;
                 skipped := skipped st |}
    | Raise _ => {| msg_str := msg_str st;
                    quick_messages := quick_messages st;
                    skipped := skipped st ++ [i] |}
    end in
  (* if msg_str != "": codeplug["Quick messages"].append(msg_str) *)
  match msg_str st with
  | None => Raise UnboundLocalError
  | Some s =>
      if negb (String.eqb s "")
      then Ok {| msg_str := msg_str st;
                 quick_messages := quick_messages st ++ [VStr s];
                 skipped := skipped st |}
      else Ok st
  end.

Definition decompile_quick_messages (data : list Z) : outcome message_loop :=
  for_each (range (message_block_1_count + message_block_2_count))
    (quick_message_step data)
    {| msg_str := None; quick_messages := []; skipped := [] |}.

Definition decompile_contacts (data : list Z) (num_contacts : Z)
  : outcome (list value) :=
  for_each (range num_contacts)
    (fun contacts i =>
       let contact_data :=
         slice data (contact_start_address + i * contact_record_size)
                    (contact_start_address + (i + 1) * contact_record_size) in
       parsed_contact <- fromBytes contact_parameters contact_data ;;
       Ok (contacts ++ [VDict parsed_contact]))
    [].

Definition decompile_scan_list (data : list Z) (i : Z) : outcome (option dict) :=
  let record_start_addr := scan_list_start_address + i * scan_list_record_size in
  record <- fromBytes scan_list_info
              (slice data record_start_addr (record_start_addr + scan_list_record_size)) ;;
  name <- dict_get "Name" record ;;
  if negb (is_str "" name) then
    selected <-
      for_each (range 50)
        (fun selected j =>
           let group := from_bytes (slice data (record_start_addr + 16 + j * 4)
                                               (record_start_addr + 16 + (j * 4) + 2)) in
           let channel := from_bytes (slice data (record_start_addr + 16 + (j * 4) + 2)
                                                 (record_start_addr + 16 + (j * 4) + 4)) in
           if negb (group =? 0) && negb (channel =? 0)
           then Ok (selected ++ [VDict [("Group", VInt group); ("Channel", VInt channel)]])
           else Ok selected)
        [] ;;
    Ok (Some (dict_set "Selected channels" (VList selected) record))
  else Ok None.

Definition decompile_scan_lists (data : list Z) : outcome (list value) :=
  for_each (range 250)
    (fun scan_lists i =>
       r <- decompile_scan_list data i ;;
       match r with
       | Some record => Ok (scan_lists ++ [VDict record])
       | None => Ok scan_lists
       end)
    [].

Definition decompile_rx_group (data : list Z) (i : Z) : outcome (option dict) :=
  record <- fromBytes rx_group_info
              (slice data (rx_group_start_address + i * rx_group_record_size)
                          (rx_group_start_address + (i + 1) * rx_group_record_size)) ;;
  contacts <-
    for_each (range 100)
      (fun contacts j =>
         let id := from_bytes
                     (slice data
                        (rx_group_start_address + i * rx_group_record_size + 10 + j * 2)
                        (rx_group_start_address + i * rx_group_record_size + 10 + j * 2 + 2)) in
         if negb (id =? 0) then Ok (contacts ++ [VInt id]) else Ok contacts)
      [] ;;
  let record := dict_set "Contacts" (VList contacts) record in
  (* If it is empty, and has no name, ignore it. *)
  name <- dict_get "Name" record ;;
  if negb (is_str "" name) || negb (len contacts =? 0)
  then Ok (Some record)
  else Ok None.

Definition decompile_rx_groups (data : list Z) : outcome (list value) :=
  for_each (range 250)
    (fun rx_groups i =>
       r <- decompile_rx_group data i ;;
       match r with
       | Some record => Ok (rx_groups ++ [VDict record])
       | None => Ok rx_groups
       end)
    [].

(** Swap a parsed tone index for the table value, for one direction
    ([which] is ["Tx"] or ["Rx"]). *)
Definition decode_tone (which : string) (channel : dict) : outcome dict :=
  let type_key := ("Tone Type " ++ which)%string in
  let tone_key := ("Tone " ++ which)%string in
  tone_type <- dict_get type_key channel ;;
  if is_str "CTCSS" tone_type then
    raw <- dict_get tone_key channel ;;
    i <- index_arg raw ;;
    tone <- list_index CTCSS_Tones i ;;
    Ok (dict_set tone_key (VFloat tone) channel)
  else if negb (is_str "OFF" tone_type) then (* It's DCS or DCS Invert *)
    raw <- dict_get tone_key channel ;;
    i <- index_arg raw ;;
    code <- list_index DCS_Codes i ;;
    Ok (dict_set tone_key (VInt code) channel)
  else Ok channel.

(** The body of the channel loop: one 32-byte record to one channel. *)
Definition decompile_channel (channel_data : list Z) : outcome dict :=
  channel <- fromBytes channel_info channel_data ;;
  (* Time Slot "ON" check *)
  tempTSON_INFO <- fromBytes tson_info channel_data ;;
  rx_freq <- dict_get "Rx Freq" channel ;;
  tx_freq <- dict_get "Tx Freq" channel ;;
  let tempTSON_INFO :=
    if negb (py_eq rx_freq tx_freq)
    then dict_set "TS Tx ON" (VStr "OFF") (dict_set "TS Rx ON" (VStr "OFF") tempTSON_INFO)
    else tempTSON_INFO in
  rx_on <- dict_get "TS Rx ON" tempTSON_INFO ;;
  let channel := if is_str "ON" rx_on then dict_set "TS Rx" (VStr "ON") channel else channel in
  tx_on <- dict_get "TS Tx ON" tempTSON_INFO ;;
  let channel := if is_str "ON" tx_on then dict_set "TS Tx" (VStr "ON") channel else channel in
  (* CTCSS/DCS: swap out the parsed index value *)
  channel <- decode_tone "Tx" channel ;;
  channel <- decode_tone "Rx" channel ;;
  Ok channel.

Definition decompile_zone (data : list Z) (zone_start_address i : Z) : outcome dict :=
  let zone_data := slice data (zone_start_address + 32 * i) (zone_start_address + 32 * (i + 1)) in
  parsed_zone <- fromBytes zone_info zone_data ;;
  let num_channels := from_bytes (slice zone_data 0x0F (0x0F + 2)) in
  let channels_offset := from_bytes (slice zone_data 0x0D (0x0D + 2)) in
  let channels_offset := (channels_offset - 1) * 32 in
  channels <-
    for_each (range num_channels)
      (fun channels i =>
         let channel_data :=
           slice data (zone_start_address + channels_offset + i * 32)
                      (zone_start_address + channels_offset + (i + 1) * 32) in
         channel <- decompile_channel channel_data ;;
         Ok (channels ++ [VDict channel]))
      [] ;;
  Ok (dict_set "Channels" (VList channels) parsed_zone).

Definition decompile_zones (data : list Z) (zone_start_address num_zones : Z)
  : outcome (list value) :=
  for_each (range num_zones)
    (fun zones i =>
       parsed_zone <- decompile_zone data zone_start_address i ;;
       Ok (zones ++ [VDict parsed_zone]))
    [].

(** The sections and collections parsed before the RX groups, in the
    order the source parses them. *)
Definition decompile_settings (data : list Z) (num_contacts : Z) : outcome dict :=
  let codeplug : dict := [] in
  section <- fromBytes dev_info data ;;
  let codeplug := dict_set "Device info" (VDict section) codeplug in
  section <- fromBytes basic_parameters data ;;
  let codeplug := dict_set "Basic parameters" (VDict section) codeplug in
  section <- fromBytes common_menu_parameters data ;;
  let codeplug := dict_set "Common menu parameters" (VDict section) codeplug in
  section <- fromBytes prompt_tone_parameters data ;;
  let codeplug := dict_set "Prompt Tone" (VDict section) codeplug in
  section <- fromBytes indicator_parameters data ;;
  let codeplug := dict_set "Indicators" (VDict section) codeplug in
  section <- fromBytes button_preset_parameters data ;;
  let codeplug := dict_set "Preset buttons" (VDict section) codeplug in
  section <- fromBytes mic_gain_parameters data ;;
  let codeplug := dict_set "Mic gain" (VDict section) codeplug in
  section <- decompile_aprs data ;;
  let codeplug := dict_set "APRS" (VDict section) codeplug in
  section <- fromBytes dmr_parameters data ;;
  let codeplug := dict_set "DMR Service" (VDict section) codeplug in
  messages <- decompile_quick_messages data ;;
  let codeplug := dict_set "Quick messages" (VList (quick_messages messages)) codeplug in
  contacts <- decompile_contacts data num_contacts ;;
  let codeplug := dict_set "Contacts" (VList contacts) codeplug in
  scan_lists <- decompile_scan_lists data ;;
  let codeplug := dict_set "Scan lists" (VList scan_lists) codeplug in
  Ok codeplug.

Definition decompileCodeplug (data : list Z) : outcome dict :=
  let num_zones :=
    from_bytes (slice data zone_count_address (zone_count_address + zone_count_len)) in
  let num_contacts :=
    from_bytes (slice data contact_count_address (contact_count_address + contact_count_len)) in
  let zone_start_address := zone_start_address_decompile num_contacts in
  codeplug <- decompile_settings data num_contacts ;;
  rx_groups <- decompile_rx_groups data ;;
  let codeplug := dict_set "RX groups" (VList rx_groups) codeplug in
  zones <- decompile_zones data zone_start_address num_zones ;;
  let codeplug := dict_set "Zones" (VList zones) codeplug in
  Ok codeplug.

(** ** compileCodeplug *)

(** [len(v)] of a JSON list *)
Definition list_len (v : value) : outcome Z :=
  l <- as_list v ;; Ok (len l).

(** The three counts, in the order the source takes them. *)
Definition compile_counts (codeplug : dict) : outcome (Z * Z * Z) :=
  contacts <- dict_get "Contacts" codeplug ;;
  num_contacts <- list_len contacts ;;
  zones <- dict_get "Zones" codeplug ;;
  num_zones <- list_len zones ;;
  zones <- as_list zones ;;
  num_channels <-
    for_each zones
      (fun num_channels i =>
         i <- as_dict i ;;
         channels <- dict_get "Channels" i ;;
         n <- list_len channels ;;
         Ok (num_channels + n))
      0 ;;
  Ok (num_contacts, num_zones, num_channels).

(** The [AX25 QT/DQT] rewrite that precedes the encoding of the APRS
    section.  The last branch is [CTCSS_Tones.index(s)] on a string, which no
    float of the table equals. *)
Definition encode_aprs_qt_dqt (v : value) : outcome value :=
  match v with
  | VStr s =>
      if String.eqb s "Off" then Ok (VInt 0)
      else if endswith "I" s then
        code <- int_of_str (remove_char "I" (remove_char "D" s)) ;;
        i <- index_of Z.eqb code DCS_Codes ;;
        Ok (VInt (i + 160))
      else if endswith "N" s then
        code <- int_of_str (remove_char "N" (remove_char "D" s)) ;;
        i <- index_of Z.eqb code DCS_Codes ;;
        Ok (VInt (i + 53))
      else
        i <- index_of py_eq v (map VFloat CTCSS_Tones) ;;
        Ok (VInt i)
  | _ => Raise AttributeError
  end.

Definition compile_aprs (template : list Z) (codeplug : dict) : outcome (list Z) :=
  aprs <- dict_get "APRS" codeplug ;;
  aprs <- as_dict aprs ;;
  q <- dict_get "AX25 QT/DQT" aprs ;;
  q <- encode_aprs_qt_dqt q ;;
  let aprs := dict_set "AX25 QT/DQT" q aprs in
  template <- toBytes template aprs_parameters aprs ;;
  (* Copy the APRS DMR channels in to place. *)
  records <- dict_get "DMR channels" aprs ;;
  records <- as_list records ;;
  for_each (enumerate_from 0 records)
    (fun template '(aprs_dmr_record_count, record) =>
       record <- as_dict record ;;
       aprs_dmr_record <- toBytes (bytearray 8) aprs_dmr_record_parameters record ;;
       Ok (slice_assign template
             (aprs_dmr_channel_start_address + 8 * aprs_dmr_record_count)
             (aprs_dmr_channel_start_address + 8 * (aprs_dmr_record_count + 1))
             aprs_dmr_record))
    template.

Definition compile_quick_messages (template : list Z) (codeplug : dict)
  : outcome (list Z) :=
  messages <- dict_get "Quick messages" codeplug ;;
  messages <- as_list messages ;;
  for_each (enumerate_from 0 messages)
    (fun template '(i, message) =>
       let start_address := start_address i in
       (* Encode (+ truncate) the message as needed *)
       match message with
       | VStr s =>
           encoded_str <- encode_ascii (str_prefix (Z.to_nat message_record_size) s) ;;
           Ok (slice_assign template start_address
                 (start_address + len encoded_str) encoded_str)
       | _ => Raise TypeError
       end)
    template.

Definition compile_contacts (template : list Z) (codeplug : dict) : outcome (list Z) :=
  contacts <- dict_get "Contacts" codeplug ;;
  contacts <- as_list contacts ;;
  for_each (enumerate_from 0 contacts)
    (fun template '(count, contact) =>
       contact <- as_dict contact ;;
       contact_record <- toBytes (bytearray contact_record_size) contact_parameters contact ;;
       Ok (slice_assign template
             (contact_start_address + contact_record_size * count)
             (contact_start_address + contact_record_size * (count + 1))
             contact_record))
    template.

Definition compile_scan_list (scan_list : dict) : outcome (list Z) :=
  scan_list_record <- toBytes (bytearray scan_list_record_size) scan_list_info scan_list ;;
  selected <- dict_get "Selected channels" scan_list ;;
  selected <- as_list selected ;;
  for_each (enumerate_from 0 selected)
    (fun scan_list_record '(i, entry) =>
       pair <- as_dict entry ;;
       group <- dict_get "Group" pair ;;
       group <- int_to_bytes group 2 ;;
       let scan_list_record :=
         slice_assign scan_list_record (16 + i * 4) (16 + i * 4 + 2) group in
       channel <- dict_get "Channel" pair ;;
       channel <- int_to_bytes channel 2 ;;
       Ok (slice_assign scan_list_record (16 + i * 4 + 2) (16 + i * 4 + 4) channel))
    scan_list_record.

Definition compile_scan_lists (template : list Z) (codeplug : dict) : outcome (list Z) :=
  scan_lists <- dict_get "Scan lists" codeplug ;;
  scan_lists <- as_list scan_lists ;;
  for_each (enumerate_from 0 scan_lists)
    (fun template '(count, scan_list) =>
       scan_list <- as_dict scan_list ;;
       scan_list_record <- compile_scan_list scan_list ;;
       Ok (slice_assign template
             (scan_list_start_address + scan_list_record_size * count)
             (scan_list_start_address + scan_list_record_size * (count + 1))
             scan_list_record))
    template.

Definition compile_rx_group (group : dict) : outcome (list Z) :=
  group_record <- toBytes (bytearray rx_group_record_size) rx_group_info group ;;
  (* Now, add the contacts *)
  contacts <- dict_get "Contacts" group ;;
  contacts <- as_list contacts ;;
  for_each (enumerate_from 0 contacts)
    (fun group_record '(i, id) =>
       id <- int_to_bytes id 2 ;;
       Ok (slice_assign group_record (10 + i * 2) (10 + (i + 1) * 2) id))
    group_record.

Definition compile_rx_groups (template : list Z) (codeplug : dict) : outcome (list Z) :=
  groups <- dict_get "RX groups" codeplug ;;
  groups <- as_list groups ;;
  for_each (enumerate_from 0 groups)
    (fun template '(count, group) =>
       group <- as_dict group ;;
       group_record <- compile_rx_group group ;;
       Ok (slice_assign template
             (rx_group_start_address + rx_group_record_size * count)
             (rx_group_start_address + rx_group_record_size * (count + 1))
             group_record))
    template.

(** [len(z["Channels"])] *)
Definition channel_count (zone : value) : outcome Z :=
  zone <- as_dict zone ;;
  channels <- dict_get "Channels" zone ;;
  list_len channels.

Definition compile_zone (zones : list value) (count : Z) (i : value)
  : outcome (list Z) :=
  (* Sum the channels up in all the previous zones *)
  channel_offset <-
    for_each (firstn (Z.to_nat count) zones)
      (fun channel_offset z => n <- channel_count z ;; Ok (channel_offset + n))
      (len zones + 1) ;;
  zone <- as_dict i ;;
  (* debugMsg(4, "Channel offset for " + i["Name"] + ...) *)
  name <- dict_get "Name" zone ;;
  _ <- as_str name ;;
  zone_record <- toBytes (bytearray zone_record_size) zone_info zone ;;
  offset_bytes <- to_bytes channel_offset 2 ;;
  let zone_record := slice_assign zone_record 0x0D (0x0D + 2) offset_bytes in
  n <- channel_count i ;;
  count_bytes <- to_bytes n 2 ;;
  Ok (slice_assign zone_record 0x0F (0x0F + 2) count_bytes).

Definition compile_zones (template : list Z) (zone_start_address : Z)
    (codeplug : dict) : outcome (list Z) :=
  zones <- dict_get "Zones" codeplug ;;
  zones <- as_list zones ;;
  for_each (enumerate_from 0 zones)
    (fun template '(count, i) =>
       zone_record <- compile_zone zones count i ;;
       Ok (slice_assign template
             (zone_start_address + zone_record_size * count)
             (zone_start_address + zone_record_size * (count + 1))
             zone_record))
    template.

(** Turn a CTCSS/DCS value back into its table index, for one direction. *)
Definition encode_tone (which : string) (channel : dict) : outcome dict :=
  let type_key := ("Tone Type " ++ which)%string in
  let tone_key := ("Tone " ++ which)%string in
  tone_type <- dict_get type_key channel ;;
  if is_str "CTCSS" tone_type then
    tone <- dict_get tone_key channel ;;
    i <- index_of py_eq tone (map VFloat CTCSS_Tones) ;;
    Ok (dict_set tone_key (VInt i) channel)
  else if negb (is_str "OFF" tone_type) then (* It's DCS or DCS Invert *)
    tone <- dict_get tone_key channel ;;
    i <- index_of py_eq tone (map VInt DCS_Codes) ;;
    Ok (dict_set tone_key (VInt i) channel)
  else Ok channel.

(** The forced-on flags computed for one channel before it is written. *)
Definition compile_tson (channel : dict) : outcome dict :=
  let tempTSON_INFO : dict := [] in
  let tempTSON_INFO := dict_set "TS Rx ON" (VStr "OFF") tempTSON_INFO in
  let tempTSON_INFO := dict_set "TS Tx ON" (VStr "OFF") tempTSON_INFO in
  rx_freq <- dict_get "Rx Freq" channel ;;
  tx_freq <- dict_get "Tx Freq" channel ;;
  let tempTSON_INFO :=
    if negb (py_eq rx_freq tx_freq)
    then dict_set "TS Tx ON" (VStr "OFF") (dict_set "TS Rx ON" (VStr "OFF") tempTSON_INFO)
    else tempTSON_INFO in
  ts_rx <- dict_get "TS Rx" channel ;;
  let tempTSON_INFO :=
    if is_str "ON" ts_rx then dict_set "TS Rx ON" (VStr "ON") tempTSON_INFO
    else tempTSON_INFO in
  ts_tx <- dict_get "TS Tx" channel ;;
  let tempTSON_INFO :=
    if is_str "ON" ts_tx then dict_set "TS Tx ON" (VStr "ON") tempTSON_INFO
    else tempTSON_INFO in
  Ok tempTSON_INFO.

(** The body of the channel loop: one channel to one 32-byte record. *)
Definition compile_channel (channel : dict) : outcome (list Z) :=
  channel <- encode_tone "Tx" channel ;;
  channel <- encode_tone "Rx" channel ;;
  tempTSON_INFO <- compile_tson channel ;;
  channel_record <- toBytes (bytearray channel_record_size) channel_info channel ;;
  toBytes channel_record tson_info tempTSON_INFO.

Definition compile_channels (template : list Z) (channel_start_address : Z)
    (codeplug : dict) : outcome (list Z) :=
  zones <- dict_get "Zones" codeplug ;;
  zones <- as_list zones ;;
  r <- for_each zones
    (fun '(template, count) i =>
       i <- as_dict i ;;
       channels <- dict_get "Channels" i ;;
       channels <- as_list channels ;;
       for_each channels
         (fun '(template, count) channel =>
            channel <- as_dict channel ;;
            (* debugMsg(4, "Writing channel " + str(channel["ID"]) + " - "
                           + channel["Name"] + ...) *)
            _ <- dict_get "ID" channel ;;
            name <- dict_get "Name" channel ;;
            _ <- as_str name ;;
            channel_record <- compile_channel channel ;;
            Ok (slice_assign template
                  (channel_start_address + channel_record_size * count)
                  (channel_start_address + channel_record_size * (count + 1))
                  channel_record,
                count + 1))
         (template, count))
    (template, 0) ;;
  Ok (fst r).

Definition section (name : string) (codeplug : dict) : outcome dict :=
  v <- dict_get name codeplug ;; as_dict v.

(** [codeplug_size] for a document. *)
Definition planned_size (codeplug : dict) : outcome Z :=
  counts <- compile_counts codeplug ;;
  let '(num_contacts, num_zones, num_channels) := counts in
  Ok (codeplug_size num_contacts num_zones num_channels).

(** Everything [compileCodeplug] does up to its closing size check. *)
Definition compile_template (codeplug : dict) : outcome (list Z) :=
  counts <- compile_counts codeplug ;;
  let '(num_contacts, num_zones, num_channels) := counts in
  let zone_start_address := zone_start_address num_contacts in
  let channel_start_address := channel_start_address num_contacts num_zones in
  let codeplug_size := codeplug_size num_contacts num_zones num_channels in
  (* Create the 'blank' codeplug *)
  let template := bytearray codeplug_size in
  (* Write in the counts *)
  bs <- to_bytes num_zones 2 ;;
  let template := slice_assign template zone_count_address (zone_count_address + 2) bs in
  bs <- to_bytes num_contacts 2 ;;
  let template := slice_assign template contact_count_address (contact_count_address + 2) bs in
  bs <- to_bytes num_channels 2 ;;
  let template := slice_assign template channel_count_address (channel_count_address + 2) bs in
  item <- section "Device info" codeplug ;;
  template <- toBytes template dev_info item ;;
  item <- section "Basic parameters" codeplug ;;
  template <- toBytes template basic_parameters item ;;
  item <- section "Common menu parameters" codeplug ;;
  template <- toBytes template common_menu_parameters item ;;
  item <- section "Prompt Tone" codeplug ;;
  template <- toBytes template prompt_tone_parameters item ;;
  item <- section "Indicators" codeplug ;;
  template <- toBytes template indicator_parameters item ;;
  item <- section "Preset buttons" codeplug ;;
  template <- toBytes template button_preset_parameters item ;;
  item <- section "Mic gain" codeplug ;;
  template <- toBytes template mic_gain_parameters item ;;
  item <- section "DMR Service" codeplug ;;
  template <- toBytes template dmr_parameters item ;;
  template <- compile_aprs template codeplug ;;
  template <- compile_quick_messages template codeplug ;;
  template <- compile_contacts template codeplug ;;
  template <- compile_scan_lists template codeplug ;;
  template <- compile_rx_groups template codeplug ;;
  template <- compile_zones template zone_start_address codeplug ;;
  compile_channels template channel_start_address codeplug.

(** The closing check.  On a mismatch the source prints, and its second
    [print] concatenates a [str] with [len(template)], an [int]: the call
    dies with [TypeError] before it reaches [sys.exit(4)]. *)
Definition compileCodeplug (codeplug : dict) : outcome (list Z) :=
  codeplug_size <- planned_size codeplug ;;
  template <- compile_template codeplug ;;
  if negb (len template =? codeplug_size)
  then Raise TypeError
  else Ok template.

(** ** Example documents and images *)

(** The section an all-zero image decodes to. *)
Definition blank (definitions : schema) : dict :=
  match fromBytes definitions (bytearray 0x2000) with
  | Ok item => item
  | Raise _ => []
  end.

Definition example_channel : dict :=
  [ ("ID", VInt 1); ("Type", VStr "DIGITAL"); ("Name", VStr "GB7AA");
    ("Rx Freq", VInt 43912500); ("Tx Freq", VInt 43012500);
    ("Tx Power", VStr "HIGH"); ("Rx only", VStr "OFF"); ("Alarm", VStr "OFF");
    ("Prompt", VStr "OFF"); ("PCT", VStr "PATCS"); ("TS Rx", VStr "TS1");
    ("TS Tx", VStr "TS2"); ("RX CC", VInt 1); ("TX CC", VInt 1);
    ("MSG Type", VStr "UNCONFIRMED"); ("TX Policy", VStr "IMPOLITE");
    ("Group call list", VInt 0); ("Scan List ID", VInt 0);
    ("Default Contact ID", VInt 1); ("EAS", VStr "OFF");
    ("Bandwidth", VStr "12.5KHz"); ("Tone Type Tx", VStr "OFF");
    ("Tone Tx", VInt 0); ("Tone Type Rx", VStr "OFF"); ("Tone Rx", VInt 0);
    ("APRS Channel", VInt 0) ].

Definition example_contact : dict :=
  [ ("ID", VInt 1); ("Name", VStr "Local"); ("DMR ID", VInt 9);
    ("Type", VStr "Group") ].

Definition example_aprs : dict :=
  dict_set "DMR channels"
    (VList (repeat (VDict (blank aprs_dmr_record_parameters)) 8))
    (dict_set "AX25 QT/DQT" (VStr "Off") (blank aprs_parameters)).

(** A document with one contact, one quick message, and one zone holding
    the given channels; every other section is blank. *)
Definition example_codeplug (scan_lists channels : list value) : dict :=
  [ ("Device info", VDict (blank dev_info));
    ("Basic parameters", VDict (blank basic_parameters));
    ("Common menu parameters", VDict (blank common_menu_parameters));
    ("Prompt Tone", VDict (blank prompt_tone_parameters));
    ("Indicators", VDict (blank indicator_parameters));
    ("Preset buttons", VDict (blank button_preset_parameters));
    ("Mic gain", VDict (blank mic_gain_parameters));
    ("APRS", VDict example_aprs);
    ("DMR Service", VDict (blank dmr_parameters));
    ("Quick messages", VList [VStr "On my way"]);
    ("Contacts", VList [VDict example_contact]);
    ("Scan lists", VList scan_lists);
    ("RX groups", VList []);
    ("Zones",
     VList [VDict [("ID", VInt 1); ("Name", VStr "Home"); ("Channels", VList channels)]]) ].

(** The image of a document known to compile. *)
Definition image_of (codeplug : dict) : list Z :=
  match compileCodeplug codeplug with
  | Ok template => template
  | Raise _ => []
  end.


(** A document whose only scan list selects 51 channels, one more than a
    record has room for. *)
Definition scan_list_51 : dict :=
  [ ("Name", VStr "Wide"); ("Talkback", VStr "Off");
    ("Scan TX Mode", VStr "Current Channel");
    ("Appointed channel group ID", VInt 0);
    ("Appointed channel channel ID", VInt 0);
    ("Selected channels",
     VList (repeat (VDict [("Group", VInt 1); ("Channel", VInt 1)]) 51)) ].

(** The buffer of a document before the closing size check. *)
Definition template_of (codeplug : dict) : list Z :=
  match compile_template codeplug with
  | Ok template => template
  | Raise _ => []
  end.

(** A blank channel record with "Tone Type Tx" set to DCS (byte [0x1A]) and
    the raw "Tone Tx" index 53 (byte [0x1C]). *)
Definition dcs_channel_record : list Z :=
  slice_assign (slice_assign (bytearray channel_record_size) 0x1A 0x1B [0x08])
    0x1C 0x1D [53].

(** The record of the example channel made simplex. *)
Definition simplex_channel : dict :=
  dict_set "Tx Freq" (VInt 43912500) example_channel.

(** A 32-byte channel record with both forced-on flags read as "ON" (bits
    [0x01] and [0x04] of byte [0x1D] clear) and the frequencies given. *)
Definition forced_on_record (rx_freq tx_freq : Z) : list Z :=
  slice_assign
    (slice_assign (bytearray channel_record_size) 0x0C 0x10 (le_bytes 4 rx_freq))
    0x10 0x14 (le_bytes 4 tx_freq).

(** A simplex record whose byte [0x1D] has the bits of the two forced-on
    flags set, and nothing else. *)
Definition forced_on_bits_record : list Z :=
  slice_assign (forced_on_record 43912500 43912500) 0x1D 0x1E [0x05].

(** [decompile_rx_group] with every read taken relative to the start of the
    record, so that the record is located once rather than once per read.
    [decompile_rx_groups_located] computes what [decompile_rx_groups] does
    (lemma [decompile_rx_groups_located_eq]) and is what the examples
    evaluate. *)
Definition decompile_rx_group_located (record_data : list Z) : outcome (option dict) :=
  record <- fromBytes rx_group_info (slice record_data 0 rx_group_record_size) ;;
  contacts <-
    for_each (range 100)
      (fun contacts j =>
         let id := from_bytes (slice record_data (10 + j * 2) (10 + j * 2 + 2)) in
         if negb (id =? 0) then Ok (contacts ++ [VInt id]) else Ok contacts)
      [] ;;
  let record := dict_set "Contacts" (VList contacts) record in
  name <- dict_get "Name" record ;;
  if negb (is_str "" name) || negb (len contacts =? 0)
  then Ok (Some record)
  else Ok None.

Definition decompile_rx_groups_located (data : list Z) : outcome (list value) :=
  for_each (range 250)
    (fun rx_groups i =>
       r <- decompile_rx_group_located
              (skipn (Z.to_nat (rx_group_start_address + i * rx_group_record_size)) data) ;;
       match r with
       | Some record => Ok (rx_groups ++ [VDict record])
       | None => Ok rx_groups
       end)
    [].

(** [decompileCodeplug] with the RX groups read through
    [decompile_rx_groups_located]. *)
Definition decompileCodeplug_located (data : list Z) : outcome dict :=
  let num_zones :=
    from_bytes (slice data zone_count_address (zone_count_address + zone_count_len)) in
  let num_contacts :=
    from_bytes (slice data contact_count_address (contact_count_address + contact_count_len)) in
  let zone_start_address := zone_start_address_decompile num_contacts in
  codeplug <- decompile_settings data num_contacts ;;
  rx_groups <- decompile_rx_groups_located data ;;
  let codeplug := dict_set "RX groups" (VList rx_groups) codeplug in
  zones <- decompile_zones data zone_start_address num_zones ;;
  let codeplug := dict_set "Zones" (VList zones) codeplug in
  Ok codeplug.

(** The example channel with a transmit policy of the schema's own table. *)
Definition channel_with_policy (policy : string) : dict :=
  dict_set "TX Policy" (VStr policy) example_channel.

(** The example channel, duplex as it is, asking for the receive timeslot
    sentinel. *)
Definition duplex_channel_ts_on : dict :=
  dict_set "TS Rx" (VStr "ON") example_channel.

(** The example document with a single channel. *)
Definition codeplug_with (channel : dict) : dict :=
  example_codeplug [] [VDict channel].

(** An image whose first quick message is "A" and whose second holds the
    byte [0x80], which is not ASCII. *)
Definition image_bad_second_message : list Z :=
  slice_assign
    (slice_assign (image_of (codeplug_with example_channel))
       (start_address 0) (start_address 0 + message_record_size)
       (65 :: bytearray (message_record_size - 1)))
    (start_address 1) (start_address 1 + 1) [0x80].

(** An image whose first quick message holds the byte [0x80]. *)
Definition image_bad_first_message : list Z :=
  slice_assign (image_of (codeplug_with example_channel))
    (start_address 0) (start_address 0 + 1) [0x80].

(** ** Vocabulary for the properties of the record codec *)

(** The bytes a field occupies, from [field_start] up to [field_stop], and
    the bits it uses in them; a [String] or a [Number] uses whole bytes. *)
Definition field_start (d : definition) : Z :=
  match d with
  | Bitmask offset _ _ => offset
  | Str offset _ => offset
  | Number offset _ => offset
  | MaskNum offset _ => offset
  | MaskNumFn offset _ _ _ => offset
  end.

Definition field_stop (d : definition) : Z :=
  match d with
  | Bitmask offset _ _ => offset + 1
  | Str offset length => offset + length
  | Number offset length => offset + length
  | MaskNum offset _ => offset + 1
  | MaskNumFn offset _ _ _ => offset + 1
  end.

Definition field_mask (d : definition) : Z :=
  match d with
  | Bitmask _ mask _ => mask
  | Str _ _ => 0xFF
  | Number _ _ => 0xFF
  | MaskNum _ mask => mask
  | MaskNumFn _ mask _ _ => mask
  end.

(** Two fields clash when they share a bit of a byte. *)
Definition fields_clash (f g : definition) : bool :=
  (field_start f <? field_stop g) && (field_start g <? field_stop f)
  && negb (Z.land (field_mask f) (field_mask g) =? 0).

(** No two fields of the schema clash. *)
Fixpoint schema_separated (definitions : schema) : bool :=
  match definitions with
  | [] => true
  | (_, f) :: rest =>
      forallb (fun '(_, g) => negb (fields_clash f g)) rest && schema_separated rest
  end.

(** The field lies inside a record of [n] bytes and its mask inside a byte. *)
Definition field_fits (n : Z) (d : definition) : bool :=
  (0 <=? field_start d) && (field_start d <=? field_stop d) && (field_stop d <=? n)
  && (0 <=? field_mask d) && (field_mask d <? 256).

(** The value is one the field can hold: a label of the table whose key
    lies inside the mask (in a table without repeated keys or labels); ASCII
    text no longer than the field and not ending in NUL; an integer of the
    field's width; an integer inside the mask, or one its lambdas carry there
    and back. *)
Definition value_fits (d : definition) (v : value) : Prop :=
  match d, v with
  | Bitmask _ mask enum, VStr label =>
      NoDup (map fst enum) /\ NoDup (map snd enum)
      /\ exists k, In (k, label) enum /\ 0 <= k < 256 /\ Z.land k mask = k
  | Str _ length, VStr s =>
      succeeds (encode_ascii s) = true /\ rstrip_nul s = s
      /\ Z.of_nat (String.length s) <= length
  | Number _ length, VInt n => 0 <= n < 256 ^ length
  | MaskNum _ mask, VInt n => Z.land n mask = n
  | MaskNumFn _ mask decode encode, VInt n =>
      exists m, lambda_int encode (VInt n) = Ok m /\ decode (Z.land m mask) = n
  | _, _ => False
  end.

(** Every byte of the buffer is a byte. *)
Definition bytes_in_range (data : list Z) : Prop :=
  forall j x, 0 <= j -> byte_at data j = Ok x -> 0 <= x < 256.

(** A document value that is a record of the schema: a dictionary with the
    schema's keys, in order, each holding a value its field can hold. *)
Definition record_fits (definitions : schema) (v : value) : Prop :=
  exists item,
    v = VDict item
    /\ map fst item = map fst definitions
    /\ forall key g, In (key, g) definitions ->
         exists x, dict_lookup key item = Some x /\ value_fits g x.


(** A tone the tables of the given tone type hold: a CTCSS frequency in
    tenths of a hertz, a DCS code, anything when the type is "OFF". *)
Definition tone_known (tone_type : string) (tone : value) : Prop :=
  if String.eqb tone_type "CTCSS" then exists t, tone = VFloat t /\ In t CTCSS_Tones
  else if String.eqb tone_type "OFF" then True
  else exists c, tone = VInt c /\ In c DCS_Codes.

(** A tone of the right kind that its table does not hold. *)
Definition tone_unknown (tone_type : string) (tone : value) : Prop :=
  if String.eqb tone_type "CTCSS" then exists t, tone = VFloat t /\ ~ In t CTCSS_Tones
  else exists c, tone = VInt c /\ ~ In c DCS_Codes.

(** The example channel with a DCS code on receive. *)
Definition dcs_channel_record_doc : dict :=
  dict_set "Tone Rx" (VInt 23) (dict_set "Tone Type Rx" (VStr "DCS") example_channel).

(** The top-level keys [compileCodeplug] reads from a document. *)
Definition codeplug_sections : list string :=
  [ "Device info"; "Basic parameters"; "Common menu parameters"; "Prompt Tone";
    "Indicators"; "Preset buttons"; "Mic gain"; "DMR Service"; "APRS";
    "Quick messages"; "Contacts"; "Scan lists"; "RX groups"; "Zones" ].

(** The last byte [decompileCodeplug] reads in every image: the flags byte
    of the 250th scan-list record. *)
Definition last_byte_read : Z :=
  scan_list_start_address + 249 * scan_list_record_size + 0x0B.

(** What a field can decode to: a label of its table or the empty string;
    ASCII text no longer than the field that does not end in NUL; an integer
    of the field's width; an integer inside the mask, or the image by the
    decoding lambda of one. *)
Definition value_decoded (d : definition) (v : value) : Prop :=
  match d, v with
  | Bitmask _ _ enum, VStr label => label = "" \/ In label (map snd enum)
  | Str _ length, VStr s =>
      succeeds (encode_ascii s) = true /\ rstrip_nul s = s
      /\ Z.of_nat (String.length s) <= Z.max 0 length
  | Number _ length, VInt n => 0 <= n < 256 ^ Z.max 0 length
  | MaskNum _ mask, VInt n => Z.land n mask = n
  | MaskNumFn _ mask decode _, VInt n => exists x, n = decode (Z.land x mask)
  | _, _ => False
  end.

(** The keys of a [Bitmask] table are bytes, and an encoding lambda makes
    an integer of whatever its decoding lambda makes of a masked byte. *)
Definition table_fits (d : definition) : bool :=
  match d with
  | Bitmask _ _ enum => forallb (fun '(k, _) => (0 <=? k) && (k <? 256)) enum
  | MaskNumFn _ mask decode encode =>
      forallb (fun b => succeeds (lambda_int encode (VInt (decode (Z.land b mask)))))
        (range 256)
  | _ => true
  end.


(** A zone of the given name holding the example channel [n] times. *)
Definition example_zone (name : string) (n : nat) : value :=
  VDict [("ID", VInt 1); ("Name", VStr name);
         ("Channels", VList (repeat (VDict example_channel) n))].

(** ** Serial transfers

    The serial port as the program sees it: [replies] holds what each
    successive [port.read] returns, in order, a read past the end of the
    list being one that times out and returns no byte; [written] holds what
    has been passed to [port.write], in order.  Opening the port is taken to
    succeed. *)

Record port : Type := {
  replies : list (list Z);
  written : list (list Z)
}.

Definition port_write (p : port) (bs : list Z) : port :=
  {| replies := replies p; written := written p ++ [bs] |}.

Definition port_read (p : port) : list Z * port :=
  match replies p with
  | [] => ([], p)
  | r :: rest => (r, {| replies := rest; written := written p |})
  end.

(** How a transfer ends: the function returns, calls [sys.exit], or dies
    with an exception. *)
Inductive ending (A : Type) : Type :=
| Returned (a : A)
| Exited (code : Z)
| Raised (e : pyexc).

Arguments Returned {A} a.
Arguments Exited {A} code.
Arguments Raised {A} e.

(** ["...".encode('ascii')] for a literal of the source *)
Definition literal (s : string) : list Z :=
  match encode_ascii s with
  | Ok bs => bs
  | Raise _ => []
  end.

(** Pad the data to a multiple of 2048 bytes. *)
Definition pad_to_blocks (data : list Z) : list Z :=
  let size := len data in
  if negb (size mod 2048 =? 0)
  then data ++ repeat 0 (Z.to_nat (2048 - size mod 2048))
  else data.

(** The loop of [uploadCodeplug] over the blocks. *)
Fixpoint upload_blocks (data : list Z) (block_count : Z) (indices : list Z)
    (p : port) : ending unit * port :=
  match indices with
  | [] => (Returned tt, p)
  | i :: rest =>
      let p := port_write p (slice data (2048 * i) (2048 * (i + 1))) in
      let '(bytes, p) := port_read p in
      match decode_ascii bytes with
      | Raise e => (Raised e, p)
      | Ok s =>
          if String.eqb s "Write" then upload_blocks data block_count rest p
          else if (i =? block_count - 1) && String.eqb s "Check"
               then upload_blocks data block_count rest p
               else (Exited 2, p)
      end
  end.

(** [len(data) / 2048] is a float division followed by [int]; on the padded
    data it is exact. *)
Definition uploadCodeplug (p : port) (data : list Z) : ending unit * port :=
  let data := pad_to_blocks data in
  let block_count := len data / 2048 in
  if block_count >? 0xFF then (Exited 4, p)
  else
    match byte_store
            (literal "Flash Write"
             ++ [0x00; 0x3c; 0x00; 0x00; 0x00; 0x00; 0x00; 0xFF; 0x00; 0x00;
                 0x00; 0x00; 0x00; 0x00; 0x00; 0x00; 0x00; 0x00; 0x00; 0x00])
            18 block_count with
    | Raise e => (Raised e, p)
    | Ok response =>
        let p := port_write p response in
        let '(bytes, p) := port_read p in
        if len bytes <=? 1 then (Exited 1, p)
        else
          match decode_ascii (slice bytes 2 7) with
          | Raise e => (Raised e, p)
          | Ok s =>
              if negb (String.eqb s "Write") then (Exited 2, p)
              else upload_blocks data block_count (range block_count) p
          end
    end.

(** The loop of [downloadCodeplug] over the pages. *)
Fixpoint download_blocks (pages : nat) (plug : list Z) (p : port)
  : list Z * port :=
  match pages with
  | O => (plug, p)
  | S pages =>
      let p := port_write p (literal "Read") in
      let '(block, p) := port_read p in
      download_blocks pages (plug ++ block) p
  end.

Definition downloadCodeplug (p : port) : ending (list Z) * port :=
  let p := port_write p (literal "Flash Read ") in
  let p := port_write p
             [0x00; 0x3c; 0x00; 0x00; 0x00; 0x00; 0x00; 0x39; 0x00; 0x00;
              0x00; 0x00; 0x00; 0x00; 0x00; 0x00; 0x00; 0x00; 0x00; 0x00] in
  let '(response, p) := port_read p in
  if len response <=? 1 then (Exited 1, p)
  else
    match byte_at response 18 with
    | Raise e => (Raised e, p)
    | Ok a =>
        match byte_at response 20 with
        | Raise e => (Raised e, p)
        | Ok b =>
            let num_pages := a + b in
            let '(plug, p) := download_blocks (Z.to_nat num_pages) [] p in
            (Returned plug, p)
        end
    end.

(** The blocks of an image, as [uploadCodeplug] cuts them. *)
Definition blocks_of (data : list Z) : list (list Z) :=
  map (fun i => slice data (2048 * i) (2048 * (i + 1))) (range (len data / 2048)).

(** A selected channel of a scan list, as the document holds it. *)
Definition scan_pair (gc : Z * Z) : value :=
  VDict [("Group", VInt (fst gc)); ("Channel", VInt (snd gc))].

(** A scan list of the document: the fields of its schema, then the
    channels it selects. *)
Definition scan_list_doc (entry : dict * list (Z * Z)) : value :=
  VDict (fst entry ++ [("Selected channels", VList (map scan_pair (snd entry)))]).

(** A scan list that the image can hold: fields its schema can hold, a name
    that is not empty, at most 50 selected channels, each a pair of two
    numbers from 1 to 65535. *)
Definition scan_list_fits (entry : dict * list (Z * Z)) : Prop :=
  record_fits scan_list_info (VDict (fst entry))
  /\ dict_lookup "Name" (fst entry) <> Some (VStr "")
  /\ len (snd entry) <= 50
  /\ Forall (fun gc => 0 < fst gc < 65536 /\ 0 < snd gc < 65536) (snd entry).

(** An RX group of the document: its name, then the IDs of its contacts. *)
Definition rx_group_doc (entry : string * list Z) : value :=
  VDict [("Name", VStr (fst entry)); ("Contacts", VList (map VInt (snd entry)))].

(** An RX group that the image can hold: an ASCII name of at most ten
    characters that does not end in NUL, at most 100 contact IDs from 1 to
    65535, and a name or a contact at least. *)
Definition rx_group_fits (entry : string * list Z) : Prop :=
  succeeds (encode_ascii (fst entry)) = true
  /\ rstrip_nul (fst entry) = fst entry
  /\ (String.length (fst entry) <= 10)%nat
  /\ len (snd entry) <= 100
  /\ Forall (fun id => 0 < id < 65536) (snd entry)
  /\ (fst entry <> "" \/ snd entry <> []).

(** The fields of a scan list named "Local". *)
Definition example_scan_list : dict :=
  [ ("Name", VStr "Local"); ("Talkback", VStr "Off");
    ("Scan TX Mode", VStr "Current Channel");
    ("Appointed channel group ID", VInt 0);
    ("Appointed channel channel ID", VInt 0) ].

(** ** Ham contacts and ham groups

    The packing loop of [uploadHamContacts], which [uploadHamGroups]
    repeats with 16 for [contactbytes]: the IDs and the texts are those the
    CSV rows gave, the texts already encoded to ASCII.  [contactbytes] is 16
    or 128. *)

Definition pack_ham_record (contactbytes : Z) (hamcontacts : list Z)
    (entry : Z * (Z * list Z)) : outcome (list Z) :=
  let '(i, (radio_id, contact_info)) := entry in
  id_bytes <- to_bytes radio_id 3 ;;
  (* hamcontacts[contactbytes*i:contactbytes*i+2] = RADIO_ID[i].to_bytes(3) *)
  let hamcontacts :=
    slice_assign hamcontacts (contactbytes * i) (contactbytes * i + 2) id_bytes in
  (* hamcontacts[contactbytes*i+3:] = CONTACT_INFO[i].encode(...) *)
  let hamcontacts :=
    slice_assign hamcontacts (contactbytes * i + 3)
      (len hamcontacts) contact_info in
  let size :=
    len (slice hamcontacts (contactbytes * i) (contactbytes * i + contactbytes)) in
  if negb (size mod contactbytes =? 0)
  then Ok (slice_assign hamcontacts (contactbytes * i)
             (contactbytes * i + contactbytes)
             (slice hamcontacts (contactbytes * i) (contactbytes * i + contactbytes)
              ++ repeat 0 (Z.to_nat (contactbytes - size mod contactbytes))))
  else Ok hamcontacts.

Definition pack_ham_contacts (contactbytes : Z) (rows : list (Z * list Z))
  : outcome (list Z) :=
  hamcontacts <-
    for_each (enumerate_from 0 rows) (pack_ham_record contactbytes)
      (bytearray contactbytes) ;;
  Ok (pad_to_blocks hamcontacts).

(** One packed record: the ID on three bytes, then the text, then zeros
    up to [contactbytes] when the text is shorter than the record's
    remaining bytes. *)
Definition ham_record (contactbytes : Z) (row : Z * list Z) : list Z :=
  le_bytes 3 (fst row) ++ snd row
  ++ repeat 0 (Z.to_nat (contactbytes - 3 - len (snd row))).

(** ** Firmware upload *)

(** [n.to_bytes(length=width, byteorder='big')] *)
Definition to_bytes_big (n width : Z) : outcome (list Z) :=
  bs <- to_bytes n width ;; Ok (rev bs).

(** The loop of [uploadFirmware] over the blocks. *)
Fixpoint firmware_blocks (data : list Z) (indices : list Z) (p : port)
  : ending unit * port :=
  match indices with
  | [] => (Returned tt, p)
  | i :: rest =>
      let block := slice data (2048 * i) (2048 * (i + 1)) in
      let p := port_write p block in
      let '(bytes, p) := port_read p in
      match decode_ascii bytes with
      | Raise e => (Raised e, p)
      | Ok s =>
          if String.eqb s "kyd" then firmware_blocks data rest p
          else (Exited 2, p)
      end
  end.

(** The answer to the first read, the version and date of the loader, is
    dropped without a look. *)
Definition uploadFirmware (p : port) (data : list Z) : ending unit * port :=
  let data := pad_to_blocks data in
  let num_blocks := len data / 2048 in
  let p := port_write p (literal "Erase") in
  let p := port_write p
             [0x20; 0x20; 0x20; 0x20; 0x20; 0x20; 0x00; 0x00; 0x00; 0x00;
              0x00; 0x00] in
  match to_bytes_big (num_blocks - 1) 2 with
  | Raise e => (Raised e, p)
  | Ok count =>
      let p := port_write p count in
      let '(_, p) := port_read p in
      let '(bytes, p) := port_read p in
      if len bytes <=? 1 then (Exited 1, p)
      else
        match decode_ascii bytes with
        | Raise e => (Raised e, p)
        | Ok s =>
            if negb (String.eqb s "Erase ok") then (Exited 2, p)
            else
              match firmware_blocks data (range num_blocks) p with
              | (Returned _, p) =>
                  let '(bytes, p) := port_read p in
                  match decode_ascii (slice bytes 0 8) with
                  | Raise e => (Raised e, p)
                  | Ok s =>
                      if String.eqb s "Checksum" then (Returned tt, p)
                      else (Exited 5, p)
                  end
              | stopped => stopped
              end
        end
  end.

(** The command that opens a firmware upload, before the block count. *)
Definition erase_command : list (list Z) :=
  [literal "Erase";
   [0x20; 0x20; 0x20; 0x20; 0x20; 0x20; 0x00; 0x00; 0x00; 0x00; 0x00; 0x00]].
(** ** Upload of ham contacts and ham groups

    The two functions after the CSV file has been read: [rows] holds the ID
    and the encoded text of each row. *)

(** The loop over the blocks, the same in both functions. *)
Fixpoint ham_blocks (data : list Z) (indices : list Z) (p : port)
  : ending unit * port :=
  match indices with
  | [] => (Returned tt, p)
  | i :: rest =>
      let p := port_write p (slice data (2048 * i) (2048 * (i + 1))) in
      let '(bytes, p) := port_read p in
      match decode_ascii (slice bytes 0 6) with
      | Raise e => (Raised e, p)
      | Ok s =>
          if String.eqb s "Write" then ham_blocks data rest p
          else if String.eqb s "Check" then ham_blocks data rest p
          else (Exited 2, p)
      end
  end.

(** What both functions do once the command is built. *)
Definition ham_transfer (p : port) (writecommand data : list Z) (block_count : Z)
  : ending unit * port :=
  let p := port_write p writecommand in
  let '(bytes, p) := port_read p in
  if len bytes <=? 1 then (Exited 1, p)
  else
    match decode_ascii (slice bytes 2 7) with
    | Raise e => (Raised e, p)
    | Ok s =>
        if String.eqb s "Write"
        then ham_blocks data (range block_count) p
        else (Exited 2, p)
    end.

Definition uploadHamContacts (p : port) (contactbytes : Z)
    (rows : list (Z * list Z)) : ending unit * port :=
  match pack_ham_contacts contactbytes rows with
  | Raise e => (Raised e, p)
  | Ok hamcontacts =>
      let contactcount := len rows in
      let block_count := len hamcontacts / 2048 in
      if block_count >? 0x493E then (Exited 7, p)
      else
        match
          (blocks <- to_bytes_big block_count 2 ;;
           size <- to_bytes contactbytes 1 ;;
           count <- to_bytes_big contactcount 3 ;;
           Ok (literal "Flash Write"
               ++ [0x81; 0x10; 0x00; 0x00; 0x00; 0x00]
               ++ blocks
               ++ [0x00; 0x00; 0x00; 0x00; 0x00; 0x00; 0x00; 0x00; 0x00; 0x00;
                   0x00; 0x00; 0x2B]
               ++ size
               ++ [0x2B; 0x00]
               ++ count))
        with
        | Raise e => (Raised e, p)
        | Ok writecommand => ham_transfer p writecommand hamcontacts block_count
        end
  end.

Definition uploadHamGroups (p : port) (rows : list (Z * list Z))
  : ending unit * port :=
  match pack_ham_contacts 16 rows with
  | Raise e => (Raised e, p)
  | Ok hamgroups =>
      let groupcount := len rows in
      let block_count := len hamgroups / 2048 in
      if block_count >? 0xEB then (Exited 8, p)
      else
        match
          (blocks <- to_bytes_big block_count 2 ;;
           count <- to_bytes_big groupcount 3 ;;
           Ok (literal "Flash Write"
               ++ [0x82; 0x98; 0x00; 0x00; 0x00; 0x00]
               ++ blocks
               ++ [0x00; 0x00; 0x00; 0x00; 0x00; 0x00; 0x00; 0x00; 0x00; 0x00;
                   0x00; 0x00; 0x2B; 0x10; 0x2B; 0x00]
               ++ count))
        with
        | Raise e => (Raised e, p)
        | Ok writecommand => ham_transfer p writecommand hamgroups block_count
        end
  end.

(** * Properties *)

(** ** Layout planner *)

Lemma contact_block_padded_aligned (n : Z) : contact_block_padded n mod 1024 = 0.
Proof.
  unfold contact_block_padded, contact_record_size.
  destruct (n * 16 mod 1024 =? 0) eqn:E; cbn [negb].
  - now apply Z.eqb_eq in E.
  - apply Z.eqb_neq in E. Z.div_mod_to_equations. lia.
Qed.

Lemma contact_block_padded_nonneg (n : Z) : 0 <= n -> 0 <= contact_block_padded n.
Proof.
  intros Hn. unfold contact_block_padded, contact_record_size.
  destruct (n * 16 mod 1024 =? 0); cbn [negb]; Z.div_mod_to_equations; lia.
Qed.

Lemma contact_block_size_aligned (n : Z) : contact_block_size n mod 1024 = 0.
Proof.
  unfold contact_block_size. pose proof (contact_block_padded_aligned n) as H.
  destruct ((contact_block_padded n / 1024) mod 2 =? 0); [|exact H].
  Z.div_mod_to_equations. lia.
Qed.

Lemma zone_start_address_decompile_eq (n : Z) :
  zone_start_address_decompile n = zone_start_address n.
Proof.
  unfold zone_start_address_decompile, zone_start_address, contact_start_address.
  pose proof (contact_block_size_aligned n) as H.
  replace ((0x1B400 + contact_block_size n) mod 1024) with 0.
  - reflexivity.
  - Z.div_mod_to_equations. lia.
Qed.

(** C10.  Whatever the number of contacts, none included, the contact block
    is a whole, odd number of 1024-byte units and at least one unit long; an
    empty contact list still takes 1024 bytes; so the zones start strictly
    after the contact start address, on decode as on encode. *)
Theorem contact_block_odd_units (num_contacts : Z) :
  0 <= num_contacts ->
  contact_block_size num_contacts mod 1024 = 0
  /\ (contact_block_size num_contacts / 1024) mod 2 = 1
  /\ 1024 <= contact_block_size num_contacts
  /\ contact_block_size 0 = 1024
  /\ contact_start_address < zone_start_address num_contacts
  /\ contact_start_address < zone_start_address_decompile num_contacts.
Proof.
  intros Hn.
  assert (Hodd : (contact_block_size num_contacts / 1024) mod 2 = 1
                 /\ 1024 <= contact_block_size num_contacts).
  { unfold contact_block_size.
    pose proof (contact_block_padded_aligned num_contacts) as Ha.
    pose proof (contact_block_padded_nonneg num_contacts Hn) as Hp.
    destruct ((contact_block_padded num_contacts / 1024) mod 2 =? 0) eqn:E.
    - apply Z.eqb_eq in E. Z.div_mod_to_equations. lia.
    - apply Z.eqb_neq in E. Z.div_mod_to_equations. lia. }
  destruct Hodd as [Hodd Hge].
  rewrite zone_start_address_decompile_eq. unfold zone_start_address.
  repeat split; auto using contact_block_size_aligned; lia.
Qed.

Lemma contact_block_odd_units_witness :
  contact_block_size 0 mod 1024 = 0
  /\ (contact_block_size 0 / 1024) mod 2 = 1
  /\ 1024 <= contact_block_size 0
  /\ contact_block_size 0 = 1024
  /\ contact_start_address < zone_start_address 0
  /\ contact_start_address < zone_start_address_decompile 0.
Proof. apply (contact_block_odd_units 0). lia. Defined.

(** C2, as the specification words it, fails: 64 contacts fill exactly one
    1024-byte unit, an odd count, so no unit is added and the zones start
    1024 bytes after the contacts. *)
Lemma contact_count_64_no_fixup :
  (contact_block_padded 64 / 1024) mod 2 <> 0
  /\ contact_block_size 64 <> contact_block_padded 64 + 1024
  /\ contact_block_size 64 = 1024
  /\ zone_start_address 64 = contact_start_address + 1024
  /\ zone_start_address_decompile 64 = contact_start_address + 1024.
Proof. vm_compute. repeat split; discriminate. Qed.

(** C2, amended.  Whenever the padded contact block is an even number of
    1024-byte units, one more unit is added and the zone start address
    includes it, on encode and on decode; otherwise the padded size stands.
    An empty contact list pads to no unit at all, an even number, and gets
    one unit; 1 to 64 contacts fill one unit, an odd number, and keep it, so
    the zones start 1024 bytes after the contacts; 65 to 128 contacts pad to
    two units and get a third, so the zones start 3072 bytes after the
    contacts. *)
Theorem parity_fixup (num_contacts : Z) :
  ((contact_block_padded num_contacts / 1024) mod 2 = 0 ->
     contact_block_size num_contacts = contact_block_padded num_contacts + 1024
     /\ zone_start_address num_contacts
        = contact_start_address + contact_block_padded num_contacts + 1024
     /\ zone_start_address_decompile num_contacts
        = contact_start_address + contact_block_padded num_contacts + 1024)
  /\ ((contact_block_padded num_contacts / 1024) mod 2 <> 0 ->
     contact_block_size num_contacts = contact_block_padded num_contacts
     /\ zone_start_address num_contacts
        = contact_start_address + contact_block_padded num_contacts
     /\ zone_start_address_decompile num_contacts
        = contact_start_address + contact_block_padded num_contacts)
  /\ (num_contacts = 0 ->
     contact_block_padded num_contacts = 0
     /\ contact_block_size num_contacts = 1024
     /\ zone_start_address num_contacts = contact_start_address + 1024)
  /\ (0 < num_contacts <= 64 ->
     contact_block_padded num_contacts = 1024
     /\ contact_block_size num_contacts = 1024
     /\ zone_start_address num_contacts = contact_start_address + 1024)
  /\ (64 < num_contacts <= 128 ->
     contact_block_padded num_contacts = 2048
     /\ contact_block_size num_contacts = 3072
     /\ zone_start_address num_contacts = contact_start_address + 3072).
Proof.
  assert (Hpad : forall units : Z,
             0 <= units -> (units - 1) * 64 < num_contacts <= units * 64 ->
             contact_block_padded num_contacts = units * 1024).
  { intros units Hu Hn. unfold contact_block_padded, contact_record_size.
    destruct (num_contacts * 16 mod 1024 =? 0) eqn:E; cbn [negb].
    - apply Z.eqb_eq in E. Z.div_mod_to_equations. lia.
    - Z.div_mod_to_equations. lia. }
  split; [|split; [|split; [|split]]].
  - intros E. rewrite zone_start_address_decompile_eq.
    unfold zone_start_address, contact_block_size.
    apply Z.eqb_eq in E. rewrite E. repeat split; lia.
  - intros E. rewrite zone_start_address_decompile_eq.
    unfold zone_start_address, contact_block_size.
    apply Z.eqb_neq in E. rewrite E. repeat split; lia.
  - intros ->. repeat split; reflexivity.
  - intros Hn. pose proof (Hpad 1 ltac:(lia) ltac:(lia)) as Hp.
    unfold zone_start_address, contact_block_size. rewrite Hp.
    repeat split; reflexivity.
  - intros Hn. pose proof (Hpad 2 ltac:(lia) ltac:(lia)) as Hp.
    unfold zone_start_address, contact_block_size. rewrite Hp.
    repeat split; reflexivity.
Qed.

Lemma parity_fixup_witness :
  (contact_block_padded 65 / 1024) mod 2 = 0
  /\ contact_block_size 65 = contact_block_padded 65 + 1024
  /\ contact_block_padded 65 = 2048
  /\ zone_start_address 65 = contact_start_address + 3072.
Proof.
  destruct (parity_fixup 65) as (Heven & _ & _ & _ & Hrange).
  assert (E : (contact_block_padded 65 / 1024) mod 2 = 0) by reflexivity.
  destruct (Heven E) as [Hsize _].
  destruct Hrange as [Hp [_ Hz]]; [lia|].
  repeat split; assumption.
Defined.

(** ** Quick-message addressing *)

(** The 40-byte windows of two different messages never overlap. *)
Lemma message_windows_disjoint (i j : Z) :
  0 <= i < j -> j < message_block_1_count + message_block_2_count ->
  start_of_message i + message_record_size <= start_of_message j
  \/ start_of_message j + message_record_size <= start_of_message i.
Proof.
  unfold start_of_message, message_block_1_count, message_block_2_count,
    message_block_1_start_addr, message_block_2_start_addr, message_record_size.
  intros Hi Hj.
  destruct (i <? 15) eqn:Ei; destruct (j <? 15) eqn:Ej;
    rewrite ?Z.ltb_lt, ?Z.ltb_ge in *; lia.
Qed.

(** ** The Python layer *)

Ltac inv_bind H :=
  match type of H with
  | bind ?m _ = Ok _ =>
      let x := fresh "x" in
      let E := fresh "E" in
      destruct m as [x|] eqn:E; [cbn [bind] in H | discriminate H]
  end.

Lemma dict_lookup_set_same (k : string) (v : value) (d : dict) :
  dict_lookup k (dict_set k v d) = Some v.
Proof.
  induction d as [|[k' v'] d IH]; cbn.
  - now rewrite String.eqb_refl.
  - destruct (String.eqb k k') eqn:E; cbn; rewrite ?String.eqb_refl, ?E; auto.
Qed.

Lemma dict_lookup_set_other (k k' : string) (v : value) (d : dict) :
  k <> k' -> dict_lookup k (dict_set k' v d) = dict_lookup k d.
Proof.
  intros Hk. apply String.eqb_neq in Hk.
  induction d as [|[k0 v0] d IH]; cbn.
  - now rewrite Hk.
  - destruct (String.eqb k' k0) eqn:E; cbn.
    + apply String.eqb_eq in E. subst k0. now rewrite Hk.
    + now rewrite IH.
Qed.

Lemma dict_get_lookup (k : string) (d : dict) (v : value) :
  dict_get k d = Ok v <-> dict_lookup k d = Some v.
Proof.
  unfold dict_get. destruct (dict_lookup k d); split; congruence.
Qed.

Lemma set_nth_spec (n : nat) (v : Z) (data : list Z) :
  (n < List.length data)%nat ->
  exists data', set_nth n v data = Some data'
                /\ nth_error data' n = Some v
                /\ List.length data' = List.length data.
Proof.
  revert n. induction data as [|b data IH]; intros [|n] Hn; cbn in *; try lia.
  - exists (v :: data). repeat split.
  - destruct (IH n) as (data' & Hs & Hv & Hl); [lia|].
    rewrite Hs. cbn. exists (b :: data'). cbn. repeat split; auto.
Qed.

Lemma byte_lor_range (a b : Z) :
  0 <= a < 256 -> 0 <= b < 256 -> 0 <= Z.lor a b < 256.
Proof.
  intros Ha Hb.
  assert (E : Z.lor a b = Z.lor a b mod 2 ^ 8).
  { rewrite <- Z.land_ones, Z.land_lor_distr_l, !Z.land_ones by lia.
    rewrite !Z.mod_small by (change (2 ^ 8) with 256; lia). reflexivity. }
  rewrite E. change (2 ^ 8) with 256. apply Z.mod_pos_bound. lia.
Qed.

Lemma byte_land_range (n mask : Z) : 0 <= mask < 256 -> 0 <= Z.land n mask < 256.
Proof.
  intros Hm.
  assert (E : Z.land n mask = Z.land n mask mod 2 ^ 8).
  { rewrite <- Z.land_ones, <- Z.land_assoc, Z.land_ones by lia.
    rewrite (Z.mod_small mask) by (change (2 ^ 8) with 256; lia). reflexivity. }
  rewrite E. change (2 ^ 8) with 256. apply Z.mod_pos_bound. lia.
Qed.


(** ** Record encode: width checks *)



(** *** The doubles of quotients *)












(** ** The size of the compiled image *)

Lemma codeplug_size_aligned (num_contacts num_zones num_channels : Z) :
  codeplug_size num_contacts num_zones num_channels mod 2048 = 0.
Proof.
  unfold codeplug_size.
  set (size := channel_start_address num_contacts num_zones
               + num_channels * channel_record_size).
  destruct (size mod 2048 =? 0) eqn:E; cbn [negb].
  - now apply Z.eqb_eq in E.
  - Z.div_mod_to_equations. lia.
Qed.

Lemma image_of_spec (codeplug : dict) :
  succeeds (compileCodeplug codeplug) = true ->
  compileCodeplug codeplug = Ok (image_of codeplug).
Proof.
  unfold image_of. now destruct (compileCodeplug codeplug).
Qed.

Lemma template_of_spec (codeplug : dict) :
  succeeds (compile_template codeplug) = true ->
  compile_template codeplug = Ok (template_of codeplug).
Proof.
  unfold template_of. now destruct (compile_template codeplug).
Qed.

(** C6.  A buffer that [compileCodeplug] returns is as long as the size
    planned from the document's contact, zone and channel counts, and that
    size is a multiple of 2048.  When the buffer built from the document has
    any other length, the closing check stops the call with an exception and
    nothing is returned. *)
Theorem compiled_length (codeplug : dict) :
  (forall template : list Z,
      compileCodeplug codeplug = Ok template ->
      exists num_contacts num_zones num_channels,
        compile_counts codeplug = Ok (num_contacts, num_zones, num_channels)
        /\ len template = codeplug_size num_contacts num_zones num_channels
        /\ len template mod 2048 = 0)
  /\ (forall (template : list Z) (size : Z),
      compile_template codeplug = Ok template ->
      planned_size codeplug = Ok size ->
      len template <> size ->
      compileCodeplug codeplug = Raise TypeError).
Proof.
  split.
  - intros template H. unfold compileCodeplug, planned_size in H.
    destruct (compile_counts codeplug) as [[[nc nz] nch]|] eqn:Ec;
      [cbn [bind] in H | discriminate H].
    inv_bind H.
    destruct (len x =? codeplug_size nc nz nch) eqn:El; cbn [negb] in H;
      [|discriminate H].
    injection H as <-. apply Z.eqb_eq in El.
    exists nc, nz, nch. repeat split; auto.
    rewrite El. apply codeplug_size_aligned.
  - intros template size Ht Hs Hne. unfold compileCodeplug.
    rewrite Hs, Ht. cbn [bind].
    apply Z.eqb_neq in Hne. now rewrite Hne.
Qed.

Lemma compiled_length_witness :
  (exists num_contacts num_zones num_channels,
      compile_counts (example_codeplug [] [VDict example_channel])
      = Ok (num_contacts, num_zones, num_channels)
      /\ len (image_of (example_codeplug [] [VDict example_channel]))
         = codeplug_size num_contacts num_zones num_channels
      /\ len (image_of (example_codeplug [] [VDict example_channel])) mod 2048 = 0)
  /\ compileCodeplug (example_codeplug [VDict scan_list_51] [VDict example_channel])
     = Raise TypeError.
Proof.
  split.
  - apply (proj1 (compiled_length _)).
    apply image_of_spec. vm_compute. reflexivity.
  - apply (proj2 (compiled_length _)
             (template_of (example_codeplug [VDict scan_list_51] [VDict example_channel]))
             114688).
    + apply template_of_spec. vm_compute. reflexivity.
    + vm_compute. reflexivity.
    + vm_compute. discriminate.
Defined.

(** ** Tone resolution *)

Lemma In_range (n i : Z) : 0 <= i < n -> In i (range n).
Proof.
  intros H. unfold range. apply in_map_iff.
  exists (Z.to_nat i). split; [lia|]. apply in_seq. lia.
Qed.

Lemma list_index_ok {A} (l : list A) (i : Z) :
  - len l <= i < len l -> exists x, list_index l i = Ok x /\ In x l.
Proof.
  unfold list_index, len. intros H.
  set (j := if i <? 0 then i + Z.of_nat (List.length l) else i).
  assert (Hj : 0 <= j < Z.of_nat (List.length l)).
  { subst j. destruct (i <? 0) eqn:E;
      [apply Z.ltb_lt in E | apply Z.ltb_ge in E]; lia. }
  destruct (j <? 0) eqn:E; [apply Z.ltb_lt in E; lia|].
  destruct (nth_error l (Z.to_nat j)) as [x|] eqn:En.
  - exists x. split; [reflexivity|]. eapply nth_error_In; eauto.
  - apply nth_error_None in En. lia.
Qed.

(** No DCS code equals its own position in the table. *)
Lemma dcs_code_is_not_its_index (i code : Z) :
  0 <= i < len DCS_Codes -> list_index DCS_Codes i = Ok code -> code <> i.
Proof.
  intros Hi Hc.
  assert (H : forallb (fun i => match list_index DCS_Codes i with
                                | Ok c => negb (c =? i)
                                | Raise _ => false
                                end) (range (len DCS_Codes)) = true)
    by (vm_compute; reflexivity).
  rewrite forallb_forall in H. specialize (H i (In_range _ _ Hi)).
  rewrite Hc in H. apply negb_true_iff in H. now apply Z.eqb_neq.
Qed.

(** C3, as the specification words it, fails for a channel: with tone type DCS the
    raw index 53 decodes to the number 306, the 54th table entry, and the
    document holds that number, not a ["D...N"] string. *)
Lemma channel_dcs_tone_is_a_number :
  exists channel,
    byte_at dcs_channel_record 0x1C = Ok 53
    /\ decompile_channel dcs_channel_record = Ok channel
    /\ dict_lookup "Tone Type Tx" channel = Some (VStr "DCS")
    /\ dict_lookup "Tone Tx" channel = Some (VInt 306)
    /\ dict_lookup "Tone Tx" channel <> Some (VStr "D017N").
Proof.
  eexists. split; [reflexivity|]. split; [vm_compute; reflexivity|].
  repeat split. discriminate.
Qed.

Lemma list_index_past {A} (l : list A) (i : Z) :
  len l <= i -> list_index l i = Raise IndexError.
Proof.
  unfold list_index, len. intros H.
  replace (i <? 0) with false by lia. replace (i <? 0) with false by lia.
  destruct (nth_error l (Z.to_nat i)) eqn:E; [|reflexivity].
  assert ((Z.to_nat i < List.length l)%nat) by (apply nth_error_Some; congruence).
  lia.
Qed.

(** No CTCSS tone equals its own position in the table. *)
Lemma ctcss_tone_is_not_its_index (i tone : Z) :
  0 <= i < len CTCSS_Tones -> list_index CTCSS_Tones i = Ok tone ->
  py_eq (VFloat tone) (VInt i) = false.
Proof.
  intros Hi Hc.
  assert (H : forallb (fun i => match list_index CTCSS_Tones i with
                                | Ok t => negb (py_eq (VFloat t) (VInt i))
                                | Raise _ => false
                                end) (range (len CTCSS_Tones)) = true)
    by (vm_compute; reflexivity).
  rewrite forallb_forall in H. specialize (H i (In_range _ _ Hi)).
  rewrite Hc in H. now apply negb_true_iff in H.
Qed.

(** C3, amended.  In a channel, a raw tone index with tone type CTCSS
    decodes to the CTCSS table entry at that index, index 0 to 62.5, and one
    with tone type DCS or DCS Invert to the DCS table's code at that index,
    held as a number (index 0 to 17, index 53 to 306), the polarity staying
    in the tone type; neither is ever the raw index, and a raw index past the
    end of its table stops the decoding with [IndexError].  In the APRS
    "AX25 QT/DQT" field, which has no tone type, the raw value 53 decodes to
    ["D017N"], encoding ["D017N"] gives 53 back, and every raw value from 52
    to 267 decodes to a [D<code>N] or [D<code>I] string. *)
Theorem tone_resolution :
  (forall (which : string) (channel : dict) (i : Z),
      dict_lookup ("Tone Type " ++ which) channel = Some (VStr "CTCSS") ->
      dict_lookup ("Tone " ++ which) channel = Some (VInt i) ->
      0 <= i ->
      (i < len CTCSS_Tones ->
         exists tone,
           list_index CTCSS_Tones i = Ok tone
           /\ py_eq (VFloat tone) (VInt i) = false
           /\ decode_tone which channel
              = Ok (dict_set ("Tone " ++ which) (VFloat tone) channel))
      /\ (len CTCSS_Tones <= i -> decode_tone which channel = Raise IndexError))
  /\ list_index CTCSS_Tones 0 = Ok 625
  /\ (forall (which tone_type : string) (channel : dict) (i : Z),
      dict_lookup ("Tone Type " ++ which) channel = Some (VStr tone_type) ->
      tone_type = "DCS" \/ tone_type = "DCS Invert" ->
      dict_lookup ("Tone " ++ which) channel = Some (VInt i) ->
      0 <= i ->
      (i < len DCS_Codes ->
         exists code,
           list_index DCS_Codes i = Ok code
           /\ code <> i
           /\ decode_tone which channel
              = Ok (dict_set ("Tone " ++ which) (VInt code) channel))
      /\ (len DCS_Codes <= i -> decode_tone which channel = Raise IndexError))
  /\ list_index DCS_Codes 0 = Ok 17
  /\ list_index DCS_Codes 53 = Ok 306
  /\ decode_aprs_qt_dqt 53 = Ok (VStr "D017N")
  /\ encode_aprs_qt_dqt (VStr "D017N") = Ok (VInt 53)
  /\ (forall q : Z,
      52 <= q <= 267 ->
      exists code suffix,
        In code DCS_Codes
        /\ (suffix = "N" \/ suffix = "I")
        /\ decode_aprs_qt_dqt q
           = Ok (VStr ("D" ++ zfill 3 (str_int code) ++ suffix))).
Proof.
  split; [|split; [|split; [|split; [|split; [|split; [|split]]]]]].
  - intros which channel i Ht Hi H0.
    assert (Hd : decode_tone which channel
                 = (tone <- list_index CTCSS_Tones i ;;
                    Ok (dict_set ("Tone " ++ which) (VFloat tone) channel))).
    { unfold decode_tone, dict_get. rewrite Ht. cbn [bind is_str].
      cbn [String.eqb Ascii.eqb Bool.eqb]. rewrite Hi. reflexivity. }
    split.
    + intros Hlt.
      destruct (list_index_ok CTCSS_Tones i) as (tone & Hc & _); [lia|].
      exists tone. split; [exact Hc|]. split.
      * apply (ctcss_tone_is_not_its_index i); [lia|exact Hc].
      * rewrite Hd, Hc. reflexivity.
    + intros Hge. rewrite Hd, (list_index_past _ _ Hge). reflexivity.
  - reflexivity.
  - intros which tone_type channel i Ht Hd Hi H0.
    assert (He : decode_tone which channel
                 = (code <- list_index DCS_Codes i ;;
                    Ok (dict_set ("Tone " ++ which) (VInt code) channel))).
    { unfold decode_tone, dict_get. rewrite Ht. cbn [bind].
      destruct Hd; subst tone_type; cbn [is_str String.eqb Ascii.eqb Bool.eqb negb];
        rewrite Hi; reflexivity. }
    split.
    + intros Hlt.
      destruct (list_index_ok DCS_Codes i) as (code & Hc & _); [lia|].
      exists code. split; [exact Hc|]. split.
      * apply (dcs_code_is_not_its_index i); [lia|exact Hc].
      * rewrite He, Hc. reflexivity.
    + intros Hge. rewrite He, (list_index_past _ _ Hge). reflexivity.
  - reflexivity.
  - reflexivity.
  - reflexivity.
  - reflexivity.
  - intros q Hq. unfold decode_aprs_qt_dqt.
    destruct ((159 <=? q) && (q <=? 267)) eqn:E1.
    + apply andb_true_iff in E1. destruct E1 as [E1 _]. apply Z.leb_le in E1.
      destruct (list_index_ok DCS_Codes (q - 160)) as (code & Hc & Hin);
        [change (len DCS_Codes) with 108; lia|].
      rewrite Hc. exists code, "I". auto.
    + assert (Hlt : q < 159).
      { apply andb_false_iff in E1. destruct E1 as [E1|E1];
          [apply Z.leb_gt in E1 | apply Z.leb_gt in E1]; lia. }
      assert (E2 : (52 <=? q) && (q <=? 158) = true).
      { apply andb_true_iff. split; apply Z.leb_le; lia. }
      rewrite E2.
      destruct (list_index_ok DCS_Codes (q - 53)) as (code & Hc & Hin);
        [change (len DCS_Codes) with 108; lia|].
      rewrite Hc. exists code, "N". auto.
Qed.

Lemma tone_resolution_witness :
  (exists tone,
      list_index CTCSS_Tones 7 = Ok tone
      /\ py_eq (VFloat tone) (VInt 7) = false
      /\ decode_tone "Tx" [("Tone Type Tx", VStr "CTCSS"); ("Tone Tx", VInt 7)]
         = Ok (dict_set "Tone Tx" (VFloat tone)
                 [("Tone Type Tx", VStr "CTCSS"); ("Tone Tx", VInt 7)]))
  /\ decode_tone "Tx" [("Tone Type Tx", VStr "CTCSS"); ("Tone Tx", VInt 51)]
     = Raise IndexError
  /\ (exists code,
      list_index DCS_Codes 0 = Ok code
      /\ code <> 0
      /\ decode_tone "Rx" [("Tone Type Rx", VStr "DCS Invert"); ("Tone Rx", VInt 0)]
         = Ok (dict_set "Tone Rx" (VInt code)
                 [("Tone Type Rx", VStr "DCS Invert"); ("Tone Rx", VInt 0)]))
  /\ (exists code suffix,
      In code DCS_Codes
      /\ (suffix = "N" \/ suffix = "I")
      /\ decode_aprs_qt_dqt 160
         = Ok (VStr ("D" ++ zfill 3 (str_int code) ++ suffix))).
Proof.
  destruct tone_resolution as (Hctcss & _ & Hdcs & _ & _ & _ & _ & Haprs).
  split; [|split; [|split]].
  - apply (Hctcss "Tx" [("Tone Type Tx", VStr "CTCSS"); ("Tone Tx", VInt 7)] 7);
      [reflexivity|reflexivity|lia|].
    change (len CTCSS_Tones) with 51. lia.
  - apply (Hctcss "Tx" [("Tone Type Tx", VStr "CTCSS"); ("Tone Tx", VInt 51)] 51);
      [reflexivity|reflexivity|lia|].
    change (len CTCSS_Tones) with 51. lia.
  - apply (Hdcs "Rx" "DCS Invert"
             [("Tone Type Rx", VStr "DCS Invert"); ("Tone Rx", VInt 0)] 0);
      [reflexivity|now right|reflexivity|lia|].
    change (len DCS_Codes) with 108. lia.
  - apply Haprs. lia.
Defined.

(** ** Record decode *)

Lemma fromBytes_fields (bytes : list Z) (definitions : schema) :
  forall acc item : dict,
    for_each definitions
      (fun data '(key, definition) =>
         val <- field_fromBytes definition bytes ;;
         Ok (dict_set key val data)) acc = Ok item ->
    (forall key, ~ In key (map fst definitions) ->
                 dict_lookup key item = dict_lookup key acc)
    /\ (NoDup (map fst definitions) ->
        forall key definition,
          In (key, definition) definitions ->
          exists val, field_fromBytes definition bytes = Ok val
                      /\ dict_lookup key item = Some val).
Proof.
  induction definitions as [|[k d] rest IH]; intros acc item H; cbn [for_each] in H.
  - injection H as <-. split; [reflexivity|]. intros _ key definition [].
  - destruct (field_fromBytes d bytes) as [val|] eqn:Ef; [|discriminate H].
    cbn [bind] in H. destruct (IH _ _ H) as [Hother Hin]. split.
    + intros key Hk. cbn in Hk. rewrite Hother by tauto.
      apply dict_lookup_set_other. intros ->. tauto.
    + intros Hnd key definition [Heq|Hrest]; inversion Hnd; subst.
      * injection Heq as <- <-. exists val. split; [exact Ef|].
        rewrite Hother by assumption. apply dict_lookup_set_same.
      * now apply Hin.
Qed.

(** A field of a successfully parsed record holds what its definition
    reads from the bytes. *)
Lemma fromBytes_lookup (definitions : schema) (bytes : list Z) (item : dict)
    (key : string) (definition : definition) :
  NoDup (map fst definitions) ->
  In (key, definition) definitions ->
  fromBytes definitions bytes = Ok item ->
  exists val, field_fromBytes definition bytes = Ok val
              /\ dict_lookup key item = Some val.
Proof.
  intros Hnd Hin H. unfold fromBytes in H.
  destruct (fromBytes_fields _ _ _ _ H) as [_ Hf]. now apply Hf.
Qed.

Ltac nodup_keys :=
  repeat (constructor; [cbn; intuition discriminate|]); constructor.

Lemma channel_info_keys : NoDup (map fst channel_info).
Proof. cbn. nodup_keys. Qed.

Lemma tson_info_keys : NoDup (map fst tson_info).
Proof. cbn. nodup_keys. Qed.

(** A one-bit mask keeps that bit. *)
Lemma land_bit (x k : Z) :
  0 <= k -> Z.land x (2 ^ k) = if Z.testbit x k then 2 ^ k else 0.
Proof.
  intros Hk. apply Z.bits_inj'. intros n Hn.
  rewrite Z.land_spec, Z.pow2_bits_eqb by assumption.
  destruct (Z.eqb_spec k n) as [->|Hne].
  - destruct (Z.testbit x n); cbn [andb].
    + now rewrite Z.pow2_bits_true.
    + now rewrite Z.bits_0.
  - rewrite andb_false_r. destruct (Z.testbit x k).
    + now rewrite Z.pow2_bits_false.
    + now rewrite Z.bits_0.
Qed.

Lemma decode_tone_other (which : string) (channel channel' : dict) (k : string) :
  decode_tone which channel = Ok channel' ->
  k <> ("Tone " ++ which)%string ->
  dict_lookup k channel' = dict_lookup k channel.
Proof.
  unfold decode_tone. intros H Hk. inv_bind H.
  destruct (is_str "CTCSS" x); [|destruct (negb (is_str "OFF" x))].
  - do 3 inv_bind H. injection H as <-. now apply dict_lookup_set_other.
  - do 3 inv_bind H. injection H as <-. now apply dict_lookup_set_other.
  - now injection H as <-.
Qed.

(** ** Timeslot derivation on decode *)

Lemma parsed_channel_fields (channel_data : list Z) (raw : dict) :
  fromBytes channel_info channel_data = Ok raw ->
  dict_lookup "Rx Freq" raw
  = Some (VInt (from_bytes (slice channel_data 0x0C (0x0C + 4))))
  /\ dict_lookup "Tx Freq" raw
     = Some (VInt (from_bytes (slice channel_data 0x10 (0x10 + 4))))
  /\ (dict_lookup "TS Rx" raw = Some (VStr "TS1")
      \/ dict_lookup "TS Rx" raw = Some (VStr "TS2"))
  /\ (dict_lookup "TS Tx" raw = Some (VStr "TS1")
      \/ dict_lookup "TS Tx" raw = Some (VStr "TS2")).
Proof.
  intros H.
  pose proof (fun key definition Hin =>
                fromBytes_lookup channel_info channel_data raw key definition
                  channel_info_keys Hin H) as L.
  split; [|split; [|split]].
  - destruct (L "Rx Freq" (Number 0x0C 4)) as (v & Hf & Hl); [cbn; tauto|].
    cbn [field_fromBytes] in Hf. now injection Hf as <-.
  - destruct (L "Tx Freq" (Number 0x10 4)) as (v & Hf & Hl); [cbn; tauto|].
    cbn [field_fromBytes] in Hf. now injection Hf as <-.
  - destruct (L "TS Rx" (Bitmask 0x14 0x01 [(0x00, "TS1"); (0x01, "TS2")]))
      as (v & Hf & Hl); [cbn; tauto|].
    cbn [field_fromBytes] in Hf. inv_bind Hf.
    change 0x01 with (2 ^ 0) in Hf. rewrite land_bit in Hf by lia.
    destruct (Z.testbit x 0); cbn in Hf; injection Hf as <-; auto.
  - destruct (L "TS Tx" (Bitmask 0x1D 0x02 [(0x00, "TS1"); (0x02, "TS2")]))
      as (v & Hf & Hl); [cbn; tauto|].
    cbn [field_fromBytes] in Hf. inv_bind Hf.
    change 0x02 with (2 ^ 1) in Hf. rewrite land_bit in Hf by lia.
    destruct (Z.testbit x 1); cbn in Hf; injection Hf as <-; auto.
Qed.

(** What the channel loop leaves in the two timeslot fields, in terms of the
    plain parse [raw] and of the flags after the simplex check. *)
Lemma decompile_channel_timeslots (channel_data : list Z) (raw flags channel : dict) :
  fromBytes channel_info channel_data = Ok raw ->
  fromBytes tson_info channel_data = Ok flags ->
  decompile_channel channel_data = Ok channel ->
  let rx_freq := from_bytes (slice channel_data 0x0C (0x0C + 4)) in
  let tx_freq := from_bytes (slice channel_data 0x10 (0x10 + 4)) in
  let flags' :=
    if negb (rx_freq =? tx_freq)
    then dict_set "TS Tx ON" (VStr "OFF") (dict_set "TS Rx ON" (VStr "OFF") flags)
    else flags in
  exists rx_on tx_on,
    dict_lookup "TS Rx ON" flags' = Some rx_on
    /\ dict_lookup "TS Tx ON" flags' = Some tx_on
    /\ dict_lookup "TS Rx" channel
       = (if is_str "ON" rx_on then Some (VStr "ON") else dict_lookup "TS Rx" raw)
    /\ dict_lookup "TS Tx" channel
       = (if is_str "ON" tx_on then Some (VStr "ON") else dict_lookup "TS Tx" raw).
Proof.
  intros Hraw Hflags Hch rx_freq tx_freq flags'.
  destruct (parsed_channel_fields _ _ Hraw) as (Hrx & Htx & _).
  unfold decompile_channel in Hch. rewrite Hraw, Hflags in Hch. cbn [bind] in Hch.
  rewrite (proj2 (dict_get_lookup _ _ _) Hrx) in Hch. cbn [bind] in Hch.
  rewrite (proj2 (dict_get_lookup _ _ _) Htx) in Hch. cbn [bind py_eq] in Hch.
  fold rx_freq tx_freq flags' in Hch.
  destruct (dict_get "TS Rx ON" flags') as [rx_on|] eqn:Erx; [|discriminate Hch].
  cbn [bind] in Hch.
  destruct (dict_get "TS Tx ON" flags') as [tx_on|] eqn:Etx; [|discriminate Hch].
  cbn [bind] in Hch.
  apply dict_get_lookup in Erx, Etx.
  exists rx_on, tx_on. split; [exact Erx|]. split; [exact Etx|].
  destruct (decode_tone "Tx" _) as [ch1|] eqn:E1 in Hch; [|discriminate Hch].
  cbn [bind] in Hch.
  destruct (decode_tone "Rx" ch1) as [ch2|] eqn:E2; [|discriminate Hch].
  cbn [bind] in Hch. injection Hch as <-.
  split.
  - rewrite (decode_tone_other _ _ _ "TS Rx" E2) by discriminate.
    rewrite (decode_tone_other _ _ _ "TS Rx" E1) by discriminate.
    destruct (is_str "ON" tx_on), (is_str "ON" rx_on);
      rewrite ?(dict_lookup_set_other "TS Rx" "TS Tx") by discriminate;
      rewrite ?dict_lookup_set_same; reflexivity.
  - rewrite (decode_tone_other _ _ _ "TS Tx" E2) by discriminate.
    rewrite (decode_tone_other _ _ _ "TS Tx" E1) by discriminate.
    destruct (is_str "ON" tx_on), (is_str "ON" rx_on);
      rewrite ?dict_lookup_set_same;
      rewrite ?(dict_lookup_set_other "TS Tx" "TS Rx") by discriminate;
      reflexivity.
Qed.

(** The stored form of the two flags: [tson_info] reads a flag as "ON" when
    its bit of byte [0x1D] is 0. *)
Lemma forced_on_flag_polarity (channel_data : list Z) (flags : dict) (b : Z) :
  fromBytes tson_info channel_data = Ok flags ->
  byte_at channel_data 0x1D = Ok b ->
  (dict_lookup "TS Rx ON" flags = Some (VStr "ON") <-> Z.testbit b 0 = false)
  /\ (dict_lookup "TS Tx ON" flags = Some (VStr "ON") <-> Z.testbit b 2 = false).
Proof.
  intros H Hb.
  pose proof (fun key definition Hin =>
                fromBytes_lookup tson_info channel_data flags key definition
                  tson_info_keys Hin H) as L.
  split.
  - destruct (L "TS Rx ON" (Bitmask 0x1D 0x01 [(0x00, "ON"); (0x01, "OFF")]))
      as (v & Hf & Hl); [cbn; tauto|].
    cbn [field_fromBytes] in Hf. rewrite Hb in Hf. cbn [bind] in Hf.
    change 0x01 with (2 ^ 0) in Hf. rewrite land_bit in Hf by lia.
    rewrite Hl. destruct (Z.testbit b 0); cbn in Hf; injection Hf as <-;
      split; congruence.
  - destruct (L "TS Tx ON" (Bitmask 0x1D 0x04 [(0x00, "ON"); (0x04, "OFF")]))
      as (v & Hf & Hl); [cbn; tauto|].
    cbn [field_fromBytes] in Hf. rewrite Hb in Hf. cbn [bind] in Hf.
    change 0x04 with (2 ^ 2) in Hf. rewrite land_bit in Hf by lia.
    rewrite Hl. destruct (Z.testbit b 2); cbn in Hf; injection Hf as <-;
      split; congruence.
Qed.

(** ** Records that always decode *)

Lemma byte_at_ok (data : list Z) (i : Z) :
  0 <= i < len data -> exists b, byte_at data i = Ok b.
Proof.
  unfold byte_at, len. intros H.
  destruct (nth_error data (Z.to_nat i)) as [b|] eqn:E; [eauto|].
  apply nth_error_None in E. lia.
Qed.

Lemma decode_ascii_ok (l : list Z) :
  Forall (fun b => b < 128) l -> exists s, decode_ascii l = Ok s.
Proof.
  induction 1 as [|b l Hb _ [s IH]]; cbn [decode_ascii]; [eauto|].
  apply Z.ltb_lt in Hb. rewrite Hb, IH. cbn. eauto.
Qed.

Lemma fromBytes_ok (definitions : schema) (bytes : list Z) :
  (forall key definition,
      In (key, definition) definitions ->
      exists val, field_fromBytes definition bytes = Ok val) ->
  exists item, fromBytes definitions bytes = Ok item.
Proof.
  unfold fromBytes. generalize (@nil (string * value)).
  induction definitions as [|[k d] rest IH]; intros acc H; cbn [for_each]; [eauto|].
  destruct (H k d) as [val Hv]; [now left|]. rewrite Hv. cbn [bind].
  apply IH. intros key definition Hin. apply (H key definition). now right.
Qed.

Ltac field_reads Hlen :=
  cbn [field_fromBytes];
  match goal with
  | |- context [byte_at ?data ?offset] =>
      let b := fresh "b" in
      let Hb := fresh "Hb" in
      destruct (byte_at_ok data offset) as [b Hb]; [rewrite Hlen; lia|];
      rewrite Hb; cbn [bind];
      try match goal with
          | |- context [enum_lookup ?x ?e] => destruct (enum_lookup x e)
          end;
      eauto
  | _ => eauto
  end.

Lemma channel_record_parses (channel_data : list Z) :
  len channel_data = channel_record_size ->
  Forall (fun b => b < 128) (slice channel_data 0x02 (0x02 + 10)) ->
  exists raw flags,
    fromBytes channel_info channel_data = Ok raw
    /\ fromBytes tson_info channel_data = Ok flags.
Proof.
  unfold channel_record_size. intros Hlen Hname.
  destruct (fromBytes_ok channel_info channel_data) as [raw Hraw].
  { intros key definition Hin. cbn in Hin.
    repeat (destruct Hin as [Hin|Hin]; [injection Hin as <- <-|]);
      try contradiction; try (field_reads Hlen).
    cbn [field_fromBytes]. destruct (decode_ascii_ok _ Hname) as [s ->].
    cbn. eauto. }
  destruct (fromBytes_ok tson_info channel_data) as [flags Hflags].
  { intros key definition Hin. cbn in Hin.
    repeat (destruct Hin as [Hin|Hin]; [injection Hin as <- <-|]);
      try contradiction; field_reads Hlen. }
  eauto.
Qed.

Lemma decode_tone_ok (which : string) (channel : dict) (tone_type : value) (i : Z) :
  dict_lookup ("Tone Type " ++ which) channel = Some tone_type ->
  dict_lookup ("Tone " ++ which) channel = Some (VInt i) ->
  0 <= i < len CTCSS_Tones ->
  exists channel', decode_tone which channel = Ok channel'.
Proof.
  intros Ht Hi Hr. unfold decode_tone, dict_get. rewrite Ht. cbn [bind].
  destruct (is_str "CTCSS" tone_type); [|destruct (negb (is_str "OFF" tone_type))].
  - rewrite Hi. cbn [bind index_arg].
    destruct (list_index_ok CTCSS_Tones i) as (tone & -> & _); [lia|].
    cbn. eauto.
  - rewrite Hi. cbn [bind index_arg].
    destruct (list_index_ok DCS_Codes i) as (code & -> & _);
      [change (len DCS_Codes) with 108; change (len CTCSS_Tones) with 51 in Hr; lia|].
    cbn. eauto.
  - eauto.
Qed.

(** A 32-byte record with an ASCII name and tone indexes inside the CTCSS
    table decodes to a channel, whatever its other bytes. *)
Lemma decompile_channel_total (channel_data : list Z) :
  len channel_data = channel_record_size ->
  Forall (fun b => b < 128) (slice channel_data 0x02 (0x02 + 10)) ->
  0 <= from_bytes (slice channel_data 0x1C (0x1C + 1)) < len CTCSS_Tones ->
  0 <= from_bytes (slice channel_data 0x1B (0x1B + 1)) < len CTCSS_Tones ->
  exists raw flags channel,
    fromBytes channel_info channel_data = Ok raw
    /\ fromBytes tson_info channel_data = Ok flags
    /\ decompile_channel channel_data = Ok channel.
Proof.
  intros Hlen Hname Htx Hrx.
  destruct (channel_record_parses _ Hlen Hname) as (raw & flags & Hraw & Hflags).
  exists raw, flags.
  pose proof (fun key definition Hin =>
                fromBytes_lookup channel_info channel_data raw key definition
                  channel_info_keys Hin Hraw) as L.
  pose proof (fun key definition Hin =>
                fromBytes_lookup tson_info channel_data flags key definition
                  tson_info_keys Hin Hflags) as Lf.
  destruct (parsed_channel_fields _ _ Hraw) as (Hfr & Hft & _).
  destruct (L "Tone Type Tx"
              (Bitmask 0x1A 0x0C [(0x00, "OFF"); (0x04, "CTCSS"); (0x08, "DCS");
                                  (0x0C, "DCS Invert")]))
    as (type_tx & _ & Htype_tx); [cbn; tauto|].
  destruct (L "Tone Type Rx"
              (Bitmask 0x1A 0x03 [(0x00, "OFF"); (0x01, "CTCSS"); (0x02, "DCS");
                                  (0x03, "DCS Invert")]))
    as (type_rx & _ & Htype_rx); [cbn; tauto|].
  destruct (L "Tone Tx" (Number 0x1C 1)) as (tone_tx & Hf & Htone_tx); [cbn; tauto|].
  cbn [field_fromBytes] in Hf. injection Hf as <-.
  destruct (L "Tone Rx" (Number 0x1B 1)) as (tone_rx & Hf & Htone_rx); [cbn; tauto|].
  cbn [field_fromBytes] in Hf. injection Hf as <-.
  destruct (Lf "TS Rx ON" (Bitmask 0x1D 0x01 [(0x00, "ON"); (0x01, "OFF")]))
    as (rx_on & _ & Hrx_on); [cbn; tauto|].
  destruct (Lf "TS Tx ON" (Bitmask 0x1D 0x04 [(0x00, "ON"); (0x04, "OFF")]))
    as (tx_on & _ & Htx_on); [cbn; tauto|].
  unfold decompile_channel. rewrite Hraw, Hflags. cbn [bind].
  rewrite (proj2 (dict_get_lookup _ _ _) Hfr). cbn [bind].
  rewrite (proj2 (dict_get_lookup _ _ _) Hft). cbn [bind].
  match goal with
  | |- context [dict_get "TS Rx ON" ?f] =>
      assert (Hon : exists a b, dict_lookup "TS Rx ON" f = Some a
                                /\ dict_lookup "TS Tx ON" f = Some b)
  end.
  { destruct (negb _).
    - rewrite dict_lookup_set_other, !dict_lookup_set_same by discriminate. eauto.
    - eauto. }
  destruct Hon as (a & b & Ha & Hb).
  rewrite (proj2 (dict_get_lookup _ _ _) Ha). cbn [bind].
  rewrite (proj2 (dict_get_lookup _ _ _) Hb). cbn [bind].
  match goal with
  | |- context [decode_tone "Tx" ?ch] =>
      assert (Hch : forall k, k <> "TS Rx" -> k <> "TS Tx" ->
                              dict_lookup k ch = dict_lookup k raw)
  end.
  { intros k Hk1 Hk2.
    destruct (is_str "ON" b), (is_str "ON" a);
      rewrite ?dict_lookup_set_other by assumption; reflexivity. }
  match goal with
  | |- context [decode_tone "Tx" ?ch] =>
      destruct (decode_tone_ok "Tx" ch type_tx
                  (from_bytes (slice channel_data 0x1C (0x1C + 1)))) as [ch1 H1];
        [ rewrite Hch by discriminate; exact Htype_tx
        | rewrite Hch by discriminate; exact Htone_tx
        | exact Htx
        | rewrite H1; cbn [bind];
          pose proof (fun k => decode_tone_other "Tx" ch ch1 k H1) as Hch1 ]
  end.
  destruct (decode_tone_ok "Rx" ch1 type_rx
              (from_bytes (slice channel_data 0x1B (0x1B + 1)))) as [ch2 H2];
    [ rewrite Hch1, Hch by discriminate; exact Htype_rx
    | rewrite Hch1, Hch by discriminate; exact Htone_rx
    | exact Hrx
    | rewrite H2; cbn [bind]; eauto ].
Qed.

Lemma is_str_other (label : string) (v : value) :
  v <> VStr label -> is_str label v = false.
Proof.
  intros H. destruct v as [s| | | |]; try reflexivity. cbn [is_str].
  destruct (String.eqb s label) eqn:E; [|reflexivity].
  apply String.eqb_eq in E. congruence.
Qed.

(** C4, as the specification words it, fails for a simplex channel: with the
    bits of both forced-on flags set in byte [0x1D], the two timeslot fields
    decode to "TS1", not to "ON". *)
Lemma forced_on_bits_set_read_off :
  exists channel,
    byte_at forced_on_bits_record 0x1D = Ok 0x05
    /\ Z.testbit 0x05 0 = true /\ Z.testbit 0x05 2 = true
    /\ from_bytes (slice forced_on_bits_record 0x0C (0x0C + 4))
       = from_bytes (slice forced_on_bits_record 0x10 (0x10 + 4))
    /\ decompile_channel forced_on_bits_record = Ok channel
    /\ dict_lookup "TS Rx" channel = Some (VStr "TS1")
    /\ dict_lookup "TS Tx" channel = Some (VStr "TS1")
    /\ dict_lookup "TS Rx" channel <> Some (VStr "ON")
    /\ dict_lookup "TS Tx" channel <> Some (VStr "ON").
Proof.
  eexists. split; [reflexivity|]. split; [reflexivity|]. split; [reflexivity|].
  split; [reflexivity|]. split; [vm_compute; reflexivity|].
  split; [reflexivity|]. split; [reflexivity|]. split; discriminate.
Qed.

(** C4, amended.  When the stored receive and transmit frequencies of a
    channel differ, the two forced-on flags count as OFF whatever their bits,
    so the decoded "TS Rx" and "TS Tx" are the values of the plain parse, each
    "TS1" or "TS2".  When the frequencies are equal, a forced-on flag is ON
    when its bit of byte [0x1D] is clear (bit 0 for receive, bit 2 for
    transmit), and then the matching timeslot field decodes to "ON"; when the
    bit is set, the field keeps the "TS1" or "TS2" of the plain parse. *)
Theorem timeslot_decode (channel_data : list Z) (channel : dict) (b : Z) :
  decompile_channel channel_data = Ok channel ->
  byte_at channel_data 0x1D = Ok b ->
  exists raw,
    fromBytes channel_info channel_data = Ok raw
    /\ (dict_lookup "TS Rx" raw = Some (VStr "TS1")
        \/ dict_lookup "TS Rx" raw = Some (VStr "TS2"))
    /\ (dict_lookup "TS Tx" raw = Some (VStr "TS1")
        \/ dict_lookup "TS Tx" raw = Some (VStr "TS2"))
    /\ (from_bytes (slice channel_data 0x0C (0x0C + 4))
        <> from_bytes (slice channel_data 0x10 (0x10 + 4)) ->
        dict_lookup "TS Rx" channel = dict_lookup "TS Rx" raw
        /\ dict_lookup "TS Tx" channel = dict_lookup "TS Tx" raw)
    /\ (from_bytes (slice channel_data 0x0C (0x0C + 4))
        = from_bytes (slice channel_data 0x10 (0x10 + 4)) ->
        (Z.testbit b 0 = false -> dict_lookup "TS Rx" channel = Some (VStr "ON"))
        /\ (Z.testbit b 0 = true ->
            dict_lookup "TS Rx" channel = dict_lookup "TS Rx" raw)
        /\ (Z.testbit b 2 = false -> dict_lookup "TS Tx" channel = Some (VStr "ON"))
        /\ (Z.testbit b 2 = true ->
            dict_lookup "TS Tx" channel = dict_lookup "TS Tx" raw)).
Proof.
  intros Hch Hb.
  destruct (fromBytes channel_info channel_data) as [raw|] eqn:Hraw;
    [|unfold decompile_channel in Hch; rewrite Hraw in Hch; discriminate Hch].
  destruct (fromBytes tson_info channel_data) as [flags|] eqn:Hflags;
    [|unfold decompile_channel in Hch; rewrite Hraw, Hflags in Hch;
      discriminate Hch].
  exists raw. split; [reflexivity|].
  destruct (decompile_channel_timeslots _ _ _ _ Hraw Hflags Hch)
    as (rx_on & tx_on & Hrx & Htx & Hr & Ht).
  destruct (parsed_channel_fields _ _ Hraw) as (_ & _ & Hlr & Hlt).
  destruct (forced_on_flag_polarity _ _ _ Hflags Hb) as [Prx Ptx].
  split; [exact Hlr|]. split; [exact Hlt|]. split.
  - intros Hne. apply Z.eqb_neq in Hne. rewrite Hne in Hrx, Htx.
    cbn [negb] in Hrx, Htx.
    rewrite dict_lookup_set_other, dict_lookup_set_same in Hrx by discriminate.
    rewrite dict_lookup_set_same in Htx.
    injection Hrx as <-. injection Htx as <-.
    cbn in Hr, Ht. rewrite Hr, Ht. auto.
  - intros Heq. apply Z.eqb_eq in Heq. rewrite Heq in Hrx, Htx.
    cbn [negb] in Hrx, Htx.
    split; [|split; [|split]].
    + intros Hbit. apply Prx in Hbit. rewrite Hbit in Hrx. injection Hrx as <-.
      exact Hr.
    + intros Hbit. rewrite Hr, is_str_other; [reflexivity|].
      intros ->. apply Prx in Hrx. congruence.
    + intros Hbit. apply Ptx in Hbit. rewrite Hbit in Htx. injection Htx as <-.
      exact Ht.
    + intros Hbit. rewrite Ht, is_str_other; [reflexivity|].
      intros ->. apply Ptx in Htx. congruence.
Qed.

Lemma timeslot_decode_witness :
  exists channel,
    decompile_channel (forced_on_record 43912500 43912500) = Ok channel
    /\ dict_lookup "TS Rx" channel = Some (VStr "ON")
    /\ dict_lookup "TS Tx" channel = Some (VStr "ON").
Proof.
  destruct (decompile_channel (forced_on_record 43912500 43912500))
    as [channel|] eqn:E; [|discriminate E].
  exists channel. split; [reflexivity|].
  destruct (timeslot_decode _ channel 0 E eq_refl) as (raw & _ & _ & _ & _ & H).
  destruct H as (Hr & _ & Ht & _); [vm_compute; reflexivity|].
  split; [apply Hr | apply Ht]; reflexivity.
Defined.

(** ** Locating a record once *)

Lemma slice_skipn (data : list Z) (base x y : Z) :
  0 <= base -> 0 <= x ->
  slice data (base + x) (base + y) = slice (skipn (Z.to_nat base) data) x y.
Proof.
  intros Hb Hx. unfold slice.
  replace (base + y - (base + x)) with (y - x) by lia.
  rewrite skipn_skipn. do 2 f_equal. lia.
Qed.

Lemma for_each_ext {A S} (xs : list A) (f g : S -> A -> outcome S) :
  (forall s x, In x xs -> f s x = g s x) ->
  forall s, for_each xs f s = for_each xs g s.
Proof.
  induction xs as [|x xs IH]; intros H s; cbn [for_each]; [reflexivity|].
  rewrite (H s x) by (left; reflexivity).
  destruct (g s x); cbn [bind]; [|reflexivity].
  apply IH. intros s' y Hy. apply H. now right.
Qed.

Lemma range_In (n i : Z) : In i (range n) -> 0 <= i < n.
Proof.
  unfold range. intros H. apply in_map_iff in H.
  destruct H as (k & <- & Hk). apply in_seq in Hk. lia.
Qed.

Lemma decompile_rx_group_located_eq (data : list Z) (i : Z) :
  0 <= i ->
  decompile_rx_group data i
  = decompile_rx_group_located
      (skipn (Z.to_nat (rx_group_start_address + i * rx_group_record_size)) data).
Proof.
  intros Hi. unfold decompile_rx_group, decompile_rx_group_located.
  set (base := rx_group_start_address + i * rx_group_record_size).
  assert (Hb : 0 <= base)
    by (subst base; unfold rx_group_start_address, rx_group_record_size; lia).
  replace (rx_group_start_address + (i + 1) * rx_group_record_size)
    with (base + rx_group_record_size) by (subst base; lia).
  replace (slice data base (base + rx_group_record_size))
    with (slice (skipn (Z.to_nat base) data) 0 rx_group_record_size)
    by (rewrite <- slice_skipn by lia; now rewrite Z.add_0_r).
  destruct (fromBytes rx_group_info _) as [record|]; cbn [bind]; [|reflexivity].
  erewrite for_each_ext; [reflexivity|].
  intros contacts j Hj. apply range_In in Hj. cbv zeta.
  replace (base + 10 + j * 2) with (base + (10 + j * 2)) by lia.
  replace (base + (10 + j * 2) + 2) with (base + (10 + j * 2 + 2)) by lia.
  rewrite slice_skipn by lia. reflexivity.
Qed.

Lemma decompile_rx_groups_located_eq (data : list Z) :
  decompile_rx_groups data = decompile_rx_groups_located data.
Proof.
  unfold decompile_rx_groups, decompile_rx_groups_located.
  apply for_each_ext. intros rx_groups i Hi. apply range_In in Hi.
  now rewrite decompile_rx_group_located_eq by lia.
Qed.

(** Evaluating [decompileCodeplug] through the located reads. *)
Lemma decompile_by_location (data : list Z) (codeplug : dict) :
  decompileCodeplug_located data = Ok codeplug ->
  decompileCodeplug data = Ok codeplug.
Proof.
  unfold decompileCodeplug, decompileCodeplug_located.
  destruct (decompile_settings data _) as [settings|]; cbn [bind]; [|auto].
  now rewrite <- decompile_rx_groups_located_eq.
Qed.

Lemma decompile_raise_by_location (data : list Z) (e : pyexc) :
  decompileCodeplug_located data = Raise e ->
  decompileCodeplug data = Raise e.
Proof.
  unfold decompileCodeplug, decompileCodeplug_located.
  destruct (decompile_settings data _) as [settings|]; cbn [bind]; [|auto].
  now rewrite <- decompile_rx_groups_located_eq.
Qed.

(** ** Timeslot derivation on encode *)

(** The forced-on flags [compileCodeplug] computes depend on the two
    timeslot fields alone: a flag is "ON" exactly when its field carries the
    sentinel, whatever the frequencies. *)
Lemma compile_tson_flags (channel flags : dict) :
  compile_tson channel = Ok flags ->
  exists ts_rx ts_tx,
    dict_lookup "TS Rx" channel = Some ts_rx
    /\ dict_lookup "TS Tx" channel = Some ts_tx
    /\ dict_lookup "TS Rx ON" flags
       = Some (VStr (if is_str "ON" ts_rx then "ON" else "OFF"))
    /\ dict_lookup "TS Tx ON" flags
       = Some (VStr (if is_str "ON" ts_tx then "ON" else "OFF")).
Proof.
  unfold compile_tson. intros H.
  destruct (dict_get "Rx Freq" channel) as [rx_freq|]; [|discriminate H].
  cbn [bind] in H.
  destruct (dict_get "Tx Freq" channel) as [tx_freq|]; [|discriminate H].
  cbn [bind] in H.
  destruct (dict_get "TS Rx" channel) as [ts_rx|] eqn:Erx; [|discriminate H].
  cbn [bind] in H.
  destruct (dict_get "TS Tx" channel) as [ts_tx|] eqn:Etx; [|discriminate H].
  cbn [bind] in H. injection H as <-.
  apply dict_get_lookup in Erx, Etx.
  exists ts_rx, ts_tx. split; [exact Erx|]. split; [exact Etx|].
  destruct (negb (py_eq rx_freq tx_freq)), (is_str "ON" ts_rx), (is_str "ON" ts_tx);
    split; reflexivity.
Qed.

(** C5 at its failing input.  The channel is duplex and asks for "ON" as
    its receive timeslot: the flags computed for it have "TS Rx ON" at "ON",
    the record written leaves bit [0x01] of byte [0x1D] clear, which reads
    back as "ON", and so does the compiled image. *)
Theorem forced_on_flag_survives_duplex :
  exists flags record stored,
    dict_lookup "Rx Freq" duplex_channel_ts_on = Some (VInt 43912500)
    /\ dict_lookup "Tx Freq" duplex_channel_ts_on = Some (VInt 43012500)
    /\ dict_lookup "TS Rx" duplex_channel_ts_on = Some (VStr "ON")
    /\ compile_tson duplex_channel_ts_on = Ok flags
    /\ dict_lookup "TS Rx ON" flags = Some (VStr "ON")
    /\ compile_channel duplex_channel_ts_on = Ok record
    /\ byte_at record 0x1D = Ok 0x16
    /\ fromBytes tson_info record = Ok stored
    /\ dict_lookup "TS Rx ON" stored = Some (VStr "ON")
    /\ succeeds (compileCodeplug (codeplug_with duplex_channel_ts_on)) = true
    /\ slice (image_of (codeplug_with duplex_channel_ts_on))
         (channel_start_address 1 1) (channel_start_address 1 1 + channel_record_size)
       = record.
Proof.
  do 3 eexists.
  split; [reflexivity|]. split; [reflexivity|]. split; [reflexivity|].
  split; [vm_compute; reflexivity|]. split; [reflexivity|].
  split; [vm_compute; reflexivity|]. split; [reflexivity|].
  split; [vm_compute; reflexivity|]. split; [reflexivity|].
  split; vm_compute; reflexivity.
Qed.

(** ** Quick messages with a record that is not ASCII *)

(** C9 at its failing inputs.  In the first image message 0 is "A", message
    1 starts with byte [0x80] and the other 98 are empty: the decoded
    collection is "A" twice, the failing record having re-appended the text
    left in [msg_str] by the record before it.  In the second image it is
    message 0 that fails: [msg_str] is still unbound and the whole decode
    stops with an exception. *)
Theorem non_ascii_message_repeats_previous :
  (exists codeplug messages,
      decode_ascii (slice image_bad_second_message (start_of_message 0)
                      (start_of_message 0 + message_record_size))
      = Ok (String "A" (string_of_list_ascii (repeat Ascii.zero 39)))
      /\ decode_ascii (slice image_bad_second_message (start_of_message 1)
                         (start_of_message 1 + message_record_size))
         = Raise UnicodeDecodeError
      /\ forallb (fun i =>
                    match decode_ascii (slice image_bad_second_message (start_of_message i)
                                          (start_of_message i + message_record_size)) with
                    | Ok s => String.eqb (rstrip_nul s) ""
                    | Raise _ => false
                    end)
           (map (fun i => i + 2) (range 98)) = true
      /\ decompile_quick_messages image_bad_second_message = Ok messages
      /\ skipped messages = [1]
      /\ decompileCodeplug image_bad_second_message = Ok codeplug
      /\ dict_lookup "Quick messages" codeplug = Some (VList [VStr "A"; VStr "A"]))
  /\ decompileCodeplug image_bad_first_message = Raise UnboundLocalError.
Proof.
  split.
  - do 2 eexists.
    split; [vm_compute; reflexivity|]. split; [vm_compute; reflexivity|].
    split; [vm_compute; reflexivity|]. split; [vm_compute; reflexivity|].
    split; [reflexivity|].
    split; [apply decompile_by_location; vm_compute; reflexivity|].
    reflexivity.
  - apply decompile_raise_by_location. vm_compute. reflexivity.
Qed.

(** ** Round trip *)

(** The example document survives the round trip unchanged. *)
Lemma example_round_trip :
  succeeds (compileCodeplug (codeplug_with example_channel)) = true
  /\ decompileCodeplug (image_of (codeplug_with example_channel))
     = Ok (codeplug_with example_channel).
Proof.
  split; [vm_compute; reflexivity|].
  apply decompile_by_location. vm_compute. reflexivity.
Qed.

(** C1 at its failing input.  "POLITE_TO_ALL" is a label of the "TX Policy"
    table, stored as [0x60]; the field's mask is [0xC0], so the compiled image
    reads back as "POLITE_TO_CC" ([0x40]): the example document with only that
    label changed does not survive the round trip. *)
Theorem tx_policy_round_trip_breaks :
  In ("TX Policy",
      Bitmask 0x15 0xC0 [(0x00, "IMPOLITE"); (0x40, "POLITE_TO_CC"); (0x60, "POLITE_TO_ALL")])
     channel_info
  /\ succeeds (compileCodeplug (codeplug_with (channel_with_policy "POLITE_TO_ALL"))) = true
  /\ decompileCodeplug (image_of (codeplug_with (channel_with_policy "POLITE_TO_ALL")))
     = Ok (codeplug_with (channel_with_policy "POLITE_TO_CC"))
  /\ codeplug_with (channel_with_policy "POLITE_TO_CC")
     <> codeplug_with (channel_with_policy "POLITE_TO_ALL").
Proof.
  split; [cbn; tauto|]. split; [vm_compute; reflexivity|]. split.
  - apply decompile_by_location. vm_compute. reflexivity.
  - vm_compute. discriminate.
Qed.

(** A simplex channel asking for "ON" keeps it through the record codec. *)
Lemma simplex_forced_on_round_trip :
  exists record,
    compile_channel (dict_set "TS Rx" (VStr "ON") simplex_channel) = Ok record
    /\ decompile_channel record = Ok (dict_set "TS Rx" (VStr "ON") simplex_channel).
Proof. eexists. split; vm_compute; reflexivity. Qed.

(** Other fields that do not survive the round trip, each through constants
    of its schema entry. *)

(** "Alarm" and "Prompt" are both bit [0x08] of byte [0x14]. *)
Lemma alarm_and_prompt_share_a_bit :
  exists record channel,
    In ("Alarm", Bitmask 0x14 0x08 [(0x00, "OFF"); (0x08, "ON")]) channel_info
    /\ In ("Prompt", Bitmask 0x14 0x08 [(0x00, "OFF"); (0x08, "ON")]) channel_info
    /\ compile_channel (dict_set "Alarm" (VStr "ON") example_channel) = Ok record
    /\ decompile_channel record = Ok channel
    /\ dict_lookup "Prompt" (dict_set "Alarm" (VStr "ON") example_channel)
       = Some (VStr "OFF")
    /\ dict_lookup "Prompt" channel = Some (VStr "ON").
Proof.
  do 2 eexists. split; [cbn; tauto|]. split; [cbn; tauto|].
  split; [vm_compute; reflexivity|]. split; [vm_compute; reflexivity|].
  split; reflexivity.
Qed.

(** "Roaming restart prompt" and "Repeater selected prompt" are both the low
    nibble of byte [0x1383]. *)
Lemma prompt_tones_share_a_byte :
  exists template item,
    toBytes (bytearray 0x2000) prompt_tone_parameters
      (dict_set "Repeater selected prompt" (VInt 2)
         (dict_set "Roaming restart prompt" (VInt 1) (blank prompt_tone_parameters)))
    = Ok template
    /\ fromBytes prompt_tone_parameters template = Ok item
    /\ dict_lookup "Roaming restart prompt" item = Some (VInt 3)
    /\ dict_lookup "Repeater selected prompt" item = Some (VInt 3).
Proof.
  do 2 eexists. split; [vm_compute; reflexivity|].
  split; [vm_compute; reflexivity|]. split; reflexivity.
Qed.

(** A CTCSS tone in the APRS "AX25 QT/DQT" field decodes to the text of the
    frequency, which the encoder then looks up among the table's floats. *)
Lemma aprs_ctcss_tone_cannot_be_encoded :
  decode_aprs_qt_dqt 1 = Ok (VStr "67.0")
  /\ encode_aprs_qt_dqt (VStr "67.0") = Raise ValueError.
Proof. split; vm_compute; reflexivity. Qed.

(** * Further properties of the codec *)
(** *** Reading a buffer byte by byte *)

Lemma byte_at_nth (data : list Z) (i : Z) (b : Z) :
  byte_at data i = Ok b <-> nth_error data (Z.to_nat i) = Some b.
Proof.
  unfold byte_at. destruct (nth_error data (Z.to_nat i)); split; congruence.
Qed.

Lemma nth_error_slice (data : list Z) (a b : Z) (k : nat) :
  nth_error (slice data a b) k
  = if (Z.of_nat k <? b - a) then nth_error data (Z.to_nat a + k) else None.
Proof.
  unfold slice. destruct (Z.of_nat k <? b - a) eqn:E.
  - apply Z.ltb_lt in E. rewrite nth_error_firstn.
    destruct (Nat.ltb_spec k (Z.to_nat (b - a))); [|lia].
    now rewrite nth_error_skipn.
  - apply Z.ltb_ge in E. apply nth_error_None.
    rewrite length_firstn. lia.
Qed.

Lemma slice_ext (d1 d2 : list Z) (a b : Z) :
  0 <= a ->
  (forall j, a <= j < b -> byte_at d1 j = byte_at d2 j) ->
  slice d1 a b = slice d2 a b.
Proof.
  intros Ha H. apply nth_error_ext. intros k. rewrite !nth_error_slice.
  destruct (Z.of_nat k <? b - a) eqn:E; [|reflexivity].
  apply Z.ltb_lt in E. specialize (H (a + Z.of_nat k)).
  unfold byte_at in H. replace (Z.to_nat (a + Z.of_nat k)) with (Z.to_nat a + k)%nat in H by lia.
  destruct (nth_error d1 _), (nth_error d2 _); try reflexivity;
    (assert (Hx : a <= a + Z.of_nat k < b) by lia; specialize (H Hx); congruence).
Qed.

Lemma len_slice (data : list Z) (a b : Z) :
  0 <= a -> a <= b -> b <= len data -> len (slice data a b) = b - a.
Proof.
  unfold slice, len. intros. rewrite length_firstn, length_skipn. lia.
Qed.

Lemma len_slice_assign (data : list Z) (a b : Z) (src : list Z) :
  0 <= a -> a <= b -> b <= len data -> len src = b - a ->
  len (slice_assign data a b src) = len data.
Proof.
  unfold slice_assign, len. intros.
  rewrite !length_app, length_firstn, length_skipn. lia.
Qed.

Lemma byte_at_slice_assign (data : list Z) (a b : Z) (src : list Z) (j : Z) :
  0 <= a -> a <= b -> b <= len data -> len src = b - a -> 0 <= j ->
  byte_at (slice_assign data a b src) j
  = if (a <=? j) && (j <? b) then byte_at src (j - a) else byte_at data j.
Proof.
  unfold slice_assign, byte_at, len. intros Ha Hab Hb Hs Hj.
  rewrite Z.max_r by lia.
  destruct (a <=? j) eqn:E1; [destruct (j <? b) eqn:E2|]; cbn [andb].
  - apply Z.leb_le in E1. apply Z.ltb_lt in E2.
    rewrite nth_error_app2 by (rewrite length_firstn; lia).
    rewrite length_firstn, Nat.min_l by lia.
    rewrite nth_error_app1 by lia.
    replace (Z.to_nat j - Z.to_nat a)%nat with (Z.to_nat (j - a)) by lia.
    reflexivity.
  - apply Z.leb_le in E1. apply Z.ltb_ge in E2.
    rewrite nth_error_app2 by (rewrite length_firstn; lia).
    rewrite length_firstn, Nat.min_l by lia.
    rewrite nth_error_app2 by lia.
    rewrite nth_error_skipn.
    match goal with
    | |- context [nth_error data ?n] =>
        replace n with (Z.to_nat j) by lia
    end.
    reflexivity.
  - apply Z.leb_gt in E1.
    rewrite nth_error_app1 by (rewrite length_firstn; lia).
    rewrite nth_error_firstn.
    destruct (Nat.ltb_spec (Z.to_nat j) (Z.to_nat a)); [reflexivity|lia].
Qed.

Lemma set_nth_nth (n : nat) (v : Z) (data data' : list Z) :
  set_nth n v data = Some data' ->
  List.length data' = List.length data
  /\ forall m, nth_error data' m = if Nat.eqb m n then Some v else nth_error data m.
Proof.
  revert n data'. induction data as [|b data IH]; intros n data' H.
  - destruct n; discriminate H.
  - destruct n as [|n]; cbn in H.
    + injection H as <-. split; [reflexivity|]. now intros [|m].
    + destruct (set_nth n v data) as [d|] eqn:E; [|discriminate H].
      injection H as <-. destruct (IH _ _ E) as [Hl Hn].
      split; [cbn; congruence|]. intros [|m]; cbn; [reflexivity|apply Hn].
Qed.

(** [data[i] = v] *)
Lemma byte_store_ok (data : list Z) (i v : Z) :
  0 <= i < len data -> 0 <= v < 256 ->
  exists data',
    byte_store data i v = Ok data'
    /\ len data' = len data
    /\ forall j, 0 <= j ->
         byte_at data' j = if j =? i then Ok v else byte_at data j.
Proof.
  intros Hi Hv. unfold byte_store.
  replace ((0 <=? v) && (v <? 256)) with true
    by (symmetry; apply andb_true_iff; split; [apply Z.leb_le|apply Z.ltb_lt]; lia).
  destruct (set_nth_spec (Z.to_nat i) v data) as (data' & Hs & _ & _);
    [unfold len in Hi; lia|].
  rewrite Hs. exists data'. destruct (set_nth_nth _ _ _ _ Hs) as [Hl Hn].
  split; [reflexivity|]. split; [unfold len; congruence|].
  intros j Hj. unfold byte_at. rewrite Hn.
  destruct (Z.eqb_spec j i) as [->|Hne].
  - now rewrite Nat.eqb_refl.
  - destruct (Nat.eqb_spec (Z.to_nat j) (Z.to_nat i)); [lia|reflexivity].
Qed.

Lemma byte_store_inv (data data' : list Z) (i v : Z) :
  0 <= i -> byte_store data i v = Ok data' ->
  0 <= v < 256 /\ i < len data.
Proof.
  unfold byte_store, len. intros Hi H.
  destruct ((0 <=? v) && (v <? 256)) eqn:E.
  - apply andb_true_iff in E. destruct E as [E0 E1].
    apply Z.leb_le in E0. apply Z.ltb_lt in E1. split; [lia|].
    destruct (set_nth (Z.to_nat i) v data) as [d|] eqn:Es; [|discriminate H].
    destruct (set_nth_nth _ _ _ _ Es) as [Hl Hn].
    specialize (Hn (Z.to_nat i)). rewrite Nat.eqb_refl in Hn.
    assert (Hlt : (Z.to_nat i < List.length d)%nat)
      by (apply nth_error_Some; congruence).
    lia.
  - destruct (nth_error data (Z.to_nat i)); discriminate H.
Qed.

(** The loop that copies an encoded string into the buffer. *)
Lemma write_bytes_ok (offset : Z) (encoded : list Z) :
  forall (start : Z) (data : list Z),
    0 <= offset + start ->
    offset + start + len encoded <= len data ->
    Forall (fun c => 0 <= c < 256) encoded ->
    exists data',
      for_each (enumerate_from start encoded)
        (fun data '(p, c) => byte_store data (offset + p) c) data = Ok data'
      /\ len data' = len data
      /\ forall j, 0 <= j ->
           byte_at data' j
           = if (offset + start <=? j) && (j <? offset + start + len encoded)
             then byte_at encoded (j - (offset + start))
             else byte_at data j.
Proof.
  induction encoded as [|c encoded IH]; intros start data H0 Hfit Hr.
  - cbn. exists data. split; [reflexivity|]. split; [reflexivity|].
    intros j Hj. unfold len; cbn.
    destruct (offset + start <=? j) eqn:E1, (j <? offset + start + 0) eqn:E2;
      try reflexivity.
    apply Z.leb_le in E1. apply Z.ltb_lt in E2. lia.
  - inversion Hr as [|? ? Hc Hr']; subst.
    assert (Hlen : len (c :: encoded) = 1 + len encoded)
      by (unfold len; cbn [List.length]; lia).
    rewrite Hlen in *.
    assert (Hpos : 0 <= len encoded) by (unfold len; lia).
    cbn [enumerate_from for_each].
    destruct (byte_store_ok data (offset + start) c) as (d1 & Hs & Hl1 & Hb1);
      [lia|lia|].
    rewrite Hs. cbn [bind].
    destruct (IH (start + 1) d1) as (d2 & Hf & Hl2 & Hb2); [lia|lia|assumption|].
    exists d2. split; [exact Hf|]. split; [congruence|].
    intros j Hj. rewrite Hb2, Hb1 by assumption.
    destruct (Z.eqb_spec j (offset + start)) as [->|Hne].
    + replace (offset + (start + 1) <=? offset + start) with false
        by (symmetry; apply Z.leb_gt; lia).
      replace (offset + start <=? offset + start) with true
        by (symmetry; apply Z.leb_le; lia).
      replace (offset + start <? offset + start + (1 + len encoded)) with true
        by (symmetry; apply Z.ltb_lt; lia).
      cbn [andb]. now rewrite Z.sub_diag.
    + destruct (offset + (start + 1) <=? j) eqn:E1;
        destruct (j <? offset + (start + 1) + len encoded) eqn:E2;
        destruct (offset + start <=? j) eqn:E3;
        destruct (j <? offset + start + (1 + len encoded)) eqn:E4;
        cbn [andb]; try reflexivity;
        rewrite ?Z.leb_le, ?Z.leb_gt, ?Z.ltb_lt, ?Z.ltb_ge in *; try lia.
      unfold byte_at.
      replace (Z.to_nat (j - (offset + start)))
        with (S (Z.to_nat (j - (offset + (start + 1))))) by lia.
      reflexivity.
Qed.

(** *** Integers in little-endian bytes *)

Lemma le_bytes_length (width : nat) (n : Z) : List.length (le_bytes width n) = width.
Proof. revert n. induction width; intros n; cbn; auto. Qed.

Lemma le_bytes_range (width : nat) (n : Z) :
  Forall (fun b => 0 <= b < 256) (le_bytes width n).
Proof.
  revert n. induction width; intros n; cbn [le_bytes]; constructor; auto.
  apply Z.mod_pos_bound. lia.
Qed.

Lemma from_bytes_le_bytes (width : nat) (n : Z) :
  0 <= n < 256 ^ Z.of_nat width -> from_bytes (le_bytes width n) = n.
Proof.
  revert n. induction width as [|w IH]; intros n Hn.
  - cbn in *. lia.
  - cbn [le_bytes from_bytes]. rewrite IH.
    + pose proof (Z.div_mod n 256). lia.
    + rewrite Nat2Z.inj_succ, Z.pow_succ_r in Hn by lia.
      split; [apply Z.div_pos; lia|].
      apply Z.div_lt_upper_bound; lia.
Qed.

Lemma to_bytes_ok (n width : Z) :
  0 <= width -> 0 <= n < 256 ^ width ->
  to_bytes n width = Ok (le_bytes (Z.to_nat width) n).
Proof.
  intros Hw [H0 H1]. unfold to_bytes.
  apply Z.leb_le in H0. apply Z.ltb_lt in H1. now rewrite H0, H1.
Qed.

(** *** One field written, then read *)

Lemma number_field_codec
    (data : list Z) (key : string) (offset length n : Z) (item : dict) :
  0 <= offset -> 0 <= length -> offset + length <= len data ->
  dict_lookup key item = Some (VInt n) ->
  0 <= n < 256 ^ length ->
  exists data',
    field_toBytes data key (Number offset length) item = Ok data'
    /\ len data' = len data
    /\ field_fromBytes (Number offset length) data' = Ok (VInt n)
    /\ forall j, 0 <= j -> j < offset \/ offset + length <= j ->
         byte_at data' j = byte_at data j.
Proof.
  intros Ho Hl Hfit Hv Hn. cbn [field_toBytes field_fromBytes].
  unfold dict_get. rewrite Hv. cbn [bind int_to_bytes].
  rewrite to_bytes_ok by assumption. cbn [bind].
  set (bs := le_bytes (Z.to_nat length) n).
  assert (Hbs : len bs = offset + length - offset).
  { unfold len, bs. rewrite le_bytes_length. lia. }
  eexists. split; [reflexivity|].
  split; [apply len_slice_assign; lia|]. split.
  - do 2 f_equal.
    replace (slice (slice_assign data offset (offset + length) bs) offset (offset + length))
      with bs.
    + unfold bs. apply from_bytes_le_bytes. now rewrite Z2Nat.id.
    + apply nth_error_ext. intros k. rewrite nth_error_slice.
      destruct (Z.of_nat k <? offset + length - offset) eqn:E.
      * apply Z.ltb_lt in E.
        pose proof (byte_at_slice_assign data offset (offset + length) bs
                      (offset + Z.of_nat k)) as H.
        unfold byte_at in H.
        replace (Z.to_nat (offset + Z.of_nat k)) with (Z.to_nat offset + k)%nat in H by lia.
        replace (Z.to_nat (offset + Z.of_nat k - offset)) with k in H by lia.
        replace ((offset <=? offset + Z.of_nat k) && (offset + Z.of_nat k <? offset + length))
          with true in H
          by (symmetry; apply andb_true_iff; split; [apply Z.leb_le|apply Z.ltb_lt]; lia).
        specialize (H Ho ltac:(lia) Hfit Hbs ltac:(lia)).
        destruct (nth_error (slice_assign _ _ _ _) _), (nth_error bs k); congruence.
      * apply Z.ltb_ge in E. apply nth_error_None. unfold len in Hbs. lia.
  - intros j Hj Hout. rewrite byte_at_slice_assign by (assumption || lia).
    replace ((offset <=? j) && (j <? offset + length)) with false; [reflexivity|].
    symmetry. apply andb_false_iff.
    destruct Hout; [left; apply Z.leb_gt|right; apply Z.ltb_ge]; lia.
Qed.

Lemma slice_of_slice_assign (data : list Z) (a b : Z) (src : list Z) :
  0 <= a -> a <= b -> b <= len data -> len src = b - a ->
  slice (slice_assign data a b src) a b = src.
Proof.
  intros Ha Hab Hb Hs. apply nth_error_ext. intros k. rewrite nth_error_slice.
  destruct (Z.of_nat k <? b - a) eqn:E.
  - apply Z.ltb_lt in E.
    pose proof (byte_at_slice_assign data a b src (a + Z.of_nat k) Ha Hab Hb Hs) as H.
    unfold byte_at in H.
    replace (Z.to_nat (a + Z.of_nat k)) with (Z.to_nat a + k)%nat in H by lia.
    replace (Z.to_nat (a + Z.of_nat k - a)) with k in H by lia.
    replace ((a <=? a + Z.of_nat k) && (a + Z.of_nat k <? b)) with true in H
      by (symmetry; apply andb_true_iff; split; [apply Z.leb_le|apply Z.ltb_lt]; lia).
    specialize (H ltac:(lia)).
    destruct (nth_error (slice_assign _ _ _ _) _), (nth_error src k); congruence.
  - apply Z.ltb_ge in E. symmetry. apply nth_error_None. unfold len in Hs. lia.
Qed.

(** *** Text in ASCII bytes *)

Lemma chr_ord (c : ascii) : chr (ord c) = c.
Proof. unfold chr, ord. now rewrite N2Z.id, ascii_N_embedding. Qed.

Lemma ord_range (c : ascii) : 0 <= ord c < 256.
Proof.
  unfold ord. pose proof (N_ascii_bounded c). lia.
Qed.

Lemma encode_ascii_spec (s : string) (encoded : list Z) :
  encode_ascii s = Ok encoded ->
  decode_ascii encoded = Ok s
  /\ len encoded = Z.of_nat (String.length s)
  /\ Forall (fun c => 0 <= c < 256) encoded.
Proof.
  revert encoded. induction s as [|c s IH]; intros encoded H; cbn [encode_ascii] in H.
  - injection H as <-. repeat split. constructor.
  - destruct (ord c <? 128) eqn:E; [|discriminate H].
    destruct (encode_ascii s) as [bs|]; [|discriminate H].
    cbn [bind] in H. injection H as <-.
    destruct (IH bs eq_refl) as (Hd & Hl & Hr).
    cbn [decode_ascii]. rewrite E, Hd. cbn [bind]. rewrite chr_ord.
    split; [reflexivity|]. split.
    + unfold len in *. cbn [List.length String.length]. lia.
    + constructor; [apply ord_range|assumption].
Qed.

Lemma decode_ascii_app (a b : list Z) (s t : string) :
  decode_ascii a = Ok s -> decode_ascii b = Ok t ->
  decode_ascii (a ++ b) = Ok (s ++ t)%string.
Proof.
  revert s. induction a as [|x a IH]; intros s Ha Hb; cbn [decode_ascii app] in *.
  - injection Ha as <-. exact Hb.
  - destruct (x <? 128); [|discriminate Ha].
    destruct (decode_ascii a) as [s'|]; [|discriminate Ha].
    cbn [bind] in Ha. injection Ha as <-.
    rewrite (IH s' eq_refl Hb). reflexivity.
Qed.

Lemma decode_ascii_zeros (k : nat) :
  decode_ascii (repeat 0 k) = Ok (string_of_list_ascii (repeat Ascii.zero k)).
Proof.
  induction k as [|k IH]; cbn [repeat decode_ascii string_of_list_ascii]; [reflexivity|].
  rewrite IH. reflexivity.
Qed.

Lemma rstrip_nul_zeros (k : nat) :
  rstrip_nul (string_of_list_ascii (repeat Ascii.zero k)) = "".
Proof.
  induction k as [|k IH]; cbn [repeat string_of_list_ascii rstrip_nul]; [reflexivity|].
  rewrite IH. reflexivity.
Qed.

Lemma rstrip_nul_padded (s : string) (k : nat) :
  rstrip_nul (s ++ string_of_list_ascii (repeat Ascii.zero k)) = rstrip_nul s.
Proof.
  induction s as [|c s IH]; cbn [String.append rstrip_nul].
  - apply rstrip_nul_zeros.
  - now rewrite IH.
Qed.

Lemma string_field_codec
    (data : list Z) (key : string) (offset length : Z) (item : dict) (s : string) :
  0 <= offset -> offset + length <= len data ->
  dict_lookup key item = Some (VStr s) ->
  succeeds (encode_ascii s) = true ->
  rstrip_nul s = s ->
  Z.of_nat (String.length s) <= length ->
  (forall j, offset <= j < offset + length -> byte_at data j = Ok 0) ->
  exists data',
    field_toBytes data key (Str offset length) item = Ok data'
    /\ len data' = len data
    /\ field_fromBytes (Str offset length) data' = Ok (VStr s)
    /\ forall j, 0 <= j -> j < offset \/ offset + length <= j ->
         byte_at data' j = byte_at data j.
Proof.
  intros Ho Hfit Hv Hascii Hstrip Hlen Hzero.
  cbn [field_toBytes field_fromBytes]. unfold dict_get. rewrite Hv.
  cbn [bind str_encode].
  destruct (encode_ascii s) as [encoded|] eqn:He; [|discriminate Hascii].
  cbn [bind].
  destruct (encode_ascii_spec _ _ He) as (Hd & Hl & Hr).
  destruct (write_bytes_ok offset encoded 0 data) as (data' & Hw & Hl' & Hb);
    [lia|lia|assumption|].
  exists data'. split; [exact Hw|]. split; [exact Hl'|]. split.
  - replace (slice data' offset (offset + length))
      with (encoded ++ repeat 0 (Z.to_nat (length - len encoded))).
    + rewrite (decode_ascii_app _ _ _ _ Hd (decode_ascii_zeros _)). cbn [bind].
      now rewrite rstrip_nul_padded, Hstrip.
    + apply nth_error_ext. intros k. rewrite nth_error_slice.
      destruct (Z.of_nat k <? offset + length - offset) eqn:E.
      * apply Z.ltb_lt in E.
        pose proof (Hb (offset + Z.of_nat k) ltac:(lia)) as H.
        unfold byte_at in H.
        replace (Z.to_nat (offset + Z.of_nat k)) with (Z.to_nat offset + k)%nat in H by lia.
        destruct (Z.of_nat k <? len encoded) eqn:Ek.
        -- apply Z.ltb_lt in Ek.
           replace ((offset + 0 <=? offset + Z.of_nat k)
                    && (offset + Z.of_nat k <? offset + 0 + len encoded)) with true in H
             by (symmetry; apply andb_true_iff; split;
                 [apply Z.leb_le|apply Z.ltb_lt]; lia).
           replace (Z.to_nat (offset + Z.of_nat k - (offset + 0))) with k in H by lia.
           rewrite nth_error_app1 by (unfold len in Ek; lia).
           destruct (nth_error data' _), (nth_error encoded k); congruence.
        -- apply Z.ltb_ge in Ek.
           replace ((offset + 0 <=? offset + Z.of_nat k)
                    && (offset + Z.of_nat k <? offset + 0 + len encoded)) with false in H
             by (symmetry; apply andb_false_iff; right; apply Z.ltb_ge; lia).
           specialize (Hzero (offset + Z.of_nat k) ltac:(lia)).
           unfold byte_at in Hzero.
           replace (Z.to_nat (offset + Z.of_nat k)) with (Z.to_nat offset + k)%nat
             in Hzero by lia.
           rewrite nth_error_app2 by (unfold len in Ek; lia).
           rewrite nth_error_repeat by (unfold len in *; lia).
           destruct (nth_error data' _), (nth_error data _); congruence.
      * apply Z.ltb_ge in E. apply nth_error_None.
        rewrite length_app, repeat_length. unfold len in *. lia.
  - intros j Hj Hout. rewrite Hb by assumption.
    replace ((offset + 0 <=? j) && (j <? offset + 0 + len encoded)) with false;
      [reflexivity|].
    symmetry. apply andb_false_iff.
    destruct Hout; [left; apply Z.leb_gt|right; apply Z.ltb_ge]; lia.
Qed.

(** *** Fields that share a byte *)

Lemma byte_or_ok (data : list Z) (offset b k : Z) :
  0 <= offset -> byte_at data offset = Ok b -> 0 <= b < 256 -> 0 <= k < 256 ->
  exists data',
    byte_or data offset k = Ok data'
    /\ len data' = len data
    /\ byte_at data' offset = Ok (Z.lor b k)
    /\ forall j, 0 <= j -> j <> offset -> byte_at data' j = byte_at data j.
Proof.
  intros Ho Hb Hr Hk. unfold byte_or. rewrite Hb. cbn [bind].
  assert (Hlt : offset < len data).
  { unfold byte_at in Hb. unfold len.
    destruct (nth_error data (Z.to_nat offset)) eqn:E; [|discriminate].
    assert ((Z.to_nat offset < List.length data)%nat)
      by (apply nth_error_Some; congruence).
    lia. }
  destruct (byte_store_ok data offset (Z.lor b k)) as (data' & Hs & Hl & Hj);
    [lia|now apply byte_lor_range|].
  exists data'. split; [exact Hs|]. split; [exact Hl|]. split.
  - rewrite Hj by lia. now rewrite Z.eqb_refl.
  - intros j Hj0 Hne. rewrite Hj by assumption.
    destruct (Z.eqb_spec j offset); [contradiction|reflexivity].
Qed.

Lemma enum_lookup_In (enum : list (Z * string)) (k : Z) (label : string) :
  NoDup (map fst enum) -> In (k, label) enum -> enum_lookup k enum = Some label.
Proof.
  induction enum as [|[k0 v0] enum IH]; intros Hnd Hin; [destruct Hin|].
  cbn [enum_lookup]. inversion Hnd as [|? ? Hnot Hnd']; subst.
  destruct Hin as [Heq|Hin].
  - injection Heq as -> ->. now rewrite Z.eqb_refl.
  - destruct (Z.eqb_spec k0 k) as [->|Hne]; [|auto].
    exfalso. apply Hnot. apply (in_map fst) in Hin. exact Hin.
Qed.

(** The encoding loop of a [Bitmask] field whose label is no label of the
    table writes nothing. *)
Lemma bitmask_no_label
    (data : list Z) (key : string) (offset mask : Z) (enum : list (Z * string))
    (item : dict) (x : value) :
  dict_lookup key item = Some x ->
  (forall k v, In (k, v) enum -> is_str v x = false) ->
  field_toBytes data key (Bitmask offset mask enum) item = Ok data.
Proof.
  intros Hv. cbn [field_toBytes]. revert data.
  induction enum as [|[k v] enum IH]; intros data Hno; cbn [for_each]; [reflexivity|].
  unfold dict_get at 1. rewrite Hv. cbn [bind].
  rewrite (Hno k v) by now left. cbn [bind].
  apply IH. intros k' v' Hin. apply (Hno k' v'). now right.
Qed.

Lemma is_str_label (v label : string) : is_str v (VStr label) = String.eqb label v.
Proof. reflexivity. Qed.

Lemma bitmask_field_codec
    (data : list Z) (key : string) (offset mask : Z) (enum : list (Z * string))
    (item : dict) (label : string) (k b : Z) :
  0 <= offset ->
  byte_at data offset = Ok b -> 0 <= b < 256 ->
  dict_lookup key item = Some (VStr label) ->
  In (k, label) enum ->
  NoDup (map fst enum) -> NoDup (map snd enum) ->
  0 <= k < 256 -> Z.land k mask = k -> Z.land b mask = 0 ->
  exists data',
    field_toBytes data key (Bitmask offset mask enum) item = Ok data'
    /\ len data' = len data
    /\ byte_at data' offset = Ok (Z.lor b k)
    /\ field_fromBytes (Bitmask offset mask enum) data' = Ok (VStr label)
    /\ forall j, 0 <= j -> j <> offset -> byte_at data' j = byte_at data j.
Proof.
  intros Ho Hb Hr Hv Hin Hkeys Hlabels Hk Hkm Hbm.
  assert (Hwrite : exists data',
             field_toBytes data key (Bitmask offset mask enum) item = Ok data'
             /\ len data' = len data
             /\ byte_at data' offset = Ok (Z.lor b k)
             /\ forall j, 0 <= j -> j <> offset -> byte_at data' j = byte_at data j).
  { cbn [field_toBytes]. clear Hkeys.
    induction enum as [|[k0 v0] enum IH]; [destruct Hin|].
    cbn [for_each]. unfold dict_get at 1. rewrite Hv. cbn [bind].
    cbn [map] in Hlabels. inversion Hlabels as [|? ? Hnot Hnd']; subst.
    destruct Hin as [Heq|Hin].
    - injection Heq as -> ->. rewrite is_str_label, String.eqb_refl.
      destruct (byte_or_ok data offset b k Ho Hb Hr Hk) as (d1 & Hs & Hl & Hbo & Hfr).
      rewrite Hs. cbn [bind]. exists d1.
      split; [|auto].
      apply (bitmask_no_label d1 key offset mask enum item (VStr label) Hv).
      intros k' v' Hin'. rewrite is_str_label. apply String.eqb_neq. intros ->.
      apply Hnot. apply (in_map snd) in Hin'. exact Hin'.
    - assert (Hne : is_str v0 (VStr label) = false).
      { rewrite is_str_label. apply String.eqb_neq. intros ->.
        apply Hnot. apply (in_map snd) in Hin. exact Hin. }
      rewrite Hne. cbn [bind]. now apply IH. }
  destruct Hwrite as (data' & Hw & Hl & Hbo & Hfr).
  exists data'. split; [exact Hw|]. split; [exact Hl|]. split; [exact Hbo|].
  split; [|exact Hfr].
  cbn [field_fromBytes]. rewrite Hbo. cbn [bind].
  rewrite Z.land_lor_distr_l, Hbm, Hkm, Z.lor_0_l.
  now rewrite (enum_lookup_In _ _ _ Hkeys Hin).
Qed.

Lemma masknum_field_codec
    (data : list Z) (key : string) (offset mask : Z) (item : dict) (n b : Z) :
  0 <= offset ->
  byte_at data offset = Ok b -> 0 <= b < 256 -> 0 <= mask < 256 ->
  dict_lookup key item = Some (VInt n) ->
  Z.land n mask = n -> Z.land b mask = 0 ->
  exists data',
    field_toBytes data key (MaskNum offset mask) item = Ok data'
    /\ len data' = len data
    /\ byte_at data' offset = Ok (Z.lor b n)
    /\ field_fromBytes (MaskNum offset mask) data' = Ok (VInt n)
    /\ forall j, 0 <= j -> j <> offset -> byte_at data' j = byte_at data j.
Proof.
  intros Ho Hb Hr Hm Hv Hn Hbm.
  pose proof (byte_land_range n mask Hm) as Hnr. rewrite Hn in Hnr.
  destruct (byte_or_ok data offset b n Ho Hb Hr Hnr) as (data' & Hs & Hl & Hbo & Hfr).
  unfold byte_or in Hs. rewrite Hb in Hs. cbn [bind] in Hs.
  exists data'. cbn [field_toBytes field_fromBytes].
  rewrite Hb. unfold dict_get. rewrite Hv. cbn [bind py_int]. rewrite Hn.
  split; [exact Hs|]. split; [exact Hl|]. split; [exact Hbo|]. split; [|exact Hfr].
  rewrite Hbo. cbn [bind]. now rewrite Z.land_lor_distr_l, Hbm, Hn, Z.lor_0_l.
Qed.

Lemma masknumfn_field_codec
    (data : list Z) (key : string) (offset mask : Z) (decode : Z -> Z)
    (encode : pynum -> outcome pynum) (item : dict) (n m b : Z) :
  0 <= offset ->
  byte_at data offset = Ok b -> 0 <= b < 256 -> 0 <= mask < 256 ->
  dict_lookup key item = Some (VInt n) ->
  lambda_int encode (VInt n) = Ok m ->
  decode (Z.land m mask) = n -> Z.land b mask = 0 ->
  exists data',
    field_toBytes data key (MaskNumFn offset mask decode encode) item = Ok data'
    /\ len data' = len data
    /\ byte_at data' offset = Ok (Z.lor b (Z.land m mask))
    /\ field_fromBytes (MaskNumFn offset mask decode encode) data' = Ok (VInt n)
    /\ forall j, 0 <= j -> j <> offset -> byte_at data' j = byte_at data j.
Proof.
  intros Ho Hb Hr Hm Hv He Hn Hbm.
  pose proof (byte_land_range m mask Hm) as Hnr.
  destruct (byte_or_ok data offset b _ Ho Hb Hr Hnr) as (data' & Hs & Hl & Hbo & Hfr).
  unfold byte_or in Hs. rewrite Hb in Hs. cbn [bind] in Hs.
  exists data'. cbn [field_toBytes field_fromBytes].
  rewrite Hb. unfold dict_get. rewrite Hv. cbn [bind]. rewrite He. cbn [bind].
  split; [exact Hs|]. split; [exact Hl|]. split; [exact Hbo|]. split; [|exact Hfr].
  rewrite Hbo. cbn [bind].
  rewrite Z.land_lor_distr_l, Hbm, Z.lor_0_l, <- Z.land_assoc, Z.land_diag.
  now rewrite Hn.
Qed.

(** *** A record written, then read *)

Lemma byte_at_bound (data : list Z) (j x : Z) :
  0 <= j -> byte_at data j = Ok x -> j < len data.
Proof.
  unfold byte_at, len. intros Hj H.
  destruct (nth_error data (Z.to_nat j)) eqn:E; [|discriminate].
  assert ((Z.to_nat j < List.length data)%nat) by (apply nth_error_Some; congruence).
  lia.
Qed.

Lemma byte_at_bytearray (n j x : Z) : byte_at (bytearray n) j = Ok x -> x = 0.
Proof.
  unfold byte_at, bytearray. intros H.
  destruct (nth_error (repeat 0 (Z.to_nat n)) (Z.to_nat j)) eqn:E; [|discriminate].
  injection H as <-. apply nth_error_In in E. now apply repeat_spec in E.
Qed.

Lemma len_bytearray (n : Z) : 0 <= n -> len (bytearray n) = n.
Proof. intros. unfold len, bytearray. rewrite repeat_length. lia. Qed.

Lemma land_byte_high (x m : Z) : 0 <= x < 256 -> Z.land m 0xFF = 0 -> Z.land x m = 0.
Proof.
  intros Hx Hm.
  assert (E : x = Z.land x 0xFF).
  { change 0xFF with (Z.ones 8). rewrite Z.land_ones by lia.
    symmetry. apply Z.mod_small. change (2 ^ 8) with 256. lia. }
  rewrite E, <- Z.land_assoc, (Z.land_comm 0xFF m), Hm. apply Z.land_0_r.
Qed.

(** Whole-byte fields: a buffer that differs from [data] exactly on a
    window, where it holds bytes. *)
Lemma window_effect (data data' : list Z) (a b : Z) :
  len data' = len data -> bytes_in_range data -> 0 <= a -> b <= len data ->
  (forall j, 0 <= j -> ~ (a <= j < b) -> byte_at data' j = byte_at data j) ->
  (forall j x, a <= j < b -> byte_at data' j = Ok x -> 0 <= x < 256) ->
  bytes_in_range data'
  /\ forall j m x, 0 <= j ->
       ~ (a <= j < b) \/ Z.land m 0xFF = 0 ->
       byte_at data j = Ok x ->
       exists x', byte_at data' j = Ok x' /\ Z.land x' m = Z.land x m.
Proof.
  intros Hl Hr Ha Hb Hout Hin.
  assert (Hr' : bytes_in_range data').
  { intros j x Hj Hx.
    destruct (Z_le_dec a j) as [H1|H1]; [destruct (Z_lt_dec j b) as [H2|H2]|].
    - apply (Hin j x); [lia|assumption].
    - rewrite Hout in Hx by lia. now apply (Hr j).
    - rewrite Hout in Hx by lia. now apply (Hr j). }
  split; [exact Hr'|].
  intros j m x Hj Hs Hx.
  destruct (Z_le_dec a j) as [H1|H1]; [destruct (Z_lt_dec j b) as [H2|H2]|].
  - destruct Hs as [Hs|Hs]; [lia|].
    destruct (byte_at_ok data' j) as [x' Hx']; [lia|].
    exists x'. split; [exact Hx'|].
    rewrite (land_byte_high x' m), (land_byte_high x m); eauto.
  - exists x. rewrite Hout by lia. auto.
  - exists x. rewrite Hout by lia. auto.
Qed.

(** Fields inside a byte: the byte is ORed with bits of the field's mask. *)
Lemma or_effect (data data' : list Z) (offset b w mask : Z) :
  bytes_in_range data -> 0 <= offset ->
  byte_at data offset = Ok b -> 0 <= w < 256 -> Z.land w mask = w ->
  byte_at data' offset = Ok (Z.lor b w) ->
  (forall j, 0 <= j -> j <> offset -> byte_at data' j = byte_at data j) ->
  bytes_in_range data'
  /\ forall j m x, 0 <= j ->
       ~ (offset <= j < offset + 1) \/ Z.land m mask = 0 ->
       byte_at data j = Ok x ->
       exists x', byte_at data' j = Ok x' /\ Z.land x' m = Z.land x m.
Proof.
  intros Hr Ho Hb Hw Hwm Hbo Hfr. split.
  - intros j x Hj Hx. destruct (Z.eq_dec j offset) as [->|Hne].
    + rewrite Hbo in Hx. injection Hx as <-.
      apply byte_lor_range; [now apply (Hr offset)|assumption].
    + rewrite Hfr in Hx by assumption. now apply (Hr j).
  - intros j m x Hj Hs Hx. destruct (Z.eq_dec j offset) as [->|Hne].
    + destruct Hs as [Hs|Hs]; [lia|].
      rewrite Hb in Hx. injection Hx as <-.
      exists (Z.lor b w). split; [exact Hbo|].
      rewrite Z.land_lor_distr_l.
      replace (Z.land w m) with 0; [apply Z.lor_0_r|].
      rewrite <- Hwm, <- Z.land_assoc, (Z.land_comm mask m), Hs.
      symmetry. apply Z.land_0_r.
    + exists x. rewrite Hfr by assumption. auto.
Qed.

Lemma field_fits_spec (n : Z) (d : definition) :
  field_fits n d = true ->
  0 <= field_start d <= field_stop d /\ field_stop d <= n /\ 0 <= field_mask d < 256.
Proof.
  unfold field_fits. rewrite !andb_true_iff, !Z.leb_le, Z.ltb_lt. lia.
Qed.

(** What writing one field does to a buffer in which the field's bits are
    still clear: the field reads back, and every bit outside the field is
    left as it was. *)
Lemma field_effect (n : Z) (data : list Z) (key : string) (g : definition)
    (item : dict) (v : value) :
  len data = n -> bytes_in_range data -> field_fits n g = true ->
  dict_lookup key item = Some v -> value_fits g v ->
  (forall j x, field_start g <= j < field_stop g ->
               byte_at data j = Ok x -> Z.land x (field_mask g) = 0) ->
  exists data',
    field_toBytes data key g item = Ok data'
    /\ len data' = n
    /\ bytes_in_range data'
    /\ field_fromBytes g data' = Ok v
    /\ forall j m x, 0 <= j ->
         ~ (field_start g <= j < field_stop g) \/ Z.land m (field_mask g) = 0 ->
         byte_at data j = Ok x ->
         exists x', byte_at data' j = Ok x' /\ Z.land x' m = Z.land x m.
Proof.
  intros Hlen Hr Hfit Hv Hval Hclear.
  apply field_fits_spec in Hfit. destruct Hfit as (Hs & Hstop & Hm).
  destruct g as [offset mask enum|offset length|offset length|offset mask
                |offset mask decode encode];
    cbn [field_start field_stop field_mask] in *;
    destruct v as [s|z| | |]; cbn [value_fits] in Hval; try contradiction.
  - (* Bitmask *)
    destruct Hval as (Hkeys & Hlabels & k & Hin & Hk & Hkm).
    destruct (byte_at_ok data offset) as [b Hb]; [lia|].
    destruct (bitmask_field_codec data key offset mask enum item s k b)
      as (d1 & Hw & Hl & Hbo & Hread & Hfr); try assumption; try lia.
    { apply (Hr offset); [lia|assumption]. }
    { apply (Hclear offset); [lia|assumption]. }
    exists d1. split; [exact Hw|]. split; [lia|].
    destruct (or_effect data d1 offset b k mask) as [Hr1 Hf1]; try assumption; try lia.
    split; [exact Hr1|]. split; [exact Hread|exact Hf1].
  - (* String *)
    destruct Hval as (Hascii & Hstrip & Hsl).
    destruct (string_field_codec data key offset length item s)
      as (d1 & Hw & Hl & Hread & Hfr); try assumption; try lia.
    { intros j Hj. destruct (byte_at_ok data j) as [x Hx]; [lia|].
      rewrite Hx. f_equal.
      pose proof (Hclear j x Hj Hx) as H0. pose proof (Hr j x ltac:(lia) Hx) as Hx0.
      change 0xFF with (Z.ones 8) in H0. rewrite Z.land_ones in H0 by lia.
      rewrite Z.mod_small in H0 by (change (2 ^ 8) with 256; lia). exact H0. }
    exists d1. split; [exact Hw|]. split; [lia|].
    destruct (window_effect data d1 offset (offset + length)) as [Hr1 Hf1];
      try assumption; try lia.
    { intros j Hj Hout. apply Hfr; [assumption|lia]. }
    { intros j x Hj Hx.
      (* a byte of the window is a character byte or an old byte *)
      cbn [field_toBytes] in Hw. unfold dict_get in Hw. rewrite Hv in Hw.
      cbn [bind str_encode] in Hw.
      destruct (encode_ascii s) as [encoded|] eqn:He; [|discriminate Hascii].
      cbn [bind] in Hw.
      destruct (encode_ascii_spec _ _ He) as (_ & Hel & Her).
      destruct (write_bytes_ok offset encoded 0 data) as (d2 & Hw2 & _ & Hb2);
        [lia|lia|assumption|].
      rewrite Hw2 in Hw. injection Hw as <-.
      rewrite Hb2 in Hx by lia.
      destruct ((offset + 0 <=? j) && (j <? offset + 0 + len encoded)).
      - unfold byte_at in Hx.
        destruct (nth_error encoded (Z.to_nat (j - (offset + 0)))) eqn:E;
          [|discriminate].
        injection Hx as <-. apply nth_error_In in E.
        rewrite Forall_forall in Her. now apply Her.
      - apply (Hr j); [lia|assumption]. }
    split; [exact Hr1|]. split; [exact Hread|exact Hf1].
  - (* Number *)
    destruct (number_field_codec data key offset length z item)
      as (d1 & Hw & Hl & Hread & Hfr); try assumption; try lia.
    exists d1. split; [exact Hw|]. split; [lia|].
    destruct (window_effect data d1 offset (offset + length)) as [Hr1 Hf1];
      try assumption; try lia.
    { intros j Hj Hout. apply Hfr; [assumption|lia]. }
    { intros j x Hj Hx.
      cbn [field_toBytes] in Hw. unfold dict_get in Hw. rewrite Hv in Hw.
      cbn [bind int_to_bytes] in Hw. rewrite to_bytes_ok in Hw by (assumption || lia).
      cbn [bind] in Hw. injection Hw as <-.
      rewrite byte_at_slice_assign in Hx;
        [| lia | lia | lia | unfold len; rewrite le_bytes_length; lia | lia].
      replace ((offset <=? j) && (j <? offset + length)) with true in Hx
        by (symmetry; apply andb_true_iff; split; [apply Z.leb_le|apply Z.ltb_lt]; lia).
      unfold byte_at in Hx.
      destruct (nth_error (le_bytes (Z.to_nat length) z) (Z.to_nat (j - offset))) eqn:E;
        [|discriminate].
      injection Hx as <-. apply nth_error_In in E.
      pose proof (le_bytes_range (Z.to_nat length) z) as Hle.
      rewrite Forall_forall in Hle. now apply Hle. }
    split; [exact Hr1|]. split; [exact Hread|exact Hf1].
  - (* MaskNum *)
    destruct (byte_at_ok data offset) as [b Hb]; [lia|].
    destruct (masknum_field_codec data key offset mask item z b)
      as (d1 & Hw & Hl & Hbo & Hread & Hfr); try assumption; try lia.
    { apply (Hr offset); [lia|assumption]. }
    { apply (Hclear offset); [lia|assumption]. }
    exists d1. split; [exact Hw|]. split; [lia|].
    pose proof (byte_land_range z mask Hm) as Hzr. rewrite Hval in Hzr.
    destruct (or_effect data d1 offset b z mask) as [Hr1 Hf1]; try assumption; try lia.
    split; [exact Hr1|]. split; [exact Hread|exact Hf1].
  - (* MaskNum with lambdas *)
    destruct Hval as (m & Hm_int & Hm_back).
    destruct (byte_at_ok data offset) as [b Hb]; [lia|].
    destruct (masknumfn_field_codec data key offset mask decode encode item z m b)
      as (d1 & Hw & Hl & Hbo & Hread & Hfr); try assumption; try lia.
    { apply (Hr offset); [lia|assumption]. }
    { apply (Hclear offset); [lia|assumption]. }
    exists d1. split; [exact Hw|]. split; [lia|].
    pose proof (byte_land_range m mask Hm) as Hzr.
    destruct (or_effect data d1 offset b (Z.land m mask) mask) as [Hr1 Hf1];
      try assumption; try lia.
    { now rewrite <- Z.land_assoc, Z.land_diag. }
    split; [exact Hr1|]. split; [exact Hread|exact Hf1].
Qed.

(** A field reads the same from two buffers that agree on its bits. *)
Lemma field_read_agree (g : definition) (data data' : list Z) :
  0 <= field_start g -> field_stop g <= len data -> len data' = len data ->
  bytes_in_range data -> bytes_in_range data' ->
  (forall j x, field_start g <= j < field_stop g ->
               byte_at data j = Ok x ->
               exists x', byte_at data' j = Ok x'
                          /\ Z.land x' (field_mask g) = Z.land x (field_mask g)) ->
  field_fromBytes g data' = field_fromBytes g data.
Proof.
  intros Hs Hstop Hl Hr Hr' Hag.
  assert (Hwhole : forall a b, 0 <= a -> b <= len data ->
            (forall j x, a <= j < b -> byte_at data j = Ok x ->
                         exists x', byte_at data' j = Ok x'
                                    /\ Z.land x' 0xFF = Z.land x 0xFF) ->
            slice data' a b = slice data a b).
  { intros a b Ha Hb H. apply slice_ext; [assumption|]. intros j Hj.
    destruct (byte_at_ok data j) as [x Hx]; [lia|].
    destruct (H j x Hj Hx) as (x' & Hx' & He). rewrite Hx, Hx'. f_equal.
    pose proof (Hr j x ltac:(lia) Hx). pose proof (Hr' j x' ltac:(lia) Hx').
    change 0xFF with (Z.ones 8) in He. rewrite !Z.land_ones in He by lia.
    rewrite !Z.mod_small in He by (change (2 ^ 8) with 256; lia). exact He. }
  assert (Hbyte : forall offset mask, 0 <= offset -> offset + 1 <= len data ->
            (forall j x, offset <= j < offset + 1 -> byte_at data j = Ok x ->
                         exists x', byte_at data' j = Ok x'
                                    /\ Z.land x' mask = Z.land x mask) ->
            exists x x', byte_at data offset = Ok x /\ byte_at data' offset = Ok x'
                         /\ Z.land x' mask = Z.land x mask).
  { intros offset mask Ho Hb H.
    destruct (byte_at_ok data offset) as [x Hx]; [lia|].
    destruct (H offset x ltac:(lia) Hx) as (x' & Hx' & He). eauto. }
  destruct g as [offset mask enum|offset length|offset length|offset mask
                |offset mask decode encode];
    cbn [field_start field_stop field_mask field_fromBytes] in *.
  - destruct (Hbyte offset mask Hs Hstop Hag) as (x & x' & Hx & Hx' & He).
    rewrite Hx, Hx'. cbn [bind]. now rewrite He.
  - now rewrite (Hwhole offset (offset + length) Hs Hstop Hag).
  - now rewrite (Hwhole offset (offset + length) Hs Hstop Hag).
  - destruct (Hbyte offset mask Hs Hstop Hag) as (x & x' & Hx & Hx' & He).
    rewrite Hx, Hx'. cbn [bind]. now rewrite He.
  - destruct (Hbyte offset mask Hs Hstop Hag) as (x & x' & Hx & Hx' & He).
    rewrite Hx, Hx'. cbn [bind]. now rewrite He.
Qed.

Lemma no_clash_spared (f g : definition) (j : Z) :
  fields_clash f g = false ->
  field_start g <= j < field_stop g ->
  ~ (field_start f <= j < field_stop f)
  \/ Z.land (field_mask g) (field_mask f) = 0.
Proof.
  unfold fields_clash. intros H Hj.
  destruct (Z_le_dec (field_start f) j) as [H1|H1];
    [destruct (Z_lt_dec j (field_stop f)) as [H2|H2]|]; try (left; lia).
  right. rewrite !andb_false_iff in H. destruct H as [[H|H]|H].
  - apply Z.ltb_ge in H. lia.
  - apply Z.ltb_ge in H. lia.
  - apply negb_false_iff, Z.eqb_eq in H. now rewrite Z.land_comm.
Qed.

Lemma no_clash_sym (f g : definition) :
  fields_clash f g = false -> fields_clash g f = false.
Proof.
  unfold fields_clash. intros H.
  rewrite (Z.land_comm (field_mask g)).
  destruct (field_start f <? field_stop g), (field_start g <? field_stop f);
    cbn [andb] in *; auto.
Qed.

(** Writing a whole record into a buffer in which the bits of its fields are
    clear: every field reads back, and the bits of no field stay as they
    were. *)
Lemma toBytes_effect (n : Z) (item : dict) (definitions : schema) :
  forall data : list Z,
    len data = n -> bytes_in_range data ->
    schema_separated definitions = true ->
    forallb (fun '(_, g) => field_fits n g) definitions = true ->
    (forall key g, In (key, g) definitions ->
       exists v, dict_lookup key item = Some v /\ value_fits g v) ->
    (forall key g, In (key, g) definitions ->
       forall j x, field_start g <= j < field_stop g ->
                   byte_at data j = Ok x -> Z.land x (field_mask g) = 0) ->
    exists data',
      toBytes data definitions item = Ok data'
      /\ len data' = n
      /\ bytes_in_range data'
      /\ (forall key g, In (key, g) definitions ->
            exists v, dict_lookup key item = Some v
                      /\ field_fromBytes g data' = Ok v)
      /\ forall j m x, 0 <= j ->
           (forall key g, In (key, g) definitions ->
              ~ (field_start g <= j < field_stop g)
              \/ Z.land m (field_mask g) = 0) ->
           byte_at data j = Ok x ->
           exists x', byte_at data' j = Ok x' /\ Z.land x' m = Z.land x m.
Proof.
  unfold toBytes.
  induction definitions as [|[key g] rest IH];
    intros data Hlen Hr Hsep Hfit Hval Hclear.
  - exists data. cbn [for_each].
    split; [reflexivity|]. split; [assumption|]. split; [assumption|]. split.
    + intros key g [].
    + intros j m x _ _ Hx. eauto.
  - cbn [schema_separated] in Hsep. apply andb_true_iff in Hsep.
    destruct Hsep as [Hg Hsep]. rewrite forallb_forall in Hg.
    cbn [forallb] in Hfit. apply andb_true_iff in Hfit. destruct Hfit as [Hfg Hfit].
    destruct (Hval key g (or_introl eq_refl)) as (v & Hv & Hvf).
    destruct (field_effect n data key g item v Hlen Hr Hfg Hv Hvf
                (Hclear key g (or_introl eq_refl)))
      as (d1 & Hw & Hl1 & Hr1 & Hread & Hframe).
    pose proof (field_fits_spec _ _ Hfg) as (Hgs & Hgstop & Hgm).
    assert (Hspare : forall key' h, In (key', h) rest ->
               fields_clash g h = false).
    { intros key' h Hin. specialize (Hg (key', h) Hin). cbn in Hg.
      now apply negb_true_iff in Hg. }
    destruct (IH d1) as (d2 & Hw2 & Hl2 & Hr2 & Hreads & Hframe2); try assumption.
    { intros key' h Hin. apply Hval. now right. }
    { intros key' h Hin j x Hj Hx.
      rewrite forallb_forall in Hfit. pose proof (Hfit (key', h) Hin) as Hfh.
      cbn in Hfh. apply field_fits_spec in Hfh. destruct Hfh as (Hhs & Hhstop & _).
      destruct (byte_at_ok data j) as [x0 Hx0]; [lia|].
      destruct (Hframe j (field_mask h) x0 ltac:(lia)
                  (no_clash_spared g h j (Hspare key' h Hin) Hj) Hx0)
        as (x' & Hx' & He).
      rewrite Hx in Hx'. injection Hx' as <-. rewrite He.
      apply (Hclear key' h (or_intror Hin) j x0 Hj Hx0). }
    exists d2. cbn [for_each]. rewrite Hw. cbn [bind].
    split; [exact Hw2|]. split; [exact Hl2|]. split; [exact Hr2|]. split.
    + intros key' h [Heq|Hin].
      * injection Heq as <- <-. exists v. split; [exact Hv|].
        rewrite <- Hread. apply field_read_agree; try assumption; try lia.
        intros j x Hj Hx. apply (Hframe2 j (field_mask g) x); [lia| |exact Hx].
        intros key'' h Hin.
        apply (no_clash_spared h g j); [|exact Hj].
        apply no_clash_sym. now apply (Hspare key'' h).
      * now apply Hreads.
    + intros j m x Hj Hsp Hx.
      destruct (Hframe j m x Hj (Hsp key g (or_introl eq_refl)) Hx) as (x1 & Hx1 & He1).
      destruct (Hframe2 j m x1 Hj (fun k h Hin => Hsp k h (or_intror Hin)) Hx1)
        as (x2 & Hx2 & He2).
      exists x2. split; [exact Hx2|congruence].
Qed.

(** The keys of a parsed record are the keys of its schema, in order. *)
Lemma fromBytes_keys (definitions : schema) (bytes : list Z) (item : dict) :
  NoDup (map fst definitions) ->
  fromBytes definitions bytes = Ok item ->
  map fst item = map fst definitions.
Proof.
  unfold fromBytes. intros Hnd H.
  assert (G : forall acc : dict,
             (forall k, In k (map fst definitions) -> ~ In k (map fst acc)) ->
             for_each definitions
               (fun data '(key, definition) =>
                  val <- field_fromBytes definition bytes ;;
                  Ok (dict_set key val data)) acc = Ok item ->
             map fst item = map fst acc ++ map fst definitions).
  { clear H. induction definitions as [|[k d] rest IH]; intros acc Hfresh H;
      cbn [for_each] in H.
    - injection H as <-. cbn. now rewrite app_nil_r.
    - destruct (field_fromBytes d bytes) as [val|]; [|discriminate H].
      cbn [bind] in H. inversion Hnd as [|? ? Hk Hnd']; subst.
      assert (Hset : map fst (dict_set k val acc) = map fst acc ++ [k]).
      { assert (Hnot : ~ In k (map fst acc)) by (apply Hfresh; now left).
        clear -Hnot. induction acc as [|[k' v'] acc IHa]; cbn; [reflexivity|].
        destruct (String.eqb_spec k k') as [->|Hne].
        - exfalso. apply Hnot. now left.
        - cbn. f_equal. apply IHa. intros Hin. apply Hnot. now right. }
      rewrite (IH Hnd' (dict_set k val acc)).
      + rewrite Hset, <- app_assoc. reflexivity.
      + intros k' Hin. rewrite Hset, in_app_iff. intros [Ha|[->|[]]].
        * apply (Hfresh k'); [now right|assumption].
        * contradiction.
      + exact H. }
  apply (G []); [intros k _ []|exact H].
Qed.

(** A record of a schema whose fields share no bit, holding values its
    fields can hold, encodes into a zeroed buffer and decodes to the same
    value for every field. *)
Lemma record_codec (definitions : schema) (item : dict) (n : Z) :
  0 <= n ->
  NoDup (map fst definitions) ->
  schema_separated definitions = true ->
  forallb (fun '(_, g) => field_fits n g) definitions = true ->
  (forall key g, In (key, g) definitions ->
     exists v, dict_lookup key item = Some v /\ value_fits g v) ->
  exists record decoded,
    toBytes (bytearray n) definitions item = Ok record
    /\ len record = n
    /\ fromBytes definitions record = Ok decoded
    /\ map fst decoded = map fst definitions
    /\ forall key, In key (map fst definitions) ->
         dict_lookup key decoded = dict_lookup key item.
Proof.
  intros Hn Hnd Hsep Hfit Hval.
  destruct (toBytes_effect n item definitions (bytearray n))
    as (record & Hw & Hl & Hr & Hreads & _); try assumption.
  - now apply len_bytearray.
  - intros j x _ Hx. apply byte_at_bytearray in Hx. lia.
  - intros key g _ j x _ Hx. apply byte_at_bytearray in Hx. now subst x.
  - destruct (fromBytes_ok definitions record) as [decoded Hd].
    { intros key g Hin. destruct (Hreads key g Hin) as (v & _ & Hv). eauto. }
    exists record, decoded. split; [exact Hw|]. split; [exact Hl|].
    split; [exact Hd|]. split; [now apply (fromBytes_keys definitions record)|].
    intros key Hin. apply in_map_iff in Hin. destruct Hin as ([k g] & Hk & Hin).
    cbn in Hk. subst k.
    destruct (Hreads key g Hin) as (v & Hv & Hread).
    destruct (fromBytes_lookup definitions record decoded key g Hnd Hin Hd)
      as (v' & Hread' & Hl').
    congruence.
Qed.


Lemma dict_same (a b : dict) :
  NoDup (map fst a) -> map fst a = map fst b ->
  (forall k, In k (map fst a) -> dict_lookup k a = dict_lookup k b) ->
  a = b.
Proof.
  revert b. induction a as [|[k v] a IH]; intros [|[k2 v2] b] Hnd Hk Hl;
    try discriminate Hk; [reflexivity|].
  cbn [map fst] in Hk. injection Hk as Hk1 Hk. subst k2.
  inversion Hnd as [|? ? Hnot Hnd']; subst.
  pose proof (Hl k (or_introl eq_refl)) as Hv. cbn in Hv.
  rewrite String.eqb_refl in Hv. injection Hv as Hv. subst v2.
  f_equal. apply IH; try assumption.
  intros x Hin. specialize (Hl x (or_intror Hin)). cbn in Hl.
  destruct (String.eqb_spec x k) as [Heq|Hne]; [subst x; contradiction|exact Hl].
Qed.

(** The record comes back whole when its keys are the schema's, in order. *)
Lemma record_codec_exact (definitions : schema) (item : dict) (n : Z) :
  0 <= n ->
  NoDup (map fst definitions) ->
  schema_separated definitions = true ->
  forallb (fun '(_, g) => field_fits n g) definitions = true ->
  map fst item = map fst definitions ->
  (forall key g, In (key, g) definitions ->
     exists v, dict_lookup key item = Some v /\ value_fits g v) ->
  exists record,
    toBytes (bytearray n) definitions item = Ok record
    /\ len record = n
    /\ fromBytes definitions record = Ok item.
Proof.
  intros Hn Hnd Hsep Hfit Hkeys Hval.
  destruct (record_codec definitions item n Hn Hnd Hsep Hfit Hval)
    as (record & decoded & Hw & Hl & Hd & Hk & Hv).
  exists record. split; [exact Hw|]. split; [exact Hl|].
  rewrite Hd. f_equal. apply dict_same.
  - now rewrite Hk.
  - congruence.
  - intros k Hin. apply Hv. now rewrite <- Hk.
Qed.

Lemma contact_parameters_keys : NoDup (map fst contact_parameters).
Proof. cbn. nodup_keys. Qed.

(** A contact of the address book: an ID of two bytes, a name of at most
    ten ASCII characters, a DMR ID of three bytes and one of the seven call
    types.  Its 16-byte record decodes to the contact itself. *)
Theorem contact_round_trip (id dmr_id : Z) (name call_type : string) :
  0 <= id < 65536 ->
  0 <= dmr_id < 16777216 ->
  succeeds (encode_ascii name) = true ->
  rstrip_nul name = name ->
  (String.length name <= 10)%nat ->
  In call_type ["Group"; "Private"; "All Call"; "No-Address Call"; "RawData";
                "Define Data"; "SPDATA"] ->
  exists record,
    toBytes (bytearray contact_record_size) contact_parameters
      [("ID", VInt id); ("Name", VStr name); ("DMR ID", VInt dmr_id);
       ("Type", VStr call_type)] = Ok record
    /\ len record = contact_record_size
    /\ fromBytes contact_parameters record
       = Ok [("ID", VInt id); ("Name", VStr name); ("DMR ID", VInt dmr_id);
             ("Type", VStr call_type)].
Proof.
  intros Hid Hdmr Hascii Hstrip Hlen Htype.
  apply record_codec_exact;
    [unfold contact_record_size; lia | exact contact_parameters_keys
    | reflexivity | reflexivity | reflexivity |].
  intros key g Hin. cbn in Hin.
  destruct Hin as [Hin|[Hin|[Hin|[Hin|[]]]]]; injection Hin as <- <-;
    eexists; (split; [reflexivity|]); cbn [value_fits].
  - cbn. lia.
  - repeat split; [assumption|assumption|lia].
  - cbn. lia.
  - split; [cbn; nodup_keys|]. split; [cbn; nodup_keys|].
    cbn in Htype.
    destruct Htype as [<-|[<-|[<-|[<-|[<-|[<-|[<-|[]]]]]]]];
      [exists 0x04|exists 0x05|exists 0x06|exists 0x07|exists 0x08|exists 0x09|exists 0x0A];
      (split; [cbn; tauto|split; [lia|reflexivity]]).
Qed.

Lemma contact_round_trip_witness :
  exists record,
    toBytes (bytearray contact_record_size) contact_parameters
      [("ID", VInt 1); ("Name", VStr "Local"); ("DMR ID", VInt 9);
       ("Type", VStr "Group")] = Ok record
    /\ len record = contact_record_size
    /\ fromBytes contact_parameters record
       = Ok [("ID", VInt 1); ("Name", VStr "Local"); ("DMR ID", VInt 9);
             ("Type", VStr "Group")].
Proof.
  apply (contact_round_trip 1 9 "Local" "Group").
  - lia.
  - lia.
  - reflexivity.
  - reflexivity.
  - cbn. lia.
  - cbn. tauto.
Defined.

(** *** The contact block *)

Lemma compile_contacts_effect (contacts : list value) :
  forall (start : Z) (template : list Z),
    Forall (record_fits contact_parameters) contacts ->
    0 <= start ->
    contact_start_address + 16 * (start + len contacts) <= len template ->
    exists template',
      for_each (enumerate_from start contacts)
        (fun template '(count, contact) =>
           contact <- as_dict contact ;;
           contact_record <- toBytes (bytearray contact_record_size)
                               contact_parameters contact ;;
           Ok (slice_assign template
                 (contact_start_address + contact_record_size * count)
                 (contact_start_address + contact_record_size * (count + 1))
                 contact_record))
        template = Ok template'
      /\ len template' = len template
      /\ (forall j, 0 <= j ->
            j < contact_start_address + 16 * start
            \/ contact_start_address + 16 * (start + len contacts) <= j ->
            byte_at template' j = byte_at template j)
      /\ forall (i : nat) (item : dict),
           nth_error contacts i = Some (VDict item) ->
           fromBytes contact_parameters
             (slice template'
                (contact_start_address + (start + Z.of_nat i) * contact_record_size)
                (contact_start_address + (start + Z.of_nat i + 1) * contact_record_size))
           = Ok item.
Proof.
  unfold contact_record_size, contact_start_address.
  induction contacts as [|c contacts IH]; intros start template Hfit Hs Hlen.
  - exists template. cbn [enumerate_from for_each].
    split; [reflexivity|]. split; [reflexivity|]. split; [reflexivity|].
    intros [|i] item H; discriminate H.
  - inversion Hfit as [|? ? Hc Hrest]; subst.
    assert (Hl : len (c :: contacts) = 1 + len contacts)
      by (unfold len; cbn [List.length]; lia).
    assert (Hpos : 0 <= len contacts) by (unfold len; lia).
    rewrite Hl in *.
    destruct Hc as (item & -> & Hkeys & Hvals).
    destruct (record_codec_exact contact_parameters item 16)
      as (record & Hw & Hrl & Hread);
      [lia|exact contact_parameters_keys|reflexivity|reflexivity|assumption|assumption|].
    cbn [enumerate_from for_each as_dict bind]. rewrite Hw. cbn [bind].
    set (a := 0x1B400 + 16 * start) in *.
    set (t1 := slice_assign template a (0x1B400 + 16 * (start + 1)) record).
    assert (Hl1 : len t1 = len template)
      by (apply len_slice_assign; subst a; lia).
    destruct (IH (start + 1) t1) as (t2 & Hf & Hl2 & Hfr & Hrec);
      [assumption|lia|rewrite Hl1; lia|].
    exists t2. split; [exact Hf|]. split; [congruence|]. split.
    + intros j Hj Hout. rewrite Hfr by lia.
      unfold t1. rewrite byte_at_slice_assign by (subst a; lia).
      replace ((a <=? j) && (j <? 0x1B400 + 16 * (start + 1))) with false;
        [reflexivity|].
      symmetry. apply andb_false_iff. subst a.
      destruct Hout; [left; apply Z.leb_gt|right; apply Z.ltb_ge]; lia.
    + intros [|i] it Hnth; cbn [nth_error] in Hnth.
      * injection Hnth as <-.
        replace (0x1B400 + (start + Z.of_nat 0) * 16) with a by (subst a; lia).
        replace (0x1B400 + (start + Z.of_nat 0 + 1) * 16) with (a + 16) by (subst a; lia).
        replace (slice t2 a (a + 16)) with record; [exact Hread|].
        transitivity (slice t1 a (a + 16)).
        -- unfold t1. replace (0x1B400 + 16 * (start + 1)) with (a + 16) by (subst a; lia).
           symmetry. apply slice_of_slice_assign; subst a; lia.
        -- symmetry. apply slice_ext; [subst a; lia|].
           intros j Hj. apply Hfr; subst a; lia.
      * specialize (Hrec i it Hnth).
        replace (start + Z.of_nat (S i)) with (start + 1 + Z.of_nat i) by lia.
        exact Hrec.
Qed.

Lemma decompile_contacts_reads (data : list Z) (contacts : list value) :
  (forall (i : nat) (c : value),
      nth_error contacts i = Some c ->
      exists item,
        c = VDict item
        /\ fromBytes contact_parameters
             (slice data (contact_start_address + Z.of_nat i * contact_record_size)
                         (contact_start_address + (Z.of_nat i + 1) * contact_record_size))
           = Ok item) ->
  decompile_contacts data (len contacts) = Ok contacts.
Proof.
  intros H. unfold decompile_contacts, range, len. rewrite Nat2Z.id.
  assert (G : forall k s acc,
             (s + k <= List.length contacts)%nat ->
             for_each (map Z.of_nat (seq s k))
               (fun contacts0 i =>
                  parsed_contact <-
                    fromBytes contact_parameters
                      (slice data (contact_start_address + i * contact_record_size)
                         (contact_start_address + (i + 1) * contact_record_size)) ;;
                  Ok (contacts0 ++ [VDict parsed_contact])) acc
             = Ok (acc ++ firstn k (skipn s contacts))).
  { induction k as [|k IH]; intros s acc Hk; cbn [seq map for_each firstn].
    - now rewrite app_nil_r.
    - destruct (nth_error contacts s) as [c|] eqn:En;
        [|apply nth_error_None in En; lia].
      destruct (H s c En) as (item & -> & Hread). rewrite Hread. cbn [bind].
      rewrite IH by lia.
      assert (Hsk : skipn s contacts = VDict item :: skipn (S s) contacts).
      { clear -En. revert s En. induction contacts as [|x l IHl]; intros [|s] En;
          cbn in *; try discriminate.
        - now injection En as ->.
        - now apply IHl. }
      rewrite Hsk. cbn [firstn]. now rewrite <- app_assoc. }
  rewrite (G (List.length contacts) 0%nat []) by lia.
  cbn [skipn app]. now rewrite firstn_all.
Qed.

(** A list of contacts, each a record its schema can hold, written into a
    template long enough for them, reads back as the same list; the bytes
    outside the contact block are not touched. *)
Theorem contacts_block_round_trip
    (template : list Z) (codeplug : dict) (contacts : list value) :
  dict_lookup "Contacts" codeplug = Some (VList contacts) ->
  Forall (record_fits contact_parameters) contacts ->
  contact_start_address + contact_record_size * len contacts <= len template ->
  exists template',
    compile_contacts template codeplug = Ok template'
    /\ len template' = len template
    /\ decompile_contacts template' (len contacts) = Ok contacts
    /\ forall j, 0 <= j ->
         j < contact_start_address
         \/ contact_start_address + contact_record_size * len contacts <= j ->
         byte_at template' j = byte_at template j.
Proof.
  intros Hc Hfit Hlen. unfold compile_contacts, dict_get. rewrite Hc.
  cbn [bind as_list].
  destruct (compile_contacts_effect contacts 0 template Hfit) as (t & Hw & Hl & Hfr & Hrec);
    [lia|unfold contact_record_size in Hlen; lia|].
  exists t. split; [exact Hw|]. split; [exact Hl|]. split.
  - apply decompile_contacts_reads. intros i c Hnth.
    rewrite Forall_forall in Hfit.
    destruct (Hfit c (nth_error_In _ _ Hnth)) as (item & -> & _).
    exists item. split; [reflexivity|].
    apply (Hrec i item Hnth).
  - intros j Hj Hout. apply Hfr; [assumption|].
    unfold contact_record_size in Hout. lia.
Qed.

Lemma contacts_block_round_trip_witness :
  exists template',
    compile_contacts (bytearray 0x1C000) [("Contacts", VList [VDict example_contact])]
    = Ok template'
    /\ len template' = len (bytearray 0x1C000)
    /\ decompile_contacts template' 1 = Ok [VDict example_contact].
Proof.
  destruct (contacts_block_round_trip (bytearray 0x1C000)
              [("Contacts", VList [VDict example_contact])] [VDict example_contact])
    as (template' & Hc & Hl & Hd & _).
  - reflexivity.
  - constructor; [|constructor]. exists example_contact.
    split; [reflexivity|]. split; [reflexivity|].
    intros key g Hin. cbn in Hin.
    destruct Hin as [Hin|[Hin|[Hin|[Hin|[]]]]]; injection Hin as <- <-; eexists;
      (split; [reflexivity|]); cbn [value_fits].
    + lia.
    + cbn. repeat split; lia.
    + lia.
    + split; [cbn; nodup_keys|]. split; [cbn; nodup_keys|].
      exists 0x04. split; [cbn; tauto|]. split; [lia|reflexivity].
  - vm_compute. discriminate.
  - exists template'. split; [exact Hc|]. split; [exact Hl|exact Hd].
Defined.


(** *** How decoding and encoding a record can fail *)

Lemma field_fromBytes_failures (g : definition) (bytes : list Z) (e : pyexc) :
  field_fromBytes g bytes = Raise e -> e = IndexError \/ e = UnicodeDecodeError.
Proof.
  assert (Hd : forall l, decode_ascii l = Raise e -> e = UnicodeDecodeError).
  { induction l as [|b l IH]; cbn [decode_ascii]; [discriminate|].
    destruct (b <? 128); [|now intros [= <-]].
    destruct (decode_ascii l); cbn [bind]; [discriminate|auto]. }
  destruct g as [offset mask enum|offset length|offset length|offset mask
                |offset mask decode encode]; cbn [field_fromBytes]; intros H.
  - left. unfold byte_at in H.
    destruct (nth_error bytes (Z.to_nat offset)); cbn [bind] in H.
    + destruct (enum_lookup _ _); discriminate H.
    + now injection H as <-.
  - right. destruct (decode_ascii _) eqn:E; cbn [bind] in H; [discriminate|].
    injection H as <-. now apply (Hd _ E).
  - discriminate H.
  - left. unfold byte_at in H.
    destruct (nth_error bytes (Z.to_nat offset)); cbn [bind] in H;
      [discriminate H|now injection H as <-].
  - left. unfold byte_at in H.
    destruct (nth_error bytes (Z.to_nat offset)); cbn [bind] in H;
      [discriminate H|now injection H as <-].
Qed.

(** Decoding a record fails in two ways only: a byte of a [Bitmask] or
    [MaskNum] field lies beyond the bytes given ([IndexError]), or a [String]
    field holds a byte above 127 ([UnicodeDecodeError]).  A [Bitmask] byte
    that matches no entry of its table is no failure: the field decodes to
    the empty string. *)
Theorem fromBytes_failures (definitions : schema) (bytes : list Z) :
  (forall e, fromBytes definitions bytes = Raise e ->
             e = IndexError \/ e = UnicodeDecodeError)
  /\ (forall key offset mask enum b item,
        NoDup (map fst definitions) ->
        In (key, Bitmask offset mask enum) definitions ->
        fromBytes definitions bytes = Ok item ->
        byte_at bytes offset = Ok b ->
        enum_lookup (Z.land b mask) enum = None ->
        dict_lookup key item = Some (VStr "")).
Proof.
  split.
  - unfold fromBytes. generalize (@nil (string * value)).
    induction definitions as [|[k g] rest IH]; intros acc e H; cbn [for_each] in H;
      [discriminate H|].
    destruct (field_fromBytes g bytes) as [val|e'] eqn:Ef; cbn [bind] in H.
    + now apply (IH (dict_set k val acc) e).
    + injection H as <-. now apply (field_fromBytes_failures g bytes).
  - intros key offset mask enum b item Hnd Hin Hok Hb Hmiss.
    destruct (fromBytes_lookup definitions bytes item key _ Hnd Hin Hok)
      as (val & Hf & Hl).
    cbn [field_fromBytes] in Hf. rewrite Hb in Hf. cbn [bind] in Hf.
    rewrite Hmiss in Hf. now injection Hf as <-.
Qed.

Lemma fromBytes_failures_witness :
  exists item,
    fromBytes contact_parameters (bytearray contact_record_size) = Ok item
    /\ dict_lookup "Type" item = Some (VStr "").
Proof.
  destruct (fromBytes contact_parameters (bytearray contact_record_size))
    as [item|] eqn:E; [|vm_compute in E; discriminate E].
  exists item. split; [reflexivity|].
  apply (proj2 (fromBytes_failures contact_parameters (bytearray contact_record_size))
           "Type" 0x02 0xFF
           [(0x04, "Group"); (0x05, "Private"); (0x06, "All Call");
            (0x07, "No-Address Call"); (0x08, "RawData"); (0x09, "Define Data");
            (0x0A, "SPDATA")] 0 item).
  - exact contact_parameters_keys.
  - cbn. tauto.
  - exact E.
  - reflexivity.
  - reflexivity.
Defined.

Lemma byte_store_len (data data' : list Z) (i v : Z) :
  byte_store data i v = Ok data' -> len data' = len data.
Proof.
  unfold byte_store, len. intros H.
  destruct ((0 <=? v) && (v <? 256)).
  - destruct (set_nth (Z.to_nat i) v data) as [d|] eqn:E; [|discriminate H].
    injection H as <-. destruct (set_nth_nth _ _ _ _ E) as [Hl _]. now rewrite Hl.
  - destruct (nth_error data (Z.to_nat i)); discriminate H.
Qed.

Lemma to_bytes_len (n width : Z) (bs : list Z) :
  0 <= width -> to_bytes n width = Ok bs -> len bs = width.
Proof.
  unfold to_bytes, len. intros Hw H.
  destruct ((0 <=? n) && (n <? 256 ^ width)); [|discriminate H].
  injection H as <-. rewrite le_bytes_length. lia.
Qed.

Lemma field_toBytes_len (data data' : list Z) (key : string) (g : definition)
    (item : dict) :
  field_toBytes data key g item = Ok data' ->
  (forall offset length, g = Number offset length ->
     0 <= offset /\ 0 <= length /\ offset + length <= len data) ->
  len data' = len data.
Proof.
  intros H Hnum.
  destruct g as [offset mask enum|offset length|offset length|offset mask
                |offset mask decode encode]; cbn [field_toBytes] in H.
  - clear Hnum. revert data H.
    induction enum as [|[k v] enum IH]; intros data H; cbn [for_each] in H.
    + now injection H as <-.
    + inv_bind H. inv_bind E.
      destruct (is_str v x0).
      * unfold byte_or in E. inv_bind E. apply byte_store_len in E.
        rewrite (IH _ H). exact E.
      * injection E as <-. now apply IH.
  - clear Hnum. inv_bind H. inv_bind H.
    revert data H. generalize 0.
    repeat match goal with E : _ = Ok _ |- _ => clear E end.
    induction x0 as [|c l IH]; intros start data H; cbn [enumerate_from for_each] in H.
    + now injection H as <-.
    + inv_bind H.
      match goal with E : byte_store _ _ _ = Ok _ |- _ =>
        apply byte_store_len in E; rewrite (IH _ _ H); exact E end.
  - destruct (Hnum offset length eq_refl) as (Ho & Hl & Hfit).
    inv_bind H. inv_bind H. injection H as <-.
    apply len_slice_assign; try lia.
    destruct x as [| n | | |]; cbn [int_to_bytes] in E0; try discriminate E0.
    rewrite (to_bytes_len _ _ _ Hl E0). lia.
  - do 3 inv_bind H. now apply byte_store_len in H.
  - do 3 inv_bind H. now apply byte_store_len in H.
Qed.

Lemma toBytes_len (definitions : schema) :
  forall (data data' : list Z) (item : dict),
    toBytes data definitions item = Ok data' ->
    (forall key offset length, In (key, Number offset length) definitions ->
       0 <= offset /\ 0 <= length /\ offset + length <= len data) ->
    len data' = len data.
Proof.
  unfold toBytes.
  induction definitions as [|[k g] rest IH]; intros data data' item H Hnum;
    cbn [for_each] in H.
  - now injection H as <-.
  - inv_bind H.
    assert (Hl : len x = len data).
    { apply (field_toBytes_len _ _ _ _ _ E).
      intros offset length ->. apply (Hnum k). now left. }
    rewrite (IH _ _ _ H); [exact Hl|].
    intros key offset length Hin. rewrite Hl. apply (Hnum key). now right.
Qed.

(** *** The size of the records the encoder builds *)

Lemma len_slice_assign_gen (data : list Z) (a b : Z) (src : list Z) :
  0 <= a <= len data ->
  len (slice_assign data a b src) = a + len src + Z.max 0 (len data - Z.max a b).
Proof.
  unfold slice_assign, len. intros H.
  rewrite !length_app, length_firstn, length_skipn. lia.
Qed.

Lemma int_to_bytes_len (v : value) (width : Z) (bs : list Z) :
  0 <= width -> int_to_bytes v width = Ok bs -> len bs = width.
Proof.
  intros Hw H. destruct v; try discriminate H. now apply (to_bytes_len _ _ _ Hw H).
Qed.

Lemma len_cons {A} (x : A) (l : list A) : len (x :: l) = 1 + len l.
Proof. unfold len. cbn [List.length]. lia. Qed.

Ltac len_nonneg :=
  repeat match goal with
         | |- context [len ?l] =>
             lazymatch goal with
             | _ : 0 <= len l |- _ => fail
             | _ => assert (0 <= len l) by (unfold len; lia)
             end
         end.

Ltac ok_inj E :=
  match type of E with
  | Ok ?t = Ok ?x =>
      let Hx := fresh "Hx" in
      assert (Hx : t = x) by congruence; clear E; subst x
  end.

Lemma compile_scan_list_pairs (selected : list value) :
  forall (i : Z) (record record' : list Z),
    0 <= i -> 16 + 4 * i <= len record ->
    for_each (enumerate_from i selected)
      (fun scan_list_record '(i, entry) =>
         pair <- as_dict entry ;;
         group <- dict_get "Group" pair ;;
         group <- int_to_bytes group 2 ;;
         let scan_list_record :=
           slice_assign scan_list_record (16 + i * 4) (16 + i * 4 + 2) group in
         channel <- dict_get "Channel" pair ;;
         channel <- int_to_bytes channel 2 ;;
         Ok (slice_assign scan_list_record (16 + i * 4 + 2) (16 + i * 4 + 4) channel))
      record = Ok record' ->
    len record' = Z.max (len record) (16 + 4 * (i + len selected)).
Proof.
  induction selected as [|entry selected IH]; intros i record record' Hi Hlen H;
    cbn [enumerate_from for_each] in H.
  - injection H as <-. change (len (@nil value)) with 0. lia.
  - inv_bind H. cbv beta zeta in E. repeat (inv_bind E; cbv beta zeta in E).
    ok_inj E.
    match goal with
    | Hg : int_to_bytes _ 2 = Ok ?g, Hc : int_to_bytes _ 2 = Ok ?c |- _ =>
        apply int_to_bytes_len in Hg; [|lia];
        apply int_to_bytes_len in Hc; [|lia];
        assert (H1 : len (slice_assign record (16 + i * 4) (16 + i * 4 + 2) g)
                     = Z.max (len record) (16 + 4 * i + 2))
          by (rewrite len_slice_assign_gen by lia; lia);
        assert (H2 : len (slice_assign
                            (slice_assign record (16 + i * 4) (16 + i * 4 + 2) g)
                            (16 + i * 4 + 2) (16 + i * 4 + 4) c)
                     = Z.max (len record) (16 + 4 * i + 4))
          by (rewrite len_slice_assign_gen by lia; lia)
    end.
    apply IH in H; [|lia|rewrite H2; lia]. rewrite H, H2.
    rewrite len_cons.
    len_nonneg. lia.
Qed.

Lemma compile_rx_group_ids (contacts : list value) :
  forall (i : Z) (record record' : list Z),
    0 <= i -> 10 + 2 * i <= len record ->
    for_each (enumerate_from i contacts)
      (fun group_record '(i, id) =>
         id <- int_to_bytes id 2 ;;
         Ok (slice_assign group_record (10 + i * 2) (10 + (i + 1) * 2) id))
      record = Ok record' ->
    len record' = Z.max (len record) (10 + 2 * (i + len contacts)).
Proof.
  induction contacts as [|id contacts IH]; intros i record record' Hi Hlen H;
    cbn [enumerate_from for_each] in H.
  - injection H as <-. change (len (@nil value)) with 0. lia.
  - inv_bind H. cbv beta zeta in E. inv_bind E. ok_inj E.
    match goal with
    | Hg : int_to_bytes _ 2 = Ok ?g |- _ =>
        apply int_to_bytes_len in Hg; [|lia];
        assert (H1 : len (slice_assign record (10 + i * 2) (10 + (i + 1) * 2) g)
                     = Z.max (len record) (10 + 2 * i + 2))
          by (rewrite len_slice_assign_gen by lia; lia)
    end.
    apply IH in H; [|lia|rewrite H1; lia]. rewrite H, H1.
    rewrite len_cons.
    len_nonneg. lia.
Qed.

Ltac number_fields Hin :=
  cbn in Hin;
  repeat (destruct Hin as [Hin|Hin]; [try discriminate Hin|]);
  try contradiction;
  try (injection Hin as _ <- <-; rewrite len_bytearray by (vm_compute; discriminate);
       vm_compute; repeat split; discriminate).

(** Every record the encoder builds has the size the layout gives it,
    whatever the document holds, with two exceptions: a scan list with more
    than 50 selected channels and an RX group with more than 100 contacts
    give a record that is longer, by four and by two bytes for each entry
    above the limit. *)
Theorem record_sizes :
  (forall contact record,
      toBytes (bytearray contact_record_size) contact_parameters contact = Ok record ->
      len record = contact_record_size)
  /\ (forall channel record,
        compile_channel channel = Ok record -> len record = channel_record_size)
  /\ (forall zones count i record,
        compile_zone zones count i = Ok record -> len record = zone_record_size)
  /\ (forall scan_list selected record,
        dict_lookup "Selected channels" scan_list = Some (VList selected) ->
        compile_scan_list scan_list = Ok record ->
        len record = Z.max scan_list_record_size (16 + 4 * len selected))
  /\ (forall group contacts record,
        dict_lookup "Contacts" group = Some (VList contacts) ->
        compile_rx_group group = Ok record ->
        len record = Z.max rx_group_record_size (10 + 2 * len contacts)).
Proof.
  split; [|split; [|split; [|split]]].
  - intros contact record H.
    rewrite (toBytes_len _ _ _ _ H); [now apply len_bytearray|].
    intros key offset length Hin. number_fields Hin.
  - intros channel record H. unfold compile_channel in H. do 4 inv_bind H.
    rewrite (toBytes_len _ _ _ _ H);
      [|intros key offset length Hin; number_fields Hin].
    match goal with E : toBytes (bytearray _) channel_info _ = Ok _ |- _ =>
      rewrite (toBytes_len _ _ _ _ E);
        [now apply len_bytearray|intros key offset length Hin; number_fields Hin] end.
  - intros zones count i record H. unfold compile_zone in H.
    repeat (inv_bind H; cbv beta zeta in H). ok_inj H.
    match goal with
    | E : toBytes (bytearray _) zone_info _ = Ok ?r,
      E1 : to_bytes _ 2 = Ok ?o, E2 : to_bytes _ 2 = Ok ?c |- _ =>
        assert (Hr : len r = 32)
          by (rewrite (toBytes_len _ _ _ _ E);
              [now apply len_bytearray|intros key offset length Hin; number_fields Hin]);
        apply to_bytes_len in E1; [|lia]; apply to_bytes_len in E2; [|lia];
        assert (Ho : len (slice_assign r 0x0D (0x0D + 2) o) = 32)
          by (rewrite len_slice_assign; lia)
    end.
    rewrite len_slice_assign; unfold zone_record_size; lia.
  - intros scan_list selected record Hsel H. unfold compile_scan_list in H.
    do 3 inv_bind H.
    match goal with E : dict_get "Selected channels" _ = Ok _ |- _ =>
      apply dict_get_lookup in E; rewrite Hsel in E; injection E as <- end.
    match goal with E : as_list _ = Ok _ |- _ => injection E as <- end.
    match goal with E : toBytes (bytearray _) scan_list_info _ = Ok ?r |- _ =>
      assert (Hr : len r = 216)
        by (rewrite (toBytes_len _ _ _ _ E);
            [now apply len_bytearray|intros key offset length Hin; number_fields Hin])
    end.
    apply compile_scan_list_pairs in H; [|lia|lia]. rewrite H, Hr.
    unfold scan_list_record_size. lia.
  - intros group contacts record Hc H. unfold compile_rx_group in H.
    do 3 inv_bind H.
    match goal with E : dict_get "Contacts" _ = Ok _ |- _ =>
      apply dict_get_lookup in E; rewrite Hc in E; injection E as <- end.
    match goal with E : as_list _ = Ok _ |- _ => injection E as <- end.
    match goal with E : toBytes (bytearray _) rx_group_info _ = Ok ?r |- _ =>
      assert (Hr : len r = 210)
        by (rewrite (toBytes_len _ _ _ _ E);
            [now apply len_bytearray|intros key offset length Hin; number_fields Hin])
    end.
    apply compile_rx_group_ids in H; [|lia|lia]. rewrite H, Hr.
    unfold rx_group_record_size. lia.
Qed.

Lemma record_sizes_witness :
  exists record,
    compile_scan_list scan_list_51 = Ok record /\ len record = 220.
Proof.
  destruct (compile_scan_list scan_list_51) as [record|] eqn:E;
    [|vm_compute in E; discriminate E].
  exists record. split; [reflexivity|].
  exact (proj1 (proj2 (proj2 (proj2 record_sizes))) scan_list_51 _ record
           eq_refl E).
Defined.

(** *** Records: what comes back, what is ignored, what overruns *)

(** A record of a schema whose fields share no bit, holding values its
    fields can hold, written into a blank buffer of the record's size, reads
    back field by field as it was written; when its keys are the schema's,
    in order, the decoded record is the record itself. *)
Theorem record_round_trip (definitions : schema) (item : dict) (n : Z) :
  0 <= n ->
  NoDup (map fst definitions) ->
  schema_separated definitions = true ->
  forallb (fun '(_, g) => field_fits n g) definitions = true ->
  (forall key g, In (key, g) definitions ->
     exists v, dict_lookup key item = Some v /\ value_fits g v) ->
  exists record decoded,
    toBytes (bytearray n) definitions item = Ok record
    /\ len record = n
    /\ fromBytes definitions record = Ok decoded
    /\ map fst decoded = map fst definitions
    /\ (forall key, In key (map fst definitions) ->
          dict_lookup key decoded = dict_lookup key item)
    /\ (map fst item = map fst definitions -> decoded = item).
Proof.
  intros Hn Hnd Hsep Hfit Hval.
  destruct (record_codec definitions item n Hn Hnd Hsep Hfit Hval)
    as (record & decoded & Hw & Hl & Hd & Hk & Hv).
  exists record, decoded. repeat (split; [assumption|]).
  intros Hkeys.
  destruct (record_codec_exact definitions item n Hn Hnd Hsep Hfit Hkeys Hval)
    as (record' & Hw' & _ & Hd').
  rewrite Hw in Hw'. injection Hw' as <-. rewrite Hd in Hd'. now injection Hd'.
Qed.

Lemma record_round_trip_witness :
  exists record decoded,
    toBytes (bytearray 32) zone_info [("ID", VInt 7); ("Name", VStr "Home")] = Ok record
    /\ len record = 32
    /\ fromBytes zone_info record = Ok decoded
    /\ decoded = [("ID", VInt 7); ("Name", VStr "Home")].
Proof.
  destruct (record_round_trip zone_info [("ID", VInt 7); ("Name", VStr "Home")] 32)
    as (record & decoded & Hw & Hl & Hd & _ & _ & He).
  - lia.
  - cbn. nodup_keys.
  - reflexivity.
  - reflexivity.
  - intros key g Hin. cbn in Hin.
    destruct Hin as [Hin|[Hin|[]]]; injection Hin as <- <-; eexists;
      (split; [reflexivity|]); cbn; repeat split; lia.
  - exists record, decoded. split; [exact Hw|]. split; [exact Hl|].
    split; [exact Hd|]. now apply He.
Defined.

(** A record whose fields are all [Bitmask] fields, each given a value that
    is no label of its table (a misspelt label, or a value of another type),
    is encoded without error and without writing anything. *)
Theorem unknown_labels_ignored (definitions : schema) (item : dict) :
  (forall key g, In (key, g) definitions ->
     exists offset mask enum x,
       g = Bitmask offset mask enum
       /\ dict_lookup key item = Some x
       /\ forall k v, In (k, v) enum -> is_str v x = false) ->
  forall data, toBytes data definitions item = Ok data.
Proof.
  unfold toBytes. induction definitions as [|[key g] rest IH]; intros H data;
    cbn [for_each]; [reflexivity|].
  destruct (H key g) as (offset & mask & enum & x & -> & Hx & Hno); [now left|].
  rewrite (bitmask_no_label data key offset mask enum item x Hx Hno). cbn [bind].
  apply IH. intros k g Hin. apply H. now right.
Qed.

Lemma unknown_labels_ignored_witness :
  toBytes (bytearray 0x2000) indicator_parameters
    [("All", VStr "ON"); ("Tx", VStr "ON"); ("Rx", VStr "ON");
     ("Scanning", VInt 1); ("Low battery", VStr "on")]
  = Ok (bytearray 0x2000).
Proof.
  apply unknown_labels_ignored. intros key g Hin. cbn in Hin.
  repeat (destruct Hin as [Hin|Hin];
          [injection Hin as <- <-; do 4 eexists;
           split; [reflexivity|]; split; [reflexivity|];
           intros k v Hk; cbn in Hk;
           repeat (destruct Hk as [Hk|Hk]; [injection Hk as <- <-; reflexivity|]);
           contradiction|]).
  contradiction.
Defined.

Lemma byte_at_same_nth (a b : list Z) (i j : Z) :
  byte_at a i = byte_at b j ->
  nth_error a (Z.to_nat i) = nth_error b (Z.to_nat j).
Proof.
  unfold byte_at.
  destruct (nth_error a (Z.to_nat i)), (nth_error b (Z.to_nat j)); congruence.
Qed.

Lemma decode_ascii_prefix (s : string) :
  forall (encoded : list Z) (k : nat),
    encode_ascii s = Ok encoded ->
    decode_ascii (firstn k encoded) = Ok (str_prefix k s).
Proof.
  induction s as [|c s IH]; intros encoded k H; cbn [encode_ascii] in H.
  - injection H as <-. now destruct k.
  - destruct (ord c <? 128) eqn:Ec; [|discriminate H]. inv_bind H.
    injection H as <-. destruct k as [|k]; [reflexivity|].
    cbn [firstn decode_ascii str_prefix]. rewrite Ec, (IH _ k eq_refl). cbn [bind].
    now rewrite chr_ord.
Qed.

(** A [String] field is written whole, whatever the length its schema
    gives it: every byte of the text lands in the buffer, those past the
    field over the bytes that follow it, and nothing else changes.  Read
    back, a text at least as long as the field comes back cut to the
    field's length. *)
Theorem string_written_whole (data : list Z) (key : string) (offset length : Z)
    (item : dict) (s : string) (encoded : list Z) :
  0 <= offset -> 0 <= length ->
  dict_lookup key item = Some (VStr s) ->
  encode_ascii s = Ok encoded ->
  offset + len encoded <= len data ->
  exists data',
    field_toBytes data key (Str offset length) item = Ok data'
    /\ len data' = len data
    /\ slice data' offset (offset + len encoded) = encoded
    /\ (forall j, 0 <= j -> j < offset \/ offset + len encoded <= j ->
          byte_at data' j = byte_at data j)
    /\ (length <= len encoded ->
        field_fromBytes (Str offset length) data'
        = Ok (VStr (rstrip_nul (str_prefix (Z.to_nat length) s)))).
Proof.
  intros Ho Hl Hv He Hfit.
  destruct (encode_ascii_spec s encoded He) as (_ & _ & Hr).
  destruct (write_bytes_ok offset encoded 0 data) as (data' & Hw & Hlen & Hb);
    [lia|lia|exact Hr|].
  exists data'. cbn [field_toBytes]. unfold dict_get. rewrite Hv. cbn [bind str_encode].
  rewrite He. cbn [bind]. split; [exact Hw|]. split; [exact Hlen|].
  assert (Hs : slice data' offset (offset + len encoded) = encoded).
  { apply nth_error_ext. intros k. rewrite nth_error_slice.
    destruct (Z.of_nat k <? offset + len encoded - offset) eqn:Ek.
    - apply Z.ltb_lt in Ek.
      specialize (Hb (offset + Z.of_nat k) ltac:(lia)).
      replace ((offset + 0 <=? offset + Z.of_nat k)
               && (offset + Z.of_nat k <? offset + 0 + len encoded)) with true in Hb
        by lia.
      apply byte_at_same_nth in Hb.
      replace (Z.to_nat (offset + Z.of_nat k)) with (Z.to_nat offset + k)%nat in Hb
        by lia.
      replace (Z.to_nat (offset + Z.of_nat k - (offset + 0))) with k in Hb by lia.
      exact Hb.
    - apply Z.ltb_ge in Ek. symmetry. apply nth_error_None. unfold len in Ek. lia. }
  split; [exact Hs|]. split.
  - intros j Hj Hout. rewrite (Hb j Hj).
    replace ((offset + 0 <=? j) && (j <? offset + 0 + len encoded)) with false by lia.
    reflexivity.
  - intros Hlong. cbn [field_fromBytes].
    assert (Hp : slice data' offset (offset + length)
                 = firstn (Z.to_nat length) encoded).
    { transitivity (firstn (Z.to_nat length)
                      (slice data' offset (offset + len encoded)));
        [|now rewrite Hs].
      unfold slice. rewrite firstn_firstn. f_equal. lia. }
    rewrite Hp, (decode_ascii_prefix s encoded _ He). reflexivity.
Qed.

Lemma string_written_whole_witness :
  exists data',
    field_toBytes (bytearray 32) "Name" (Str 0x03 10)
      [("Name", VStr "Repeaters North")] = Ok data'
    /\ slice data' 0x03 (0x03 + 15) = [82; 101; 112; 101; 97; 116; 101; 114; 115; 32;
                                       78; 111; 114; 116; 104]
    /\ field_fromBytes (Str 0x03 10) data' = Ok (VStr "Repeaters ").
Proof.
  destruct (string_written_whole (bytearray 32) "Name" 0x03 10
              [("Name", VStr "Repeaters North")] "Repeaters North"
              [82; 101; 112; 101; 97; 116; 101; 114; 115; 32; 78; 111; 114; 116; 104])
    as (data' & Hw & _ & Hs & _ & Hd).
  - lia.
  - lia.
  - reflexivity.
  - reflexivity.
  - vm_compute. discriminate.
  - exists data'. split; [exact Hw|]. split; [exact Hs|]. apply Hd.
    vm_compute. discriminate.
Defined.

(** *** What a record decodes to, and that it can be encoded again *)

Lemma ord_chr_ascii (b : Z) : b < 128 -> ord (chr b) < 128.
Proof.
  intros Hb. unfold ord, chr. rewrite N_ascii_embedding; lia.
Qed.

Lemma decode_ascii_encodes (l : list Z) (s : string) :
  decode_ascii l = Ok s ->
  succeeds (encode_ascii s) = true /\ String.length s = List.length l.
Proof.
  revert s. induction l as [|b l IH]; intros s H; cbn [decode_ascii] in H.
  - injection H as <-. now split.
  - destruct (b <? 128) eqn:Eb; [|discriminate H]. inv_bind H. injection H as <-.
    destruct (IH _ eq_refl) as [He Hl]. cbn [encode_ascii String.length].
    apply Z.ltb_lt in Eb. apply ord_chr_ascii in Eb. apply Z.ltb_lt in Eb.
    rewrite Eb. destruct (encode_ascii x); [|discriminate He].
    split; [reflexivity|]. now rewrite Hl.
Qed.

Lemma rstrip_nul_shape (s : string) :
  (succeeds (encode_ascii s) = true -> succeeds (encode_ascii (rstrip_nul s)) = true)
  /\ rstrip_nul (rstrip_nul s) = rstrip_nul s
  /\ (String.length (rstrip_nul s) <= String.length s)%nat.
Proof.
  induction s as [|c s (He & Hi & Hl)]; [now repeat split|].
  cbn [rstrip_nul encode_ascii String.length].
  destruct (rstrip_nul s) as [|d r] eqn:Er.
  - destruct (Ascii.eqb c zero) eqn:Ez.
    + split; [reflexivity|]. split; [reflexivity|]. cbn [String.length]. lia.
    + split; [|split].
      * intros H. cbn [encode_ascii]. destruct (ord c <? 128); [reflexivity|exact H].
      * cbn [rstrip_nul]. now rewrite Ez.
      * cbn [String.length]. lia.
  - split; [|split].
    + intros H. cbn [encode_ascii] in *.
      destruct (ord c <? 128); [|exact H].
      destruct (encode_ascii s); [|discriminate H].
      specialize (He eq_refl). cbn [encode_ascii] in He.
      destruct (ord d <? 128); [|discriminate He].
      destruct (encode_ascii r); [reflexivity|discriminate He].
    + change (rstrip_nul (String c (String d r)))
        with (match rstrip_nul (String d r) with
              | EmptyString => if Ascii.eqb c zero then EmptyString
                               else String c EmptyString
              | rest' => String c rest'
              end).
      now rewrite Hi.
    + cbn [String.length] in *. lia.
Qed.

Lemma length_slice_le (data : list Z) (a b : Z) :
  Z.of_nat (List.length (slice data a b)) <= Z.max 0 (b - a).
Proof. unfold slice. rewrite length_firstn. lia. Qed.

Lemma slice_in_range (data : list Z) (a b : Z) :
  bytes_in_range data -> Forall (fun x => 0 <= x < 256) (slice data a b).
Proof.
  intros Hr. apply Forall_forall. intros x Hin.
  apply In_nth_error in Hin. destruct Hin as [k Hk].
  rewrite nth_error_slice in Hk. destruct (_ <? _); [|discriminate Hk].
  apply (Hr (Z.of_nat (Z.to_nat a + k)) x); [lia|].
  apply byte_at_nth. now rewrite Nat2Z.id.
Qed.

Lemma from_bytes_bound (l : list Z) :
  Forall (fun x => 0 <= x < 256) l -> 0 <= from_bytes l < 256 ^ len l.
Proof.
  unfold len. induction 1 as [|b l Hb _ IH]; cbn [from_bytes List.length].
  - cbn. lia.
  - rewrite Nat2Z.inj_succ, Z.pow_succ_r by lia. lia.
Qed.

Lemma field_fromBytes_value (g : definition) (bytes : list Z) (v : value) :
  bytes_in_range bytes ->
  field_fromBytes g bytes = Ok v -> value_decoded g v.
Proof.
  intros Hr H.
  destruct g as [offset mask enum|offset length|offset length|offset mask
                |offset mask decode encode]; cbn [field_fromBytes] in H.
  - inv_bind H. cbv zeta in H.
    destruct (enum_lookup (Z.land x mask) enum) as [label|] eqn:El;
      injection H as <-; cbn [value_decoded]; [right|now left].
    clear E. induction enum as [|[k lab] enum IH]; [discriminate El|].
    cbn [enum_lookup] in El. cbn [map snd In].
    destruct (k =? Z.land x mask); [injection El as ->; now left|right; auto].
  - inv_bind H. injection H as <-. cbn [value_decoded].
    destruct (decode_ascii_encodes _ _ E) as [He Hl].
    destruct (rstrip_nul_shape x) as (Hs & Hi & Hlen).
    split; [now apply Hs|]. split; [exact Hi|].
    pose proof (length_slice_le bytes offset (offset + length)) as Hb.
    replace (offset + length - offset) with length in Hb by lia. lia.
  - injection H as <-. cbn [value_decoded].
    pose proof (from_bytes_bound _ (slice_in_range bytes offset (offset + length) Hr))
      as [H0 H1].
    split; [exact H0|]. eapply Z.lt_le_trans; [exact H1|].
    apply Z.pow_le_mono_r; [lia|].
    pose proof (length_slice_le bytes offset (offset + length)) as Hb.
    replace (offset + length - offset) with length in Hb by lia. exact Hb.
  - inv_bind H. injection H as <-. cbn [value_decoded].
    now rewrite <- Z.land_assoc, Z.land_diag.
  - inv_bind H. injection H as <-. cbn [value_decoded]. now exists x.
Qed.

(** A decoded record has the keys of its schema, in the schema's order,
    and under each key a value of the field's kind: a label of the table or
    the empty string, ASCII text no longer than the field, an integer of the
    field's width, an integer inside the mask. *)
Theorem decoded_record_shape (definitions : schema) (bytes : list Z) (item : dict) :
  NoDup (map fst definitions) ->
  bytes_in_range bytes ->
  fromBytes definitions bytes = Ok item ->
  map fst item = map fst definitions
  /\ forall key g, In (key, g) definitions ->
       exists v, dict_lookup key item = Some v /\ value_decoded g v.
Proof.
  intros Hnd Hr H. split; [now apply (fromBytes_keys definitions bytes)|].
  intros key g Hin.
  destruct (fromBytes_lookup definitions bytes item key g Hnd Hin H) as (v & Hf & Hl).
  exists v. split; [exact Hl|]. now apply (field_fromBytes_value g bytes).
Qed.

Lemma decoded_record_shape_witness :
  map fst (blank aprs_parameters) = map fst aprs_parameters
  /\ exists v, dict_lookup "AX25 TX Freq" (blank aprs_parameters) = Some v
               /\ value_decoded (Number 0xE99 4) v.
Proof.
  destruct (decoded_record_shape aprs_parameters (bytearray 0x2000)
              (blank aprs_parameters)) as [Hk Hv].
  - cbn. nodup_keys.
  - intros j x _ Hx. apply byte_at_bytearray in Hx. lia.
  - vm_compute. reflexivity.
  - split; [exact Hk|]. apply (Hv "AX25 TX Freq"). cbn. tauto.
Defined.

Lemma stored_in_range (data data' : list Z) (i v : Z) :
  bytes_in_range data -> 0 <= i -> 0 <= v < 256 ->
  (forall j, 0 <= j -> byte_at data' j = if j =? i then Ok v else byte_at data j) ->
  bytes_in_range data'.
Proof.
  intros Hr Hi Hv Hb j x Hj Hx. rewrite (Hb j Hj) in Hx.
  destruct (j =? i); [injection Hx as <-; exact Hv|exact (Hr j x Hj Hx)].
Qed.

Lemma bitmask_loop_total (key : string) (offset : Z) (item : dict) (x : value)
    (enum : list (Z * string)) :
  dict_lookup key item = Some x ->
  forallb (fun '(k, _) => (0 <=? k) && (k <? 256)) enum = true ->
  forall data : list Z,
    0 <= offset < len data -> bytes_in_range data ->
    exists data',
      for_each enum
        (fun data '(k, v) =>
           x <- dict_get key item ;;
           if is_str v x then byte_or data offset k else Ok data)
        data = Ok data'
      /\ len data' = len data /\ bytes_in_range data'.
Proof.
  intros Hx. induction enum as [|[k lab] enum IH]; intros Hk data Ho Hr;
    cbn [for_each].
  - exists data. split; [reflexivity|]. split; [reflexivity|exact Hr].
  - cbn [forallb] in Hk. apply andb_true_iff in Hk. destruct Hk as [Hk Hrest].
    unfold dict_get at 1. rewrite Hx. cbn [bind].
    destruct (is_str lab x).
    + destruct (byte_at_ok data offset Ho) as [b Hb].
      destruct (byte_or_ok data offset b k) as (d1 & -> & Hl & Hat & Hframe);
        [lia|exact Hb|exact (Hr offset b ltac:(lia) Hb)|lia|].
      cbn [bind].
      destruct (IH Hrest d1) as (data' & Hw & Hl' & Hr'); [lia| |].
      * intros j y Hj Hy. destruct (Z.eq_dec j offset) as [->|Hne].
        -- rewrite Hat in Hy. injection Hy as <-.
           apply byte_lor_range; [exact (Hr offset b ltac:(lia) Hb)|lia].
        -- rewrite (Hframe j Hj Hne) in Hy. exact (Hr j y Hj Hy).
      * exists data'. split; [exact Hw|]. split; [lia|exact Hr'].
    + cbn [bind]. now apply IH.
Qed.

Lemma field_toBytes_total (n : Z) (data : list Z) (key : string) (g : definition)
    (item : dict) (v : value) :
  len data = n -> bytes_in_range data ->
  field_fits n g = true -> table_fits g = true ->
  dict_lookup key item = Some v -> value_decoded g v ->
  exists data',
    field_toBytes data key g item = Ok data'
    /\ len data' = n /\ bytes_in_range data'.
Proof.
  intros Hlen Hr Hfit Htab Hv Hd.
  destruct (field_fits_spec n g Hfit) as (Hs & He & Hm).
  destruct g as [offset mask enum|offset length|offset length|offset mask
                |offset mask decode encode]; destruct v as [s|z| | |];
    try contradiction; cbn [field_start field_stop field_mask] in Hs, He, Hm;
    cbn [field_toBytes].
  - destruct (bitmask_loop_total key offset item (VStr s) enum Hv Htab data)
      as (data' & Hw & Hl & Hr'); [lia|exact Hr|].
    exists data'. split; [exact Hw|]. split; [lia|exact Hr'].
  - destruct Hd as (Henc & _ & Hl).
    unfold dict_get. rewrite Hv. cbn [bind str_encode].
    destruct (encode_ascii s) as [encoded|] eqn:Ee; [|discriminate Henc].
    cbn [bind].
    destruct (encode_ascii_spec s encoded Ee) as (_ & Hle & Hrange).
    destruct (write_bytes_ok offset encoded 0 data) as (data' & Hw & Hl' & Hb);
      [lia|lia|exact Hrange|].
    exists data'. split; [exact Hw|]. split; [lia|].
    intros j x Hj Hx. rewrite (Hb j Hj) in Hx.
    destruct ((offset + 0 <=? j) && (j <? offset + 0 + len encoded)).
    + apply byte_at_nth in Hx. apply nth_error_In in Hx.
      exact (proj1 (Forall_forall _ _) Hrange x Hx).
    + exact (Hr j x Hj Hx).
  - cbn [value_decoded] in Hd. rewrite Z.max_r in Hd by lia.
    unfold dict_get. rewrite Hv. cbn [bind int_to_bytes].
    rewrite (to_bytes_ok z length) by lia. cbn [bind].
    assert (Hw : len (le_bytes (Z.to_nat length) z) = offset + length - offset)
      by (unfold len; rewrite le_bytes_length; lia).
    eexists. split; [reflexivity|]. split.
    + rewrite len_slice_assign; lia.
    + intros j x Hj Hx.
      rewrite byte_at_slice_assign in Hx by lia.
      destruct ((offset <=? j) && (j <? offset + length)).
      * apply byte_at_nth in Hx. apply nth_error_In in Hx.
        exact (proj1 (Forall_forall _ _) (le_bytes_range _ _) x Hx).
      * exact (Hr j x Hj Hx).
  - destruct (byte_at_ok data offset ltac:(lia)) as [b Hb].
    rewrite Hb. unfold dict_get. rewrite Hv. cbn [bind py_int].
    assert (Hrange : 0 <= Z.lor b (Z.land z mask) < 256)
      by (apply byte_lor_range;
          [exact (Hr offset b ltac:(lia) Hb)|now apply byte_land_range]).
    destruct (byte_store_ok data offset (Z.lor b (Z.land z mask)))
      as (data' & Hw & Hl & Hat); [lia|exact Hrange|].
    exists data'. split; [exact Hw|]. split; [lia|].
    exact (stored_in_range data data' offset _ Hr ltac:(lia) Hrange Hat).
  - destruct (byte_at_ok data offset ltac:(lia)) as [b Hb].
    rewrite Hb. unfold dict_get. rewrite Hv. cbn [bind].
    cbn [value_decoded] in Hd. destruct Hd as (x & ->).
    cbn [table_fits] in Htab. rewrite forallb_forall in Htab.
    pose proof (byte_land_range x mask Hm) as Hx.
    pose proof (Htab (Z.land x mask) (In_range 256 _ Hx)) as Hok.
    rewrite <- Z.land_assoc, Z.land_diag in Hok.
    destruct (lambda_int encode (VInt (decode (Z.land x mask)))) as [m|];
      [|discriminate Hok].
    cbn [bind].
    assert (Hrange : 0 <= Z.lor b (Z.land m mask) < 256)
      by (apply byte_lor_range;
          [exact (Hr offset b ltac:(lia) Hb)|now apply byte_land_range]).
    destruct (byte_store_ok data offset (Z.lor b (Z.land m mask)))
      as (data' & Hw & Hl & Hat); [lia|exact Hrange|].
    exists data'. split; [exact Hw|]. split; [lia|].
    exact (stored_in_range data data' offset _ Hr ltac:(lia) Hrange Hat).
Qed.

Lemma toBytes_total (n : Z) (item : dict) (definitions : schema) :
  forallb (fun '(_, g) => field_fits n g && table_fits g) definitions = true ->
  (forall key g, In (key, g) definitions ->
     exists v, dict_lookup key item = Some v /\ value_decoded g v) ->
  forall data : list Z,
    len data = n -> bytes_in_range data ->
    exists data',
      toBytes data definitions item = Ok data'
      /\ len data' = n /\ bytes_in_range data'.
Proof.
  unfold toBytes. induction definitions as [|[key g] rest IH];
    intros Hfit Hval data Hl Hr; cbn [for_each].
  - exists data. split; [reflexivity|]. split; [exact Hl|exact Hr].
  - cbn [forallb] in Hfit. apply andb_true_iff in Hfit. destruct Hfit as [Hg Hrest].
    apply andb_true_iff in Hg. destruct Hg as [Hf Ht].
    destruct (Hval key g) as (v & Hv & Hd); [now left|].
    destruct (field_toBytes_total n data key g item v Hl Hr Hf Ht Hv Hd)
      as (d1 & -> & Hl1 & Hr1).
    cbn [bind]. apply IH; [exact Hrest| |exact Hl1|exact Hr1].
    intros k g' Hin. apply Hval. now right.
Qed.

(** Every schema of the source has tables whose keys are bytes, and
    encoding lambdas that make an integer of whatever its decoding lambdas
    return. *)
Lemma schema_tables_fit :
  forallb (fun definitions : schema => forallb (fun '(_, g) => table_fits g) definitions)
    [ dev_info; basic_parameters; common_menu_parameters; prompt_tone_parameters;
      indicator_parameters; button_preset_parameters; mic_gain_parameters;
      dmr_parameters; aprs_parameters; aprs_dmr_record_parameters;
      contact_parameters; scan_list_info; rx_group_info; zone_info;
      channel_info; tson_info ]
  = true.
Proof. vm_compute. reflexivity. Qed.

(** Whatever a record decodes to can be encoded again: the decoded record,
    written with the same schema into any buffer that holds its fields,
    raises nothing and leaves the buffer its length. *)
Theorem decoded_record_reencodes (definitions : schema) (bytes data : list Z)
    (item : dict) (n : Z) :
  NoDup (map fst definitions) ->
  forallb (fun '(_, g) => field_fits n g && table_fits g) definitions = true ->
  bytes_in_range bytes ->
  fromBytes definitions bytes = Ok item ->
  len data = n -> bytes_in_range data ->
  exists data',
    toBytes data definitions item = Ok data'
    /\ len data' = n /\ bytes_in_range data'.
Proof.
  intros Hnd Hfit Hr H Hl Hrd.
  apply (toBytes_total n item definitions Hfit); [|exact Hl|exact Hrd].
  intros key g Hin.
  destruct (fromBytes_lookup definitions bytes item key g Hnd Hin H) as (v & Hf & Hv).
  exists v. split; [exact Hv|]. now apply (field_fromBytes_value g bytes).
Qed.

Lemma decoded_record_reencodes_witness :
  exists data',
    toBytes (bytearray 0x2000) basic_parameters (blank basic_parameters) = Ok data'
    /\ len data' = 0x2000.
Proof.
  destruct (decoded_record_reencodes basic_parameters (bytearray 0x2000)
              (bytearray 0x2000) (blank basic_parameters) 0x2000)
    as (data' & Hw & Hl & _).
  - cbn. nodup_keys.
  - vm_compute. reflexivity.
  - intros j x _ Hx. apply byte_at_bytearray in Hx. lia.
  - vm_compute. reflexivity.
  - vm_compute. reflexivity.
  - intros j x _ Hx. apply byte_at_bytearray in Hx. lia.
  - exists data'. split; [exact Hw|exact Hl].
Defined.

(** *** The layout of an image *)

(** For any counts the variable regions follow each other without overlap:
    the contacts end at or before the first zone record, the zone records end
    exactly where the channel records start, the channel records end inside
    the image, and the image is the shortest whole number of 2048-byte blocks
    that holds them.  Below the contacts, the scan lists end exactly where
    the RX groups start and the RX groups end before the contacts.  The
    decoder's second alignment of the zone address never moves it. *)
Theorem layout_regions_in_order (num_contacts num_zones num_channels : Z) :
  0 <= num_contacts -> 0 <= num_zones -> 0 <= num_channels ->
  scan_list_start_address + scan_list_record_size * 250 = rx_group_start_address
  /\ rx_group_start_address + rx_group_record_size * 250 <= contact_start_address
  /\ contact_start_address + contact_record_size * num_contacts
     <= zone_start_address num_contacts
  /\ zone_start_address_decompile num_contacts = zone_start_address num_contacts
  /\ zone_start_address num_contacts + zone_record_size * num_zones
     = channel_start_address num_contacts num_zones
  /\ channel_start_address num_contacts num_zones + channel_record_size * num_channels
     <= codeplug_size num_contacts num_zones num_channels
  /\ codeplug_size num_contacts num_zones num_channels
     < channel_start_address num_contacts num_zones
       + channel_record_size * num_channels + 2048
  /\ codeplug_size num_contacts num_zones num_channels mod 2048 = 0.
Proof.
  intros Hc Hz Hn.
  split; [reflexivity|]. split; [vm_compute; discriminate|].
  split.
  { unfold zone_start_address, contact_block_size, contact_block_padded,
      contact_record_size.
    destruct (negb (num_contacts * 16 mod 1024 =? 0));
      match goal with |- context [if ?c then _ else _] => destruct c end;
      Z.div_mod_to_equations; lia. }
  split; [apply zone_start_address_decompile_eq|].
  split; [reflexivity|].
  assert (H : forall size,
             size <= (if negb (size mod 2048 =? 0)
                      then size + (2048 - size mod 2048) else size)
             < size + 2048).
  { intros size. destruct (size mod 2048 =? 0) eqn:E; cbn [negb];
      Z.div_mod_to_equations; lia. }
  unfold codeplug_size.
  specialize (H (channel_start_address num_contacts num_zones
                 + num_channels * channel_record_size)).
  split; [|split].
  - rewrite (Z.mul_comm channel_record_size). apply H.
  - rewrite (Z.mul_comm channel_record_size). apply H.
  - apply codeplug_size_aligned.
Qed.

Lemma layout_regions_in_order_witness :
  contact_start_address + contact_record_size * 64 <= zone_start_address 64
  /\ codeplug_size 64 2 20 < channel_start_address 64 2 + channel_record_size * 20 + 2048.
Proof.
  pose proof (layout_regions_in_order 64 2 20 ltac:(lia) ltac:(lia) ltac:(lia)) as H.
  split; [apply H|]. apply H.
Defined.

(** *** Tones of a channel *)

Lemma index_of_floats (t : Z) (l : list Z) :
  index_of py_eq (VFloat t) (map VFloat l) = index_of Z.eqb t l.
Proof.
  induction l as [|y l IH]; cbn [map index_of]; [reflexivity|].
  cbn [py_eq]. now rewrite IH.
Qed.

Lemma index_of_ints (c : Z) (l : list Z) :
  index_of py_eq (VInt c) (map VInt l) = index_of Z.eqb c l.
Proof.
  induction l as [|y l IH]; cbn [map index_of]; [reflexivity|].
  cbn [py_eq]. now rewrite IH.
Qed.

Lemma index_of_In (x : Z) (l : list Z) :
  In x l ->
  exists i, index_of Z.eqb x l = Ok i /\ 0 <= i < len l
            /\ nth_error l (Z.to_nat i) = Some x.
Proof.
  unfold len. induction l as [|y l IH]; intros Hin; [contradiction|].
  cbn [index_of]. destruct (y =? x) eqn:E.
  - apply Z.eqb_eq in E. subst y. exists 0. cbn [List.length]. repeat split; lia.
  - destruct Hin as [->|Hin]; [rewrite Z.eqb_refl in E; discriminate|].
    destruct (IH Hin) as (i & -> & Hi & Hn). cbn [bind]. exists (i + 1).
    cbn [List.length]. split; [reflexivity|]. split; [lia|].
    replace (Z.to_nat (i + 1)) with (S (Z.to_nat i)) by lia. exact Hn.
Qed.

Lemma index_of_absent (x : Z) (l : list Z) :
  ~ In x l -> index_of Z.eqb x l = Raise ValueError.
Proof.
  induction l as [|y l IH]; intros Hn; cbn [index_of]; [reflexivity|].
  destruct (y =? x) eqn:E.
  - apply Z.eqb_eq in E. subst y. exfalso. apply Hn. now left.
  - rewrite IH; [reflexivity|]. intros Hin. apply Hn. now right.
Qed.

Lemma list_index_nth {A} (l : list A) (i : Z) (x : A) :
  0 <= i -> nth_error l (Z.to_nat i) = Some x -> list_index l i = Ok x.
Proof.
  intros Hi Hn. unfold list_index.
  destruct (i <? 0) eqn:E; [apply Z.ltb_lt in E; lia|]. rewrite E. now rewrite Hn.
Qed.

Lemma dict_set_present (k : string) (v : value) (d : dict) :
  dict_lookup k d = Some v -> dict_set k v d = d.
Proof.
  induction d as [|[k' v'] d IH]; cbn; [discriminate|].
  destruct (String.eqb k k') eqn:E.
  - apply String.eqb_eq in E. subst k'. now intros [= ->].
  - intros H. now rewrite (IH H).
Qed.

Lemma dict_set_twice (k : string) (v w : value) (d : dict) :
  dict_set k v (dict_set k w d) = dict_set k v d.
Proof.
  induction d as [|[k' v'] d IH]; cbn.
  - now rewrite String.eqb_refl.
  - destruct (String.eqb k k') eqn:E; cbn.
    + now rewrite String.eqb_refl.
    + now rewrite E, IH.
Qed.

(** A tone the tables know survives the record codec: the encoder stores
    its index, which fits the one-byte field, and the decoder turns that
    index back into the same tone. *)
Theorem tone_round_trip (which : string) (channel : dict) (tone_type : string)
    (tone : value) :
  which = "Tx" \/ which = "Rx" ->
  dict_lookup ("Tone Type " ++ which) channel = Some (VStr tone_type) ->
  dict_lookup ("Tone " ++ which) channel = Some tone ->
  tone_known tone_type tone ->
  exists stored,
    encode_tone which channel = Ok stored
    /\ decode_tone which stored = Ok channel
    /\ (tone_type <> "OFF" ->
        exists i, dict_lookup ("Tone " ++ which) stored = Some (VInt i)
                  /\ 0 <= i < 256).
Proof.
  intros Hw Ht Hv Hk.
  assert (Hne : ("Tone Type " ++ which)%string <> ("Tone " ++ which)%string)
    by (destruct Hw as [->| ->]; discriminate).
  unfold tone_known in Hk. unfold encode_tone, decode_tone, dict_get.
  rewrite Ht. cbn [bind is_str].
  destruct (String.eqb tone_type "CTCSS") eqn:Ec.
  - destruct Hk as (t & -> & Hin).
    rewrite Hv. cbn [bind]. rewrite index_of_floats.
    destruct (index_of_In t CTCSS_Tones Hin) as (i & -> & Hi & Hn). cbn [bind].
    eexists. split; [reflexivity|].
    rewrite dict_lookup_set_other, Ht by exact Hne. cbn [bind is_str]. rewrite Ec.
    rewrite dict_lookup_set_same. cbn [bind index_arg].
    rewrite (list_index_nth _ _ _ (proj1 Hi) Hn). cbn [bind].
    rewrite dict_set_twice, (dict_set_present _ _ _ Hv).
    split; [reflexivity|]. intros _. exists i. split; [reflexivity|].
    change (len CTCSS_Tones) with 51 in Hi. lia.
  - destruct (String.eqb tone_type "OFF") eqn:Eo; cbn [negb].
    + exists channel. split; [reflexivity|]. rewrite Ht. cbn [bind is_str].
      rewrite Ec, Eo. cbn [negb].
      split; [reflexivity|]. intros Hoff. apply String.eqb_eq in Eo. congruence.
    + destruct Hk as (c & -> & Hin).
      rewrite Hv. cbn [bind]. rewrite index_of_ints.
      destruct (index_of_In c DCS_Codes Hin) as (i & -> & Hi & Hn). cbn [bind].
      eexists. split; [reflexivity|].
      rewrite dict_lookup_set_other, Ht by exact Hne. cbn [bind is_str].
      rewrite Ec, Eo. cbn [negb].
      rewrite dict_lookup_set_same. cbn [bind index_arg].
      rewrite (list_index_nth _ _ _ (proj1 Hi) Hn). cbn [bind].
      rewrite dict_set_twice, (dict_set_present _ _ _ Hv).
      split; [reflexivity|]. intros _. exists i. split; [reflexivity|].
      change (len DCS_Codes) with 108 in Hi. lia.
Qed.

Lemma tone_round_trip_witness :
  exists stored,
    encode_tone "Rx" dcs_channel_record_doc = Ok stored
    /\ decode_tone "Rx" stored = Ok dcs_channel_record_doc.
Proof.
  destruct (tone_round_trip "Rx" dcs_channel_record_doc "DCS" (VInt 23))
    as (stored & He & Hd & _).
  - now right.
  - reflexivity.
  - reflexivity.
  - exists 23. split; [reflexivity|]. cbn. tauto.
  - exists stored. split; assumption.
Defined.

(** A CTCSS tone or a DCS code that is not in its table stops the encoding
    of the channel with [ValueError]. *)
Theorem unknown_tone_rejected (channel : dict) (tone_type : string) (tone : value) :
  dict_lookup "Tone Type Tx" channel = Some (VStr tone_type) ->
  dict_lookup "Tone Tx" channel = Some tone ->
  tone_type <> "OFF" ->
  tone_unknown tone_type tone ->
  compile_channel channel = Raise ValueError.
Proof.
  intros Ht Hv Hoff Hu. unfold compile_channel, encode_tone, dict_get.
  change ("Tone Type " ++ "Tx")%string with "Tone Type Tx".
  change ("Tone " ++ "Tx")%string with "Tone Tx".
  rewrite Ht. cbn [bind is_str]. unfold tone_unknown in Hu.
  destruct (String.eqb tone_type "CTCSS") eqn:Ec.
  - destruct Hu as (t & -> & Hn). rewrite Hv. cbn [bind].
    now rewrite index_of_floats, (index_of_absent _ _ Hn).
  - destruct (String.eqb tone_type "OFF") eqn:Eo.
    + apply String.eqb_eq in Eo. congruence.
    + cbn [negb]. destruct Hu as (c & -> & Hn). rewrite Hv. cbn [bind].
      now rewrite index_of_ints, (index_of_absent _ _ Hn).
Qed.

Lemma unknown_tone_rejected_witness :
  compile_channel (dict_set "Tone Tx" (VFloat 1001)
                     (dict_set "Tone Type Tx" (VStr "CTCSS") example_channel))
  = Raise ValueError.
Proof.
  apply (unknown_tone_rejected _ "CTCSS" (VFloat 1001)).
  - reflexivity.
  - reflexivity.
  - discriminate.
  - exists 1001. split; [reflexivity|].
    cbn. intros H. repeat (destruct H as [H|H]; [discriminate H|]). exact H.
Defined.

(** *** The APRS tone code *)

(** What the "AX25 QT/DQT" rewrite does to every stored code.  Codes 0,
    53..158 and 160..267 decode to a text the encoder turns back into the
    same code.  Codes 1..50 decode to the text of a CTCSS frequency, which
    the encoder rejects; code 51 runs off the table; codes 52 and 159 index
    the DCS table at -1 and come back as 160 and 267; every other code
    decodes to "Off". *)
Theorem aprs_tone_codec (q : Z) :
  (q = 0 \/ 53 <= q <= 158 \/ 160 <= q <= 267 ->
     exists v, decode_aprs_qt_dqt q = Ok v /\ encode_aprs_qt_dqt v = Ok (VInt q))
  /\ (1 <= q <= 50 ->
      exists v, decode_aprs_qt_dqt q = Ok v /\ encode_aprs_qt_dqt v = Raise ValueError)
  /\ (q = 51 -> decode_aprs_qt_dqt q = Raise IndexError)
  /\ (q = 52 \/ q = 159 ->
      exists v, decode_aprs_qt_dqt q = Ok v
                /\ encode_aprs_qt_dqt v = Ok (VInt (q + 108)))
  /\ (q < 0 \/ 267 < q -> decode_aprs_qt_dqt q = Ok (VStr "Off")).
Proof.
  set (back := fun (want : Z -> outcome value) q =>
                 match decode_aprs_qt_dqt q with
                 | Ok v =>
                     match encode_aprs_qt_dqt v, want q with
                     | Ok (VInt r), Ok (VInt w) => r =? w
                     | Raise ValueError, Raise ValueError => true
                     | _, _ => false
                     end
                 | Raise _ => false
                 end).
  assert (Hback : forall want q r,
             back want q = true -> want q = r ->
             exists v, decode_aprs_qt_dqt q = Ok v /\ encode_aprs_qt_dqt v = r).
  { intros want p r Hb <-. unfold back in Hb.
    destruct (decode_aprs_qt_dqt p) as [v|]; [|discriminate Hb].
    exists v. split; [reflexivity|].
    destruct (encode_aprs_qt_dqt v) as [[]|[]], (want p) as [[]|[]];
      try discriminate Hb; [|reflexivity].
    apply Z.eqb_eq in Hb. now subst. }
  assert (Hall : forall want lo n,
             forallb (back want) (map (Z.add lo) (range n)) = true ->
             forall q, lo <= q < lo + n -> back want q = true).
  { intros want lo n Hf p Hp.
    apply (proj1 (forallb_forall _ _) Hf). apply in_map_iff.
    exists (p - lo). split; [lia|]. apply In_range. lia. }
  split; [|split; [|split; [|split]]].
  - intros [->|[H|H]].
    + exists (VStr "Off"). split; vm_compute; reflexivity.
    + apply (Hback (fun q => Ok (VInt q))); [|reflexivity].
      apply (Hall _ 53 106); [vm_compute; reflexivity|lia].
    + apply (Hback (fun q => Ok (VInt q))); [|reflexivity].
      apply (Hall _ 160 108); [vm_compute; reflexivity|lia].
  - intros H. apply (Hback (fun _ => Raise ValueError)); [|reflexivity].
    apply (Hall _ 1 50); [vm_compute; reflexivity|lia].
  - intros ->. vm_compute. reflexivity.
  - intros [->| ->]; [exists (VStr "D754N")|exists (VStr "D754I")];
      split; vm_compute; reflexivity.
  - intros H. unfold decode_aprs_qt_dqt.
    replace ((159 <=? q) && (q <=? 267)) with false by lia.
    replace ((52 <=? q) && (q <=? 158)) with false by lia.
    replace ((1 <=? q) && (q <=? 51)) with false by lia.
    reflexivity.
Qed.

Lemma aprs_tone_codec_witness :
  (exists v, decode_aprs_qt_dqt 70 = Ok v /\ encode_aprs_qt_dqt v = Ok (VInt 70))
  /\ (exists v, decode_aprs_qt_dqt 12 = Ok v /\ encode_aprs_qt_dqt v = Raise ValueError)
  /\ decode_aprs_qt_dqt 300 = Ok (VStr "Off").
Proof.
  split; [|split].
  - apply (proj1 (aprs_tone_codec 70)). lia.
  - apply (proj1 (proj2 (aprs_tone_codec 12))). lia.
  - apply (proj2 (proj2 (proj2 (proj2 (aprs_tone_codec 300))))). lia.
Defined.

(** *** Images too short and documents with a section missing *)

Lemma for_each_steps {A S} (xs : list A) (f : S -> A -> outcome S) :
  forall s r, for_each xs f s = Ok r ->
  forall x, In x xs -> exists a b, f a x = Ok b.
Proof.
  induction xs as [|y xs IH]; intros s r H x Hin; [contradiction|].
  cbn [for_each] in H. destruct (f s y) as [s'|] eqn:E; cbn [bind] in H;
    [|discriminate H].
  destruct Hin as [->|Hin]; [eauto|]. exact (IH _ _ H x Hin).
Qed.

Lemma scan_list_info_keys : NoDup (map fst scan_list_info).
Proof. cbn. nodup_keys. Qed.

(** No image shorter than the flags byte of the last scan-list record
    decodes, whatever it holds, because all 250 scan-list records are parsed
    before their names are looked at; an image of zeros one byte longer
    decodes, to a document without zones. *)
Theorem shortest_image :
  (forall data, len data <= last_byte_read ->
                exists e, decompileCodeplug data = Raise e)
  /\ exists codeplug,
       decompileCodeplug (bytearray (last_byte_read + 1)) = Ok codeplug
       /\ dict_lookup "Zones" codeplug = Some (VList []).
Proof.
  split.
  - intros data Hlen.
    destruct (decompileCodeplug data) as [codeplug|e] eqn:E; [exfalso|eauto].
    unfold decompileCodeplug in E. inv_bind E. clear E.
    match goal with H : decompile_settings _ _ = Ok _ |- _ =>
      unfold decompile_settings in H; repeat inv_bind H; clear H end.
    match goal with H : decompile_scan_lists _ = Ok _ |- _ =>
      destruct (for_each_steps _ _ _ _ H 249) as (a & b & Hstep);
        [apply In_range; lia|] end.
    inv_bind Hstep. clear Hstep.
    match goal with H : decompile_scan_list _ _ = Ok _ |- _ =>
      unfold decompile_scan_list in H; inv_bind H; clear H end.
    match goal with H : fromBytes scan_list_info _ = Ok _ |- _ =>
      destruct (fromBytes_lookup _ _ _ "Talkback" _ scan_list_info_keys
                  ltac:(right; left; reflexivity) H) as (val & Hf & _) end.
    cbn [field_fromBytes] in Hf. inv_bind Hf.
    match goal with H : byte_at _ 0x0B = Ok _ |- _ =>
      apply byte_at_nth in H; rewrite nth_error_slice in H;
        destruct (_ <? _); [|discriminate H];
        assert (Hs : nth_error data (Z.to_nat (scan_list_start_address
                                              + 249 * scan_list_record_size)
                                     + Z.to_nat 0x0B) <> None)
          by (rewrite H; discriminate);
        apply nth_error_Some in Hs end.
    unfold last_byte_read, len in Hlen.
    change (scan_list_start_address + 249 * scan_list_record_size) with 58855 in *.
    lia.
  - eexists. split; [apply decompile_by_location; vm_compute; reflexivity|].
    reflexivity.
Qed.

Lemma shortest_image_witness :
  exists e, decompileCodeplug (bytearray 4096) = Raise e.
Proof.
  apply (proj1 shortest_image). vm_compute. discriminate.
Defined.

(** A document that lacks one of the fourteen sections is never compiled. *)
Theorem missing_section_fails (codeplug : dict) (name : string) :
  In name codeplug_sections ->
  dict_lookup name codeplug = None ->
  exists e, compileCodeplug codeplug = Raise e.
Proof.
  intros Hin Hmiss.
  destruct (compileCodeplug codeplug) as [image|e] eqn:E; [exfalso|eauto].
  unfold compileCodeplug in E. do 2 inv_bind E. clear E.
  match goal with H : compile_template _ = Ok _ |- _ =>
    unfold compile_template in H; inv_bind H;
      match goal with Hc : compile_counts _ = Ok ?c |- _ =>
        destruct c as [[num_contacts num_zones] num_channels] end;
      repeat inv_bind H; clear H end.
  repeat match goal with H : planned_size _ = _ |- _ => clear H end.
  unfold codeplug_sections in Hin.
  repeat (destruct Hin as [<-|Hin];
          [ unfold section, compile_counts, compile_aprs, compile_quick_messages,
              compile_contacts, compile_scan_lists, compile_rx_groups,
              compile_zones, dict_get in *;
            rewrite Hmiss in *;
            match goal with H : _ = Ok _ |- _ =>
              cbn [bind] in H; discriminate H end
          | ]).
  contradiction.
Qed.

Lemma missing_section_fails_witness :
  exists e, compileCodeplug [("Contacts", VList []); ("Zones", VList [])] = Raise e.
Proof.
  apply (missing_section_fails _ "Mic gain").
  - cbn. tauto.
  - reflexivity.
Defined.

(** *** Channel records that always decode *)

Lemma decompile_channel_total_witness :
  exists raw flags channel,
    fromBytes channel_info (bytearray channel_record_size) = Ok raw
    /\ fromBytes tson_info (bytearray channel_record_size) = Ok flags
    /\ decompile_channel (bytearray channel_record_size) = Ok channel.
Proof.
  apply decompile_channel_total.
  - reflexivity.
  - repeat constructor.
  - vm_compute. split; [discriminate|reflexivity].
  - vm_compute. split; [discriminate|reflexivity].
Defined.


(** *** Zones and the channels they point to *)

Lemma to_bytes_inv (n width : Z) (bs : list Z) :
  to_bytes n width = Ok bs ->
  bs = le_bytes (Z.to_nat width) n /\ 0 <= n < 256 ^ width.
Proof.
  unfold to_bytes. destruct ((0 <=? n) && (n <? 256 ^ width)) eqn:E; [|discriminate].
  intros [= <-]. split; [reflexivity|lia].
Qed.

Lemma channel_sum_from (zones : list value) :
  forall (a b r : Z),
    for_each zones (fun acc z => n <- channel_count z ;; Ok (acc + n)) a = Ok r ->
    for_each zones (fun acc z => n <- channel_count z ;; Ok (acc + n)) b
    = Ok (r - a + b).
Proof.
  induction zones as [|z zones IH]; intros a b r H; cbn [for_each] in *.
  - injection H as <-. f_equal. lia.
  - destruct (channel_count z) as [n|]; cbn [bind] in *; [|discriminate H].
    rewrite (IH _ (b + n) _ H). f_equal. lia.
Qed.

(** The record built for the zone at position [count] carries, at [0x0F],
    the number of its channels and, at [0x0D], one more than the number of
    records (zones, then channels of the zones before it) that precede its
    first channel.  The address at which [decompileCodeplug] then looks for
    the zone's [k]-th channel is the address at which [compileCodeplug]
    writes it. *)
Theorem zone_record_links (zones : list value) (count : Z) (i : value)
    (record : list Z) :
  compile_zone zones count i = Ok record ->
  exists before n,
    for_each (firstn (Z.to_nat count) zones)
      (fun acc z => n <- channel_count z ;; Ok (acc + n)) 0 = Ok before
    /\ channel_count i = Ok n
    /\ from_bytes (slice record 0x0F (0x0F + 2)) = n
    /\ from_bytes (slice record 0x0D (0x0D + 2)) = len zones + 1 + before
    /\ forall num_contacts k,
         zone_start_address num_contacts
         + (from_bytes (slice record 0x0D (0x0D + 2)) - 1) * 32 + k * 32
         = channel_start_address num_contacts (len zones)
           + channel_record_size * (before + k).
Proof.
  intros H. unfold compile_zone in H.
  repeat (inv_bind H; cbv beta zeta in H). ok_inj H.
  match goal with
  | Hs : for_each _ _ (len zones + 1) = Ok ?off,
    Hz : toBytes (bytearray _) zone_info _ = Ok ?r,
    Ho : to_bytes ?off 2 = Ok ?ob,
    Hn : channel_count i = Ok ?n,
    Hc : to_bytes ?n 2 = Ok ?cb |- _ =>
      apply (channel_sum_from _ _ 0) in Hs; rewrite Z.add_0_r in Hs;
      apply to_bytes_inv in Ho; destruct Ho as [-> Ho];
      apply to_bytes_inv in Hc; destruct Hc as [-> Hc];
      assert (Hr : len r = 32)
        by (rewrite (toBytes_len _ _ _ _ Hz);
            [now apply len_bytearray|intros key offset length Hin; number_fields Hin]);
      exists (off - (len zones + 1)), n;
      split; [exact Hs|]; split; [reflexivity|];
      assert (Hl2 : forall v, len (le_bytes (Z.to_nat 2) v) = 2)
        by (intros v; unfold len; now rewrite le_bytes_length);
      assert (Ho1 : len (slice_assign r 0x0D (0x0D + 2) (le_bytes (Z.to_nat 2) off)) = 32)
        by (rewrite len_slice_assign; rewrite ?Hl2; lia);
      assert (H1 : from_bytes
                     (slice (slice_assign
                               (slice_assign r 0x0D (0x0D + 2) (le_bytes (Z.to_nat 2) off))
                               0x0F (0x0F + 2) (le_bytes (Z.to_nat 2) n))
                        0x0F (0x0F + 2)) = n)
        by (rewrite slice_of_slice_assign by (rewrite ?Hl2; lia);
            apply from_bytes_le_bytes; exact Hc);
      assert (H2 : from_bytes
                     (slice (slice_assign
                               (slice_assign r 0x0D (0x0D + 2) (le_bytes (Z.to_nat 2) off))
                               0x0F (0x0F + 2) (le_bytes (Z.to_nat 2) n))
                        0x0D (0x0D + 2)) = off)
        by (rewrite (slice_ext _ (slice_assign r 0x0D (0x0D + 2)
                                    (le_bytes (Z.to_nat 2) off)));
            [ rewrite slice_of_slice_assign by (rewrite ?Hl2; lia);
              apply from_bytes_le_bytes; exact Ho
            | lia
            | intros j Hj; rewrite byte_at_slice_assign by (rewrite ?Hl2; lia);
              replace ((0x0F <=? j) && (j <? 0x0F + 2)) with false by lia;
              reflexivity ])
  end.
  split; [exact H1|]. rewrite H2. split; [lia|].
  intros num_contacts k. unfold channel_start_address, channel_record_size. lia.
Qed.

Lemma zone_record_links_witness :
  exists record,
    compile_zone [example_zone "Home" 3; example_zone "Away" 2] 1 (example_zone "Away" 2)
    = Ok record
    /\ from_bytes (slice record 0x0F (0x0F + 2)) = 2
    /\ from_bytes (slice record 0x0D (0x0D + 2)) = 6.
Proof.
  destruct (compile_zone [example_zone "Home" 3; example_zone "Away" 2] 1
              (example_zone "Away" 2)) as [record|] eqn:E;
    [|vm_compute in E; discriminate E].
  destruct (zone_record_links _ _ _ _ E) as (before & n & Hb & Hn & H1 & H2 & _).
  vm_compute in Hb. injection Hb as <-. vm_compute in Hn. injection Hn as <-.
  exists record. split; [reflexivity|]. split; [exact H1|exact H2].
Defined.

(** *** Quick messages *)

Lemma start_address_same (i : Z) : start_address i = start_of_message i.
Proof. reflexivity. Qed.

Lemma message_window_bounds (i : Z) :
  0 <= i < 100 ->
  0 <= start_of_message i /\ start_of_message i + 40 <= 0x1206.
Proof.
  unfold start_of_message, message_block_1_count, message_block_1_start_addr,
    message_block_2_start_addr, message_record_size.
  intros H. destruct (i <? 15) eqn:E;
    [apply Z.ltb_lt in E|apply Z.ltb_ge in E]; lia.
Qed.

Lemma str_prefix_all (s : string) (k : nat) :
  (String.length s <= k)%nat -> str_prefix k s = s.
Proof.
  revert k. induction s as [|c s IH]; intros k H; [now destruct k|].
  destruct k as [|k]; cbn [String.length] in H; [lia|].
  cbn [str_prefix]. rewrite IH; [reflexivity|lia].
Qed.

(** A message of the document as [compileCodeplug] can store it and
    [decompileCodeplug] return it. *)
Lemma compile_messages_effect (messages : list string) :
  forall (i0 : Z) (template : list Z),
    0 <= i0 -> i0 + len messages <= 100 -> 0x1206 <= len template ->
    Forall (fun s => succeeds (encode_ascii s) = true
                     /\ (String.length s <= 40)%nat) messages ->
    exists template',
      for_each (enumerate_from i0 (map VStr messages))
        (fun template '(i, message) =>
           let start_address := start_address i in
           match message with
           | VStr s =>
               encoded_str <- encode_ascii (str_prefix (Z.to_nat message_record_size) s) ;;
               Ok (slice_assign template start_address
                     (start_address + len encoded_str) encoded_str)
           | _ => Raise TypeError
           end)
        template = Ok template'
      /\ len template' = len template
      /\ (forall j, 0 <= j ->
            (forall k, 0 <= k < len messages ->
               ~ (start_of_message (i0 + k) <= j < start_of_message (i0 + k) + 40)) ->
            byte_at template' j = byte_at template j)
      /\ forall (k : nat) (s : string) (encoded : list Z),
           nth_error messages k = Some s -> encode_ascii s = Ok encoded ->
           forall p, 0 <= p < 40 ->
             byte_at template' (start_of_message (i0 + Z.of_nat k) + p)
             = if p <? len encoded then byte_at encoded p
               else byte_at template (start_of_message (i0 + Z.of_nat k) + p).
Proof.
  induction messages as [|s messages IH]; intros i0 template Hi Hn Hlen Hok.
  - exists template. cbn. split; [reflexivity|]. split; [reflexivity|].
    split; [reflexivity|]. intros [|k] ? ? Hk; discriminate Hk.
  - rewrite len_cons in Hn. assert (0 <= len messages) by (unfold len; lia).
    inversion Hok as [|? ? [Henc Hshort] Hrest]; subst.
    cbn [map enumerate_from for_each]. cbv beta zeta.
    unfold message_record_size. change (Z.to_nat 40) with 40%nat.
    rewrite (str_prefix_all s 40 Hshort).
    destruct (encode_ascii s) as [encoded|] eqn:Ee; [|discriminate Henc].
    cbn [bind]. rewrite start_address_same.
    destruct (encode_ascii_spec s encoded Ee) as (_ & Hle & _).
    destruct (message_window_bounds i0 ltac:(lia)) as [Hw0 Hw1].
    assert (Hl1 : len (slice_assign template (start_of_message i0)
                         (start_of_message i0 + len encoded) encoded) = len template)
      by (apply len_slice_assign; lia).
    destruct (IH (i0 + 1)
                (slice_assign template (start_of_message i0)
                   (start_of_message i0 + len encoded) encoded))
      as (template' & Hw & Hl & Hframe & Hwin); [lia|lia|lia|exact Hrest|].
    exists template'. split; [exact Hw|]. split; [lia|]. split.
    + intros j Hj Hout. rewrite Hframe.
      * rewrite byte_at_slice_assign by lia.
        specialize (Hout 0 ltac:(rewrite len_cons; lia)).
        rewrite Z.add_0_r in Hout.
        replace ((start_of_message i0 <=? j)
                 && (j <? start_of_message i0 + len encoded)) with false by lia.
        reflexivity.
      * exact Hj.
      * intros k Hk. specialize (Hout (k + 1) ltac:(rewrite len_cons; lia)).
        now replace (i0 + 1 + k) with (i0 + (k + 1)) by lia.
    + intros [|k] s' encoded' Hk He' p Hp.
      * cbn [nth_error] in Hk. injection Hk as <-. rewrite Ee in He'.
        injection He' as <-. cbn [Z.of_nat]. rewrite Z.add_0_r.
        rewrite Hframe.
        -- rewrite byte_at_slice_assign by lia.
           replace ((start_of_message i0 <=? start_of_message i0 + p)
                    && (start_of_message i0 + p <? start_of_message i0 + len encoded))
             with (p <? len encoded) by lia.
           destruct (p <? len encoded); [|reflexivity].
           f_equal. lia.
        -- lia.
        -- intros k Hk.
           destruct (message_windows_disjoint i0 (i0 + 1 + k)) as [Hd|Hd];
             [lia|unfold message_block_1_count, message_block_2_count; lia| |];
             unfold message_record_size in Hd; lia.
      * cbn [nth_error] in Hk.
        replace (i0 + Z.of_nat (S k)) with (i0 + 1 + Z.of_nat k) by lia.
        rewrite (Hwin k s' encoded' Hk He' p Hp).
        destruct (p <? len encoded'); [reflexivity|].
        assert (Hkn : (k < List.length messages)%nat)
          by (apply nth_error_Some; rewrite Hk; discriminate).
        destruct (message_window_bounds (i0 + 1 + Z.of_nat k)
                    ltac:(unfold len in *; lia)) as [Hk0 Hk1].
        rewrite byte_at_slice_assign by lia.
        destruct (message_windows_disjoint i0 (i0 + 1 + Z.of_nat k)) as [Hd|Hd];
          [lia|unfold message_block_1_count, message_block_2_count, len in *; lia| |];
          unfold message_record_size in Hd;
          match goal with |- (if ?c then _ else _) = _ =>
            replace c with false by lia end; reflexivity.
Qed.

Lemma window_holds (data : list Z) (a : Z) (encoded : list Z) :
  0 <= a -> len encoded <= 40 ->
  (forall p, 0 <= p < 40 ->
     byte_at data (a + p) = if p <? len encoded then byte_at encoded p else Ok 0) ->
  slice data a (a + 40) = encoded ++ repeat 0 (Z.to_nat (40 - len encoded)).
Proof.
  intros Ha Hl H. apply nth_error_ext. intros k. rewrite nth_error_slice.
  destruct (Z.of_nat k <? a + 40 - a) eqn:E;
    [apply Z.ltb_lt in E|apply Z.ltb_ge in E].
  - specialize (H (Z.of_nat k) ltac:(lia)).
    replace (Z.to_nat a + k)%nat with (Z.to_nat (a + Z.of_nat k)) by lia.
    destruct (Z.of_nat k <? len encoded) eqn:E2;
      [apply Z.ltb_lt in E2|apply Z.ltb_ge in E2]; unfold len in *.
    + apply byte_at_same_nth in H. rewrite Nat2Z.id in H.
      rewrite nth_error_app1 by lia. exact H.
    + apply byte_at_nth in H. rewrite H, nth_error_app2 by lia.
      symmetry. apply nth_error_repeat. lia.
  - symmetry. apply nth_error_None. rewrite length_app, repeat_length.
    unfold len in *. lia.
Qed.

Lemma window_text (data : list Z) (a : Z) (s : string) (encoded : list Z) :
  0 <= a -> encode_ascii s = Ok encoded -> len encoded <= 40 ->
  (forall p, 0 <= p < 40 ->
     byte_at data (a + p) = if p <? len encoded then byte_at encoded p else Ok 0) ->
  exists t, decode_ascii (slice data a (a + 40)) = Ok t /\ rstrip_nul t = rstrip_nul s.
Proof.
  intros Ha He Hl H. rewrite (window_holds data a encoded Ha Hl H).
  destruct (encode_ascii_spec s encoded He) as (Hd & _ & _).
  eexists. split.
  - apply decode_ascii_app; [exact Hd|apply decode_ascii_zeros].
  - apply rstrip_nul_padded.
Qed.

Lemma blank_messages_skipped (data : list Z) (c : nat) :
  forall (i0 : nat) (st : message_loop),
    (forall i, (i0 <= i < i0 + c)%nat ->
       exists t, decode_ascii (slice data (start_of_message (Z.of_nat i))
                                 (start_of_message (Z.of_nat i) + message_record_size))
                 = Ok t /\ rstrip_nul t = "") ->
    exists m,
      for_each (map Z.of_nat (seq i0 c)) (quick_message_step data) st
      = Ok {| msg_str := m; quick_messages := quick_messages st;
              skipped := skipped st |}.
Proof.
  induction c as [|c IH]; intros i0 st H; cbn [seq map for_each].
  - exists (msg_str st). now destruct st.
  - destruct (H i0 ltac:(lia)) as (t & Ht & Hs).
    unfold quick_message_step at 1. cbv zeta. rewrite Ht. cbn [msg_str].
    rewrite Hs. cbn [String.eqb negb bind quick_messages skipped].
    destruct (IH (S i0) {| msg_str := Some ""; quick_messages := quick_messages st;
                           skipped := skipped st |}) as [m Hm].
    + intros i Hi. apply H. lia.
    + exists m. exact Hm.
Qed.

Lemma stored_messages_read (data : list Z) (messages : list string) :
  forall (i0 : nat) (st : message_loop),
    (i0 + List.length messages <= 100)%nat ->
    (forall k s, nth_error messages k = Some s ->
       s <> ""
       /\ exists t, decode_ascii
                      (slice data (start_of_message (Z.of_nat (i0 + k)))
                         (start_of_message (Z.of_nat (i0 + k)) + message_record_size))
                    = Ok t /\ rstrip_nul t = s) ->
    (forall i, (i0 + List.length messages <= i < 100)%nat ->
       exists t, decode_ascii (slice data (start_of_message (Z.of_nat i))
                                 (start_of_message (Z.of_nat i) + message_record_size))
                 = Ok t /\ rstrip_nul t = "") ->
    exists m,
      for_each (map Z.of_nat (seq i0 (100 - i0))) (quick_message_step data) st
      = Ok {| msg_str := m;
              quick_messages := quick_messages st ++ map VStr messages;
              skipped := skipped st |}.
Proof.
  induction messages as [|s messages IH]; intros i0 st Hn Hin Hblank.
  - cbn [map]. rewrite app_nil_r. apply blank_messages_skipped.
    intros i Hi. apply Hblank. cbn [List.length]. lia.
  - cbn [List.length] in Hn.
    replace (100 - i0)%nat with (S (100 - S i0)) by lia.
    cbn [seq map for_each].
    destruct (Hin 0%nat s eq_refl) as (Hne & t & Ht & Hs).
    rewrite Nat.add_0_r in Ht.
    unfold quick_message_step at 1. cbv zeta. rewrite Ht. cbn [msg_str].
    rewrite Hs. apply String.eqb_neq in Hne. rewrite Hne.
    cbn [negb bind quick_messages skipped].
    destruct (IH (S i0) {| msg_str := Some s;
                           quick_messages := quick_messages st ++ [VStr s];
                           skipped := skipped st |}) as [m Hm].
    + lia.
    + intros k s' Hk. specialize (Hin (S k) s' Hk).
      now replace (S i0 + k)%nat with (i0 + S k)%nat by lia.
    + intros i Hi. apply Hblank. cbn [List.length]. lia.
    + exists m. rewrite Hm. cbn [quick_messages skipped map].
      now rewrite <- app_assoc.
Qed.

(** At most a hundred messages, each non-empty ASCII text of at most 40
    characters that does not end in NUL, written into a buffer whose message
    slots are blank, are read back as the same list, in order, with no
    record skipped; outside the slots written nothing changes. *)
Theorem quick_messages_round_trip (template : list Z) (codeplug : dict)
    (messages : list string) :
  dict_lookup "Quick messages" codeplug = Some (VList (map VStr messages)) ->
  len messages <= 100 ->
  Forall (fun s => succeeds (encode_ascii s) = true
                   /\ (String.length s <= 40)%nat
                   /\ rstrip_nul s = s /\ s <> "") messages ->
  0x1206 <= len template ->
  (forall i p, 0 <= i < 100 -> 0 <= p < 40 ->
     byte_at template (start_of_message i + p) = Ok 0) ->
  exists template' result,
    compile_quick_messages template codeplug = Ok template'
    /\ len template' = len template
    /\ (forall j, 0 <= j ->
          (forall i, 0 <= i < len messages ->
             ~ (start_of_message i <= j < start_of_message i + 40)) ->
          byte_at template' j = byte_at template j)
    /\ decompile_quick_messages template' = Ok result
    /\ quick_messages result = map VStr messages
    /\ skipped result = [].
Proof.
  intros Hq Hn Hok Hlen Hblank.
  destruct (compile_messages_effect messages 0 template)
    as (template' & Hw & Hl & Hframe & Hwin); [lia|lia|exact Hlen| |].
  { eapply Forall_impl; [|exact Hok]. cbv beta. tauto. }
  assert (Hread : forall k s, nth_error messages k = Some s ->
            s <> ""
            /\ exists t, decode_ascii
                 (slice template' (start_of_message (Z.of_nat (0 + k)))
                    (start_of_message (Z.of_nat (0 + k)) + message_record_size))
                 = Ok t /\ rstrip_nul t = s).
  { intros k s Hk.
    destruct (proj1 (Forall_forall _ _) Hok s (nth_error_In _ _ Hk))
      as (Henc & Hshort & Hstrip & Hne).
    split; [exact Hne|].
    destruct (encode_ascii s) as [encoded|] eqn:Ee; [|discriminate Henc].
    destruct (encode_ascii_spec s encoded Ee) as (_ & Hle & _).
    assert (Hkn : (k < List.length messages)%nat)
      by (apply nth_error_Some; rewrite Hk; discriminate).
    destruct (message_window_bounds (Z.of_nat k) ltac:(unfold len in *; lia))
      as [Hk0 Hk1].
    rewrite Nat.add_0_l.
    destruct (window_text template' (start_of_message (Z.of_nat k)) s encoded Hk0 Ee)
      as (t & Ht & Hs); [lia| |exists t; split; [exact Ht|congruence]].
    intros p Hp. pose proof (Hwin k s encoded Hk Ee p Hp) as Hb.
    rewrite Z.add_0_l in Hb. rewrite Hb.
    destruct (p <? len encoded); [reflexivity|].
    apply Hblank; [unfold len in *; lia|exact Hp]. }
  assert (Hrest : forall i, (0 + List.length messages <= i < 100)%nat ->
            exists t, decode_ascii
                 (slice template' (start_of_message (Z.of_nat i))
                    (start_of_message (Z.of_nat i) + message_record_size))
                 = Ok t /\ rstrip_nul t = "").
  { intros i Hi.
    destruct (message_window_bounds (Z.of_nat i) ltac:(lia)) as [Hi0 Hi1].
    apply (window_text template' _ "" [] Hi0 eq_refl); [cbn; lia|].
    intros p Hp. change (p <? len (@nil Z)) with (p <? 0).
    replace (p <? 0) with false by lia.
    rewrite Hframe.
    - apply Hblank; lia.
    - lia.
    - intros k Hk.
      destruct (Z.lt_total k (Z.of_nat i)) as [Hlt|[Heq|Hgt]];
        [|unfold len in Hk; lia|unfold len in Hk; lia].
      destruct (message_windows_disjoint k (Z.of_nat i)) as [Hd|Hd];
        [lia|unfold message_block_1_count, message_block_2_count; lia| |];
        unfold message_record_size in Hd; rewrite Z.add_0_l; lia. }
  destruct (stored_messages_read template' messages 0
              {| msg_str := None; quick_messages := []; skipped := [] |})
    as [m Hm]; [unfold len in Hn; lia|exact Hread|exact Hrest|].
  exists template', {| msg_str := m; quick_messages := map VStr messages;
                       skipped := [] |}.
  split.
  { unfold compile_quick_messages, dict_get. rewrite Hq. cbn [bind as_list].
    exact Hw. }
  split; [exact Hl|]. split.
  { intros j Hj Hout. apply Hframe; [exact Hj|].
    intros k Hk. rewrite Z.add_0_l. now apply Hout. }
  split; [exact Hm|]. split; reflexivity.
Qed.

Lemma quick_messages_round_trip_witness :
  exists template' result,
    compile_quick_messages (bytearray 0x2000)
      [("Quick messages", VList (map VStr ["On my way"; "Call me"]))] = Ok template'
    /\ decompile_quick_messages template' = Ok result
    /\ quick_messages result = [VStr "On my way"; VStr "Call me"].
Proof.
  destruct (quick_messages_round_trip (bytearray 0x2000)
              [("Quick messages", VList (map VStr ["On my way"; "Call me"]))]
              ["On my way"; "Call me"])
    as (template' & result & Hc & _ & _ & Hd & Hq & _).
  - reflexivity.
  - vm_compute. discriminate.
  - repeat constructor; discriminate.
  - vm_compute. discriminate.
  - intros i p Hi Hp.
    destruct (message_window_bounds i Hi) as [H0 H1].
    destruct (byte_at_ok (bytearray 0x2000) (start_of_message i + p)) as [b Hb].
    + rewrite len_bytearray; lia.
    + rewrite Hb. f_equal. exact (byte_at_bytearray _ _ _ Hb).
  - exists template', result. split; [exact Hc|]. split; [exact Hd|exact Hq].
Defined.

Lemma for_each_app {A S} (xs ys : list A) (f : S -> A -> outcome S) (s : S) :
  for_each (xs ++ ys) f s = (s' <- for_each xs f s ;; for_each ys f s').
Proof.
  revert s. induction xs as [|x xs IH]; intros s; cbn [app for_each bind];
    [reflexivity|].
  destruct (f s x); cbn [bind]; [apply IH|reflexivity].
Qed.

(** The slot of the hundredth quick message is the first forty bytes of the
    APRS DMR channel records.  Whenever those bytes are ASCII and not all
    NUL, the decoded list of quick messages ends with them, as a message the
    document never held. *)
Theorem aprs_channels_read_as_message (data : list Z) (result : message_loop)
    (text : string) :
  decompile_quick_messages data = Ok result ->
  decode_ascii (slice data aprs_dmr_channel_start_address
                  (aprs_dmr_channel_start_address + 5 * 8)) = Ok text ->
  rstrip_nul text <> "" ->
  start_of_message 99 = aprs_dmr_channel_start_address
  /\ exists earlier, quick_messages result = earlier ++ [VStr (rstrip_nul text)].
Proof.
  intros H Ht Hne. split; [reflexivity|].
  unfold decompile_quick_messages in H.
  change (range (message_block_1_count + message_block_2_count))
    with (range 99 ++ [99]) in H.
  rewrite for_each_app in H. inv_bind H. cbn [for_each] in H.
  unfold quick_message_step in H. cbv zeta in H.
  change (start_of_message 99) with aprs_dmr_channel_start_address in H.
  change (aprs_dmr_channel_start_address + message_record_size)
    with (aprs_dmr_channel_start_address + 5 * 8) in H.
  rewrite Ht in H. cbn [msg_str quick_messages skipped] in H.
  apply String.eqb_neq in Hne. rewrite Hne in H. cbn [negb bind] in H.
  injection H as <-. cbn [quick_messages]. eauto.
Qed.

Lemma aprs_channels_read_as_message_witness :
  exists result earlier,
    decompile_quick_messages
      (slice_assign (bytearray 0x2000) aprs_dmr_channel_start_address
         (aprs_dmr_channel_start_address + 1) [1]) = Ok result
    /\ quick_messages result = earlier ++ [VStr (String (ascii_of_nat 1) "")].
Proof.
  destruct (decompile_quick_messages
              (slice_assign (bytearray 0x2000) aprs_dmr_channel_start_address
                 (aprs_dmr_channel_start_address + 1) [1])) as [result|] eqn:E;
    [|vm_compute in E; discriminate E].
  destruct (aprs_channels_read_as_message _ result
              (String (ascii_of_nat 1)
                 (string_of_list_ascii (repeat Ascii.zero 39))) E)
    as (_ & earlier & He).
  - vm_compute. reflexivity.
  - vm_compute. discriminate.
  - exists result, earlier. split; [reflexivity|exact He].
Defined.

(** *** Transfers over the serial port *)

Lemma pad_to_blocks_spec (data : list Z) :
  len (pad_to_blocks data) mod 2048 = 0
  /\ len data <= len (pad_to_blocks data) < len data + 2048
  /\ exists k, pad_to_blocks data = data ++ repeat 0 k.
Proof.
  unfold pad_to_blocks. cbv zeta.
  assert (H0 : 0 <= len data) by (unfold len; lia).
  destruct (len data mod 2048 =? 0) eqn:E; cbn [negb].
  - apply Z.eqb_eq in E. split; [exact E|]. split; [lia|].
    exists 0%nat. cbn. now rewrite app_nil_r.
  - apply Z.eqb_neq in E.
    assert (Hl : len (data ++ repeat 0 (Z.to_nat (2048 - len data mod 2048)))
                 = len data + (2048 - len data mod 2048)).
    { unfold len. rewrite length_app, repeat_length.
      pose proof (Z.mod_pos_bound (Z.of_nat (List.length data)) 2048 ltac:(lia)). lia. }
    rewrite Hl. split; [|split; [|eauto]].
    + Z.div_mod_to_equations. lia.
    + pose proof (Z.mod_pos_bound (len data) 2048 ltac:(lia)). lia.
Qed.

Lemma firstn_plus {A} (a b : nat) (l : list A) :
  firstn (a + b) l = firstn a l ++ firstn b (skipn a l).
Proof.
  revert l. induction a as [|a IH]; intros l; [reflexivity|].
  destruct l as [|x l]; cbn [Nat.add firstn skipn app].
  - now rewrite firstn_nil.
  - now rewrite IH.
Qed.

Lemma blocks_concat (data : list Z) (n : nat) :
  List.concat (map (fun i => slice data (2048 * i) (2048 * (i + 1)))
            (map Z.of_nat (seq 0 n)))
  = firstn (2048 * n)%nat data.
Proof.
  induction n as [|n IH]; [reflexivity|].
  rewrite seq_S, !map_app, concat_app, IH. cbn [map List.concat Nat.add].
  rewrite app_nil_r. unfold slice.
  replace (2048 * S n)%nat with (2048 * n + 2048)%nat by lia.
  rewrite firstn_plus. f_equal. f_equal; [lia|f_equal; lia].
Qed.

Lemma blocks_of_spec (data : list Z) :
  len data mod 2048 = 0 ->
  List.concat (blocks_of data) = data
  /\ len (blocks_of data) = len data / 2048
  /\ Forall (fun block => len block = 2048) (blocks_of data).
Proof.
  intros Hm. unfold blocks_of, range.
  assert (H0 : 0 <= len data) by (unfold len; lia).
  assert (Hn : len data = 2048 * (len data / 2048))
    by (Z.div_mod_to_equations; lia).
  split; [|split].
  - rewrite blocks_concat. apply firstn_all2. unfold len in *. lia.
  - unfold len. rewrite !length_map, length_seq. unfold len in *. lia.
  - apply Forall_forall. intros block Hin. apply in_map_iff in Hin.
    destruct Hin as (i & <- & Hi). apply in_map_iff in Hi.
    destruct Hi as (k & <- & Hk). apply in_seq in Hk.
    rewrite len_slice; lia.
Qed.

Lemma upload_blocks_sent (data : list Z) (block_count : Z) (indices : list Z) :
  forall p : port,
    exists k,
      (k <= List.length indices)%nat
      /\ written (snd (upload_blocks data block_count indices p))
         = written p
           ++ map (fun i => slice data (2048 * i) (2048 * (i + 1))) (firstn k indices)
      /\ (fst (upload_blocks data block_count indices p) = Returned tt ->
          k = List.length indices)
      /\ fst (upload_blocks data block_count indices p) <> Exited 4.
Proof.
  induction indices as [|i rest IH]; intros p; cbn [upload_blocks].
  - exists 0%nat. cbn. rewrite app_nil_r. repeat split; [lia|discriminate].
  - cbv zeta.
    set (block := slice data (2048 * i) (2048 * (i + 1))).
    assert (Hone : forall q e,
               written q = written p ++ [block] ->
               e <> Returned tt -> e <> Exited 4 ->
               exists k,
                 (k <= List.length (i :: rest))%nat
                 /\ written (snd (e, q))
                    = written p
                      ++ map (fun i => slice data (2048 * i) (2048 * (i + 1)))
                           (firstn k (i :: rest))
                 /\ (fst (e, q) = Returned tt -> k = List.length (i :: rest))
                 /\ fst (e, q) <> Exited 4).
    { intros q e Hq He He4. exists 1%nat. cbn [List.length firstn map fst snd].
      split; [lia|]. split; [exact Hq|]. split; [intros H; contradiction|exact He4]. }
    assert (Hmore : forall q,
               written q = written p ++ [block] ->
               exists k,
                 (k <= List.length (i :: rest))%nat
                 /\ written (snd (upload_blocks data block_count rest q))
                    = written p
                      ++ map (fun i => slice data (2048 * i) (2048 * (i + 1)))
                           (firstn k (i :: rest))
                 /\ (fst (upload_blocks data block_count rest q) = Returned tt ->
                     k = List.length (i :: rest))
                 /\ fst (upload_blocks data block_count rest q) <> Exited 4).
    { intros q Hq. destruct (IH q) as (k & Hk & Hw & Hr & H4).
      exists (S k). cbn [List.length firstn map]. split; [lia|].
      split; [rewrite Hw, Hq, <- app_assoc; reflexivity|].
      split; [intros H; f_equal; auto|exact H4]. }
    unfold port_read, port_write. cbn [replies written].
    destruct (replies p) as [|r more]; cbn [decode_ascii String.eqb].
    + rewrite andb_false_r. apply Hone; [reflexivity|discriminate|discriminate].
    + destruct (decode_ascii r) as [s|e].
      * destruct (String.eqb s "Write"); [apply Hmore; reflexivity|].
        destruct ((i =? block_count - 1) && String.eqb s "Check");
          [apply Hmore; reflexivity|].
        apply Hone; [reflexivity|discriminate|discriminate].
      * apply Hone; [reflexivity|discriminate|discriminate].
Qed.

Lemma block_count_small (data : list Z) :
  (len (pad_to_blocks data) / 2048 >? 0xFF) = true <-> 0xFF * 2048 < len data.
Proof.
  destruct (pad_to_blocks_spec data) as (Hm & Hl & _).
  rewrite Z.gtb_ltb, Z.ltb_lt. Z.div_mod_to_equations. lia.
Qed.

(** [uploadCodeplug] leaves with exit code 4 exactly when the data is longer
    than 255 blocks of 2048 bytes, and then it has neither written to the port
    nor read from it. *)
Theorem upload_capacity (p : port) (data : list Z) :
  (fst (uploadCodeplug p data) = Exited 4 <-> 0xFF * 2048 < len data)
  /\ (0xFF * 2048 < len data -> snd (uploadCodeplug p data) = p).
Proof.
  unfold uploadCodeplug. cbv zeta.
  pose proof (block_count_small data) as Hb.
  destruct (len (pad_to_blocks data) / 2048 >? 0xFF) eqn:E.
  - split; [split; [intros _; now apply Hb|reflexivity]|reflexivity].
  - assert (Hn : ~ 0xFF * 2048 < len data)
      by (intros H; apply Hb in H; discriminate H).
    split; [|intros H; contradiction].
    split; [|intros H; contradiction].
    intros H. exfalso.
    destruct (byte_store _ 18 _) as [response|]; [|discriminate H].
    destruct (port_read (port_write p response)) as [bytes q].
    destruct (len bytes <=? 1); [discriminate H|].
    destruct (decode_ascii (slice bytes 2 7)) as [s|]; [|discriminate H].
    destruct (negb (String.eqb s "Write")); [discriminate H|].
    destruct (upload_blocks_sent (pad_to_blocks data)
                (len (pad_to_blocks data) / 2048)
                (range (len (pad_to_blocks data) / 2048)) q) as (_ & _ & _ & _ & H4).
    contradiction.
Qed.

Lemma upload_capacity_witness :
  fst (uploadCodeplug {| replies := []; written := [] |} (bytearray (0xFF * 2048 + 1)))
  = Exited 4.
Proof.
  apply (proj1 (upload_capacity _ _)). rewrite len_bytearray; lia.
Defined.

(** Whatever the radio answers, [uploadCodeplug] writes to the port nothing
    but a 31-byte command whose byte 18 is the number of blocks, followed by
    blocks of the padded data, 2048 bytes each, in order; when it returns,
    it has written them all, and together they are the data followed by the
    zeros that pad it to a whole block. *)
Theorem upload_sends_blocks (p : port) (data : list Z) :
  len data <= 0xFF * 2048 ->
  exists command k,
    len command = 31
    /\ byte_at command 18 = Ok (len (blocks_of (pad_to_blocks data)))
    /\ written (snd (uploadCodeplug p data))
       = written p ++ firstn (S k) (command :: blocks_of (pad_to_blocks data))
    /\ Forall (fun block => len block = 2048) (blocks_of (pad_to_blocks data))
    /\ (exists z, List.concat (blocks_of (pad_to_blocks data)) = data ++ repeat 0 z)
    /\ (fst (uploadCodeplug p data) = Returned tt ->
        written (snd (uploadCodeplug p data))
        = written p ++ command :: blocks_of (pad_to_blocks data)).
Proof.
  intros Hlen.
  destruct (pad_to_blocks_spec data) as (Hm & Hl & z & Hz).
  destruct (blocks_of_spec (pad_to_blocks data) Hm) as (Hc & Hn & Hall).
  assert (Hsmall : (len (pad_to_blocks data) / 2048 >? 0xFF) = false).
  { destruct (len (pad_to_blocks data) / 2048 >? 0xFF) eqn:E; [|reflexivity].
    apply block_count_small in E. lia. }
  assert (Hcount : 0 <= len (pad_to_blocks data) / 2048 < 256).
  { rewrite Z.gtb_ltb in Hsmall. apply Z.ltb_ge in Hsmall.
    assert (0 <= len (pad_to_blocks data)) by (unfold len; lia).
    split; [apply Z.div_pos; lia|lia]. }
  destruct (byte_store_ok
              (literal "Flash Write"
               ++ [0x00; 0x3c; 0x00; 0x00; 0x00; 0x00; 0x00; 0xFF; 0x00; 0x00;
                   0x00; 0x00; 0x00; 0x00; 0x00; 0x00; 0x00; 0x00; 0x00; 0x00])
              18 (len (pad_to_blocks data) / 2048))
    as (command & Hstore & Hcl & Hat); [vm_compute; split; congruence|exact Hcount|].
  unfold uploadCodeplug. cbv zeta. rewrite Hsmall, Hstore.
  exists command.
  assert (Hhead : forall e q,
            written q = written p ++ [command] -> e <> Returned tt ->
            exists k,
              len command = 31
              /\ byte_at command 18 = Ok (len (blocks_of (pad_to_blocks data)))
              /\ written (snd (e, q))
                 = written p ++ firstn (S k) (command :: blocks_of (pad_to_blocks data))
              /\ Forall (fun block => len block = 2048) (blocks_of (pad_to_blocks data))
              /\ (exists z, List.concat (blocks_of (pad_to_blocks data))
                            = data ++ repeat 0 z)
              /\ (fst (e, q) = Returned tt ->
                  written (snd (e, q))
                  = written p ++ command :: blocks_of (pad_to_blocks data))).
  { intros e q Hq He. exists 0%nat. cbn [fst snd firstn].
    split; [exact Hcl|]. split; [rewrite (Hat 18 ltac:(lia)), Hn; reflexivity|].
    split; [exact Hq|]. split; [exact Hall|]. split; [exists z; congruence|].
    intros H. contradiction. }
  unfold port_read, port_write. cbn [replies written].
  destruct (replies p) as [|bytes more].
  - change (len (@nil Z) <=? 1) with true. cbv iota.
    apply Hhead; [reflexivity|discriminate].
  - destruct (len bytes <=? 1); [apply Hhead; [reflexivity|discriminate]|].
    destruct (decode_ascii (slice bytes 2 7)) as [s|e];
      [|apply Hhead; [reflexivity|discriminate]].
    destruct (negb (String.eqb s "Write"));
      [apply Hhead; [reflexivity|discriminate]|].
    destruct (upload_blocks_sent (pad_to_blocks data)
                (len (pad_to_blocks data) / 2048)
                (range (len (pad_to_blocks data) / 2048))
                {| replies := more; written := written p ++ [command] |})
      as (k & Hk & Hw & Hr & _).
    cbn [written] in Hw. exists k.
    split; [exact Hcl|]. split; [rewrite (Hat 18 ltac:(lia)), Hn; reflexivity|].
    split.
    { rewrite Hw, <- app_assoc. cbn [firstn app]. unfold blocks_of.
      now rewrite firstn_map. }
    split; [exact Hall|]. split; [exists z; congruence|].
    intros Hret. rewrite Hw, (Hr Hret), firstn_all, <- app_assoc. reflexivity.
Qed.

Lemma upload_sends_blocks_witness :
  exists command k,
    byte_at command 18 = Ok (len (blocks_of (pad_to_blocks (bytearray 5000))))
    /\ written (snd (uploadCodeplug {| replies := []; written := [] |} (bytearray 5000)))
       = firstn (S k) (command :: blocks_of (pad_to_blocks (bytearray 5000))).
Proof.
  destruct (upload_sends_blocks {| replies := []; written := [] |} (bytearray 5000))
    as (command & k & _ & H18 & Hw & _).
  - rewrite len_bytearray; lia.
  - exists command, k. split; [exact H18|exact Hw].
Defined.

Lemma upload_blocks_acknowledged (data : list Z) (block_count : Z)
    (indices : list Z) :
  forall (p : port) (more : list (list Z)),
    replies p = repeat (literal "Write") (List.length indices) ++ more ->
    fst (upload_blocks data block_count indices p) = Returned tt
    /\ replies (snd (upload_blocks data block_count indices p)) = more.
Proof.
  induction indices as [|i rest IH]; intros p more Hr; cbn [upload_blocks].
  - cbn in Hr. now split.
  - cbv zeta. unfold port_read, port_write. cbn [replies written List.length repeat app] in *.
    rewrite Hr. change (decode_ascii (literal "Write")) with (Ok (A := string) "Write").
    cbv iota. change (String.eqb "Write" "Write") with true. cbv iota.
    apply IH. reflexivity.
Qed.

(** With a radio that answers the command by a reply of more than one byte
    carrying "Write" at bytes 2 to 6, and each block by "Write",
    [uploadCodeplug] returns after reading exactly those replies. *)
Theorem upload_completes (p : port) (data : list Z)
    (handshake : list Z) (more : list (list Z)) :
  len data <= 0xFF * 2048 ->
  1 < len handshake ->
  decode_ascii (slice handshake 2 7) = Ok "Write" ->
  replies p
  = handshake
    :: repeat (literal "Write") (Z.to_nat (len (pad_to_blocks data) / 2048)) ++ more ->
  fst (uploadCodeplug p data) = Returned tt
  /\ replies (snd (uploadCodeplug p data)) = more.
Proof.
  intros Hlen Hh Hd Hr.
  assert (Hsmall : (len (pad_to_blocks data) / 2048 >? 0xFF) = false).
  { destruct (len (pad_to_blocks data) / 2048 >? 0xFF) eqn:E; [|reflexivity].
    apply block_count_small in E. lia. }
  assert (Hcount : 0 <= len (pad_to_blocks data) / 2048 < 256).
  { rewrite Z.gtb_ltb in Hsmall. apply Z.ltb_ge in Hsmall.
    assert (0 <= len (pad_to_blocks data)) by (unfold len; lia).
    split; [apply Z.div_pos; lia|lia]. }
  destruct (byte_store_ok
              (literal "Flash Write"
               ++ [0x00; 0x3c; 0x00; 0x00; 0x00; 0x00; 0x00; 0xFF; 0x00; 0x00;
                   0x00; 0x00; 0x00; 0x00; 0x00; 0x00; 0x00; 0x00; 0x00; 0x00])
              18 (len (pad_to_blocks data) / 2048))
    as (command & Hstore & _); [vm_compute; split; congruence|exact Hcount|].
  unfold uploadCodeplug. cbv zeta. rewrite Hsmall, Hstore.
  unfold port_read, port_write. cbn [replies written]. rewrite Hr.
  replace (len handshake <=? 1) with false by lia.
  rewrite Hd. change (negb (String.eqb "Write" "Write")) with false. cbv iota.
  apply upload_blocks_acknowledged. cbn [replies].
  unfold range. now rewrite length_map, length_seq.
Qed.

Lemma upload_completes_witness :
  fst (uploadCodeplug
         {| replies := [0; 0; 87; 114; 105; 116; 101]
                       :: repeat (literal "Write") 3;
            written := [] |}
         (bytearray 5000))
  = Returned tt.
Proof.
  apply (upload_completes _ (bytearray 5000) [0; 0; 87; 114; 105; 116; 101] []).
  - rewrite len_bytearray; lia.
  - vm_compute. reflexivity.
  - reflexivity.
  - vm_compute. reflexivity.
Defined.

Lemma download_blocks_spec (pages : nat) :
  forall (plug : list Z) (p : port),
    download_blocks pages plug p
    = (plug ++ List.concat (firstn pages (replies p)),
       {| replies := skipn pages (replies p);
          written := written p ++ repeat (literal "Read") pages |}).
Proof.
  induction pages as [|pages IH]; intros plug p.
  - cbn. rewrite !app_nil_r. now destruct p.
  - cbn [download_blocks]. cbv zeta. unfold port_read, port_write.
    cbn [replies written].
    destruct (replies p) as [|block rest] eqn:Er.
    + rewrite IH. cbn [replies written].
      rewrite firstn_nil, skipn_nil. cbn [List.concat firstn skipn repeat].
      rewrite !app_nil_r, <- app_assoc. reflexivity.
    + rewrite IH. cbn [replies written firstn skipn List.concat repeat].
      rewrite <- !app_assoc. reflexivity.
Qed.

(** [downloadCodeplug] sends the two parts of its command and, when the
    radio's reply holds more than 20 bytes, as many "Read" requests as bytes
    18 and 20 of that reply add up to; what it returns is what the radio sent
    back for them, end to end, whatever the length of each answer: a read that
    times out shortens the image and is not reported.  A reply of 2 to 20
    bytes ends the function with [IndexError]; a shorter one with exit code
    1. *)
Theorem download_collects (p : port) :
  let command :=
    [literal "Flash Read ";
     [0x00; 0x3c; 0x00; 0x00; 0x00; 0x00; 0x00; 0x39; 0x00; 0x00;
      0x00; 0x00; 0x00; 0x00; 0x00; 0x00; 0x00; 0x00; 0x00; 0x00]] in
  let response := hd [] (replies p) in
  let blocks := tl (replies p) in
  (len response <= 1 -> fst (downloadCodeplug p) = Exited 1)
  /\ (1 < len response <= 20 -> fst (downloadCodeplug p) = Raised IndexError)
  /\ (forall a b,
        byte_at response 18 = Ok a -> byte_at response 20 = Ok b ->
        downloadCodeplug p
        = (Returned (List.concat (firstn (Z.to_nat (a + b)) blocks)),
           {| replies := skipn (Z.to_nat (a + b)) blocks;
              written := written p ++ command
                         ++ repeat (literal "Read") (Z.to_nat (a + b)) |})).
Proof.
  cbv zeta. unfold downloadCodeplug. cbv zeta.
  unfold port_read, port_write. cbn [replies written].
  destruct (replies p) as [|response blocks]; cbn [hd tl].
  - split; [reflexivity|]. split; [intros H; cbn in H; lia|].
    intros a b Ha. discriminate Ha.
  - split; [|split].
    + intros H. now replace (len response <=? 1) with true by lia.
    + intros H. replace (len response <=? 1) with false by lia.
      unfold byte_at at 1.
      destruct (nth_error response (Z.to_nat 18)) eqn:E18.
      * unfold byte_at.
        destruct (nth_error response (Z.to_nat 20)) eqn:E20; [|reflexivity].
        assert (Hs : nth_error response (Z.to_nat 20) <> None)
          by (rewrite E20; discriminate).
        apply nth_error_Some in Hs. unfold len in H. lia.
      * reflexivity.
    + intros a b Ha Hb.
      assert (H20 : 20 < len response) by (apply (byte_at_bound _ _ b); [lia|exact Hb]).
      replace (len response <=? 1) with false by lia.
      rewrite Ha, Hb, download_blocks_spec. cbn [replies written app].
      rewrite <- !app_assoc. reflexivity.
Qed.

Lemma download_collects_witness :
  fst (downloadCodeplug {| replies := [[0; 1; 2]; [7; 7]]; written := [] |})
  = Raised IndexError.
Proof.
  apply (proj1 (proj2 (download_collects
                         {| replies := [[0; 1; 2]; [7; 7]]; written := [] |}))).
  vm_compute. split; [reflexivity|discriminate].
Defined.

(** *** Records placed in a block, and read back from it *)

Lemma slice_slice (data : list Z) (a b c d : Z) :
  0 <= a -> 0 <= c -> a + d <= b ->
  slice (slice data a b) c d = slice data (a + c) (a + d).
Proof.
  intros Ha Hc Hd. apply nth_error_ext. intros k. rewrite !nth_error_slice.
  destruct (Z.of_nat k <? d - c) eqn:E; [apply Z.ltb_lt in E|apply Z.ltb_ge in E].
  - replace (Z.of_nat k <? a + d - (a + c)) with true by lia.
    assert (H1 : Z.of_nat (Z.to_nat c + k) < b - a) by lia.
    apply Z.ltb_lt in H1. rewrite H1. f_equal. lia.
  - now replace (Z.of_nat k <? a + d - (a + c)) with false by lia.
Qed.

(** A loop that copies one record per item into consecutive slots of
    [size] bytes from [base] on: [records] are the records its body places
    for the items. *)
Lemma place_records (base size total : Z)
    (body : list Z -> Z * value -> outcome (list Z)) (items : list value) :
  forall (records : list (list Z)) (start : Z) (template : list Z),
    Forall2 (fun x r =>
               len r = size
               /\ forall t count,
                    len t = total -> 0 <= count ->
                    base + size * (count + 1) <= total ->
                    body t (count, x)
                    = Ok (slice_assign t (base + size * count)
                            (base + size * (count + 1)) r))
      items records ->
    len template = total ->
    0 <= base -> 0 <= size -> 0 <= start ->
    base + size * (start + len items) <= total ->
    exists template',
      for_each (enumerate_from start items) body template = Ok template'
      /\ len template' = total
      /\ (forall j, 0 <= j ->
            j < base + size * start \/ base + size * (start + len items) <= j ->
            byte_at template' j = byte_at template j)
      /\ forall (i : nat) (r : list Z),
           nth_error records i = Some r ->
           slice template' (base + size * (start + Z.of_nat i))
             (base + size * (start + Z.of_nat i + 1)) = r.
Proof.
  induction items as [|x items IH];
    intros records start template Hb Htot Hbase Hsize Hs Hlen;
    inversion Hb as [|? r ? rest [Hr Hx] Hrest]; subst.
  - exists template. cbn [enumerate_from for_each].
    split; [reflexivity|]. split; [reflexivity|]. split; [reflexivity|].
    intros [|i] r H; discriminate H.
  - rewrite len_cons in *. assert (Hpos : 0 <= len items) by (unfold len; lia).
    cbn [enumerate_from for_each].
    rewrite (Hx template start eq_refl Hs ltac:(nia)). cbn [bind].
    set (a := base + len r * start) in *.
    set (t1 := slice_assign template a (base + len r * (start + 1)) r).
    assert (Hl1 : len t1 = len template)
      by (apply len_slice_assign; subst a; nia).
    destruct (IH rest (start + 1) t1) as (t2 & Hf & Hl2 & Hfr & Hrec);
      [exact Hrest|exact Hl1|lia|lia|lia|nia|].
    exists t2. split; [exact Hf|]. split; [congruence|]. split.
    + intros j Hj Hout. rewrite Hfr by nia.
      unfold t1. rewrite byte_at_slice_assign by (subst a; nia).
      replace ((a <=? j) && (j <? base + len r * (start + 1))) with false;
        [reflexivity|].
      symmetry. apply andb_false_iff. subst a.
      destruct Hout; [left; apply Z.leb_gt|right; apply Z.ltb_ge]; nia.
    + intros [|i] it Hnth; cbn [nth_error] in Hnth.
      * injection Hnth as <-.
        replace (base + len r * (start + Z.of_nat 0)) with a by (subst a; lia).
        replace (base + len r * (start + Z.of_nat 0 + 1)) with (a + len r)
          by (subst a; lia).
        transitivity (slice t1 a (a + len r)).
        -- apply slice_ext; [subst a; nia|].
           intros j Hj. apply Hfr; subst a; nia.
        -- unfold t1. replace (base + len r * (start + 1)) with (a + len r)
             by (subst a; lia).
           apply slice_of_slice_assign; subst a; nia.
      * specialize (Hrec i it Hnth).
        replace (start + Z.of_nat (S i)) with (start + 1 + Z.of_nat i) by lia.
        exact Hrec.
Qed.

(** The loop that reads a fixed number of slots and keeps the records
    found in them: when the first slots hold the records of [found] and the
    others nothing, it returns [found]. *)
Lemma collect_records (read : Z -> outcome (option dict)) (found : list dict) :
  forall (i0 total : nat) (acc : list value),
    (i0 + List.length found <= total)%nat ->
    (forall k d, nth_error found k = Some d -> read (Z.of_nat (i0 + k)) = Ok (Some d)) ->
    (forall i, (i0 + List.length found <= i < total)%nat ->
               read (Z.of_nat i) = Ok None) ->
    for_each (map Z.of_nat (seq i0 (total - i0)))
      (fun acc i =>
         r <- read i ;;
         match r with
         | Some record => Ok (acc ++ [VDict record])
         | None => Ok acc
         end)
      acc
    = Ok (acc ++ map VDict found).
Proof.
  induction found as [|d found IH]; intros i0 total acc Hn Hin Hnone.
  - cbn [map]. rewrite app_nil_r. cbn [List.length] in *.
    clear Hin. remember (total - i0)%nat as c eqn:Hc.
    revert i0 Hn Hnone Hc. induction c as [|c IHc]; intros i0 Hn Hnone Hc;
      cbn [seq map for_each]; [reflexivity|].
    rewrite (Hnone i0 ltac:(lia)). cbn [bind]. apply IHc; [lia| |lia].
    intros i Hi. apply Hnone. lia.
  - cbn [List.length] in Hn.
    replace (total - i0)%nat with (S (total - S i0)) by lia.
    cbn [seq map for_each].
    pose proof (Hin 0%nat d eq_refl) as H0. rewrite Nat.add_0_r in H0.
    rewrite H0. cbn [bind].
    rewrite (IH (S i0) total (acc ++ [VDict d])).
    + cbn [map]. now rewrite <- app_assoc.
    + lia.
    + intros k d' Hk. specialize (Hin (S k) d' Hk).
      now replace (S i0 + k)%nat with (i0 + S k)%nat by lia.
    + intros i Hi. apply Hnone. cbn [List.length]. lia.
Qed.

Lemma dict_lookup_app (k : string) (a b : dict) :
  dict_lookup k (a ++ b)
  = match dict_lookup k a with Some v => Some v | None => dict_lookup k b end.
Proof.
  induction a as [|[k' v] a IH]; cbn [app dict_lookup]; [reflexivity|].
  destruct (String.eqb k k'); [reflexivity|exact IH].
Qed.

Lemma dict_lookup_absent (k : string) (d : dict) :
  ~ In k (map fst d) -> dict_lookup k d = None.
Proof.
  induction d as [|[k' v] d IH]; intros H; cbn [dict_lookup]; [reflexivity|].
  destruct (String.eqb k k') eqn:E.
  - apply String.eqb_eq in E. subst k'. exfalso. apply H. now left.
  - apply IH. intros Hin. apply H. now right.
Qed.

Lemma dict_set_fresh (k : string) (v : value) (d : dict) :
  ~ In k (map fst d) -> dict_set k v d = d ++ [(k, v)].
Proof.
  induction d as [|[k' v'] d IH]; intros H; cbn [dict_set app]; [reflexivity|].
  destruct (String.eqb k k') eqn:E.
  - apply String.eqb_eq in E. subst k'. exfalso. apply H. now left.
  - rewrite IH; [reflexivity|]. intros Hin. apply H. now right.
Qed.

(** Encoding reads the record through the keys of the schema only. *)
Lemma toBytes_ext (definitions : schema) (item item' : dict) :
  (forall key g, In (key, g) definitions ->
     dict_lookup key item' = dict_lookup key item) ->
  forall data, toBytes data definitions item' = toBytes data definitions item.
Proof.
  unfold toBytes. induction definitions as [|[key g] rest IH]; intros H data;
    cbn [for_each]; [reflexivity|].
  assert (Hg : dict_get key item' = dict_get key item)
    by (unfold dict_get; rewrite (H key g); [reflexivity|now left]).
  assert (Hf : forall d, field_toBytes d key g item' = field_toBytes d key g item).
  { intros d. destruct g; cbn [field_toBytes]; rewrite ?Hg; reflexivity. }
  rewrite Hf. destruct (field_toBytes data key g item); cbn [bind]; [|reflexivity].
  apply IH. intros k g' Hin. apply (H k g'). now right.
Qed.

(** Decoding reads the bytes of the fields only. *)
Lemma fromBytes_ext (definitions : schema) (d1 d2 : list Z) :
  (forall key g, In (key, g) definitions ->
     0 <= field_start g
     /\ forall j, field_start g <= j < field_stop g -> byte_at d1 j = byte_at d2 j) ->
  fromBytes definitions d1 = fromBytes definitions d2.
Proof.
  intros H. unfold fromBytes. apply for_each_ext. intros acc [key g] Hin.
  destruct (H key g Hin) as [H0 Hb].
  assert (Hf : field_fromBytes g d1 = field_fromBytes g d2); [|now rewrite Hf].
  destruct g as [offset mask enum|offset length|offset length|offset mask
                |offset mask decode encode];
    cbn [field_fromBytes field_start field_stop] in *.
  - rewrite (Hb offset ltac:(lia)). reflexivity.
  - rewrite (slice_ext d1 d2 offset (offset + length) H0 Hb). reflexivity.
  - rewrite (slice_ext d1 d2 offset (offset + length) H0 Hb). reflexivity.
  - rewrite (Hb offset ltac:(lia)). reflexivity.
  - rewrite (Hb offset ltac:(lia)). reflexivity.
Qed.

(** The loop that gathers what it finds in a fixed number of places. *)
Lemma collect_items (pick : Z -> list value) (found : list value) :
  forall (i0 total : nat) (acc : list value),
    (i0 + List.length found <= total)%nat ->
    (forall k v, nth_error found k = Some v -> pick (Z.of_nat (i0 + k)) = [v]) ->
    (forall i, (i0 + List.length found <= i < total)%nat -> pick (Z.of_nat i) = []) ->
    for_each (map Z.of_nat (seq i0 (total - i0)))
      (fun acc i => Ok (acc ++ pick i)) acc
    = Ok (acc ++ found).
Proof.
  induction found as [|d found IH]; intros i0 total acc Hn Hin Hnone.
  - rewrite app_nil_r. cbn [List.length] in *.
    clear Hin. remember (total - i0)%nat as c eqn:Hc.
    revert i0 Hn Hnone Hc. induction c as [|c IHc]; intros i0 Hn Hnone Hc;
      cbn [seq map for_each]; [reflexivity|].
    rewrite (Hnone i0 ltac:(lia)), app_nil_r. cbn [bind]. apply IHc; [lia| |lia].
    intros i Hi. apply Hnone. lia.
  - cbn [List.length] in Hn.
    replace (total - i0)%nat with (S (total - S i0)) by lia.
    cbn [seq map for_each bind].
    pose proof (Hin 0%nat d eq_refl) as H0. rewrite Nat.add_0_r in H0.
    rewrite H0.
    rewrite (IH (S i0) total (acc ++ [d])).
    + now rewrite <- app_assoc.
    + lia.
    + intros k d' Hk. specialize (Hin (S k) d' Hk).
      now replace (S i0 + k)%nat with (i0 + S k)%nat by lia.
    + intros i Hi. apply Hnone. cbn [List.length]. lia.
Qed.

Lemma slice_assign_twice (data : list Z) (a : Z) (x y : list Z) :
  0 <= a -> a + len x + len y <= len data ->
  slice_assign (slice_assign data a (a + len x) x) (a + len x) (a + len x + len y) y
  = slice_assign data a (a + len x + len y) (x ++ y).
Proof.
  intros Ha Hl.
  assert (0 <= len x) by (unfold len; lia).
  assert (0 <= len y) by (unfold len; lia).
  assert (Hl1 : len (slice_assign data a (a + len x) x) = len data)
    by (apply len_slice_assign; lia).
  apply nth_error_ext. intros k. rewrite <- (Nat2Z.id k).
  apply byte_at_same_nth. set (j := Z.of_nat k). assert (Hj : 0 <= j) by lia.
  clearbody j. clear k.
  assert (Hxy : len (x ++ y) = len x + len y)
    by (unfold len; rewrite length_app; lia).
  rewrite !byte_at_slice_assign by lia.
  destruct (Z_lt_le_dec j a);
    [|destruct (Z_lt_le_dec j (a + len x));
      [|destruct (Z_lt_le_dec j (a + len x + len y))]].
  - replace ((a + len x <=? j) && (j <? a + len x + len y)) with false by lia.
    replace ((a <=? j) && (j <? a + len x)) with false by lia.
    replace ((a <=? j) && (j <? a + len x + len y)) with false by lia.
    reflexivity.
  - replace ((a + len x <=? j) && (j <? a + len x + len y)) with false by lia.
    replace ((a <=? j) && (j <? a + len x)) with true by lia.
    replace ((a <=? j) && (j <? a + len x + len y)) with true by lia.
    unfold byte_at. rewrite nth_error_app1 by (unfold len in *; lia). reflexivity.
  - replace ((a + len x <=? j) && (j <? a + len x + len y)) with true by lia.
    replace ((a <=? j) && (j <? a + len x + len y)) with true by lia.
    unfold byte_at. rewrite nth_error_app2 by (unfold len in *; lia).
    replace (Z.to_nat (j - a) - List.length x)%nat
      with (Z.to_nat (j - (a + len x))) by (unfold len in *; lia).
    reflexivity.
  - replace ((a + len x <=? j) && (j <? a + len x + len y)) with false by lia.
    replace ((a <=? j) && (j <? a + len x)) with false by lia.
    replace ((a <=? j) && (j <? a + len x + len y)) with false by lia.
    reflexivity.
Qed.

(** *** Scan lists *)

Lemma Forall_records {A B} (P : A -> B -> Prop) (l : list A) :
  Forall (fun x => exists r, P x r) l -> exists rs, Forall2 P l rs.
Proof.
  induction 1 as [|x l [r Hr] _ [rs IH]]; [exists []; constructor|].
  exists (r :: rs). now constructor.
Qed.

Lemma Forall2_nth_error {A B} (P : A -> B -> Prop) (l : list A) (rs : list B) :
  Forall2 P l rs ->
  List.length rs = List.length l
  /\ forall k x, nth_error l k = Some x -> exists r, nth_error rs k = Some r /\ P x r.
Proof.
  induction 1 as [|x r l rs Hx _ [Hl IH]]; split; try reflexivity.
  - intros [|k] x H; discriminate H.
  - cbn [List.length]. now rewrite Hl.
  - intros [|k] y Hk; cbn [nth_error] in *.
    + injection Hk as <-. eauto.
    + now apply IH.
Qed.

Lemma scan_list_info_separated :
  schema_separated scan_list_info = true
  /\ forallb (fun '(_, g) => field_fits 216 g) scan_list_info = true.
Proof. split; reflexivity. Qed.

Lemma byte_is_zero (x : Z) : 0 <= x < 256 -> Z.land x 0xFF = 0 -> x = 0.
Proof.
  intros Hx H. change 0xFF with (Z.ones 8) in H.
  rewrite Z.land_ones in H by lia. change (2 ^ 8) with 256 in H.
  rewrite Z.mod_small in H; lia.
Qed.

(** The fields of a scan list, written into a blank record: the record
    reads back as the fields and is blank from byte 16 on. *)
Lemma scan_list_fields_written (item : dict) :
  record_fits scan_list_info (VDict item) ->
  exists record0,
    toBytes (bytearray scan_list_record_size) scan_list_info item = Ok record0
    /\ len record0 = 216
    /\ fromBytes scan_list_info record0 = Ok item
    /\ forall j, 16 <= j < 216 -> byte_at record0 j = Ok 0.
Proof.
  intros (item' & Heq & Hkeys & Hvals). injection Heq as <-.
  destruct scan_list_info_separated as [Hsep Hfit].
  destruct (record_codec_exact scan_list_info item 216)
    as (record0 & Hw & Hl & Hread);
    [lia|exact scan_list_info_keys|exact Hsep|exact Hfit|exact Hkeys|exact Hvals|].
  destruct (toBytes_effect 216 item scan_list_info (bytearray 216))
    as (record1 & Hw1 & _ & Hr1 & _ & Hframe);
    [now apply len_bytearray
    |intros j x _ Hx; apply byte_at_bytearray in Hx; lia
    |exact Hsep|exact Hfit|exact Hvals
    |intros key g _ j x _ Hx; apply byte_at_bytearray in Hx; now subst x|].
  change (bytearray scan_list_record_size) with (bytearray 216).
  rewrite Hw in Hw1. injection Hw1 as <-.
  exists record0. split; [exact Hw|]. split; [exact Hl|]. split; [exact Hread|].
  intros j Hj.
  destruct (byte_at_ok (bytearray 216) j) as [x Hx];
    [rewrite len_bytearray; lia|].
  pose proof (byte_at_bytearray _ _ _ Hx) as ->.
  destruct (Hframe j 0xFF 0 ltac:(lia)) as (x' & Hx' & Hland); [|exact Hx|].
  - intros key g Hin. left. cbn in Hin.
    repeat (destruct Hin as [Hin|Hin];
            [injection Hin as _ <-; cbn [field_start field_stop]; lia|]).
    contradiction.
  - rewrite Hx'. f_equal. apply byte_is_zero; [exact (Hr1 j x' ltac:(lia) Hx')|].
    exact Hland.
Qed.

Lemma pair_bytes (g c : Z) :
  0 <= g < 65536 -> 0 <= c < 65536 ->
  from_bytes (slice (le_bytes 2 g ++ le_bytes 2 c) 0 2) = g
  /\ from_bytes (slice (le_bytes 2 g ++ le_bytes 2 c) 2 4) = c.
Proof.
  intros Hg Hc.
  change (slice (le_bytes 2 g ++ le_bytes 2 c) 0 2) with (le_bytes 2 g).
  change (slice (le_bytes 2 g ++ le_bytes 2 c) 2 4) with (le_bytes 2 c).
  split; apply from_bytes_le_bytes; cbn; lia.
Qed.

(** The selected channels of a scan list, written into its record. *)
Lemma scan_pairs_written (pairs : list (Z * Z)) (record0 : list Z) :
  len record0 = 216 -> len pairs <= 50 ->
  Forall (fun gc => 0 < fst gc < 65536 /\ 0 < snd gc < 65536) pairs ->
  exists record,
    for_each (enumerate_from 0 (map scan_pair pairs))
      (fun scan_list_record '(i, entry) =>
         pair <- as_dict entry ;;
         group <- dict_get "Group" pair ;;
         group <- int_to_bytes group 2 ;;
         let scan_list_record :=
           slice_assign scan_list_record (16 + i * 4) (16 + i * 4 + 2) group in
         channel <- dict_get "Channel" pair ;;
         channel <- int_to_bytes channel 2 ;;
         Ok (slice_assign scan_list_record (16 + i * 4 + 2) (16 + i * 4 + 4) channel))
      record0 = Ok record
    /\ len record = 216
    /\ (forall j, 0 <= j -> j < 16 \/ 16 + 4 * len pairs <= j ->
          byte_at record j = byte_at record0 j)
    /\ forall k g c,
         nth_error pairs k = Some (g, c) ->
         from_bytes (slice record (16 + 4 * Z.of_nat k) (16 + 4 * Z.of_nat k + 2)) = g
         /\ from_bytes (slice record (16 + 4 * Z.of_nat k + 2)
                          (16 + 4 * Z.of_nat k + 4)) = c.
Proof.
  intros Hl Hn Hok.
  assert (Hpos : 0 <= len pairs) by (unfold len; lia).
  destruct (place_records 16 4 216
              (fun scan_list_record '(i, entry) =>
                 pair <- as_dict entry ;;
                 group <- dict_get "Group" pair ;;
                 group <- int_to_bytes group 2 ;;
                 let scan_list_record :=
                   slice_assign scan_list_record (16 + i * 4) (16 + i * 4 + 2) group in
                 channel <- dict_get "Channel" pair ;;
                 channel <- int_to_bytes channel 2 ;;
                 Ok (slice_assign scan_list_record (16 + i * 4 + 2) (16 + i * 4 + 4)
                       channel))
              (map scan_pair pairs)
              (map (fun gc => le_bytes 2 (fst gc) ++ le_bytes 2 (snd gc)) pairs)
              0 record0)
    as (record & Hw & Hlr & Hframe & Hrec).
  - clear Hn Hpos. induction Hok as [|[g c] pairs [Hg Hc] _ IH];
      cbn [map]; constructor; [|exact IH].
    cbn [fst snd] in *. split; [reflexivity|].
    intros t count Ht Hcount Hfit.
    unfold scan_pair. cbn [fst snd as_dict bind]. unfold dict_get.
    cbn [dict_lookup String.eqb Ascii.eqb Bool.eqb bind int_to_bytes].
    rewrite !to_bytes_ok by lia. cbn [bind]. cbv zeta. f_equal.
    change (Z.to_nat 2) with 2%nat.
    pose proof (slice_assign_twice t (16 + count * 4) (le_bytes 2 g) (le_bytes 2 c))
      as H2.
    change (len (le_bytes 2 g)) with 2 in H2. change (len (le_bytes 2 c)) with 2 in H2.
    replace (16 + count * 4 + 2 + 2) with (16 + count * 4 + 4) in H2 by lia.
    rewrite H2 by lia. f_equal; lia.
  - exact Hl.
  - lia.
  - lia.
  - lia.
  - unfold len in *. rewrite length_map. lia.
  - exists record. split; [exact Hw|]. split; [exact Hlr|]. split.
    + intros j Hj Hout. apply Hframe; [exact Hj|].
      unfold len in *. rewrite length_map. lia.
    + intros k g c Hk.
      assert (Hkn : (k < List.length pairs)%nat)
        by (apply nth_error_Some; rewrite Hk; discriminate).
      pose proof (proj1 (Forall_forall _ _) Hok (g, c) (nth_error_In _ _ Hk))
        as [Hg Hc]. cbn [fst snd] in Hg, Hc.
      specialize (Hrec k (le_bytes 2 g ++ le_bytes 2 c)).
      rewrite nth_error_map, Hk in Hrec. specialize (Hrec eq_refl).
      rewrite Z.add_0_l in Hrec.
      destruct (pair_bytes g c ltac:(lia) ltac:(lia)) as [H1 H2].
      rewrite <- Hrec in H1, H2.
      rewrite slice_slice in H1, H2 by (unfold len in *; lia).
      rewrite Z.add_0_r in H1. split; [exact H1|exact H2].
Qed.

Lemma blank_slice (data : list Z) (a n : Z) :
  0 <= a -> 0 <= n ->
  (forall j, a <= j < a + n -> byte_at data j = Ok 0) ->
  slice data a (a + n) = repeat 0 (Z.to_nat n).
Proof.
  intros Ha Hn H. apply nth_error_ext. intros k. rewrite nth_error_slice.
  destruct (Z.of_nat k <? a + n - a) eqn:E;
    [apply Z.ltb_lt in E|apply Z.ltb_ge in E].
  - specialize (H (a + Z.of_nat k) ltac:(lia)). apply byte_at_nth in H.
    replace (Z.to_nat (a + Z.of_nat k)) with (Z.to_nat a + k)%nat in H by lia.
    rewrite H. symmetry. apply nth_error_repeat. lia.
  - symmetry. apply nth_error_None. rewrite repeat_length. lia.
Qed.

(** A scan list that fits is encoded into a record of 216 bytes, and a slot
    of the scan-list block that holds this record decodes to the scan list. *)
Lemma scan_list_record (entry : dict * list (Z * Z)) :
  scan_list_fits entry ->
  exists record,
    (scan_list <- as_dict (scan_list_doc entry) ;; compile_scan_list scan_list)
    = Ok record
    /\ len record = 216
    /\ forall data i,
         0 <= i ->
         slice data (scan_list_start_address + i * scan_list_record_size)
           (scan_list_start_address + i * scan_list_record_size + scan_list_record_size)
         = record ->
         decompile_scan_list data i
         = Ok (Some (fst entry
                     ++ [("Selected channels", VList (map scan_pair (snd entry)))])).
Proof.
  destruct entry as [item pairs]. intros (Hfit & Hname & Hn & Hok).
  cbn [fst snd] in *. unfold scan_list_doc. cbn [fst snd as_dict bind].
  pose proof Hfit as (item' & Heq & Hkeys & Hvals). injection Heq as <-.
  destruct (scan_list_fields_written item Hfit) as (record0 & Hw0 & Hl0 & Hread0 & Hz0).
  destruct (scan_pairs_written pairs record0 Hl0 Hn Hok)
    as (record & Hw & Hl & Hframe & Hpairs).
  assert (Hfresh : ~ In "Selected channels" (map fst item)).
  { rewrite Hkeys. cbn. intuition discriminate. }
  exists record. split; [|split; [exact Hl|]].
  - unfold compile_scan_list.
    rewrite (toBytes_ext scan_list_info item).
    + rewrite Hw0. cbn [bind]. unfold dict_get.
      rewrite dict_lookup_app, (dict_lookup_absent _ _ Hfresh).
      cbn [dict_lookup String.eqb Ascii.eqb Bool.eqb bind as_list]. exact Hw.
    + intros key g Hin. destruct (Hvals key g Hin) as (x & Hx & _).
      now rewrite dict_lookup_app, Hx.
  - intros data i Hi Hslot.
    assert (Hpos : 0 <= len pairs) by (unfold len; lia).
    unfold decompile_scan_list. cbv zeta. rewrite Hslot.
    rewrite (fromBytes_ext scan_list_info record record0), Hread0.
    + cbn [bind].
      destruct (Hvals "Name" (Str 0x00 10) ltac:(cbn; tauto)) as (name & Hlook & Hv).
      unfold dict_get. rewrite Hlook. cbn [bind].
      destruct name as [s| | | |]; try contradiction.
      assert (Hs : String.eqb s "" = false).
      { apply String.eqb_neq. intros ->. now apply Hname. }
      cbn [is_str]. rewrite Hs. cbn [negb].
      rewrite (for_each_ext _ _ (fun selected j =>
                 Ok (selected
                     ++ (let group :=
                           from_bytes (slice record (16 + 4 * j) (16 + 4 * j + 2)) in
                         let channel :=
                           from_bytes (slice record (16 + 4 * j + 2) (16 + 4 * j + 4)) in
                         if negb (group =? 0) && negb (channel =? 0)
                         then [VDict [("Group", VInt group); ("Channel", VInt channel)]]
                         else [])))).
      * change (range 50) with (map Z.of_nat (seq 0 (50 - 0))).
        rewrite (collect_items _ (map scan_pair pairs)).
        -- cbn [bind app]. now rewrite (dict_set_fresh _ _ _ Hfresh).
        -- rewrite length_map. unfold len in Hn. lia.
        -- intros k v Hk. rewrite nth_error_map in Hk.
           destruct (nth_error pairs k) as [[g c]|] eqn:Ek; [|discriminate Hk].
           injection Hk as <-. rewrite Nat.add_0_l.
           destruct (Hpairs k g c Ek) as [Hg Hc]. cbv zeta. rewrite Hg, Hc.
           pose proof (proj1 (Forall_forall _ _) Hok (g, c) (nth_error_In _ _ Ek))
             as [Hg0 Hc0]. cbn [fst snd] in Hg0, Hc0.
           replace (g =? 0) with false by lia. replace (c =? 0) with false by lia.
           reflexivity.
        -- intros j Hj. rewrite length_map in Hj. cbv zeta.
           replace (slice record (16 + 4 * Z.of_nat j) (16 + 4 * Z.of_nat j + 2))
             with [0; 0]; [reflexivity|].
           symmetry. apply (blank_slice record (16 + 4 * Z.of_nat j) 2); [lia|lia|].
           intros p Hp. rewrite Hframe by (unfold len in *; lia).
           apply Hz0. lia.
      * intros selected j Hin. apply range_In in Hin. cbv zeta.
        assert (Hg : slice data
                       (scan_list_start_address + i * scan_list_record_size + 16 + j * 4)
                       (scan_list_start_address + i * scan_list_record_size + 16
                        + j * 4 + 2)
                     = slice record (16 + 4 * j) (16 + 4 * j + 2)).
        { rewrite <- Hslot, slice_slice
            by (unfold scan_list_start_address, scan_list_record_size; lia).
          f_equal; lia. }
        assert (Hc : slice data
                       (scan_list_start_address + i * scan_list_record_size + 16
                        + j * 4 + 2)
                       (scan_list_start_address + i * scan_list_record_size + 16
                        + j * 4 + 4)
                     = slice record (16 + 4 * j + 2) (16 + 4 * j + 4)).
        { rewrite <- Hslot, slice_slice
            by (unfold scan_list_start_address, scan_list_record_size; lia).
          f_equal; lia. }
        rewrite Hg, Hc.
        destruct (negb (_ =? 0) && negb (_ =? 0)); [reflexivity|].
        now rewrite app_nil_r.
    + intros key g Hin. cbn in Hin.
      repeat (destruct Hin as [Hin|Hin];
              [injection Hin as _ <-; cbn [field_start field_stop];
               split; [lia|intros j Hj; apply Hframe; lia]|]).
      contradiction.
Qed.

Lemma blank_scan_list (data : list Z) (i : Z) :
  slice data (scan_list_start_address + i * scan_list_record_size)
    (scan_list_start_address + i * scan_list_record_size + scan_list_record_size)
  = repeat 0 216 ->
  decompile_scan_list data i = Ok None.
Proof.
  intros H. unfold decompile_scan_list. cbv zeta. rewrite H.
  assert (Hb : exists d, fromBytes scan_list_info (repeat 0 216) = Ok d
                         /\ dict_lookup "Name" d = Some (VStr ""))
    by (eexists; split; [vm_compute; reflexivity|reflexivity]).
  destruct Hb as (d & -> & Hn). cbn [bind]. unfold dict_get. rewrite Hn.
  reflexivity.
Qed.

(** At most 250 scan lists, each one that fits, written into a buffer whose
    scan-list block is blank, are read back as the same list, in order;
    outside the slots written nothing changes. *)
Theorem scan_lists_round_trip (template : list Z) (codeplug : dict)
    (lists : list (dict * list (Z * Z))) :
  dict_lookup "Scan lists" codeplug = Some (VList (map scan_list_doc lists)) ->
  len lists <= 250 ->
  Forall scan_list_fits lists ->
  rx_group_start_address <= len template ->
  (forall j, scan_list_start_address <= j < rx_group_start_address ->
             byte_at template j = Ok 0) ->
  exists template',
    compile_scan_lists template codeplug = Ok template'
    /\ len template' = len template
    /\ (forall j, 0 <= j ->
          j < scan_list_start_address
          \/ scan_list_start_address + scan_list_record_size * len lists <= j ->
          byte_at template' j = byte_at template j)
    /\ decompile_scan_lists template' = Ok (map scan_list_doc lists).
Proof.
  intros Hlook Hn Hfit Hlen Hblank.
  assert (Hpos : 0 <= len lists) by (unfold len; lia).
  destruct (Forall_records
              (fun entry record =>
                 (scan_list <- as_dict (scan_list_doc entry) ;;
                  compile_scan_list scan_list) = Ok record
                 /\ len record = 216
                 /\ forall data i,
                      0 <= i ->
                      slice data (scan_list_start_address + i * scan_list_record_size)
                        (scan_list_start_address + i * scan_list_record_size
                         + scan_list_record_size) = record ->
                      decompile_scan_list data i
                      = Ok (Some (fst entry
                                  ++ [("Selected channels",
                                       VList (map scan_pair (snd entry)))])))
              lists) as [records Hrecords].
  { eapply Forall_impl; [|exact Hfit]. intros entry He. now apply scan_list_record. }
  destruct (Forall2_nth_error _ _ _ Hrecords) as [Hcount Hnth].
  destruct (place_records scan_list_start_address 216 (len template)
              (fun template '(count, scan_list) =>
                 scan_list <- as_dict scan_list ;;
                 scan_list_record <- compile_scan_list scan_list ;;
                 Ok (slice_assign template
                       (scan_list_start_address + scan_list_record_size * count)
                       (scan_list_start_address + scan_list_record_size * (count + 1))
                       scan_list_record))
              (map scan_list_doc lists) records 0 template)
    as (template' & Hw & Hl & Hframe & Hrec).
  - clear Hcount Hnth Hn Hpos Hfit Hlook.
    induction Hrecords as [|entry record lists records (Hc & Hr & _) _ IH];
      cbn [map]; constructor; [|exact IH].
    split; [exact Hr|]. intros t count _ _ _.
    unfold scan_list_doc in *. cbn [as_dict bind] in *. rewrite Hc. reflexivity.
  - reflexivity.
  - unfold scan_list_start_address. lia.
  - lia.
  - lia.
  - unfold len in *. rewrite length_map.
    unfold scan_list_start_address, rx_group_start_address in *. lia.
  - exists template'. split.
    { unfold compile_scan_lists, dict_get. rewrite Hlook. cbn [bind as_list].
      exact Hw. }
    split; [exact Hl|]. split.
    { intros j Hj Hout. apply Hframe; [exact Hj|].
      unfold len in *. rewrite length_map. unfold scan_list_record_size in Hout. lia. }
    unfold decompile_scan_lists.
    change (range 250) with (map Z.of_nat (seq 0 (250 - 0))).
    rewrite (collect_records (decompile_scan_list template')
               (map (fun entry =>
                       fst entry
                       ++ [("Selected channels", VList (map scan_pair (snd entry)))])
                  lists)).
    + cbn [app]. now rewrite map_map.
    + rewrite length_map.
      assert (H250 : (List.length lists <= 250)%nat) by (unfold len in Hn; lia).
      exact H250.
    + intros k d Hk. rewrite nth_error_map in Hk.
      unfold dict in *.
      destruct (nth_error lists k) as [entry|] eqn:Ek; cbn [option_map] in Hk;
        [|discriminate Hk].
      injection Hk as <-. rewrite Nat.add_0_l.
      destruct (Hnth k entry Ek) as (record & Hrk & _ & _ & Hdec).
      apply Hdec; [lia|]. rewrite <- (Hrec k record Hrk).
      unfold scan_list_record_size. f_equal; lia.
    + intros i Hi. rewrite length_map in Hi. unfold dict, len in *.
      apply blank_scan_list.
      unfold scan_list_record_size.
      apply (blank_slice template'); [unfold scan_list_start_address; lia|lia|].
      intros j Hj. rewrite Hframe.
      * apply Hblank. unfold scan_list_start_address, rx_group_start_address in *. lia.
      * unfold scan_list_start_address in *. lia.
      * right. unfold len. rewrite length_map. lia.
Qed.

Lemma scan_lists_round_trip_witness :
  exists template',
    compile_scan_lists (bytearray 0x1C000)
      [("Scan lists",
        VList [scan_list_doc (example_scan_list,
                              [(1, 2); (1, 3)])])]
    = Ok template'
    /\ decompile_scan_lists template'
       = Ok [scan_list_doc (example_scan_list,
                            [(1, 2); (1, 3)])].
Proof.
  destruct (scan_lists_round_trip (bytearray 0x1C000)
              [("Scan lists",
                VList [scan_list_doc (example_scan_list,
                                      [(1, 2); (1, 3)])])]
              [(example_scan_list,
                [(1, 2); (1, 3)])])
    as (template' & Hc & _ & _ & Hd).
  - reflexivity.
  - vm_compute. discriminate.
  - constructor; [|constructor]. split; [|split; [|split]].
    + eexists. split; [reflexivity|]. split; [reflexivity|].
      intros key g Hin. cbn in Hin.
      destruct Hin as [Hin|[Hin|[Hin|[Hin|[Hin|[]]]]]]; injection Hin as <- <-;
        eexists; (split; [reflexivity|]); cbn [value_fits].
      * cbn. repeat split; lia.
      * split; [cbn; nodup_keys|]. split; [cbn; nodup_keys|].
        exists 0x00. split; [cbn; tauto|]. split; [lia|reflexivity].
      * split; [cbn; nodup_keys|]. split; [cbn; nodup_keys|].
        exists 0x00. split; [cbn; tauto|]. split; [lia|reflexivity].
      * cbn. lia.
      * cbn. lia.
    + cbn. discriminate.
    + vm_compute. discriminate.
    + repeat constructor.
  - vm_compute. discriminate.
  - intros j Hj.
    destruct (byte_at_ok (bytearray 0x1C000) j) as [b Hb].
    + rewrite len_bytearray by lia.
      unfold scan_list_start_address, rx_group_start_address in Hj. lia.
    + rewrite Hb. f_equal. exact (byte_at_bytearray _ _ _ Hb).
  - exists template'. split; [exact Hc|exact Hd].
Defined.

(** *** RX groups *)

Lemma rx_group_name_written (name : string) :
  succeeds (encode_ascii name) = true -> rstrip_nul name = name ->
  (String.length name <= 10)%nat ->
  exists record0,
    toBytes (bytearray rx_group_record_size) rx_group_info [("Name", VStr name)]
    = Ok record0
    /\ len record0 = 210
    /\ fromBytes rx_group_info record0 = Ok [("Name", VStr name)]
    /\ forall j, 10 <= j < 210 -> byte_at record0 j = Ok 0.
Proof.
  intros Henc Hstrip Hshort.
  assert (Hvals : forall key g, In (key, g) rx_group_info ->
            exists v, dict_lookup key [("Name", VStr name)] = Some v /\ value_fits g v).
  { intros key g Hin. cbn in Hin. destruct Hin as [Hin|[]].
    injection Hin as <- <-. eexists. split; [reflexivity|].
    cbn [value_fits]. repeat split; [exact Henc|exact Hstrip|lia]. }
  destruct (record_codec_exact rx_group_info [("Name", VStr name)] 210)
    as (record0 & Hw & Hl & Hread);
    [lia|cbn; nodup_keys|reflexivity|reflexivity|reflexivity|exact Hvals|].
  destruct (toBytes_effect 210 [("Name", VStr name)] rx_group_info (bytearray 210))
    as (record1 & Hw1 & _ & Hr1 & _ & Hframe);
    [now apply len_bytearray
    |intros j x _ Hx; apply byte_at_bytearray in Hx; lia
    |reflexivity|reflexivity|exact Hvals
    |intros key g _ j x _ Hx; apply byte_at_bytearray in Hx; now subst x|].
  change (bytearray rx_group_record_size) with (bytearray 210).
  rewrite Hw in Hw1. injection Hw1 as <-.
  exists record0. split; [exact Hw|]. split; [exact Hl|]. split; [exact Hread|].
  intros j Hj.
  destruct (byte_at_ok (bytearray 210) j) as [x Hx];
    [rewrite len_bytearray; lia|].
  pose proof (byte_at_bytearray _ _ _ Hx) as ->.
  destruct (Hframe j 0xFF 0 ltac:(lia)) as (x' & Hx' & Hland); [|exact Hx|].
  - intros key g Hin. left. cbn in Hin. destruct Hin as [Hin|[]].
    injection Hin as _ <-. cbn [field_start field_stop]. lia.
  - rewrite Hx'. f_equal. apply byte_is_zero; [exact (Hr1 j x' ltac:(lia) Hx')|].
    exact Hland.
Qed.

(** The contact IDs of an RX group, written into its record. *)
Lemma rx_group_ids_written (ids : list Z) (record0 : list Z) :
  len record0 = 210 -> len ids <= 100 ->
  Forall (fun id => 0 < id < 65536) ids ->
  exists record,
    for_each (enumerate_from 0 (map VInt ids))
      (fun group_record '(i, id) =>
         id <- int_to_bytes id 2 ;;
         Ok (slice_assign group_record (10 + i * 2) (10 + (i + 1) * 2) id))
      record0 = Ok record
    /\ len record = 210
    /\ (forall j, 0 <= j -> j < 10 \/ 10 + 2 * len ids <= j ->
          byte_at record j = byte_at record0 j)
    /\ forall k id,
         nth_error ids k = Some id ->
         from_bytes (slice record (10 + 2 * Z.of_nat k) (10 + 2 * Z.of_nat k + 2)) = id.
Proof.
  intros Hl Hn Hok.
  assert (Hpos : 0 <= len ids) by (unfold len; lia).
  destruct (place_records 10 2 210
              (fun group_record '(i, id) =>
                 id <- int_to_bytes id 2 ;;
                 Ok (slice_assign group_record (10 + i * 2) (10 + (i + 1) * 2) id))
              (map VInt ids) (map (le_bytes 2) ids) 0 record0)
    as (record & Hw & Hlr & Hframe & Hrec).
  - clear Hn Hpos. induction Hok as [|id ids Hid _ IH];
      cbn [map]; constructor; [|exact IH].
    split; [reflexivity|].
    intros t count Ht Hcount Hfit. cbn [int_to_bytes].
    rewrite to_bytes_ok by lia. cbn [bind]. change (Z.to_nat 2) with 2%nat.
    f_equal. f_equal; lia.
  - exact Hl.
  - lia.
  - lia.
  - lia.
  - unfold len in *. rewrite length_map. lia.
  - exists record. split; [exact Hw|]. split; [exact Hlr|]. split.
    + intros j Hj Hout. apply Hframe; [exact Hj|].
      unfold len in *. rewrite length_map. lia.
    + intros k id Hk.
      pose proof (proj1 (Forall_forall _ _) Hok id (nth_error_In _ _ Hk)) as Hid.
      cbv beta in Hid.
      specialize (Hrec k (le_bytes 2 id)).
      rewrite nth_error_map, Hk in Hrec. specialize (Hrec eq_refl).
      rewrite Z.add_0_l in Hrec.
      replace (10 + 2 * Z.of_nat k + 2) with (10 + 2 * (Z.of_nat k + 1)) by lia.
      rewrite Hrec. apply from_bytes_le_bytes.
      change (256 ^ Z.of_nat 2) with 65536. lia.
Qed.

Lemma rx_group_ids_read (data record : list Z) (i : Z) (ids : list Z) :
  0 <= i ->
  slice data (rx_group_start_address + i * rx_group_record_size)
    (rx_group_start_address + (i + 1) * rx_group_record_size) = record ->
  len ids <= 100 ->
  Forall (fun id => 0 < id < 65536) ids ->
  (forall k id, nth_error ids k = Some id ->
     from_bytes (slice record (10 + 2 * Z.of_nat k) (10 + 2 * Z.of_nat k + 2)) = id) ->
  (forall j, 10 + 2 * len ids <= j < 210 -> byte_at record j = Ok 0) ->
  for_each (range 100)
    (fun contacts j =>
       if negb (from_bytes
                  (slice data
                     (rx_group_start_address + i * rx_group_record_size + 10 + j * 2)
                     (rx_group_start_address + i * rx_group_record_size + 10 + j * 2 + 2))
                =? 0)
       then Ok (contacts
                ++ [VInt (from_bytes
                            (slice data
                               (rx_group_start_address + i * rx_group_record_size
                                + 10 + j * 2)
                               (rx_group_start_address + i * rx_group_record_size
                                + 10 + j * 2 + 2)))])
       else Ok contacts)
    []
  = Ok (map VInt ids).
Proof.
  intros Hi Hslot Hn Hok Hids Hblank.
  assert (Hpos : 0 <= len ids) by (unfold len; lia).
  rewrite (for_each_ext _ _ (fun contacts j =>
             Ok (contacts
                 ++ (let id := from_bytes (slice record (10 + 2 * j) (10 + 2 * j + 2)) in
                     if negb (id =? 0) then [VInt id] else [])))).
  - change (range 100) with (map Z.of_nat (seq 0 (100 - 0))).
    rewrite (collect_items _ (map VInt ids)).
    + reflexivity.
    + rewrite length_map. unfold len in Hn. lia.
    + intros k v Hk. rewrite nth_error_map in Hk.
      destruct (nth_error ids k) as [id|] eqn:Ek; [|discriminate Hk].
      injection Hk as <-. rewrite Nat.add_0_l. cbv zeta.
      rewrite (Hids k id Ek).
      pose proof (proj1 (Forall_forall _ _) Hok id (nth_error_In _ _ Ek)) as Hid.
      cbv beta in Hid.
      now replace (id =? 0) with false by lia.
    + intros j Hj. rewrite length_map in Hj. cbv zeta.
      replace (slice record (10 + 2 * Z.of_nat j) (10 + 2 * Z.of_nat j + 2))
        with [0; 0]; [reflexivity|].
      symmetry. apply (blank_slice record (10 + 2 * Z.of_nat j) 2); [lia|lia|].
      intros p Hp. apply Hblank. unfold len in *. lia.
  - intros contacts j Hin. apply range_In in Hin. cbv zeta.
    assert (Hg : slice data
                   (rx_group_start_address + i * rx_group_record_size + 10 + j * 2)
                   (rx_group_start_address + i * rx_group_record_size + 10 + j * 2 + 2)
                 = slice record (10 + 2 * j) (10 + 2 * j + 2)).
    { rewrite <- Hslot, slice_slice
        by (unfold rx_group_start_address, rx_group_record_size; lia).
      f_equal; lia. }
    rewrite Hg. destruct (negb (_ =? 0)); [reflexivity|]. now rewrite app_nil_r.
Qed.

(** An RX group that fits is encoded into a record of 210 bytes, and a slot
    of the RX-group block that holds this record decodes to the group. *)
Lemma rx_group_record (entry : string * list Z) :
  rx_group_fits entry ->
  exists record,
    (group <- as_dict (rx_group_doc entry) ;; compile_rx_group group) = Ok record
    /\ len record = 210
    /\ forall data i,
         0 <= i ->
         slice data (rx_group_start_address + i * rx_group_record_size)
           (rx_group_start_address + (i + 1) * rx_group_record_size) = record ->
         decompile_rx_group data i
         = Ok (Some [("Name", VStr (fst entry));
                     ("Contacts", VList (map VInt (snd entry)))]).
Proof.
  destruct entry as [name ids].
  intros (Henc & Hstrip & Hshort & Hn & Hok & Hsome). cbn [fst snd] in *.
  unfold rx_group_doc. cbn [fst snd as_dict bind].
  destruct (rx_group_name_written name Henc Hstrip Hshort)
    as (record0 & Hw0 & Hl0 & Hread0 & Hz0).
  destruct (rx_group_ids_written ids record0 Hl0 Hn Hok)
    as (record & Hw & Hl & Hframe & Hids).
  exists record. split; [|split; [exact Hl|]].
  - unfold compile_rx_group.
    rewrite (toBytes_ext rx_group_info [("Name", VStr name)]).
    + rewrite Hw0. cbn [bind]. unfold dict_get.
      cbn [dict_lookup String.eqb Ascii.eqb Bool.eqb bind as_list]. exact Hw.
    + intros key g Hin. cbn in Hin. destruct Hin as [Hin|[]].
      injection Hin as <- <-. reflexivity.
  - intros data i Hi Hslot.
    assert (Hpos : 0 <= len ids) by (unfold len; lia).
    unfold decompile_rx_group. rewrite Hslot.
    rewrite (fromBytes_ext rx_group_info record record0), Hread0.
    + cbn [bind]. cbv zeta.
      rewrite (rx_group_ids_read data record i ids Hi Hslot Hn Hok Hids).
      * cbn [bind]. cbv zeta. unfold dict_get.
        cbn [dict_set dict_lookup String.eqb Ascii.eqb Bool.eqb bind is_str].
        destruct Hsome as [Hname|Hids0].
        -- apply String.eqb_neq in Hname. rewrite Hname. reflexivity.
        -- destruct ids as [|id ids]; [contradiction|].
           rewrite orb_comm. reflexivity.
      * intros j Hj. rewrite Hframe by lia. apply Hz0. lia.
    + intros key g Hin. cbn in Hin. destruct Hin as [Hin|[]].
      injection Hin as _ <-. cbn [field_start field_stop].
      split; [lia|]. intros j Hj. apply Hframe; lia.
Qed.

Lemma blank_rx_group (data : list Z) (i : Z) :
  0 <= i ->
  slice data (rx_group_start_address + i * rx_group_record_size)
    (rx_group_start_address + (i + 1) * rx_group_record_size)
  = repeat 0 210 ->
  decompile_rx_group data i = Ok None.
Proof.
  intros Hi H. unfold decompile_rx_group. rewrite H.
  change (fromBytes rx_group_info (repeat 0 210)) with (Ok [("Name", VStr "")]).
  cbn [bind]. cbv zeta.
  rewrite (rx_group_ids_read data (repeat 0 210) i [] Hi H).
  - reflexivity.
  - cbn. lia.
  - constructor.
  - intros [|k] id Hk; discriminate Hk.
  - intros j Hj. apply byte_at_nth. apply nth_error_repeat. lia.
Qed.

(** At most 250 RX groups, each one that fits, written into a buffer whose
    RX-group block is blank, are read back as the same list, in order;
    outside the slots written nothing changes. *)
Theorem rx_groups_round_trip (template : list Z) (codeplug : dict)
    (groups : list (string * list Z)) :
  dict_lookup "RX groups" codeplug = Some (VList (map rx_group_doc groups)) ->
  len groups <= 250 ->
  Forall rx_group_fits groups ->
  rx_group_start_address + rx_group_record_size * 250 <= len template ->
  (forall j, rx_group_start_address <= j
             < rx_group_start_address + rx_group_record_size * 250 ->
             byte_at template j = Ok 0) ->
  exists template',
    compile_rx_groups template codeplug = Ok template'
    /\ len template' = len template
    /\ (forall j, 0 <= j ->
          j < rx_group_start_address
          \/ rx_group_start_address + rx_group_record_size * len groups <= j ->
          byte_at template' j = byte_at template j)
    /\ decompile_rx_groups template' = Ok (map rx_group_doc groups).
Proof.
  intros Hlook Hn Hfit Hlen Hblank.
  assert (Hpos : 0 <= len groups) by (unfold len; lia).
  destruct (Forall_records
              (fun entry record =>
                 (group <- as_dict (rx_group_doc entry) ;; compile_rx_group group)
                 = Ok record
                 /\ len record = 210
                 /\ forall data i,
                      0 <= i ->
                      slice data (rx_group_start_address + i * rx_group_record_size)
                        (rx_group_start_address + (i + 1) * rx_group_record_size)
                      = record ->
                      decompile_rx_group data i
                      = Ok (Some [("Name", VStr (fst entry));
                                  ("Contacts", VList (map VInt (snd entry)))]))
              groups) as [records Hrecords].
  { eapply Forall_impl; [|exact Hfit]. intros entry He. now apply rx_group_record. }
  destruct (Forall2_nth_error _ _ _ Hrecords) as [Hcount Hnth].
  destruct (place_records rx_group_start_address 210 (len template)
              (fun template '(count, group) =>
                 group <- as_dict group ;;
                 group_record <- compile_rx_group group ;;
                 Ok (slice_assign template
                       (rx_group_start_address + rx_group_record_size * count)
                       (rx_group_start_address + rx_group_record_size * (count + 1))
                       group_record))
              (map rx_group_doc groups) records 0 template)
    as (template' & Hw & Hl & Hframe & Hrec).
  - clear Hcount Hnth Hn Hpos Hfit Hlook.
    induction Hrecords as [|entry record groups records (Hc & Hr & _) _ IH];
      cbn [map]; constructor; [|exact IH].
    split; [exact Hr|]. intros t count _ _ _.
    unfold rx_group_doc in *. cbn [as_dict bind] in *. rewrite Hc. reflexivity.
  - reflexivity.
  - unfold rx_group_start_address. lia.
  - lia.
  - lia.
  - unfold len in *. rewrite length_map.
    unfold rx_group_start_address, rx_group_record_size in *. lia.
  - exists template'. split.
    { unfold compile_rx_groups, dict_get. rewrite Hlook. cbn [bind as_list].
      exact Hw. }
    split; [exact Hl|]. split.
    { intros j Hj Hout. apply Hframe; [exact Hj|].
      unfold len in *. rewrite length_map. unfold rx_group_record_size in Hout. lia. }
    unfold decompile_rx_groups.
    change (range 250) with (map Z.of_nat (seq 0 (250 - 0))).
    rewrite (collect_records (decompile_rx_group template')
               (map (fun entry =>
                       [("Name", VStr (fst entry));
                        ("Contacts", VList (map VInt (snd entry)))])
                  groups)).
    + cbn [app]. now rewrite map_map.
    + rewrite length_map.
      assert (H250 : (List.length groups <= 250)%nat) by (unfold len in Hn; lia).
      exact H250.
    + intros k d Hk. rewrite nth_error_map in Hk.
      destruct (nth_error groups k) as [entry|] eqn:Ek; cbn [option_map] in Hk;
        [|discriminate Hk].
      injection Hk as <-. rewrite Nat.add_0_l.
      destruct (Hnth k entry Ek) as (record & Hrk & _ & _ & Hdec).
      apply Hdec; [lia|]. rewrite <- (Hrec k record Hrk).
      unfold rx_group_record_size. f_equal; lia.
    + intros i Hi. rewrite length_map in Hi. unfold len in *.
      apply blank_rx_group; [lia|].
      unfold rx_group_record_size.
      replace (rx_group_start_address + (Z.of_nat i + 1) * 210)
        with (rx_group_start_address + Z.of_nat i * 210 + 210) by lia.
      apply (blank_slice template'); [unfold rx_group_start_address; lia|lia|].
      intros j Hj. rewrite Hframe.
      * apply Hblank. unfold rx_group_start_address, rx_group_record_size in *. lia.
      * unfold rx_group_start_address in *. lia.
      * right. rewrite length_map. lia.
Qed.

Lemma rx_groups_round_trip_witness :
  exists template',
    compile_rx_groups (bytearray 0x1C000)
      [("RX groups", VList [rx_group_doc ("Friends", [1; 9])])] = Ok template'
    /\ decompile_rx_groups template' = Ok [rx_group_doc ("Friends", [1; 9])].
Proof.
  destruct (rx_groups_round_trip (bytearray 0x1C000)
              [("RX groups", VList [rx_group_doc ("Friends", [1; 9])])]
              [("Friends", [1; 9])])
    as (template' & Hc & _ & _ & Hd).
  - reflexivity.
  - vm_compute. discriminate.
  - constructor; [|constructor]. unfold rx_group_fits. cbn [fst snd].
    split; [reflexivity|]. split; [reflexivity|]. split; [cbn; lia|].
    split; [vm_compute; discriminate|]. split; [repeat constructor|].
    left. discriminate.
  - vm_compute. discriminate.
  - intros j Hj.
    destruct (byte_at_ok (bytearray 0x1C000) j) as [b Hb].
    + rewrite len_bytearray by lia.
      unfold rx_group_start_address, rx_group_record_size in Hj. lia.
    + rewrite Hb. f_equal. exact (byte_at_bytearray _ _ _ Hb).
  - exists template'. split; [exact Hc|exact Hd].
Defined.

(** *** Ham contacts *)

Lemma firstn_exact {A} (l r : list A) (n : nat) :
  List.length l = n -> firstn n (l ++ r) = l.
Proof.
  intros <-. rewrite firstn_app, Nat.sub_diag, firstn_all. cbn. apply app_nil_r.
Qed.

Lemma skipn_past {A} (l : list A) (n : nat) :
  (List.length l <= n)%nat -> skipn n l = [].
Proof. apply skipn_all2. Qed.

(** One turn of the packing loop: whatever follows the start of the
    record in the buffer is dropped, and the record is appended whole, its
    text not cut. *)
Lemma pack_ham_record_spec (contactbytes : Z) (hamcontacts : list Z)
    (i radio_id : Z) (contact_info : list Z) :
  3 < contactbytes -> 0 <= i -> contactbytes * i <= len hamcontacts ->
  0 <= radio_id < 256 ^ 3 ->
  pack_ham_record contactbytes hamcontacts (i, (radio_id, contact_info))
  = Ok (firstn (Z.to_nat (contactbytes * i)) hamcontacts
        ++ ham_record contactbytes (radio_id, contact_info)).
Proof.
  intros Hcb Hi Hlen Hid. unfold pack_ham_record, ham_record. cbn [fst snd].
  rewrite to_bytes_ok by lia. cbn [bind]. change (Z.to_nat 3) with 3%nat.
  set (a := contactbytes * i) in *.
  set (P := firstn (Z.to_nat a) hamcontacts).
  set (ID := le_bytes 3 radio_id).
  assert (Ha : 0 <= a) by (subst a; nia).
  assert (HP : List.length P = Z.to_nat a)
    by (subst P; rewrite length_firstn; unfold len in Hlen; lia).
  assert (HID : List.length ID = 3%nat) by (subst ID; apply le_bytes_length).
  assert (Hinfo : 0 <= len contact_info) by (unfold len; lia).
  cbv zeta.
  set (X := slice_assign hamcontacts a (a + 2) ID).
  assert (HX : X = (P ++ ID) ++ skipn (Z.to_nat (Z.max a (a + 2))) hamcontacts)
    by (subst X; unfold slice_assign; fold P; now rewrite app_assoc).
  set (Y := slice_assign X (a + 3) (len X) contact_info).
  assert (HY : Y = (P ++ ID) ++ contact_info).
  { subst Y. unfold slice_assign.
    rewrite HX at 1. rewrite firstn_exact by (rewrite length_app; lia).
    rewrite skipn_past by (unfold len; lia). now rewrite app_nil_r. }
  assert (Hs : slice Y a (a + contactbytes) = firstn (Z.to_nat contactbytes)
                                               (ID ++ contact_info)).
  { rewrite HY. unfold slice. rewrite <- app_assoc, skipn_app, HP, Nat.sub_diag.
    rewrite skipn_past by lia. cbn [skipn app]. f_equal. lia. }
  rewrite Hs.
  assert (Hsize : len (firstn (Z.to_nat contactbytes) (ID ++ contact_info))
                  = Z.min contactbytes (3 + len contact_info)).
  { unfold len. rewrite length_firstn, length_app, HID. lia. }
  rewrite Hsize.
  destruct (Z_lt_le_dec (3 + len contact_info) contactbytes) as [Hshort|Hlong].
  - rewrite Z.min_r by lia. rewrite Z.mod_small by lia.
    replace (3 + len contact_info =? 0) with false by lia. cbn [negb].
    assert (H1 : firstn (Z.to_nat a) Y = P)
      by (rewrite HY, <- app_assoc; now apply firstn_exact).
    assert (H2 : skipn (Z.to_nat (Z.max a (a + contactbytes))) Y = [])
      by (apply skipn_past; rewrite HY, !length_app; unfold len in *; lia).
    assert (H3 : firstn (Z.to_nat contactbytes) (ID ++ contact_info)
                 = ID ++ contact_info)
      by (apply firstn_all2; rewrite length_app; unfold len in *; lia).
    f_equal. unfold slice_assign. rewrite H1, H2, H3, app_nil_r, <- !app_assoc.
    replace (contactbytes - (3 + len contact_info))
      with (contactbytes - 3 - len contact_info) by lia.
    reflexivity.
  - rewrite Z.min_l by lia. rewrite Z.mod_same by lia. cbn [negb Z.eqb].
    f_equal. rewrite HY, <- app_assoc. do 2 f_equal.
    replace (Z.to_nat (contactbytes - 3 - len contact_info)) with 0%nat by lia.
    cbn [repeat]. now rewrite app_nil_r.
Qed.

Lemma ham_record_length (contactbytes : Z) (row : Z * list Z) :
  contactbytes <= len (ham_record contactbytes row).
Proof.
  unfold ham_record, len. rewrite !length_app, le_bytes_length, repeat_length. lia.
Qed.

Lemma last_cons {A} (l : list A) (a d : A) : last (a :: l) d = last l a.
Proof.
  revert a d. induction l as [|b l IH]; intros a d; [reflexivity|].
  change (last (a :: b :: l) d) with (last (b :: l) d).
  now rewrite (IH b d), (IH b a).
Qed.

Lemma slice_past (l r : list Z) (c a b : Z) :
  len l = c -> 0 <= a -> slice (l ++ r) (c + a) (c + b) = slice r a b.
Proof.
  intros Hl Ha. unfold slice, len in *.
  replace (Z.to_nat (c + a)) with (Z.to_nat a + List.length l)%nat by lia.
  rewrite <- skipn_skipn, skipn_app, skipn_all, Nat.sub_diag.
  cbn [app skipn]. f_equal. lia.
Qed.

Lemma pack_ham_loop (contactbytes : Z) (rows : list (Z * list Z)) :
  3 < contactbytes ->
  forall (row : Z * list Z) (i : Z) (hamcontacts : list Z),
    Forall (fun row => 0 <= fst row < 256 ^ 3) (row :: rows) ->
    0 <= i -> contactbytes * i <= len hamcontacts ->
    for_each (enumerate_from i (row :: rows)) (pack_ham_record contactbytes) hamcontacts
    = Ok (firstn (Z.to_nat (contactbytes * i)) hamcontacts
          ++ List.concat
               (map (fun row => firstn (Z.to_nat contactbytes)
                                  (ham_record contactbytes row))
                  (removelast (row :: rows)))
          ++ ham_record contactbytes (last rows row)).
Proof.
  intros Hcb. induction rows as [|next rows IH]; intros row i hamcontacts Hok Hi Hlen;
    inversion Hok as [|? ? Hrow Hrest]; subst.
  - cbn [enumerate_from for_each removelast map List.concat last app].
    destruct row as [radio_id contact_info].
    rewrite pack_ham_record_spec by assumption. reflexivity.
  - destruct row as [radio_id contact_info].
    change (enumerate_from i ((radio_id, contact_info) :: next :: rows))
      with ((i, (radio_id, contact_info)) :: enumerate_from (i + 1) (next :: rows)).
    cbn [for_each].
    rewrite pack_ham_record_spec by assumption. cbn [bind].
    set (P := firstn (Z.to_nat (contactbytes * i)) hamcontacts).
    assert (HP : List.length P = Z.to_nat (contactbytes * i))
      by (subst P; rewrite length_firstn; unfold len in Hlen; nia).
    pose proof (ham_record_length contactbytes (radio_id, contact_info)) as Hrec.
    rewrite (IH next (i + 1)); [|exact Hrest|lia|].
    + f_equal.
      change (removelast ((radio_id, contact_info) :: next :: rows))
        with ((radio_id, contact_info) :: removelast (next :: rows)).
      cbn [map List.concat]. rewrite (last_cons rows next).
      replace (Z.to_nat (contactbytes * (i + 1)))
        with (List.length P + Z.to_nat contactbytes)%nat by nia.
      rewrite firstn_app_2, <- !app_assoc. reflexivity.
    + unfold len in *. rewrite length_app. nia.
Qed.

(** The packed block of ham contacts, for at least one row with IDs below
    2^24: the records follow each other every [contactbytes] bytes, each the
    ID on three bytes then the text; every record but the last is cut to
    [contactbytes] bytes, the last keeps its text whole, beyond its record
    when the text is longer; zeros then fill the block to a multiple of 2048
    bytes. *)
Theorem ham_contacts_packed (contactbytes : Z) (row : Z * list Z)
    (rows : list (Z * list Z)) :
  3 < contactbytes ->
  Forall (fun row => 0 <= fst row < 256 ^ 3) (row :: rows) ->
  exists packed,
    pack_ham_contacts contactbytes (row :: rows) = Ok packed
    /\ packed
       = pad_to_blocks
           (List.concat
              (map (fun row => firstn (Z.to_nat contactbytes)
                                 (ham_record contactbytes row))
                 (removelast (row :: rows)))
            ++ ham_record contactbytes (last rows row))
    /\ len packed mod 2048 = 0
    /\ forall k r,
         nth_error (row :: rows) k = Some r ->
         slice packed (contactbytes * Z.of_nat k) (contactbytes * Z.of_nat k + 3)
         = le_bytes 3 (fst r).
Proof.
  intros Hcb Hok. unfold pack_ham_contacts.
  rewrite (pack_ham_loop contactbytes rows Hcb row 0 (bytearray contactbytes) Hok);
    [|lia|rewrite len_bytearray; lia].
  cbn [bind]. rewrite Z.mul_0_r. cbn [Z.to_nat firstn app].
  eexists. split; [reflexivity|]. split; [reflexivity|].
  split; [apply pad_to_blocks_spec|].
  destruct (pad_to_blocks_spec
              (List.concat
                 (map (fun row => firstn (Z.to_nat contactbytes)
                                    (ham_record contactbytes row))
                    (removelast (row :: rows)))
               ++ ham_record contactbytes (last rows row)))
    as (_ & _ & z & ->).
  clear Hok. revert row. induction rows as [|next rows IH]; intros row k r Hk.
  - destruct k as [|k]; [|destruct k; discriminate Hk].
    injection Hk as <-. cbn [removelast map List.concat last app Z.of_nat].
    rewrite Z.mul_0_r. unfold ham_record, slice.
    rewrite <- !app_assoc. cbn [Z.to_nat skipn]. apply firstn_exact.
    apply le_bytes_length.
  - change (removelast (row :: next :: rows)) with (row :: removelast (next :: rows)).
    cbn [map List.concat]. rewrite (last_cons rows next), <- !app_assoc.
    pose proof (ham_record_length contactbytes row) as Hrec.
    assert (Hf : List.length (firstn (Z.to_nat contactbytes)
                                (ham_record contactbytes row))
                 = Z.to_nat contactbytes)
      by (rewrite length_firstn; unfold len in Hrec; lia).
    destruct k as [|k].
    + injection Hk as <-. cbn [Z.of_nat]. rewrite Z.mul_0_r. unfold slice.
      cbn [Z.to_nat skipn]. replace (Z.to_nat (0 + 3 - 0)) with 3%nat by lia.
      rewrite firstn_app, Hf, firstn_firstn.
      replace (3 - Z.to_nat contactbytes)%nat with 0%nat by lia.
      replace (Nat.min 3 (Z.to_nat contactbytes)) with 3%nat by lia.
      rewrite firstn_O, app_nil_r. unfold ham_record.
      apply firstn_exact. apply le_bytes_length.
    + cbn [nth_error] in Hk. specialize (IH next k r Hk).
      rewrite <- IH, <- !app_assoc.
      replace (contactbytes * Z.of_nat (S k))
        with (contactbytes + contactbytes * Z.of_nat k) by lia.
      rewrite <- Z.add_assoc. apply slice_past; [unfold len; lia|nia].
Qed.

Lemma ham_contacts_packed_witness :
  exists packed,
    pack_ham_contacts 16 [(2340001, literal "G4ABC,John Smith,London");
                          (2340002, literal "M0XYZ,Ann")] = Ok packed
    /\ slice packed 16 (16 + 3) = le_bytes 3 2340002.
Proof.
  destruct (ham_contacts_packed 16 (2340001, literal "G4ABC,John Smith,London")
              [(2340002, literal "M0XYZ,Ann")])
    as (packed & Hp & _ & _ & Hid).
  - lia.
  - repeat constructor; vm_compute; discriminate.
  - exists packed. split; [exact Hp|]. apply (Hid 1%nat (2340002, literal "M0XYZ,Ann")). reflexivity.
Defined.

(** *** Firmware upload *)

Lemma port_read_spec (p : port) :
  port_read p
  = (hd [] (replies p), {| replies := tl (replies p); written := written p |}).
Proof. destruct p as [[|r rest] w]; reflexivity. Qed.

Lemma nth_tl {A} (l : list A) (j : nat) (d : A) : nth j (tl l) d = nth (S j) l d.
Proof. destruct l; [now destruct j|reflexivity]. Qed.

Lemma hd_nth {A} (l : list A) (d : A) : hd d l = nth 0 l d.
Proof. now destruct l. Qed.

Lemma firmware_blocks_sent (data : list Z) (indices : list Z) :
  forall p : port,
    exists k,
      (k <= List.length indices)%nat
      /\ written (snd (firmware_blocks data indices p))
         = written p
           ++ map (fun i => slice data (2048 * i) (2048 * (i + 1))) (firstn k indices)
      /\ (forall j, (S j < k)%nat ->
            decode_ascii (nth j (replies p) []) = Ok "kyd")
      /\ (forall q, firmware_blocks data indices p = (Returned tt, q) ->
            k = List.length indices
            /\ (forall j, (j < k)%nat ->
                  decode_ascii (nth j (replies p) []) = Ok "kyd")
            /\ replies q = skipn k (replies p))
      /\ (forall c, fst (firmware_blocks data indices p) = Exited c -> c = 2).
Proof.
  induction indices as [|i rest IH]; intros p; cbn [firmware_blocks].
  - exists 0%nat. cbn [List.length firstn map snd fst skipn]. rewrite app_nil_r.
    split; [lia|]. split; [reflexivity|]. split; [intros j Hj; lia|].
    split; [|intros c H; discriminate H].
    intros q H. injection H as <-. split; [reflexivity|].
    split; [intros j Hj; lia|reflexivity].
  - cbv zeta. rewrite port_read_spec. unfold port_write. cbn [replies written].
    set (block := slice data (2048 * i) (2048 * (i + 1))).
    set (q0 := {| replies := tl (replies p); written := written p ++ [block] |}).
    assert (Hstop : forall e,
               (forall a, e <> Returned a) -> (forall c, e = Exited c -> c = 2) ->
               exists k,
                 (k <= List.length (i :: rest))%nat
                 /\ written (snd (e, q0))
                    = written p
                      ++ map (fun i => slice data (2048 * i) (2048 * (i + 1)))
                           (firstn k (i :: rest))
                 /\ (forall j, (S j < k)%nat ->
                       decode_ascii (nth j (replies p) []) = Ok "kyd")
                 /\ (forall q, (e, q0) = (Returned tt, q) ->
                       k = List.length (i :: rest)
                       /\ (forall j, (j < k)%nat ->
                             decode_ascii (nth j (replies p) []) = Ok "kyd")
                       /\ replies q = skipn k (replies p))
                 /\ (forall c, fst (e, q0) = Exited c -> c = 2)).
    { intros e He Hc. exists 1%nat. cbn [List.length firstn map fst snd].
      split; [lia|]. split; [reflexivity|]. split; [intros j Hj; lia|].
      split; [|exact Hc].
      intros q H. injection H as H _. exfalso. exact (He tt H). }
    destruct (decode_ascii (hd [] (replies p))) as [s|e] eqn:Ed;
      [|apply Hstop; [discriminate|discriminate]].
    destruct (String.eqb s "kyd") eqn:Es;
      [|apply Hstop; [discriminate|intros c H; congruence]].
    apply String.eqb_eq in Es. subst s. rewrite hd_nth in Ed.
    destruct (IH q0) as (k & Hk & Hw & Hack & Hret & Hexit).
    exists (S k). cbn [List.length firstn map].
    split; [lia|].
    split; [rewrite Hw; subst q0; cbn [written]; rewrite <- app_assoc; reflexivity|].
    split.
    { intros [|j] Hj; [exact Ed|]. rewrite <- nth_tl. apply Hack. lia. }
    split; [|exact Hexit].
    intros q Hq. destruct (Hret q Hq) as (-> & Hall & Hrep).
    split; [reflexivity|]. split.
    + intros [|j] Hj; [exact Ed|]. rewrite <- nth_tl. apply Hall. lia.
    + rewrite Hrep. subst q0. cbn [replies]. now destruct (replies p).
Qed.

Lemma firmware_count (data : list Z) :
  0 < len data <= 65536 * 2048 ->
  0 <= len (pad_to_blocks data) / 2048 - 1 < 256 ^ 2.
Proof.
  intros H. destruct (pad_to_blocks_spec data) as (Hm & Hl & _).
  change (256 ^ 2) with 65536. Z.div_mod_to_equations. lia.
Qed.

Lemma from_bytes_two (n : Z) :
  0 <= n < 256 ^ 2 -> from_bytes (rev (rev (le_bytes 2 n))) = n.
Proof.
  intros H. rewrite rev_involutive. apply (from_bytes_le_bytes 2). exact H.
Qed.

(** A firmware file of 1 byte to 128 MiB: [uploadFirmware] writes the erase
    command, then the number of blocks less one on two bytes, high byte
    first, then blocks of the padded file, in order, and nothing else.  It
    writes no block unless the second answer of the radio is "Erase ok", and
    no block after one that the radio has not answered by "kyd".  When it
    returns, every block has been written and acknowledged, and the radio's
    last answer starts with "Checksum". *)
Theorem firmware_upload_protocol (p : port) (data : list Z) :
  0 < len data <= 65536 * 2048 ->
  exists count k,
    len count = 2
    /\ from_bytes (rev count) = len (blocks_of (pad_to_blocks data)) - 1
    /\ written (snd (uploadFirmware p data))
       = written p ++ erase_command ++ [count]
         ++ firstn k (blocks_of (pad_to_blocks data))
    /\ ((0 < k)%nat -> decode_ascii (nth 1 (replies p) []) = Ok "Erase ok")
    /\ (forall j, (S j < k)%nat ->
          decode_ascii (nth (2 + j) (replies p) []) = Ok "kyd")
    /\ (fst (uploadFirmware p data) = Returned tt ->
        k = List.length (blocks_of (pad_to_blocks data))
        /\ decode_ascii (nth 1 (replies p) []) = Ok "Erase ok"
        /\ (forall j, (j < k)%nat ->
              decode_ascii (nth (2 + j) (replies p) []) = Ok "kyd")
        /\ decode_ascii (slice (nth (2 + k) (replies p) []) 0 8) = Ok "Checksum").
Proof.
  intros Hlen.
  destruct (pad_to_blocks_spec data) as (Hm & Hl & _).
  destruct (blocks_of_spec (pad_to_blocks data) Hm) as (_ & Hn & _).
  pose proof (firmware_count data Hlen) as Hcount.
  unfold uploadFirmware, to_bytes_big. cbv zeta.
  rewrite to_bytes_ok by (exact Hcount || lia). cbn [bind].
  set (n := len (pad_to_blocks data) / 2048) in *.
  change (Z.to_nat 2) with 2%nat.
  set (count := rev (le_bytes 2 (n - 1))).
  exists count.
  assert (Hc2 : len count = 2)
    by (subst count; unfold len; now rewrite length_rev, le_bytes_length).
  assert (Hcv : from_bytes (rev count) = len (blocks_of (pad_to_blocks data)) - 1)
    by (subst count; rewrite Hn; now apply from_bytes_two).
  rewrite !port_read_spec. unfold port_write. cbn [replies written].
  set (q0 := {| replies := tl (tl (replies p));
                written := ((written p ++ [literal "Erase"])
                            ++ [[0x20; 0x20; 0x20; 0x20; 0x20; 0x20; 0x00; 0x00;
                                 0x00; 0x00; 0x00; 0x00]]) ++ [count] |}).
  assert (Hw0 : written q0 = written p ++ erase_command ++ [count])
    by (subst q0; cbn [written]; unfold erase_command; now rewrite <- !app_assoc).
  assert (Hh : hd [] (tl (replies p)) = nth 1 (replies p) [])
    by (rewrite hd_nth; apply nth_tl).
  rewrite Hh.
  assert (Hstop : forall e,
             e <> Returned tt ->
             exists k,
               len count = 2
               /\ from_bytes (rev count) = len (blocks_of (pad_to_blocks data)) - 1
               /\ written (snd (e, q0))
                  = written p ++ erase_command ++ [count]
                    ++ firstn k (blocks_of (pad_to_blocks data))
               /\ ((0 < k)%nat -> decode_ascii (nth 1 (replies p) []) = Ok "Erase ok")
               /\ (forall j, (S j < k)%nat ->
                     decode_ascii (nth (2 + j) (replies p) []) = Ok "kyd")
               /\ (fst (e, q0) = Returned tt ->
                   k = List.length (blocks_of (pad_to_blocks data))
                   /\ decode_ascii (nth 1 (replies p) []) = Ok "Erase ok"
                   /\ (forall j, (j < k)%nat ->
                         decode_ascii (nth (2 + j) (replies p) []) = Ok "kyd")
                   /\ decode_ascii (slice (nth (2 + k) (replies p) []) 0 8)
                      = Ok "Checksum")).
  { intros e He. exists 0%nat. cbn [fst snd firstn]. rewrite !app_nil_r.
    split; [exact Hc2|]. split; [exact Hcv|]. split; [exact Hw0|].
    split; [intros H; lia|]. split; [intros j H; lia|].
    intros H. contradiction. }
  destruct (len (nth 1 (replies p) []) <=? 1); [apply Hstop; discriminate|].
  destruct (decode_ascii (nth 1 (replies p) [])) as [s|e] eqn:Ed;
    [|apply Hstop; discriminate].
  destruct (String.eqb s "Erase ok") eqn:Es; cbn [negb];
    [|apply Hstop; discriminate].
  apply String.eqb_eq in Es. subst s.
  destruct (firmware_blocks_sent (pad_to_blocks data) (range n) q0)
    as (k & Hk & Hw & Hack & Hret & _).
  assert (Hnth : forall j, nth j (replies q0) [] = nth (2 + j) (replies p) [])
    by (intros j; subst q0; cbn [replies]; now rewrite !nth_tl).
  assert (Hprefix : forall q,
             written q = written (snd (firmware_blocks (pad_to_blocks data) (range n) q0)) ->
             written q
             = written p ++ erase_command ++ [count]
               ++ firstn k (blocks_of (pad_to_blocks data))).
  { intros q Hq. rewrite Hq, Hw, Hw0, <- !app_assoc. unfold blocks_of.
    fold n. now rewrite firstn_map. }
  destruct (firmware_blocks (pad_to_blocks data) (range n) q0) as [e q] eqn:Eb.
  cbn [snd] in Hw, Hprefix.
  destruct e as [[]|c|e].
  - destruct (Hret q eq_refl) as (Hkn & Hall & Hrep).
    rewrite port_read_spec.
    assert (Hlast : hd [] (replies q) = nth (2 + k) (replies p) []).
    { rewrite Hrep, hd_nth, <- Hnth. clear. generalize (replies q0).
      induction k as [|k IH]; intros l; [reflexivity|].
      destruct l as [|x l]; [now destruct k|]. apply IH. }
    rewrite Hlast.
    exists k. split; [exact Hc2|]. split; [exact Hcv|].
    pose proof (Hprefix q eq_refl) as Hwr.
    assert (Hkb : k = List.length (blocks_of (pad_to_blocks data))).
    { rewrite Hkn. unfold blocks_of. fold n. now rewrite length_map. }
    destruct (decode_ascii (slice (nth (2 + k) (replies p) []) 0 8)) as [s|e] eqn:Ec.
    + destruct (String.eqb s "Checksum") eqn:Es.
      * apply String.eqb_eq in Es. subst s.
        split; [exact Hwr|]. split; [intros _; reflexivity|].
        split; [intros j Hj; rewrite <- Hnth; apply Hack; exact Hj|].
        intros _. split; [exact Hkb|]. split; [reflexivity|].
        split; [intros j Hj; rewrite <- Hnth; apply Hall; exact Hj|reflexivity].
      * split; [exact Hwr|]. split; [intros _; reflexivity|].
        split; [intros j Hj; rewrite <- Hnth; apply Hack; exact Hj|].
        intros H. discriminate H.
    + split; [exact Hwr|]. split; [intros _; reflexivity|].
      split; [intros j Hj; rewrite <- Hnth; apply Hack; exact Hj|].
      intros H. discriminate H.
  - exists k. split; [exact Hc2|]. split; [exact Hcv|].
    split; [exact (Hprefix q eq_refl)|]. split; [intros _; reflexivity|].
    split; [intros j Hj; rewrite <- Hnth; apply Hack; exact Hj|].
    intros H. discriminate H.
  - exists k. split; [exact Hc2|]. split; [exact Hcv|].
    split; [exact (Hprefix q eq_refl)|]. split; [intros _; reflexivity|].
    split; [intros j Hj; rewrite <- Hnth; apply Hack; exact Hj|].
    intros H. discriminate H.
Qed.

Lemma firmware_upload_protocol_witness :
  exists count k,
    from_bytes (rev count) = len (blocks_of (pad_to_blocks (bytearray 5000))) - 1
    /\ written (snd (uploadFirmware {| replies := []; written := [] |}
                       (bytearray 5000)))
       = erase_command ++ [count]
         ++ firstn k (blocks_of (pad_to_blocks (bytearray 5000))).
Proof.
  destruct (firmware_upload_protocol {| replies := []; written := [] |}
              (bytearray 5000))
    as (count & k & _ & Hc & Hw & _).
  - rewrite len_bytearray; lia.
  - exists count, k. split; [exact Hc|exact Hw].
Defined.

(** An empty firmware file, or one of more than 128 MiB, makes
    [uploadFirmware] write the erase command without the block count that
    completes it, read nothing, and die with [OverflowError]. *)
Theorem firmware_size_limits (p : port) (data : list Z) :
  len data = 0 \/ 65536 * 2048 < len data ->
  uploadFirmware p data
  = (Raised OverflowError,
     {| replies := replies p; written := written p ++ erase_command |}).
Proof.
  intros Hlen.
  destruct (pad_to_blocks_spec data) as (Hm & Hl & _).
  assert (Hout : (0 <=? len (pad_to_blocks data) / 2048 - 1)
                 && (len (pad_to_blocks data) / 2048 - 1 <? 256 ^ 2) = false).
  { change (256 ^ 2) with 65536. apply andb_false_iff.
    destruct Hlen as [H0|Hbig].
    - left. apply Z.leb_gt. Z.div_mod_to_equations. lia.
    - right. apply Z.ltb_ge. Z.div_mod_to_equations. lia. }
  unfold uploadFirmware, to_bytes_big, to_bytes. cbv zeta. rewrite Hout.
  cbn [bind]. unfold port_write, erase_command. cbn [replies written].
  now rewrite <- app_assoc.
Qed.

Lemma firmware_size_limits_witness :
  fst (uploadFirmware {| replies := []; written := [] |} []) = Raised OverflowError.
Proof.
  rewrite (firmware_size_limits {| replies := []; written := [] |} []);
    [reflexivity|left; reflexivity].
Defined.
(** *** Upload of ham contacts and ham groups *)

Lemma ham_blocks_exit (data : list Z) (indices : list Z) :
  forall (p : port) (c : Z),
    fst (ham_blocks data indices p) = Exited c -> c = 2.
Proof.
  induction indices as [|i rest IH]; intros p c; cbn [ham_blocks].
  - intros H. discriminate H.
  - cbv zeta.
    destruct (port_read _) as [bytes q].
    destruct (decode_ascii (slice bytes 0 6)) as [s|e]; [|intros H; discriminate H].
    destruct (String.eqb s "Write"); [apply IH|].
    destruct (String.eqb s "Check"); [apply IH|].
    cbn [fst]. intros H. congruence.
Qed.

Lemma ham_transfer_exit (p : port) (writecommand data : list Z) (block_count c : Z) :
  fst (ham_transfer p writecommand data block_count) = Exited c -> c = 1 \/ c = 2.
Proof.
  unfold ham_transfer. cbv zeta.
  destruct (port_read _) as [bytes q].
  destruct (len bytes <=? 1); [cbn [fst]; intros H; left; congruence|].
  destruct (decode_ascii (slice bytes 2 7)) as [s|e]; [|intros H; discriminate H].
  destruct (String.eqb s "Write").
  - intros H. right. exact (ham_blocks_exit _ _ _ _ H).
  - cbn [fst]. intros H. right. congruence.
Qed.

Lemma len_concat_fixed {A B} (f : A -> list B) (c : Z) (l : list A) :
  (forall x, len (f x) = c) -> len (List.concat (map f l)) = c * len l.
Proof.
  intros Hf. induction l as [|x l IH]; [cbn; lia|].
  cbn [map List.concat]. unfold len in *. rewrite length_app, Nat2Z.inj_add, IH.
  rewrite (Hf x). cbn [List.length]. lia.
Qed.

Lemma length_removelast_cons {A} (x : A) (l : list A) :
  List.length (removelast (x :: l)) = List.length l.
Proof.
  revert x. induction l as [|y l IH]; intros x; [reflexivity|].
  change (removelast (x :: y :: l)) with (x :: removelast (y :: l)).
  cbn [List.length]. now rewrite IH.
Qed.

Lemma last_repeat {A} (x : A) (n : nat) : last (repeat x n) x = x.
Proof.
  induction n as [|n IH]; [reflexivity|].
  cbn [repeat]. now rewrite last_cons.
Qed.

(** The length of the packed records before the padding to whole blocks,
    when the last text fits its record. *)
Lemma pack_ham_contacts_length (contactbytes : Z) (row : Z * list Z)
    (rows : list (Z * list Z)) :
  3 < contactbytes ->
  Forall (fun row => 0 <= fst row < 256 ^ 3) (row :: rows) ->
  len (snd (last rows row)) <= contactbytes - 3 ->
  exists body,
    pack_ham_contacts contactbytes (row :: rows) = Ok (pad_to_blocks body)
    /\ len body = contactbytes * len (row :: rows).
Proof.
  intros Hcb Hok Hlast. unfold pack_ham_contacts.
  rewrite (pack_ham_loop contactbytes rows Hcb row 0 (bytearray contactbytes) Hok);
    [|lia|rewrite len_bytearray; lia].
  cbn [bind]. rewrite Z.mul_0_r. cbn [Z.to_nat firstn app].
  eexists. split; [reflexivity|].
  assert (Hrec : len (ham_record contactbytes (last rows row)) = contactbytes).
  { unfold ham_record, len in *.
    rewrite !length_app, le_bytes_length, repeat_length. lia. }
  assert (Hcut : forall r, len (firstn (Z.to_nat contactbytes)
                                  (ham_record contactbytes r)) = contactbytes).
  { intros r. pose proof (ham_record_length contactbytes r) as H.
    unfold len in *. rewrite length_firstn. lia. }
  pose proof (len_concat_fixed
                (fun r => firstn (Z.to_nat contactbytes) (ham_record contactbytes r))
                contactbytes (removelast (row :: rows)) Hcut) as Hc.
  unfold len in *. rewrite length_app, Nat2Z.inj_add, Hc, Hrec.
  rewrite length_removelast_cons. cbn [List.length]. lia.
Qed.

Lemma block_count_over (body : list Z) (limit : Z) :
  0 <= limit ->
  (len (pad_to_blocks body) / 2048 >? limit) = true <-> limit * 2048 < len body.
Proof.
  intros Hlim. destruct (pad_to_blocks_spec body) as (Hm & Hl & _).
  rewrite Z.gtb_ltb, Z.ltb_lt. Z.div_mod_to_equations. lia.
Qed.

(** [uploadHamContacts], for rows with IDs below 2^24 whose last text fits
    its record, leaves with exit code 7 exactly when the records take more
    than 0x493E blocks of 2048 bytes, and then it has neither written to the
    port nor read from it.  With records of 128 bytes that is more than
    300,000 contacts, the limit its message gives; with records of 16 bytes
    it is more than 2,400,000. *)
Theorem ham_contacts_capacity (p : port) (contactbytes : Z) (row : Z * list Z)
    (rows : list (Z * list Z)) :
  3 < contactbytes ->
  Forall (fun row => 0 <= fst row < 256 ^ 3) (row :: rows) ->
  len (snd (last rows row)) <= contactbytes - 3 ->
  (fst (uploadHamContacts p contactbytes (row :: rows)) = Exited 7
   <-> 0x493E * 2048 < contactbytes * len (row :: rows))
  /\ (0x493E * 2048 < contactbytes * len (row :: rows) ->
      snd (uploadHamContacts p contactbytes (row :: rows)) = p)
  /\ (contactbytes = 128 ->
      (fst (uploadHamContacts p contactbytes (row :: rows)) = Exited 7
       <-> 300000 < len (row :: rows)))
  /\ (contactbytes = 16 ->
      (fst (uploadHamContacts p contactbytes (row :: rows)) = Exited 7
       <-> 2400000 < len (row :: rows))).
Proof.
  intros Hcb Hok Hlast.
  destruct (pack_ham_contacts_length contactbytes row rows Hcb Hok Hlast)
    as (body & Hpack & Hbody).
  assert (Hmain : (fst (uploadHamContacts p contactbytes (row :: rows)) = Exited 7
                   <-> 0x493E * 2048 < contactbytes * len (row :: rows))
                  /\ (0x493E * 2048 < contactbytes * len (row :: rows) ->
                      snd (uploadHamContacts p contactbytes (row :: rows)) = p)).
  { unfold uploadHamContacts. rewrite Hpack. cbv zeta.
    pose proof (block_count_over body 0x493E ltac:(lia)) as Hb.
    rewrite Hbody in Hb.
    destruct (len (pad_to_blocks body) / 2048 >? 0x493E) eqn:E.
    - split; [split; [intros _; now apply Hb|reflexivity]|reflexivity].
    - assert (Hn : ~ 0x493E * 2048 < contactbytes * len (row :: rows))
        by (intros H; apply Hb in H; discriminate H).
      split; [|intros H; contradiction].
      split; [|intros H; contradiction].
      intros H. exfalso.
      destruct (_ <- to_bytes_big _ 2 ;; _) as [writecommand|];
        [|discriminate H].
      apply ham_transfer_exit in H. lia. }
  destruct Hmain as (Hseven & Hport).
  split; [exact Hseven|]. split; [exact Hport|].
  split; intros ->; rewrite Hseven; lia.
Qed.

Lemma ham_contacts_capacity_witness :
  fst (uploadHamContacts {| replies := []; written := [] |} 16
         ((2340001, literal "G4ABC,John")
          :: repeat (2340001, literal "G4ABC,John") (Z.to_nat 2400000)))
  = Exited 7.
Proof.
  destruct (ham_contacts_capacity {| replies := []; written := [] |} 16
              (2340001, literal "G4ABC,John")
              (repeat (2340001, literal "G4ABC,John") (Z.to_nat 2400000)))
    as (_ & _ & _ & H16).
  - lia.
  - apply Forall_forall. intros r [<-|Hr]; [|apply repeat_spec in Hr; subst r];
      vm_compute; split; congruence.
  - rewrite last_repeat. vm_compute. discriminate.
  - apply (H16 eq_refl). unfold len. cbn [List.length].
    rewrite repeat_length. lia.
Defined.

(** [uploadHamGroups], for rows with IDs below 2^24 whose last name fits its
    record, leaves with exit code 8 exactly when there are more than 30,080
    groups, 80 more than the limit its message gives, and then it has neither
    written to the port nor read from it. *)
Theorem ham_groups_capacity (p : port) (row : Z * list Z)
    (rows : list (Z * list Z)) :
  Forall (fun row => 0 <= fst row < 256 ^ 3) (row :: rows) ->
  len (snd (last rows row)) <= 13 ->
  (fst (uploadHamGroups p (row :: rows)) = Exited 8 <-> 30080 < len (row :: rows))
  /\ (30080 < len (row :: rows) -> snd (uploadHamGroups p (row :: rows)) = p).
Proof.
  intros Hok Hlast.
  destruct (pack_ham_contacts_length 16 row rows ltac:(lia) Hok ltac:(lia))
    as (body & Hpack & Hbody).
  unfold uploadHamGroups. rewrite Hpack. cbv zeta.
  pose proof (block_count_over body 0xEB ltac:(lia)) as Hb.
  rewrite Hbody in Hb.
  destruct (len (pad_to_blocks body) / 2048 >? 0xEB) eqn:E.
  - assert (30080 < len (row :: rows)) by (apply proj1 in Hb; specialize (Hb eq_refl); lia).
    split; [split; [intros _; assumption|reflexivity]|reflexivity].
  - assert (Hn : ~ 30080 < len (row :: rows)).
    { intros H. assert (H' : 0xEB * 2048 < 16 * len (row :: rows)) by lia.
      apply Hb in H'. discriminate H'. }
    split; [|intros H; contradiction].
    split; [|intros H; contradiction].
    intros H. exfalso.
    destruct (_ <- to_bytes_big _ 2 ;; _) as [writecommand|];
      [|discriminate H].
    apply ham_transfer_exit in H. lia.
Qed.

Lemma ham_groups_capacity_witness :
  fst (uploadHamGroups {| replies := []; written := [] |}
         ((91, literal "World-wide")
          :: repeat (91, literal "World-wide") (Z.to_nat 30080)))
  = Exited 8.
Proof.
  destruct (ham_groups_capacity {| replies := []; written := [] |}
              (91, literal "World-wide")
              (repeat (91, literal "World-wide") (Z.to_nat 30080)))
    as (H8 & _).
  - apply Forall_forall. intros r [<-|Hr]; [|apply repeat_spec in Hr; subst r];
      vm_compute; split; congruence.
  - rewrite last_repeat. vm_compute. discriminate.
  - apply H8. unfold len. cbn [List.length]. rewrite repeat_length. lia.
Defined.

(** *** Where the two loops put a quick message *)




